(** * Referral attribution and reward settlement: a shallow embedding

    The services of the referral application (settings, referrers, codes,
    referrals, rewards, refunds, discounts) and the [orders/paid] webhook,
    embedded as functions over an explicit world: the database tables, the
    clock, the identifier and random supplies, the console, and the answers
    of the commerce platform.

    Conventions.
    - A JavaScript [number] is an IEEE 754 binary64 value ([spec_float] with
      precision 53 and maximal exponent 1024); integer columns are [Z], and
      a write of an integer that an [INTEGER] column cannot hold is rejected.
    - A text is the sequence of the bytes of its UTF-8 encoding.
    - A stored date is its number of milliseconds since the epoch. A [Date]
      that the code computes is a [JsDate]: it is invalid when its time
      leaves the range of dates, and the client rejects an invalid one.
    - A nullable column, and a parameter of type [T | null | undefined] that
      the code only tests with [??], [?.] or truthiness, is an [option];
      where the code compares with [!==] the three cases are kept apart
      ([jsopt]).
    - A table is the list of its rows in insertion order. A write to the
      database fails on a unique index, on a foreign key, on a missing row,
      on an integer beyond its column, or on an invalid date.
    - [await] is sequencing; the three reads of [Promise.all] in
      [processRewardRefund] touch disjoint parts of the world and are run in
      the order they are listed.
    - An [Error] thrown with a fixed message is a constructor of [Failure];
      the message of the ceiling error carries the remaining amount and the
      currency, which the constructor keeps as they are.
    - The application serves one shop: the [shopDomain] that the services
      pass along to [callAdminGraphql] is left out.
    - The file is laid out in two parts: the embedding with the vocabulary
      of the properties, then the properties with their proofs. *)

From Stdlib Require Import ZArith List String Ascii Bool Lia.
From Stdlib Require Import Floats.SpecFloat.
From Stdlib Require Import DecimalString.
Import ListNotations.

Open Scope string_scope.
Open Scope Z_scope.

(** ** Numbers *)

Module Num.

Definition number := spec_float.

Definition prec : Z := 53.
Definition emax : Z := 1024.

Definition add : number -> number -> number := SFadd prec emax.
Definition sub : number -> number -> number := SFsub prec emax.
Definition mul : number -> number -> number := SFmul prec emax.
Definition div : number -> number -> number := SFdiv prec emax.

  (** [a > b] *)
Definition gt (a b : number) : bool := SFltb b a.

Definition ofZ (z : Z) : number := binary_normalize prec emax z 0 false.

Definition zero : number := S754_zero false.

  (** Truthiness of a number: [0], [-0] and [NaN] are falsy. *)
Definition truthy (x : number) : bool :=
    match x with
    | S754_zero _ | S754_nan => false
    | _ => true
    end.

  (** [Math.max(a, b)]: [NaN] if either is; [+0] is larger than [-0]. *)
Definition max (a b : number) : number :=
    match a, b with
    | S754_nan, _ | _, S754_nan => S754_nan
    | S754_zero sa, S754_zero sb => S754_zero (sa && sb)
    | _, _ => if SFltb a b then b else a
    end.

  (** A decimal literal [m / 10^k], correctly rounded when numerator and
      denominator are exact. *)
Definition dec (m : Z) (k : nat) : number :=
    div (ofZ m) (ofZ (10 ^ Z.of_nat k)).

End Num.

Abbreviation number := Num.number.

(** ** Strings *)

Definition str_truthy (s : string) : bool :=
  negb (String.eqb s "").

(** Truthiness of [string | null | undefined]. *)
Definition opt_truthy (o : option string) : bool :=
  match o with
  | Some s => str_truthy s
  | None => false
  end.

(** [a ?? b] *)
Definition orElse {A} (a b : option A) : option A :=
  match a with
  | Some _ => a
  | None => b
  end.

(** [a ?? d] with a default that is not nullable. *)
Definition orDefault {A} (a : option A) (d : A) : A :=
  match a with
  | Some x => x
  | None => d
  end.

Definition opt_eqb {A} (eqb : A -> A -> bool) (a b : option A) : bool :=
  match a, b with
  | Some x, Some y => eqb x y
  | None, None => true
  | _, _ => false
  end.

Definition lower_ascii (c : ascii) : ascii :=
  let n := nat_of_ascii c in
  if (Nat.leb 65 n && Nat.leb n 90)%bool then ascii_of_nat (n + 32) else c.

(** [toLowerCase] on ASCII text. *)
Fixpoint toLowerCase (s : string) : string :=
  match s with
  | EmptyString => EmptyString
  | String c t => String (lower_ascii c) (toLowerCase t)
  end.

(** [hay.includes(needle)] *)
Fixpoint includes (hay needle : string) : bool :=
  (String.prefix needle hay ||
   match hay with
   | EmptyString => false
   | String _ t => includes t needle
   end)%bool.

(** [gid.split("/")] *)
Fixpoint split_slash (s : string) (cur : string) : list string :=
  match s with
  | EmptyString => [cur]
  | String c t =>
      if Ascii.eqb c "/"%char then cur :: split_slash t ""
      else split_slash t (cur ++ String c "")
  end.

(** [segments[segments.length - 1] || gid] *)
Definition extractNumericId (gid : string) : string :=
  let segments := split_slash gid "" in
  let last_segment := List.last segments "" in
  if str_truthy last_segment then last_segment else gid.

(** [String.prototype.trim] strips the white space and the line
    terminators of the language: U+0009 to U+000D, U+0020, U+00A0, U+1680,
    U+2000 to U+200A, U+2028, U+2029, U+202F, U+205F, U+3000 and U+FEFF.
    In UTF-8 these are one, two or three bytes long. *)
Definition space1 (a : ascii) : bool :=
  let n := nat_of_ascii a in
  (Nat.eqb n 32 || (Nat.leb 9 n && Nat.leb n 13))%bool.

Definition space2 (a b : ascii) : bool :=
  (Nat.eqb (nat_of_ascii a) 194 && Nat.eqb (nat_of_ascii b) 160)%bool.

Definition space3 (a b c : ascii) : bool :=
  let x := nat_of_ascii a in
  let y := nat_of_ascii b in
  let z := nat_of_ascii c in
  ((Nat.eqb x 225 && Nat.eqb y 154 && Nat.eqb z 128)
   || (Nat.eqb x 226 && Nat.eqb y 128
       && ((Nat.leb 128 z && Nat.leb z 138)
           || Nat.eqb z 168 || Nat.eqb z 169 || Nat.eqb z 175))
   || (Nat.eqb x 226 && Nat.eqb y 129 && Nat.eqb z 159)
   || (Nat.eqb x 227 && Nat.eqb y 128 && Nat.eqb z 128)
   || (Nat.eqb x 239 && Nat.eqb y 187 && Nat.eqb z 191))%bool.

Section Strip.

Variable s1 : ascii -> bool.
Variable s2 : ascii -> ascii -> bool.
Variable s3 : ascii -> ascii -> ascii -> bool.

(** The text without the characters of the three classes it starts with. *)
Fixpoint strip (s : string) : string :=
  match s with
  | String a t =>
      if s1 a then strip t
      else match t with
           | String b t' =>
               if s2 a b then strip t'
               else match t' with
                    | String c t'' => if s3 a b c then strip t'' else s
                    | EmptyString => s
                    end
           | EmptyString => s
           end
  | EmptyString => EmptyString
  end.

(** The encoding of one character of the three classes. *)
Inductive SpaceOf : string -> Prop :=
| Space1 a : s1 a = true -> SpaceOf (String a "")
| Space2 a b : s2 a b = true -> SpaceOf (String a (String b ""))
| Space3 a b c : s3 a b c = true -> SpaceOf (String a (String b (String c ""))).

(** A text made of such characters only; the empty text is one. *)
Inductive BlankOf : string -> Prop :=
| Blank_nil : BlankOf ""
| Blank_cons sp rest : SpaceOf sp -> BlankOf rest -> BlankOf (sp ++ rest).

(** A text that starts with no such character. *)
Definition noStart (s : string) : Prop :=
  forall sp rest, SpaceOf sp -> s <> sp ++ rest.

End Strip.

Fixpoint rev_string (s : string) : string :=
  match s with
  | EmptyString => EmptyString
  | String c t => rev_string t ++ String c EmptyString
  end.

Definition trim_start (s : string) : string := strip space1 space2 space3 s.

(** From the end, the bytes of a character come in the opposite order. *)
Definition trim_end (s : string) : string :=
  rev_string
    (strip space1 (fun a b => space2 b a) (fun a b c => space3 c b a) (rev_string s)).

(** [s.trim()] *)
Definition trim (s : string) : string := trim_end (trim_start s).

(** ** Three-valued optional fields of a JSON payload *)

Inductive jsopt (A : Type) : Type :=
| Undefined
| Null
| Val (a : A).
Arguments Undefined {A}.
Arguments Null {A}.
Arguments Val {A} a.

(** [x ?? ...] sees [null] and [undefined] alike. *)
Definition nullish {A} (x : jsopt A) : option A :=
  match x with
  | Val a => Some a
  | _ => None
  end.

(** [stored !== incoming], where the stored side is never [undefined]. *)
Definition strict_neq (stored : option string) (incoming : jsopt string) : bool :=
  match stored, incoming with
  | Some a, Val b => negb (String.eqb a b)
  | None, Null => false
  | _, _ => true
  end.

(** ** Data model (the Prisma models) *)

Inductive RewardStatus := PENDING | PAID | FAILED.

Definition RewardStatus_eqb (a b : RewardStatus) : bool :=
  match a, b with
  | PENDING, PENDING | PAID, PAID | FAILED, FAILED => true
  | _, _ => false
  end.

Module Referrer.
Record t := mk {
    id : string;
    shopifyCustomerId : string;
    email : option string;
    firstName : option string;
    lastName : option string;
    createdAt : Z;
    updatedAt : Z
  }.
End Referrer.

Module Code.
Record t := mk {
    id : string;
    code : string;
    referrerId : string;
    shopifyDiscountId : option string;
    usageCount : Z;
    maxUsage : Z;
    active : bool;
    createdAt : Z;
    updatedAt : Z;
    expiresAt : option Z;
    originOrderId : option string;
    originOrderGid : option string;
    workshopProductId : option string;
    workshopProductTitle : option string;
    workshopQuantity : Z;
    discountSnapshot : option number;
    cashbackSnapshot : option number
  }.
End Code.

Module Referral.
Record t := mk {
    id : string;
    referrerId : string;
    codeId : option string;
    refereeShopifyCustomerId : option string;
    refereeEmail : option string;
    refereeFirstName : option string;
    refereeLastName : option string;
    orderId : option string;
    workshopProductId : option string;
    workshopProductTitle : option string;
    createdAt : Z
  }.
End Referral.

Module Reward.
Record t := mk {
    id : string;
    referrerId : string;
    referralId : option string;
    amount : number;
    currency : string;
    status : RewardStatus;
    notes : option string;
    workshopProductId : option string;
    workshopProductTitle : option string;
    createdAt : Z;
    updatedAt : Z;
    paidAt : option Z
  }.
End Reward.

(** The [AppSetting] row. The [customerSegmentIds] column holds the JSON text
    of an array of strings; it is kept as the array it encodes, on which
    [parseSegmentIds] after [serializeSegmentIds] is the identity. *)
Module AppSetting.
Record t := mk {
    discountPercentage : number;
    cashbackAmount : number;
    codeValidityDays : Z;
    appliesOncePerCustomer : bool;
    maxUsagePerCode : Z;
    maxRefundPercentage : option number;
    customerSegmentIds : option (list string);
    createdAt : Z;
    updatedAt : Z
  }.
End AppSetting.

Inductive EmailTemplateType :=
| CODE_PROMO | CASHBACK_CONFIRMATION | MANUAL_REFERRER_WELCOME.

Inductive EmailStatus := EMAIL_PENDING | EMAIL_SENT | EMAIL_FAILED.

(** The columns of [EmailLog] that identify a message; subjects and bodies
    come from templates, which are not part of the settlement core. *)
Module EmailLog.
Record t := mk {
    id : string;
    codeId : option string;
    referrerId : string;
    templateType : EmailTemplateType;
    recipientEmail : string;
    status : EmailStatus
  }.
End EmailLog.

Record Db := mkDb {
  referrers : list Referrer.t;
  codes : list Code.t;
  referrals : list Referral.t;
  rewards : list Reward.t;
  appSetting : option AppSetting.t;
  emailLogs : list EmailLog.t
}.

(** ** The commerce platform, as seen through [callAdminGraphql] *)

(** A node of the order's transaction list; every field is optional in the
    response type. *)
Record Transaction := mkTransaction {
  tx_id : option string;
  tx_kind : option string;
  tx_status : option string
}.

Record UserError := mkUserError { message : option string }.

(** The answer to one [refundCreate] mutation. *)
Inductive RefundReply :=
| CallThrows                                  (* HTTP status not ok, no session *)
| GraphqlErrors                               (* [response.errors] is not empty *)
| NoPayload                                   (* [response.data?.refundCreate] is absent *)
| Payload (userErrors : list UserError) (refund : string).

(** The transaction of a refund input: the parent transaction, or the
    gateway of the fallback. *)
Inductive RefundTarget :=
| ParentTransaction (parentId : string)
| Gateway (gateway : string).

Record RefundVariables := mkRefundVariables {
  rv_note : string;
  rv_orderId : string;
  rv_amount : number;           (* rendered with [toFixed(2)] on the wire *)
  rv_target : RefundTarget
}.

(** A line item of the REST order; [li_product_id] is [None] when
    [product_id] is falsy, the other identifiers are kept in their [String]
    rendering. *)
Record LineItem := mkLineItem {
  li_product_id : option string;
  li_variant_id : string;
  li_title : option string;
  li_name : option string;
  li_quantity : option Z
}.

Record DiscountCreateResult := mkDiscount {
  discountId : string;
  createdCode : string
}.

Inductive DiscountUpdateReply :=
| UpdateThrows
| UpdateUserErrors
| UpdateNode (node_id : option string) (node_code : option string).

Record Shopify := mkShopify {
  (** [GetOrderTotal]: [None] when the call throws, else the [amount] field. *)
  orderTotal : string -> option (option string);
  (** [GetOrderTransactions]: [None] when the call throws, else the edges'
      nodes. *)
  orderTransactions : string -> option (list (option Transaction));
  (** [fetchOrderById]: [None] when it throws, else the line items. *)
  orderDetails : string -> option (list LineItem);
  (** The answer to the n-th [refundCreate] mutation. *)
  refundReply : nat -> RefundReply;
  discountUpdate : string -> DiscountUpdateReply;
  discountCreate : string -> option DiscountCreateResult
}.

Inductive Mailer := NoApiKey | Delivers | Bounces.

(** Lines written to the console that the settlement core is specified by. *)
Inductive LogLine :=
| WarnStoreCreditFallback (orderGid : string)
| LogRefundOverride (orderGid rewardId : string)
| LogRefundOrigin (orderGid rewardId : string)
| LogRetry (waitTime : Z) (attempt : nat)
| LogRefundAfterRetries (attempts : nat)
| ErrTransactions
| ErrOrderTotal
| ErrCashbackEmail (rewardId : string)
| ErrPromoEmail
| WarnNoEmail (referrerId : string)
| WarnIncompleteWebhook
| WarnOrderDetails
| LogCodeCreated (code : string)
| LogCodeReused (code orderId : string)
| LogDiscountSynced (code : string)
| WarnUnknownCode (code : string)
| LogDuplicateReferral (orderId : string)
| WarnNoOriginOrder (code : string)
| ErrDiscountUpdate
| ErrDiscountCreate
| ErrWebhook.

Record World := mkWorld {
  db : Db;
  clock : Z;
  idNext : nat;
  idGen : nat -> string;          (* default identifiers of new rows *)
  rngNext : nat;
  rng : nat -> N;                 (* the draws of [Math.random] *)
  shopify : Shopify;
  refundCalls : list RefundVariables;
  refundGateway : option string;  (* [process.env.SHOPIFY_REFUND_GATEWAY] *)
  mailer : Mailer;
  console : list LogLine
}.

(** ** Errors and the monad of effects *)

Inductive Failure :=
| RewardNotFound
| InvalidState
| NoOrderAvailable
| RefundCeilingExceeded (refundLeft : number) (currency : string)
| AdminCallFailed
| RefundGraphqlErrors
| RefundUnexpectedResponse
| RefundUserErrors (userErrors : list UserError)
| RefundRetriesExhausted
| CodeGenerationExhausted
| RecordNotFound
| UniqueConstraint
| ForeignKeyConstraint
| ValueOutOfRange
| InvalidValue
| TypeError
| MailDeliveryFailed.

Inductive Outcome (A : Type) : Type :=
| Returned (a : A)
| Thrown (e : Failure).
Arguments Returned {A} a.
Arguments Thrown {A} e.

Definition M (A : Type) : Type := World -> World * Outcome A.

Definition ret {A} (a : A) : M A := fun w => (w, Returned a).

Definition throw {A} (e : Failure) : M A := fun w => (w, Thrown e).

Definition bind {A B} (m : M A) (k : A -> M B) : M B :=
  fun w =>
    match m w with
    | (w', Returned a) => k a w'
    | (w', Thrown e) => (w', Thrown e)
    end.

(** [try { m } catch (error) { h }]: the writes made before the throw stay. *)
Definition try_catch {A} (m : M A) (h : Failure -> M A) : M A :=
  fun w =>
    match m w with
    | (w', Returned a) => (w', Returned a)
    | (w', Thrown e) => h e w'
    end.

Definition gets {A} (f : World -> A) : M A := fun w => (w, Returned (f w)).

Definition modify (f : World -> World) : M unit := fun w => (f w, Returned tt).

Notation "x <- m ;; k" := (bind m (fun x => k))
  (at level 61, m at next level, right associativity).
Notation "m ;;; k" := (bind m (fun _ => k))
  (at level 61, right associativity).

Definition set_db (d : Db) (w : World) : World :=
  mkWorld d (clock w) (idNext w) (idGen w) (rngNext w) (rng w) (shopify w)
          (refundCalls w) (refundGateway w) (mailer w) (console w).

Definition set_clock (t : Z) (w : World) : World :=
  mkWorld (db w) t (idNext w) (idGen w) (rngNext w) (rng w) (shopify w)
          (refundCalls w) (refundGateway w) (mailer w) (console w).

Definition set_idNext (n : nat) (w : World) : World :=
  mkWorld (db w) (clock w) n (idGen w) (rngNext w) (rng w) (shopify w)
          (refundCalls w) (refundGateway w) (mailer w) (console w).

Definition set_rngNext (n : nat) (w : World) : World :=
  mkWorld (db w) (clock w) (idNext w) (idGen w) n (rng w) (shopify w)
          (refundCalls w) (refundGateway w) (mailer w) (console w).

Definition set_refundCalls (l : list RefundVariables) (w : World) : World :=
  mkWorld (db w) (clock w) (idNext w) (idGen w) (rngNext w) (rng w) (shopify w)
          l (refundGateway w) (mailer w) (console w).

Definition set_console (l : list LogLine) (w : World) : World :=
  mkWorld (db w) (clock w) (idNext w) (idGen w) (rngNext w) (rng w) (shopify w)
          (refundCalls w) (refundGateway w) (mailer w) l.

Definition set_referrers (l : list Referrer.t) (d : Db) : Db :=
  mkDb l (codes d) (referrals d) (rewards d) (appSetting d) (emailLogs d).

Definition set_codes (l : list Code.t) (d : Db) : Db :=
  mkDb (referrers d) l (referrals d) (rewards d) (appSetting d) (emailLogs d).

Definition set_referrals (l : list Referral.t) (d : Db) : Db :=
  mkDb (referrers d) (codes d) l (rewards d) (appSetting d) (emailLogs d).

Definition set_rewards (l : list Reward.t) (d : Db) : Db :=
  mkDb (referrers d) (codes d) (referrals d) l (appSetting d) (emailLogs d).

Definition set_appSetting (s : option AppSetting.t) (d : Db) : Db :=
  mkDb (referrers d) (codes d) (referrals d) (rewards d) s (emailLogs d).

Definition set_emailLogs (l : list EmailLog.t) (d : Db) : Db :=
  mkDb (referrers d) (codes d) (referrals d) (rewards d) (appSetting d) l.

(** [new Date()] *)
Definition now : M Z := gets clock.

(** [await sleep(ms)] *)
Definition sleep (ms : Z) : M unit := modify (fun w => set_clock (clock w + ms) w).

Definition log (l : LogLine) : M unit :=
  modify (fun w => set_console (console w ++ [l]) w).

(** The default identifier of a new row. *)
Definition freshId : M string :=
  fun w => (set_idNext (S (idNext w)) w, Returned (idGen w (idNext w))).

(** [Math.floor(Math.random() * k)] *)
Definition randomBelow (k : N) : M N :=
  fun w => (set_rngNext (S (rngNext w)) w, Returned (N.modulo (rng w (rngNext w)) k)).

Definition readDb {A} (f : Db -> A) : M A := gets (fun w => f (db w)).

Definition writeDb (f : Db -> Db) : M unit := modify (fun w => set_db (f (db w)) w).

(** ** Table access (the Prisma client)

    Unique indexes ([Referrer.shopifyCustomerId], [Code.code],
    [Referral.orderId], [Reward.referralId]) and the foreign keys of [Code],
    [Referral] and [Reward] are checked on insertion, and the foreign keys
    of [Referral] again when the upsert rewrites a row. The database raises
    a unique violation while it inserts the row, and a foreign-key violation
    at the end of the statement. An integer of the [data] that comes from a
    parameter is checked against the range of its column before the
    statement is sent; an integer read from a row is in range, since the
    column held it. An e-mail log is written for a referrer and a code that
    the caller has just read or created. *)

(** The range of an [INTEGER] column. *)
Definition fitsInt (z : Z) : bool :=
  ((-2147483648 <=? z) && (z <=? 2147483647))%bool.

(** A foreign key: the row it names is stored. *)
Definition stored {R} (key : R -> string) (id : string) (rows : list R) : bool :=
  existsb (fun r => String.eqb (key r) id) rows.

(** A nullable foreign key. *)
Definition linked {R} (key : R -> string) (id : option string) (rows : list R) : bool :=
  match id with
  | Some i => stored key i rows
  | None => true
  end.

(** A [Date] object: its time value, or the invalid date whose time value
    is [NaN]. *)
Inductive JsDate :=
| DateAt (t : Z)
| NotADate.

Definition maxTime : Z := 8640000000000000.

(** [TimeClip] *)
Definition timeClip (t : Z) : JsDate :=
  if Z.abs t <=? maxTime then DateAt t else NotADate.

(** A nullable [Date] of the [data] of a write; the client refuses an
    invalid date, which is the [None] here. *)
Definition dateColumn (d : option JsDate) : option (option Z) :=
  match d with
  | None => Some None
  | Some (DateAt t) => Some (Some t)
  | Some NotADate => None
  end.

Fixpoint update_first {R} (p : R -> bool) (f : R -> R) (rows : list R)
  : option (R * list R) :=
  match rows with
  | [] => None
  | r :: rest =>
      if p r then Some (f r, f r :: rest)
      else match update_first p f rest with
           | Some (r', rest') => Some (r', r :: rest')
           | None => None
           end
  end.

(** A unique index admits any number of [NULL]s. *)
Definition taken {R} (col : R -> option string) (v : option string) (rows : list R) : bool :=
  match v with
  | None => false
  | Some s => existsb (fun r => opt_eqb String.eqb (col r) (Some s)) rows
  end.

(** Modelled from the spec: the schema file is not among the sources; the
    entities carry "created/updated timestamps", and the migrations declare
    [updatedAt] without a default, as for a column the client stamps on
    every write. [touch_*] is that stamp. *)
Definition touch_referrer (t : Z) (r : Referrer.t) : Referrer.t :=
  Referrer.mk (Referrer.id r) (Referrer.shopifyCustomerId r) (Referrer.email r)
    (Referrer.firstName r) (Referrer.lastName r) (Referrer.createdAt r) t.

(** Modelled from the spec: see [touch_referrer]. *)
Definition touch_code (t : Z) (c : Code.t) : Code.t :=
  Code.mk (Code.id c) (Code.code c) (Code.referrerId c) (Code.shopifyDiscountId c)
    (Code.usageCount c) (Code.maxUsage c) (Code.active c) (Code.createdAt c) t
    (Code.expiresAt c) (Code.originOrderId c) (Code.originOrderGid c)
    (Code.workshopProductId c) (Code.workshopProductTitle c)
    (Code.workshopQuantity c) (Code.discountSnapshot c) (Code.cashbackSnapshot c).

(** Modelled from the spec: see [touch_referrer]. *)
Definition touch_reward (t : Z) (r : Reward.t) : Reward.t :=
  Reward.mk (Reward.id r) (Reward.referrerId r) (Reward.referralId r)
    (Reward.amount r) (Reward.currency r) (Reward.status r) (Reward.notes r)
    (Reward.workshopProductId r) (Reward.workshopProductTitle r)
    (Reward.createdAt r) t (Reward.paidAt r).

(** [prisma.referrer.update({ where: { id }, data })] *)
Definition referrer_update (id : string) (f : Referrer.t -> Referrer.t) : M Referrer.t :=
  t <- now ;;
  rows <- readDb referrers ;;
  match update_first (fun r => String.eqb (Referrer.id r) id)
                     (fun r => touch_referrer t (f r)) rows with
  | Some (r', rows') => writeDb (set_referrers rows') ;;; ret r'
  | None => throw RecordNotFound
  end.

(** [prisma.code.update({ where: { id }, data })] *)
Definition code_update (id : string) (f : Code.t -> Code.t) : M Code.t :=
  t <- now ;;
  rows <- readDb codes ;;
  match update_first (fun c => String.eqb (Code.id c) id)
                     (fun c => touch_code t (f c)) rows with
  | Some (c', rows') => writeDb (set_codes rows') ;;; ret c'
  | None => throw RecordNotFound
  end.

(** [prisma.reward.update({ where: { id }, data })] *)
Definition reward_update (id : string) (f : Reward.t -> Reward.t) : M Reward.t :=
  t <- now ;;
  rows <- readDb rewards ;;
  match update_first (fun r => String.eqb (Reward.id r) id)
                     (fun r => touch_reward t (f r)) rows with
  | Some (r', rows') => writeDb (set_rewards rows') ;;; ret r'
  | None => throw RecordNotFound
  end.

Definition referrer_create (r : Referrer.t) : M Referrer.t :=
  rows <- readDb referrers ;;
  if taken (fun x => Some (Referrer.shopifyCustomerId x))
           (Some (Referrer.shopifyCustomerId r)) rows
  then throw UniqueConstraint
  else writeDb (set_referrers (rows ++ [r])) ;;; ret r.

(** [prisma.code.create]; [maxUsage] and [workshopQuantity] are the integers
    of its [data]. *)
Definition code_create (c : Code.t) : M Code.t :=
  rows <- readDb codes ;;
  owners <- readDb referrers ;;
  if negb (fitsInt (Code.maxUsage c) && fitsInt (Code.workshopQuantity c))
  then throw ValueOutOfRange
  else if taken (fun x => Some (Code.code x)) (Some (Code.code c)) rows
  then throw UniqueConstraint
  else if negb (stored Referrer.id (Code.referrerId c) owners)
  then throw ForeignKeyConstraint
  else writeDb (set_codes (rows ++ [c])) ;;; ret c.

(** The foreign keys of a referral: [Referral_referrerId_fkey] and
    [Referral_codeId_fkey]. *)
Definition referral_keys (r : Referral.t) (d : Db) : bool :=
  (stored Referrer.id (Referral.referrerId r) (referrers d)
   && linked Code.id (Referral.codeId r) (codes d))%bool.

Definition referral_create (r : Referral.t) : M Referral.t :=
  rows <- readDb referrals ;;
  keys <- readDb (referral_keys r) ;;
  if taken Referral.orderId (Referral.orderId r) rows
  then throw UniqueConstraint
  else if negb keys
  then throw ForeignKeyConstraint
  else writeDb (set_referrals (rows ++ [r])) ;;; ret r.

(** The foreign keys of a reward: [Reward_referrerId_fkey] and
    [Reward_referralId_fkey]. *)
Definition reward_keys (r : Reward.t) (d : Db) : bool :=
  (stored Referrer.id (Reward.referrerId r) (referrers d)
   && linked Referral.id (Reward.referralId r) (referrals d))%bool.

Definition reward_create (r : Reward.t) : M Reward.t :=
  rows <- readDb rewards ;;
  keys <- readDb (reward_keys r) ;;
  if taken Reward.referralId (Reward.referralId r) rows
  then throw UniqueConstraint
  else if negb keys
  then throw ForeignKeyConstraint
  else writeDb (set_rewards (rows ++ [r])) ;;; ret r.

(** ** settings.server.ts *)

Module Settings.
Record t := mk {
    discountPercentage : number;
    cashbackAmount : number;
    codeValidityDays : Z;
    appliesOncePerCustomer : bool;
    maxUsagePerCode : Z;
    maxRefundPercentage : number;
    customerSegmentIds : list string
  }.

  (** [Partial<ReferralSettings>] *)
Record partial := mkPartial {
    p_discountPercentage : option number;
    p_cashbackAmount : option number;
    p_codeValidityDays : option Z;
    p_appliesOncePerCustomer : option bool;
    p_maxUsagePerCode : option Z;
    p_maxRefundPercentage : option number;
    p_customerSegmentIds : option (list string)
  }.
End Settings.

Definition DEFAULT_SETTINGS : Settings.t :=
  Settings.mk (Num.dec 1 1) (Num.ofZ 20) 30 true 0 (Num.ofZ 1) [].

Definition parseSegmentIds (raw : option (list string)) : list string :=
  match raw with
  | None => []
  | Some parsed => parsed
  end.

Definition serializeSegmentIds (segmentIds : list string) : option (list string) :=
  Some segmentIds.

Definition getReferralSettings : M Settings.t :=
  settings <- readDb appSetting ;;
  match settings with
  | None =>
      t <- now ;;
      let created :=
        AppSetting.mk
          (Settings.discountPercentage DEFAULT_SETTINGS)
          (Settings.cashbackAmount DEFAULT_SETTINGS)
          (Settings.codeValidityDays DEFAULT_SETTINGS)
          (Settings.appliesOncePerCustomer DEFAULT_SETTINGS)
          (Settings.maxUsagePerCode DEFAULT_SETTINGS)
          (Some (Settings.maxRefundPercentage DEFAULT_SETTINGS))
          (serializeSegmentIds (Settings.customerSegmentIds DEFAULT_SETTINGS))
          t t in
      writeDb (set_appSetting (Some created)) ;;;
      ret (Settings.mk
             (AppSetting.discountPercentage created)
             (AppSetting.cashbackAmount created)
             (AppSetting.codeValidityDays created)
             (AppSetting.appliesOncePerCustomer created)
             (AppSetting.maxUsagePerCode created)
             (orDefault (AppSetting.maxRefundPercentage created)
                        (Settings.maxRefundPercentage DEFAULT_SETTINGS))
             (Settings.customerSegmentIds DEFAULT_SETTINGS))
  | Some settings =>
      ret (Settings.mk
             (AppSetting.discountPercentage settings)
             (AppSetting.cashbackAmount settings)
             (AppSetting.codeValidityDays settings)
             (AppSetting.appliesOncePerCustomer settings)
             (AppSetting.maxUsagePerCode settings)
             (orDefault (AppSetting.maxRefundPercentage settings)
                        (Settings.maxRefundPercentage DEFAULT_SETTINGS))
             (parseSegmentIds (AppSetting.customerSegmentIds settings)))
  end.

Definition updateReferralSettings (partial : Settings.partial) : M Settings.t :=
  existing <- getReferralSettings ;;
  let next :=
    Settings.mk
      (orDefault (Settings.p_discountPercentage partial) (Settings.discountPercentage existing))
      (orDefault (Settings.p_cashbackAmount partial) (Settings.cashbackAmount existing))
      (orDefault (Settings.p_codeValidityDays partial) (Settings.codeValidityDays existing))
      (orDefault (Settings.p_appliesOncePerCustomer partial) (Settings.appliesOncePerCustomer existing))
      (orDefault (Settings.p_maxUsagePerCode partial) (Settings.maxUsagePerCode existing))
      (orDefault (Settings.p_maxRefundPercentage partial) (Settings.maxRefundPercentage existing))
      (orDefault (Settings.p_customerSegmentIds partial) (Settings.customerSegmentIds existing)) in
  t <- now ;;
  row <- readDb appSetting ;;
  (* [codeValidityDays] and [maxUsagePerCode] are [INTEGER] columns *)
  if negb (fitsInt (Settings.codeValidityDays next)
           && fitsInt (Settings.maxUsagePerCode next))
  then throw ValueOutOfRange
  else
    writeDb (set_appSetting (Some (
      AppSetting.mk
        (Settings.discountPercentage next)
        (Settings.cashbackAmount next)
        (Settings.codeValidityDays next)
        (Settings.appliesOncePerCustomer next)
        (Settings.maxUsagePerCode next)
        (Some (Settings.maxRefundPercentage next))
        (serializeSegmentIds (Settings.customerSegmentIds next))
        (match row with Some old => AppSetting.createdAt old | None => t end)
        t))) ;;;
    ret next.

(** ** referrers.server.ts *)

(** The customer of a webhook payload; [id] is [String(customer.id)]. *)
Record ShopifyCustomerPayload := mkCustomer {
  customer_id : string;
  customer_email : jsopt string;
  first_name : jsopt string;
  last_name : jsopt string
}.

Definition getOrCreateReferrerFromCustomer (customer : ShopifyCustomerPayload) : M Referrer.t :=
  let shopifyCustomerId := customer_id customer in
  existing <- readDb (fun d =>
    find (fun r => String.eqb (Referrer.shopifyCustomerId r) shopifyCustomerId) (referrers d)) ;;
  match existing with
  | Some existing =>
      let needUpdate :=
        (strict_neq (Referrer.email existing) (customer_email customer)
         || strict_neq (Referrer.firstName existing) (first_name customer)
         || strict_neq (Referrer.lastName existing) (last_name customer))%bool in
      if needUpdate then
        referrer_update (Referrer.id existing) (fun r =>
          Referrer.mk (Referrer.id r) (Referrer.shopifyCustomerId r)
            (orElse (nullish (customer_email customer)) (Referrer.email existing))
            (orElse (nullish (first_name customer)) (Referrer.firstName existing))
            (orElse (nullish (last_name customer)) (Referrer.lastName existing))
            (Referrer.createdAt r) (Referrer.updatedAt r))
      else ret existing
  | None =>
      id <- freshId ;;
      t <- now ;;
      referrer_create
        (Referrer.mk id shopifyCustomerId
           (nullish (customer_email customer))
           (nullish (first_name customer))
           (nullish (last_name customer))
           t t)
  end.

(** ** email.server.ts *)

Definition emailLog_create (l : EmailLog.t) : M EmailLog.t :=
  writeDb (fun d => set_emailLogs (emailLogs d ++ [l]) d) ;;; ret l.

Definition emailLog_setStatus (id : string) (s : EmailStatus) : M unit :=
  writeDb (fun d => set_emailLogs
    (map (fun l => if String.eqb (EmailLog.id l) id
                   then EmailLog.mk (EmailLog.id l) (EmailLog.codeId l) (EmailLog.referrerId l)
                          (EmailLog.templateType l) (EmailLog.recipientEmail l) s
                   else l) (emailLogs d)) d).

Definition sendEmail (to : string) (templateType : EmailTemplateType)
    (codeId : option string) (referrerId : string) : M unit :=
  m <- gets mailer ;;
  id <- freshId ;;
  match m with
  | NoApiKey =>
      emailLog_create (EmailLog.mk id codeId referrerId templateType to EMAIL_FAILED) ;;;
      ret tt
  | Delivers =>
      emailLog_create (EmailLog.mk id codeId referrerId templateType to EMAIL_PENDING) ;;;
      emailLog_setStatus id EMAIL_SENT
  | Bounces =>
      emailLog_create (EmailLog.mk id codeId referrerId templateType to EMAIL_PENDING) ;;;
      emailLog_setStatus id EMAIL_FAILED ;;;
      throw MailDeliveryFailed
  end.

Definition sendCashbackConfirmationEmail (referrerId : string)
    (referrerEmail : option string) : M unit :=
  match referrerEmail with
  | Some to =>
      if str_truthy to then sendEmail to CASHBACK_CONFIRMATION None referrerId
      else log (WarnNoEmail referrerId)
  | None => log (WarnNoEmail referrerId)
  end.

Definition sendPromoCodeEmail (referrerId codeId : string)
    (referrerEmail : option string) : M unit :=
  match referrerEmail with
  | Some to =>
      if str_truthy to then sendEmail to CODE_PROMO (Some codeId) referrerId
      else log (WarnNoEmail referrerId)
  | None => log (WarnNoEmail referrerId)
  end.

(** ** codes.server.ts *)

Definition string_of_N (n : N) : string :=
  NilEmpty.string_of_uint (N.to_uint n).

Definition letter (n : N) : string :=
  String (ascii_of_N (65 + n)) "".

Definition generateReferralCode : M string :=
  l1 <- randomBelow 26%N ;;
  l2 <- randomBelow 26%N ;;
  l3 <- randomBelow 26%N ;;
  n <- randomBelow 9000%N ;;
  ret (letter l1 ++ letter l2 ++ letter l3 ++ "-" ++ string_of_N (1000 + n)).

Definition msPerDay : Z := 86400000.

(** [setUTCDate(getUTCDate() + days)] moves a date by whole UTC days, and
    leaves an invalid date when the result is out of range. *)
Definition computeExpiryDate (codeValidityDays : Z) : M (option JsDate) :=
  if codeValidityDays <=? 0 then ret None
  else t <- now ;; ret (Some (timeClip (t + codeValidityDays * msPerDay))).

Definition code_findUnique (code : string) : M (option Code.t) :=
  readDb (fun d => find (fun c => String.eqb (Code.code c) code) (codes d)).

(** The [while (attempts < 5)] loop; [fuel] is [5 - attempts]. *)
Fixpoint pickCode (fuel : nat) (code : string) (attempts : nat) : M (string * nat) :=
  match fuel with
  | O => ret (code, attempts)
  | S fuel' =>
      existing <- code_findUnique code ;;
      match existing with
      | None => ret (code, attempts)
      | Some _ =>
          code' <- generateReferralCode ;;
          pickCode fuel' code' (S attempts)
      end
  end.

Record CreateCodeParams := mkCreateCodeParams {
  cc_referrerId : string;
  cc_settings : Settings.t;
  cc_originOrderId : option string;
  cc_originOrderGid : option string;
  cc_workshopProductId : option string;
  cc_workshopProductTitle : option string;
  cc_workshopQuantity : option Z;
  cc_sendEmail : option bool
}.

Definition referrer_findById (id : string) : M (option Referrer.t) :=
  readDb (fun d => find (fun r => String.eqb (Referrer.id r) id) (referrers d)).

Definition createCodeForReferrer (p : CreateCodeParams) : M Code.t :=
  let settings := cc_settings p in
  let workshopQuantity := orDefault (cc_workshopQuantity p) 1 in
  let sendEmail := orDefault (cc_sendEmail p) true in
  first <- generateReferralCode ;;
  picked <- pickCode 5 first 0 ;;
  let '(code, attempts) := picked in
  if (5 <=? attempts)%nat then throw CodeGenerationExhausted
  else
    expiresAt <- computeExpiryDate (Settings.codeValidityDays settings) ;;
    id <- freshId ;;
    t <- now ;;
    codeRecord <-
      match dateColumn expiresAt with
      | None => throw InvalidValue
      | Some expiresAt =>
          code_create
            (Code.mk id code (cc_referrerId p) None 0
               (Settings.maxUsagePerCode settings) true t t
               expiresAt
               (cc_originOrderId p) (cc_originOrderGid p)
               (cc_workshopProductId p) (cc_workshopProductTitle p)
               workshopQuantity
               (Some (Settings.discountPercentage settings))
               (Some (Settings.cashbackAmount settings)))
      end ;;
    (if sendEmail then
       try_catch
         (referrer <- referrer_findById (cc_referrerId p) ;;
          sendPromoCodeEmail (cc_referrerId p) (Code.id codeRecord)
            (match referrer with Some r => Referrer.email r | None => None end))
         (fun _ => log ErrPromoEmail)
     else ret tt) ;;;
    ret codeRecord.

Definition bump_usage (c : Code.t) : Code.t :=
  Code.mk (Code.id c) (Code.code c) (Code.referrerId c) (Code.shopifyDiscountId c)
    (Code.usageCount c + 1) (Code.maxUsage c) (Code.active c) (Code.createdAt c)
    (Code.updatedAt c) (Code.expiresAt c) (Code.originOrderId c) (Code.originOrderGid c)
    (Code.workshopProductId c) (Code.workshopProductTitle c)
    (Code.workshopQuantity c) (Code.discountSnapshot c) (Code.cashbackSnapshot c).

(** [data: { usageCount: { increment: 1 } }]: the database refuses an
    increment that leaves the range of the column. *)
Definition markCodeAsUsed (codeId : string) : M Code.t :=
  found <- readDb (fun d => find (fun c => String.eqb (Code.id c) codeId) (codes d)) ;;
  match found with
  | Some c =>
      if fitsInt (Code.usageCount c + 1) then code_update codeId bump_usage
      else throw ValueOutOfRange
  | None => code_update codeId bump_usage
  end.

Definition findCodeByValue (code : string) : M (option Code.t) :=
  code_findUnique code.

Definition with_discountId (discountId : string) (c : Code.t) : Code.t :=
  Code.mk (Code.id c) (Code.code c) (Code.referrerId c) (Some discountId)
    (Code.usageCount c) (Code.maxUsage c) (Code.active c) (Code.createdAt c)
    (Code.updatedAt c) (Code.expiresAt c) (Code.originOrderId c) (Code.originOrderGid c)
    (Code.workshopProductId c) (Code.workshopProductTitle c)
    (Code.workshopQuantity c) (Code.discountSnapshot c) (Code.cashbackSnapshot c).

Definition linkShopifyDiscountId (codeId discountId : string) : M Code.t :=
  code_update codeId (with_discountId discountId).

Definition findCodeByOriginOrderId (originOrderId : string) : M (option Code.t) :=
  readDb (fun d =>
    find (fun c => opt_eqb String.eqb (Code.originOrderId c) (Some originOrderId)) (codes d)).

(** ** referrals.server.ts *)

Record ReferralInput := mkReferralInput {
  in_referrerId : string;
  in_codeId : option string;
  in_refereeShopifyCustomerId : option string;
  in_refereeEmail : option string;
  in_refereeFirstName : option string;
  in_refereeLastName : option string;
  in_orderId : option string;
  in_workshopProductId : option string;
  in_workshopProductTitle : option string
}.

(** The [update] side of the upsert: a field of [data] that is [undefined]
    leaves the column as it is. *)
Definition referral_overlay (input : ReferralInput) (r : Referral.t) : Referral.t :=
  Referral.mk (Referral.id r)
    (in_referrerId input)
    (orElse (in_codeId input) (Referral.codeId r))
    (orElse (in_refereeShopifyCustomerId input) (Referral.refereeShopifyCustomerId r))
    (orElse (in_refereeEmail input) (Referral.refereeEmail r))
    (orElse (in_refereeFirstName input) (Referral.refereeFirstName r))
    (orElse (in_refereeLastName input) (Referral.refereeLastName r))
    (orElse (in_orderId input) (Referral.orderId r))
    (orElse (in_workshopProductId input) (Referral.workshopProductId r))
    (orElse (in_workshopProductTitle input) (Referral.workshopProductTitle r))
    (Referral.createdAt r).

(** The [create] side. *)
Definition referral_fresh (input : ReferralInput) (id : string) (t : Z) : Referral.t :=
  Referral.mk id
    (in_referrerId input)
    (in_codeId input)
    (in_refereeShopifyCustomerId input)
    (in_refereeEmail input)
    (in_refereeFirstName input)
    (in_refereeLastName input)
    (in_orderId input)
    (in_workshopProductId input)
    (in_workshopProductTitle input)
    t.

Definition has_orderId (orderId : string) (r : Referral.t) : bool :=
  opt_eqb String.eqb (Referral.orderId r) (Some orderId).

Definition createReferral (input : ReferralInput) : M Referral.t :=
  if opt_truthy (in_orderId input) then
    let orderId := orDefault (in_orderId input) "" in
    (* prisma.referral.upsert({ where: { orderId }, create: data, update: data }) *)
    rows <- readDb referrals ;;
    match update_first (has_orderId orderId) (referral_overlay input) rows with
    | Some (r', rows') =>
        keys <- readDb (referral_keys r') ;;
        if negb keys then throw ForeignKeyConstraint
        else writeDb (set_referrals rows') ;;; ret r'
    | None =>
        id <- freshId ;;
        t <- now ;;
        referral_create (referral_fresh input id t)
    end
  else
    id <- freshId ;;
    t <- now ;;
    referral_create (referral_fresh input id t).

Definition findReferralByOrderId (orderId : string) : M (option Referral.t) :=
  readDb (fun d => find (has_orderId orderId) (referrals d)).

(** ** shopifyAdmin.server.ts *)

Definition is_capture (node : Transaction) : bool :=
  ((opt_eqb String.eqb (tx_kind node) (Some "CAPTURE")
    || opt_eqb String.eqb (tx_kind node) (Some "SALE"))
   && opt_eqb String.eqb (tx_status node) (Some "SUCCESS"))%bool.

Definition edge_valid (edge : option Transaction) : bool :=
  match edge with
  | Some node => is_capture node
  | None => false
  end.

(** [edge?.node?.id] *)
Definition edge_id (edge : option (option Transaction)) : option string :=
  match edge with
  | Some (Some node) => tx_id node
  | _ => None
  end.

Definition getOrderTransactionParentId (orderGid : string) : M (option string) :=
  response <- gets (fun w => orderTransactions (shopify w) orderGid) ;;
  match response with
  | Some transactions =>
      let validTransaction := find edge_valid transactions in
      ret (orElse (edge_id validTransaction) (edge_id (hd_error transactions)))
  | None =>
      log ErrTransactions ;;; ret None
  end.

Section ParseFloat.

(** [parseFloat], the built-in reading of a decimal text. *)
Variable parseFloat : string -> number.

Definition getOrderTotalAmount (orderGid : string) : M (option number) :=
  response <- gets (fun w => orderTotal (shopify w) orderGid) ;;
  match response with
  | Some amount =>
      ret (if opt_truthy amount then Some (parseFloat (orDefault amount "")) else None)
  | None =>
      log ErrOrderTotal ;;; ret None
  end.

(** ** refunds.server.ts *)

Definition DEFAULT_REFUND_NOTE : string := "Remboursement automatique - Parrainage".

Definition message_mentions (needle : string) (error : UserError) : bool :=
  match message error with
  | Some m => includes (toLowerCase m) needle
  | None => false
  end.

Definition isOrderUnavailableError (userErrors : list UserError) : bool :=
  existsb (fun error =>
    (message_mentions "temporarily unavailable" error
     || message_mentions "unavailable to be modified" error)%bool) userErrors.

Definition maxRetries : nat := 3.
Definition retryDelay : Z := 2000.

(** One [callAdminGraphql] with [REFUND_MUTATION]. *)
Definition callRefundMutation (variables : RefundVariables) : M RefundReply :=
  fun w =>
    (set_refundCalls (refundCalls w ++ [variables]) w,
     Returned (refundReply (shopify w) (List.length (refundCalls w)))).

(** The [for (let attempt = 0; attempt < maxRetries; attempt++)] loop;
    [remaining] is [maxRetries - attempt]. *)
Fixpoint refundAttempts (remaining : nat) (attempt : nat)
    (variables : RefundVariables) : M string :=
  match remaining with
  | O => throw RefundRetriesExhausted
  | S remaining' =>
      response <- callRefundMutation variables ;;
      match response with
      | CallThrows => throw AdminCallFailed
      | GraphqlErrors => throw RefundGraphqlErrors
      | NoPayload => throw RefundUnexpectedResponse
      | Payload userErrors refund =>
          match userErrors with
          | _ :: _ =>
              if (isOrderUnavailableError userErrors
                  && (attempt <? maxRetries - 1)%nat)%bool then
                let waitTime := retryDelay * (Z.of_nat attempt + 1) in
                log (LogRetry waitTime (attempt + 1)) ;;;
                sleep waitTime ;;;
                refundAttempts remaining' (S attempt) variables
              else throw (RefundUserErrors userErrors)
          | [] =>
              (if (0 <? attempt)%nat then log (LogRefundAfterRetries (attempt + 1))
               else ret tt) ;;;
              ret refund
          end
      end
  end.

Definition createReferralRefund (orderGid : string) (amount : number)
    (currency : string) (note : option string) : M string :=
  parentId <- getOrderTransactionParentId orderGid ;;
  variables <-
    (if negb (opt_truthy parentId) then
       log (WarnStoreCreditFallback orderGid) ;;;
       env <- gets refundGateway ;;
       let gateway := orDefault env "store-credit" in
       ret (mkRefundVariables (orDefault note DEFAULT_REFUND_NOTE) orderGid amount
              (Gateway gateway))
     else
       ret (mkRefundVariables (orDefault note DEFAULT_REFUND_NOTE) orderGid amount
              (ParentTransaction (orDefault parentId "")))) ;;
  refundAttempts maxRetries 0 variables.

(** ** rewards.server.ts *)

Definition createPendingReward (referrerId : string) (referralId : option string)
    (settings : Settings.t) (currency : option string)
    (workshopProductId workshopProductTitle : option string) : M Reward.t :=
  id <- freshId ;;
  t <- now ;;
  reward_create
    (Reward.mk id referrerId referralId
       (Settings.cashbackAmount settings)
       (orDefault currency "EUR")
       PENDING
       None
       workshopProductId workshopProductTitle
       t t None).

Definition paid_at (t : Z) (r : Reward.t) : Reward.t :=
  Reward.mk (Reward.id r) (Reward.referrerId r) (Reward.referralId r)
    (Reward.amount r) (Reward.currency r) PAID (Reward.notes r)
    (Reward.workshopProductId r) (Reward.workshopProductTitle r)
    (Reward.createdAt r) (Reward.updatedAt r) (Some t).

Definition markRewardAsPaid (rewardId : string) : M Reward.t :=
  t <- now ;;
  reward_update rewardId (paid_at t).

Definition referral_of (d : Db) (referralId : option string) : option Referral.t :=
  match referralId with
  | Some id => find (fun r => String.eqb (Referral.id r) id) (referrals d)
  | None => None
  end.

Definition code_of (d : Db) (codeId : option string) : option Code.t :=
  match codeId with
  | Some id => find (fun c => String.eqb (Code.id c) id) (codes d)
  | None => None
  end.

(** The filter [{ status: PAID, referral: { codeId: { in: codeIds } } }]. *)
Definition paid_through (d : Db) (codeIds : list string) (r : Reward.t) : bool :=
  (RewardStatus_eqb (Reward.status r) PAID
   && match referral_of d (Reward.referralId r) with
      | Some referral =>
          match Referral.codeId referral with
          | Some c => existsb (String.eqb c) codeIds
          | None => false
          end
      | None => false
      end)%bool.

(** [_sum.amount]: [null] over no row. *)
Definition sum_amounts (rows : list Reward.t) : option number :=
  match rows with
  | [] => None
  | r :: rest => Some (fold_left (fun acc x => Num.add acc (Reward.amount x)) rest (Reward.amount r))
  end.

Definition totalRefundedForCode (d : Db) (originOrderGid : string) : number :=
  let codesWithSameOrigin :=
    filter (fun c => opt_eqb String.eqb (Code.originOrderGid c) (Some originOrderGid)) (codes d) in
  match codesWithSameOrigin with
  | [] => Num.zero
  | _ =>
      let codeIds := map Code.id codesWithSameOrigin in
      orDefault (sum_amounts (filter (paid_through d codeIds) (rewards d))) Num.zero
  end.

Definition getTotalRefundedForCode (originOrderGid : string) : M number :=
  readDb (fun d => totalRefundedForCode d originOrderGid).

Definition getTotalRefundedForReferrer (referrerId : string) : M number :=
  readDb (fun d =>
    orDefault (sum_amounts (filter (fun r =>
      (String.eqb (Reward.referrerId r) referrerId
       && RewardStatus_eqb (Reward.status r) PAID)%bool) (rewards d))) Num.zero).

Record ProcessRewardRefundResult := mkResult {
  res_rewardId : string;
  totalRefunded : number;
  maxRefundAllowed : option number
}.

Definition with_origin (gid : string) (c : Code.t) : Code.t :=
  Code.mk (Code.id c) (Code.code c) (Code.referrerId c) (Code.shopifyDiscountId c)
    (Code.usageCount c) (Code.maxUsage c) (Code.active c) (Code.createdAt c)
    (Code.updatedAt c) (Code.expiresAt c) (Some (extractNumericId gid)) (Some gid)
    (Code.workshopProductId c) (Code.workshopProductTitle c)
    (Code.workshopQuantity c) (Code.discountSnapshot c) (Code.cashbackSnapshot c).

(** [reward.referral?.code], as loaded by the [include]. *)
Definition included_code (d : Db) (reward : Reward.t) : option Code.t :=
  match referral_of d (Reward.referralId reward) with
  | Some referral => code_of d (Referral.codeId referral)
  | None => None
  end.

Definition stored_origin (code : option Code.t) : option string :=
  match code with
  | Some c => Code.originOrderGid c
  | None => None
  end.

Definition REFUND_NOTE : string := "Remboursement manuel - Parrainage".

(** The ceiling of step 6: [orderTotalAmount ? orderTotalAmount * pct : null]. *)
Definition refundCeiling (orderTotalAmount : option number) (settings : Settings.t)
  : option number :=
  match orderTotalAmount with
  | Some total =>
      if Num.truthy total then Some (Num.mul total (Settings.maxRefundPercentage settings))
      else None
  | None => None
  end.

Definition overCeiling (maxRefundAllowed : option number)
    (totalRefundedBefore amount : number) : bool :=
  match maxRefundAllowed with
  | Some ceiling => Num.gt (Num.add totalRefundedBefore amount) ceiling
  | None => false
  end.

Definition processRewardRefund (rewardId : string) (orderGidOverride : option string)
  : M ProcessRewardRefundResult :=
  found <- readDb (fun d => find (fun r => String.eqb (Reward.id r) rewardId) (rewards d)) ;;
  match found with
  | None => throw RewardNotFound
  | Some reward =>
      if negb (RewardStatus_eqb (Reward.status reward) PENDING) then throw InvalidState
      else
        code <- readDb (fun d => included_code d reward) ;;
        referral <- readDb (fun d => referral_of d (Reward.referralId reward)) ;;
        referrer <- referrer_findById (Reward.referrerId reward) ;;
        let resolved := orElse orderGidOverride (stored_origin code) in
        if negb (opt_truthy resolved) then throw NoOrderAvailable
        else
          let originOrderGid := orDefault resolved "" in
          (match code with
           | Some c =>
               if (opt_truthy orderGidOverride
                   && negb (opt_truthy (Code.originOrderGid c)))%bool
               then code_update (Code.id c) (with_origin (orDefault orderGidOverride "")) ;;; ret tt
               else ret tt
           | None => ret tt
           end) ;;;
          (if opt_truthy orderGidOverride
           then log (LogRefundOverride (orDefault orderGidOverride "") (Reward.id reward))
           else if opt_truthy (stored_origin code)
           then log (LogRefundOrigin (orDefault (stored_origin code) "") (Reward.id reward))
           else ret tt) ;;;
          settings <- getReferralSettings ;;
          orderTotalAmount <- getOrderTotalAmount originOrderGid ;;
          totalRefundedBefore <- getTotalRefundedForCode originOrderGid ;;
          let maxRefundAllowed := refundCeiling orderTotalAmount settings in
          if overCeiling maxRefundAllowed totalRefundedBefore (Reward.amount reward) then
            let refundLeft :=
              Num.max Num.zero (Num.sub (orDefault maxRefundAllowed Num.zero) totalRefundedBefore) in
            throw (RefundCeilingExceeded refundLeft (Reward.currency reward))
          else
            createReferralRefund originOrderGid (Reward.amount reward)
              (Reward.currency reward) (Some REFUND_NOTE) ;;;
            markRewardAsPaid (Reward.id reward) ;;;
            let totalRefundedAfter := Num.add totalRefundedBefore (Reward.amount reward) in
            try_catch
              (match referrer with
               | Some r => sendCashbackConfirmationEmail (Reward.referrerId reward) (Referrer.email r)
               | None => throw RecordNotFound
               end)
              (fun _ => log (ErrCashbackEmail (Reward.id reward))) ;;;
            ret (mkResult (Reward.id reward) totalRefundedAfter maxRefundAllowed)
  end.

End ParseFloat.

(** ** discounts.server.ts

    The synchronisation of the discount object is followed through its
    control flow; the discount input it builds is the platform's concern and
    is answered by [discountUpdate] and [discountCreate]. *)

Definition createShopifyDiscount (code : Code.t) : M DiscountCreateResult :=
  reply <- gets (fun w => discountCreate (shopify w) (Code.code code)) ;;
  match reply with
  | Some result => ret result
  | None => throw AdminCallFailed
  end.

Definition tryCreateShopifyDiscount (code : Code.t) : M (option DiscountCreateResult) :=
  try_catch
    (result <- createShopifyDiscount code ;; ret (Some result))
    (fun _ => log ErrDiscountCreate ;;; ret None).

Definition recreateShopifyDiscount (code : Code.t) : M (option DiscountCreateResult) :=
  match Code.shopifyDiscountId code with
  | Some linked =>
      if str_truthy linked then
        reply <- gets (fun w => discountUpdate (shopify w) linked) ;;
        match reply with
        | UpdateThrows | UpdateUserErrors => log ErrDiscountUpdate ;;; ret None
        | UpdateNode node_id node_code =>
            if opt_truthy node_id
            then ret (Some (mkDiscount (orDefault node_id "")
                                       (orDefault node_code (Code.code code))))
            else tryCreateShopifyDiscount code
        end
      else tryCreateShopifyDiscount code
  | None => tryCreateShopifyDiscount code
  end.

(** ** webhooks.orders.paid.ts *)

(** The parsed body of the notification, with the fields at the types of
    the source. [payload_id] is [String(payload.id)] when [payload.id] is
    truthy, and [customer] is present when [payload.customer?.id] is
    truthy. *)
Record ShopifyOrderPaidPayload := mkPayload {
  payload_id : option string;
  admin_graphql_api_id : option string;
  payload_email : option string;
  payload_currency : option string;
  discount_codes : list (option string);
  customer : option ShopifyCustomerPayload
}.

(** The body of the request: a text that [JSON.parse] refuses, the text
    [null], or any other JSON value. *)
Inductive Body :=
| Unparsable
| JsonNull
| Parsed (payload : ShopifyOrderPaidPayload).

Inductive Response := OK200.

Definition normalizeCode (code : option string) : option string :=
  match code with
  | Some c =>
      if str_truthy c then
        let trimmed := trim c in
        if str_truthy trimmed then Some trimmed else None
      else None
  | None => None
  end.

(** [String(item.product_id || item.variant_id)] *)
Definition item_product (item : LineItem) : string :=
  match li_product_id item with
  | Some p => p
  | None => li_variant_id item
  end.

(** [item.quantity || 1] *)
Definition item_quantity (item : LineItem) : Z :=
  match li_quantity item with
  | Some q => if q =? 0 then 1 else q
  | None => 1
  end.

Record Workshop := mkWorkshop {
  workshopProductId : option string;
  workshopProductTitle : option string;
  workshopQuantity : Z
}.

Definition workshopOf (lineItems : list LineItem) : Workshop :=
  match lineItems with
  | [] => mkWorkshop None None 1
  | firstItem :: _ =>
      let productId := item_product firstItem in
      mkWorkshop
        (Some productId)
        (if opt_truthy (li_title firstItem) then li_title firstItem else li_name firstItem)
        (fold_left (fun total item => total + item_quantity item)
           (filter (fun item => String.eqb (item_product item) productId) lineItems) 0)
  end.

Definition fetchWorkshop (orderId : string) : M Workshop :=
  orderDetails <- gets (fun w => orderDetails (shopify w) orderId) ;;
  match orderDetails with
  | Some lineItems => ret (workshopOf lineItems)
  | None => log WarnOrderDetails ;;; ret (mkWorkshop None None 1)
  end.

(** [findFirst({ where: { referrerId }, orderBy: { createdAt: "desc" } })];
    among rows created at the same instant the earliest inserted is kept. *)
Definition latestCodeOf (referrerId : string) (rows : list Code.t) : option Code.t :=
  fold_left (fun best c =>
    if String.eqb (Code.referrerId c) referrerId then
      match best with
      | Some b => if Code.createdAt b <? Code.createdAt c then Some c else best
      | None => Some c
      end
    else best) rows None.

(** The expiry that the handler computes for a reused code. *)
Definition refreshExpiry (settings : Settings.t) : M (option JsDate) :=
  if 0 <? Settings.codeValidityDays settings
  then t <- now ;; ret (Some (timeClip (t + Settings.codeValidityDays settings * msPerDay)))
  else ret None.

(** The [data] of the update of a reused code. *)
Definition refreshed (codeRecord : Code.t) (orderId : string) (gid : option string)
    (ws : Workshop) (expiryDate : option Z) (settings : Settings.t) (c : Code.t) : Code.t :=
  Code.mk (Code.id c) (Code.code c) (Code.referrerId c) (Code.shopifyDiscountId c)
    (Code.usageCount c)
    (Settings.maxUsagePerCode settings)
    (Code.active c) (Code.createdAt c) (Code.updatedAt c)
    expiryDate
    (Some orderId)
    (orElse gid (orElse (Code.originOrderGid codeRecord) (Code.originOrderGid c)))
    (orElse (workshopProductId ws)
       (orElse (Code.workshopProductId codeRecord) (Code.workshopProductId c)))
    (orElse (workshopProductTitle ws)
       (orElse (Code.workshopProductTitle codeRecord) (Code.workshopProductTitle c)))
    (workshopQuantity ws)
    (Some (Settings.discountPercentage settings))
    (Some (Settings.cashbackAmount settings)).

Definition syncDiscount (codeRecord : Code.t) (created : bool) : M unit :=
  discount <- recreateShopifyDiscount codeRecord ;;
  match discount with
  | Some d =>
      linkShopifyDiscountId (Code.id codeRecord) (discountId d) ;;;
      log (if created then LogCodeCreated (createdCode d)
           else LogDiscountSynced (Code.code codeRecord))
  | None => ret tt
  end.

(** The code of the buyer: minted at the first purchase, refreshed after. *)
Definition issueOrRefreshCode (payload : ShopifyOrderPaidPayload) (orderId : string)
    (settings : Settings.t) (ws : Workshop) (referrer : Referrer.t) : M Code.t :=
  byOrder <- findCodeByOriginOrderId orderId ;;
  codeRecord <-
    match byOrder with
    | Some c => ret (Some c)
    | None => readDb (fun d => latestCodeOf (Referrer.id referrer) (codes d))
    end ;;
  match codeRecord with
  | None =>
      codeRecord <- createCodeForReferrer
        (mkCreateCodeParams (Referrer.id referrer) settings (Some orderId)
           (admin_graphql_api_id payload)
           (workshopProductId ws) (workshopProductTitle ws)
           (Some (workshopQuantity ws)) None) ;;
      syncDiscount codeRecord true ;;;
      ret codeRecord
  | Some codeRecord =>
      expiryDate <- refreshExpiry settings ;;
      codeRecord <-
        match dateColumn expiryDate with
        | None => throw InvalidValue
        | Some expiryDate =>
            (* [workshopQuantity] and [maxUsage] are [INTEGER] columns *)
            if negb (fitsInt (workshopQuantity ws)
                     && fitsInt (Settings.maxUsagePerCode settings))
            then throw ValueOutOfRange
            else
              code_update (Code.id codeRecord)
                (refreshed codeRecord orderId (admin_graphql_api_id payload) ws
                   expiryDate settings)
        end ;;
      log (LogCodeReused (Code.code codeRecord) orderId) ;;;
      syncDiscount codeRecord false ;;;
      ret codeRecord
  end.

(** The part of the handler that credits the owner of the code used. *)
Definition recordReferral (payload : ShopifyOrderPaidPayload) (orderId : string)
    (buyer : ShopifyCustomerPayload) (settings : Settings.t) (ws : Workshop) : M unit :=
  let usedDiscount :=
    normalizeCode (match hd_error (discount_codes payload) with
                   | Some code => code
                   | None => None
                   end) in
  match usedDiscount with
  | None => ret tt
  | Some usedDiscount =>
      usedCodeRecord <- findCodeByValue usedDiscount ;;
      match usedCodeRecord with
      | None => log (WarnUnknownCode usedDiscount)
      | Some usedCodeRecord =>
          existingReferral <- findReferralByOrderId orderId ;;
          match existingReferral with
          | Some _ => log (LogDuplicateReferral orderId)
          | None =>
              referral <- createReferral
                (mkReferralInput
                   (Code.referrerId usedCodeRecord)
                   (Some (Code.id usedCodeRecord))
                   (Some (customer_id buyer))
                   (orElse (payload_email payload) (nullish (customer_email buyer)))
                   (nullish (first_name buyer))
                   (nullish (last_name buyer))
                   (Some orderId)
                   (workshopProductId ws)
                   (workshopProductTitle ws)) ;;
              createPendingReward (Code.referrerId usedCodeRecord)
                (Some (Referral.id referral)) settings
                (Some (orDefault (payload_currency payload) "EUR"))
                (workshopProductId ws) (workshopProductTitle ws) ;;;
              markCodeAsUsed (Code.id usedCodeRecord) ;;;
              if negb (opt_truthy (Code.originOrderGid usedCodeRecord))
              then log (WarnNoOriginOrder (Code.code usedCodeRecord))
              else ret tt
          end
      end
  end.

(** [action]. On the body [null] the first read of [payload.id] throws,
    outside every [try]. *)
Definition action (body : Body) : M Response :=
  match body with
  | Unparsable => ret OK200
  | JsonNull => throw TypeError
  | Parsed payload =>
      match payload_id payload, customer payload with
      | Some orderId, Some buyer =>
          try_catch
            (settings <- getReferralSettings ;;
             ws <- fetchWorkshop orderId ;;
             referrer <- getOrCreateReferrerFromCustomer buyer ;;
             issueOrRefreshCode payload orderId settings ws referrer ;;;
             recordReferral payload orderId buyer settings ws)
            (fun _ => log ErrWebhook) ;;;
          ret OK200
      | _, _ =>
          log WarnIncompleteWebhook ;;; ret OK200
      end
  end.

(** ** Reading plain decimal texts

    The amounts of the platform are plain decimal texts ("100.00"). This
    reader instantiates [parseFloat] on them, and answers [NaN] elsewhere. *)

Fixpoint readDigits (s : string) (m : Z) (frac : option nat) (seen : bool)
  : option (Z * nat) :=
  match s with
  | EmptyString =>
      if seen then Some (m, match frac with Some k => k | None => O end) else None
  | String c t =>
      let n := nat_of_ascii c in
      if (Nat.leb 48 n && Nat.leb n 57)%bool then
        readDigits t (m * 10 + Z.of_nat (n - 48)) (option_map S frac) true
      else if Nat.eqb n 46 then
        match frac with
        | None => readDigits t m (Some O) seen
        | Some _ => None
        end
      else None
  end.

Definition parseDecimal (s : string) : number :=
  match readDigits s 0 None false with
  | Some (m, k) => Num.dec m k
  | None => S754_nan
  end.

(** ** Specification vocabulary *)

(** [keeps proj m]: running [m] leaves the projection [proj] of the world as
    it was, whatever the outcome. *)
Definition keeps {B A : Type} (proj : World -> B) (m : M A) : Prop :=
  forall w, proj (fst (m w)) = proj w.

(** [wp m w Q]: the run of [m] from [w] ends in a world and an outcome that
    satisfy [Q]. *)
Definition wp {A} (m : M A) (w : World) (Q : World -> Outcome A -> Prop) : Prop :=
  Q (fst (m w)) (snd (m w)).

Definition rewardsOf (w : World) : list Reward.t := rewards (db w).
Definition referralsOf (w : World) : list Referral.t := referrals (db w).
Definition codesOf (w : World) : list Code.t := codes (db w).
Definition referrersOf (w : World) : list Referrer.t := referrers (db w).

Definition findReward (rewardId : string) (w : World) : option Reward.t :=
  find (fun r => String.eqb (Reward.id r) rewardId) (rewardsOf w).

(** [needUpdate] of [getOrCreateReferrerFromCustomer]. *)
Definition contactDiffers (existing : Referrer.t) (customer : ShopifyCustomerPayload) : bool :=
  (strict_neq (Referrer.email existing) (customer_email customer)
   || strict_neq (Referrer.firstName existing) (first_name customer)
   || strict_neq (Referrer.lastName existing) (last_name customer))%bool.

Definition findReferrerOf (customer : ShopifyCustomerPayload) (w : World) : option Referrer.t :=
  find (fun r => String.eqb (Referrer.shopifyCustomerId r) (customer_id customer)) (referrersOf w).

(** The settings that [getReferralSettings] reads from a row. *)
Definition settingsOfRow (row : AppSetting.t) : Settings.t :=
  Settings.mk
    (AppSetting.discountPercentage row)
    (AppSetting.cashbackAmount row)
    (AppSetting.codeValidityDays row)
    (AppSetting.appliesOncePerCustomer row)
    (AppSetting.maxUsagePerCode row)
    (orDefault (AppSetting.maxRefundPercentage row)
               (Settings.maxRefundPercentage DEFAULT_SETTINGS))
    (parseSegmentIds (AppSetting.customerSegmentIds row)).

(** The settings in force in a database: those of the row, or the defaults
    that the first read installs. *)
Definition currentSettings (d : Db) : Settings.t :=
  match appSetting d with
  | Some row => settingsOfRow row
  | None => DEFAULT_SETTINGS
  end.

(** The parent transaction that [getOrderTransactionParentId] answers. *)
Definition parentIdOf (transactions : option (list (option Transaction))) : option string :=
  match transactions with
  | Some edges => orElse (edge_id (find edge_valid edges)) (edge_id (hd_error edges))
  | None => None
  end.

(** The transaction of the refund input that [createReferralRefund] builds. *)
Definition refundTargetOf (w : World) (orderGid : string) : RefundTarget :=
  let parentId := parentIdOf (orderTransactions (shopify w) orderGid) in
  if opt_truthy parentId then ParentTransaction (orDefault parentId "")
  else Gateway (orDefault (refundGateway w) "store-credit").

(** The world in which [createReferralRefund] starts its attempts: after the
    lookup of the parent transaction and the warning of the fallback. *)
Definition refundPrelude (orderGid : string) (w : World) : World :=
  let w1 :=
    match orderTransactions (shopify w) orderGid with
    | Some _ => w
    | None => set_console (console w ++ [ErrTransactions]) w
    end in
  if opt_truthy (parentIdOf (orderTransactions (shopify w) orderGid)) then w1
  else set_console (console w1 ++ [WarnStoreCreditFallback orderGid]) w1.

(** The errors with which the refund step fails. *)
Definition refund_failure (e : Failure) : Prop :=
  match e with
  | AdminCallFailed | RefundGraphqlErrors | RefundUnexpectedResponse
  | RefundUserErrors _ | RefundRetriesExhausted => True
  | _ => False
  end.

(** A reply that asks for another attempt. *)
Definition asks_retry (reply : RefundReply) : Prop :=
  match reply with
  | Payload (e :: errors) _ => isOrderUnavailableError (e :: errors) = true
  | _ => False
  end.

(** The number of [refundCreate] mutations sent between two worlds. *)
Definition attemptsMade (w w' : World) : nat :=
  List.length (refundCalls w') - List.length (refundCalls w).

(** ** The phases of a settlement *)

(** Step 3: the order to refund against. *)
Definition resolvedOrder (w : World) (reward : Reward.t) (orderGidOverride : option string)
  : option string :=
  orElse orderGidOverride (stored_origin (included_code (db w) reward)).

(** Step 4: the world once a missing origin has been backfilled. *)
Definition backfilled (w : World) (code : option Code.t) (orderGidOverride : option string)
  : World :=
  match code with
  | Some c =>
      if (opt_truthy orderGidOverride && negb (opt_truthy (Code.originOrderGid c)))%bool
      then fst (code_update (Code.id c) (with_origin (orDefault orderGidOverride "")) w)
      else w
  | None => w
  end.

Definition announced (w : World) (reward : Reward.t) (code : option Code.t)
    (orderGidOverride : option string) : World :=
  if opt_truthy orderGidOverride
  then set_console (console w ++ [LogRefundOverride (orDefault orderGidOverride "") (Reward.id reward)]) w
  else if opt_truthy (stored_origin code)
  then set_console (console w ++ [LogRefundOrigin (orDefault (stored_origin code) "") (Reward.id reward)]) w
  else w.

Section Phases.

Variable parseFloat : string -> number.

(** What [getOrderTotalAmount] answers. *)
Definition orderTotalOf (w : World) (orderGid : string) : option number :=
  match orderTotal (shopify w) orderGid with
  | Some amount =>
      if opt_truthy amount then Some (parseFloat (orDefault amount "")) else None
  | None => None
  end.

(** Step 5: the world in which the ceiling is checked. *)
Definition atCheck (w : World) (reward : Reward.t) (orderGidOverride : option string) : World :=
  let code := included_code (db w) reward in
  let originOrderGid := orDefault (resolvedOrder w reward orderGidOverride) "" in
  let w1 := announced (backfilled w code orderGidOverride) reward code orderGidOverride in
  let w2 := fst (getReferralSettings w1) in
  fst (getOrderTotalAmount parseFloat originOrderGid w2).

(** The amount already paid against the order, as step 5 reads it. *)
Definition alreadyPaid (w : World) (reward : Reward.t) (orderGidOverride : option string)
  : number :=
  totalRefundedForCode (db (atCheck w reward orderGidOverride))
    (orDefault (resolvedOrder w reward orderGidOverride) "").

(** Step 6: the ceiling in force. *)
Definition ceilingOf (w : World) (reward : Reward.t) (orderGidOverride : option string)
  : option number :=
  refundCeiling
    (orderTotalOf w (orDefault (resolvedOrder w reward orderGidOverride) ""))
    (currentSettings (db w)).

(** Steps 7 to 10. *)
Definition settleTail (reward : Reward.t) (originOrderGid : string)
    (referrer : option Referrer.t) (totalRefundedBefore : number)
    (maxRefundAllowed : option number) : M ProcessRewardRefundResult :=
  createReferralRefund originOrderGid (Reward.amount reward)
    (Reward.currency reward) (Some REFUND_NOTE) ;;;
  markRewardAsPaid (Reward.id reward) ;;;
  try_catch
    (match referrer with
     | Some r => sendCashbackConfirmationEmail (Reward.referrerId reward) (Referrer.email r)
     | None => throw RecordNotFound
     end)
    (fun _ => log (ErrCashbackEmail (Reward.id reward))) ;;;
  ret (mkResult (Reward.id reward)
         (Num.add totalRefundedBefore (Reward.amount reward)) maxRefundAllowed).

(** The five ways in which a settlement ends. *)
Inductive SettleCase (rewardId : string) (ov : option string) (w : World)
  : World * Outcome ProcessRewardRefundResult -> Prop :=
| NotFound :
    findReward rewardId w = None ->
    SettleCase rewardId ov w (w, Thrown RewardNotFound)
| NotPending reward :
    findReward rewardId w = Some reward ->
    Reward.status reward <> PENDING ->
    SettleCase rewardId ov w (w, Thrown InvalidState)
| NoOrder reward :
    findReward rewardId w = Some reward ->
    Reward.status reward = PENDING ->
    opt_truthy (resolvedOrder w reward ov) = false ->
    SettleCase rewardId ov w (w, Thrown NoOrderAvailable)
| OverCeiling reward gid :
    findReward rewardId w = Some reward ->
    Reward.status reward = PENDING ->
    resolvedOrder w reward ov = Some gid ->
    str_truthy gid = true ->
    overCeiling (ceilingOf w reward ov) (alreadyPaid w reward ov)
      (Reward.amount reward) = true ->
    SettleCase rewardId ov w
      (atCheck w reward ov,
       Thrown (RefundCeilingExceeded
                 (Num.max Num.zero
                    (Num.sub (orDefault (ceilingOf w reward ov) Num.zero)
                       (alreadyPaid w reward ov)))
                 (Reward.currency reward)))
| Refunding reward gid :
    findReward rewardId w = Some reward ->
    Reward.status reward = PENDING ->
    resolvedOrder w reward ov = Some gid ->
    str_truthy gid = true ->
    overCeiling (ceilingOf w reward ov) (alreadyPaid w reward ov)
      (Reward.amount reward) = false ->
    SettleCase rewardId ov w
      (settleTail reward gid
         (find (fun r => String.eqb (Referrer.id r) (Reward.referrerId reward)) (referrers (db w)))
         (alreadyPaid w reward ov) (ceilingOf w reward ov)
         (atCheck w reward ov)).

End Phases.

(** ** The purchase handler *)

Definition codeIds (w : World) : list string := map Code.id (codesOf w).

Definition findCodeById (id : string) (w : World) : option Code.t :=
  find (fun c => String.eqb (Code.id c) id) (codesOf w).

(** The code that the handler selects for the buyer: the one whose origin is
    this order, else the latest code of the referrer. *)
Definition selectedCode (w : World) (orderId : string) (referrer : Referrer.t)
  : option Code.t :=
  match find (fun c => opt_eqb String.eqb (Code.originOrderId c) (Some orderId)) (codesOf w) with
  | Some c => Some c
  | None => latestCodeOf (Referrer.id referrer) (codesOf w)
  end.

(** The expiry that the handler computes. *)
Definition expiryAt (t : Z) (settings : Settings.t) : option Z :=
  if 0 <? Settings.codeValidityDays settings
  then Some (t + Settings.codeValidityDays settings * msPerDay)
  else None.

(** Whether that expiry is a valid date. *)
Definition validExpiry (t : Z) (settings : Settings.t) : bool :=
  match expiryAt t settings with
  | Some e => Z.abs e <=? maxTime
  | None => true
  end.

(** Two records of a code that agree on everything but the link to the
    discount object and the update stamp. *)
Definition sameTerms (a b : Code.t) : Prop :=
  Code.id a = Code.id b /\ Code.code a = Code.code b /\
  Code.referrerId a = Code.referrerId b /\
  Code.maxUsage a = Code.maxUsage b /\ Code.expiresAt a = Code.expiresAt b /\
  Code.originOrderId a = Code.originOrderId b /\
  Code.originOrderGid a = Code.originOrderGid b /\
  Code.workshopProductId a = Code.workshopProductId b /\
  Code.workshopProductTitle a = Code.workshopProductTitle b /\
  Code.workshopQuantity a = Code.workshopQuantity b /\
  Code.discountSnapshot a = Code.discountSnapshot b /\
  Code.cashbackSnapshot a = Code.cashbackSnapshot b.

(** The referrals and the rewards, the two tables of the attribution. *)
Definition ledger (w : World) : list Referral.t * list Reward.t :=
  (referralsOf w, rewardsOf w).


(** The first half of the handler: the settings, the workshop, the
    referrer of the buyer and their code. *)
Definition issuePhase (payload : ShopifyOrderPaidPayload) (orderId : string)
    (buyer : ShopifyCustomerPayload) : M (Settings.t * Workshop) :=
  settings <- getReferralSettings ;;
  ws <- fetchWorkshop orderId ;;
  referrer <- getOrCreateReferrerFromCustomer buyer ;;
  issueOrRefreshCode payload orderId settings ws referrer ;;;
  ret (settings, ws).

(** ** The claims, as they are stated *)

Section Stated.

Variable parseFloat : string -> number.

(** The ceiling rule for every known order total: the settlement of a
    pending reward is rejected whenever the amount already paid plus the
    amount of the reward exceeds the total times the fraction. *)
Definition ceiling_enforced_for_every_total : Prop :=
  forall w rewardId ov reward gid total,
    findReward rewardId w = Some reward ->
    Reward.status reward = PENDING ->
    resolvedOrder w reward ov = Some gid ->
    str_truthy gid = true ->
    orderTotalOf parseFloat w gid = Some total ->
    Num.gt (Num.add (alreadyPaid parseFloat w reward ov) (Reward.amount reward))
           (Num.mul total (Settings.maxRefundPercentage (currentSettings (db w)))) = true ->
    exists refundLeft,
      snd (processRewardRefund parseFloat rewardId ov w)
      = Thrown (RefundCeilingExceeded refundLeft (Reward.currency reward)).

End Stated.

(** The mark-as-paid write as a conditional update: on a reward that is no
    longer pending it rewrites neither the status nor [paidAt]. *)
Definition markPaid_is_conditional : Prop :=
  forall w rewardId reward,
    findReward rewardId w = Some reward ->
    Reward.status reward <> PENDING ->
    exists after,
      findReward rewardId (fst (markRewardAsPaid rewardId w)) = Some after /\
      Reward.status after = Reward.status reward /\
      Reward.paidAt after = Reward.paidAt reward.

(** The contact refresh as a copy of the payload: every field that differs
    ends up equal to the incoming one. *)
Definition contact_refresh_copies_payload : Prop :=
  forall w customer existing,
    findReferrerOf customer w = Some existing ->
    contactDiffers existing customer = true ->
    exists r,
      snd (getOrCreateReferrerFromCustomer customer w) = Returned r /\
      (strict_neq (Referrer.email existing) (customer_email customer) = true ->
       Referrer.email r = nullish (customer_email customer)) /\
      (strict_neq (Referrer.firstName existing) (first_name customer) = true ->
       Referrer.firstName r = nullish (first_name customer)) /\
      (strict_neq (Referrer.lastName existing) (last_name customer) = true ->
       Referrer.lastName r = nullish (last_name customer)).

(** The store-credit fallback as the rule whenever the order shows no
    successful capture or sale. *)
Definition fallback_whenever_no_capture : Prop :=
  forall w orderGid amount currency note edges,
    orderTransactions (shopify w) orderGid = Some edges ->
    find edge_valid edges = None ->
    let w' := fst (createReferralRefund orderGid amount currency note w) in
    (forall v, In v (refundCalls w') -> ~ In v (refundCalls w) ->
       exists gateway, rv_target v = Gateway gateway)
    /\ In (WarnStoreCreditFallback orderGid) (console w').

(** The attribution of a reused code as "first purchase wins": the origin
    order and the product that the code already carries are kept. *)
Definition first_purchase_wins : Prop :=
  forall w payload orderId settings ws referrer codeRecord c',
    selectedCode w orderId referrer = Some codeRecord ->
    snd (issueOrRefreshCode payload orderId settings ws referrer w) = Returned c' ->
    (Code.originOrderId codeRecord <> None ->
     Code.originOrderId c' = Code.originOrderId codeRecord) /\
    (Code.workshopProductId codeRecord <> None ->
     Code.workshopProductId c' = Code.workshopProductId codeRecord).


(** ** Worlds on which the properties are run *)

Definition demoGid : string := "gid://shopify/Order/1".

Definition demoCode (id code referrerId : string) (gid : option string) : Code.t :=
  Code.mk id code referrerId None 0 0 true 0 0 None (Some "1") gid None None 1 None None.

Definition demoReferral (id referrerId : string) (codeId orderId : option string) : Referral.t :=
  Referral.mk id referrerId codeId None None None None orderId None None 0.

Definition demoReward (id referrerId : string) (referralId : option string)
    (amount : number) (status : RewardStatus) (paidAt : option Z) : Reward.t :=
  Reward.mk id referrerId referralId amount "EUR" status None None None 0 0 paidAt.

Definition demoSettings (cashback maxRefund : number) : AppSetting.t :=
  AppSetting.mk (Num.dec 1 1) cashback 30 true 0 (Some maxRefund) (Some []) 0 0.

(** One referrer whose code came from an order of 100.00; a reward of 30
    already paid against it, two pending ones of 25 and 20, and one that an
    operator marked as failed. At most half of an order may be refunded. *)
Definition demoDb : Db :=
  mkDb [Referrer.mk "ref1" "cust1" (Some "anna@example.org") None None 0 0]
       [demoCode "code1" "ABC-1234" "ref1" (Some demoGid)]
       [demoReferral "rl1" "ref1" (Some "code1") (Some "1001");
        demoReferral "rl2" "ref1" (Some "code1") (Some "1002");
        demoReferral "rl3" "ref1" (Some "code1") (Some "1003");
        demoReferral "rl4" "ref1" (Some "code1") (Some "1004")]
       [demoReward "rw1" "ref1" (Some "rl1") (Num.ofZ 30) PAID (Some 500);
        demoReward "rw2" "ref1" (Some "rl2") (Num.ofZ 25) PENDING None;
        demoReward "rw3" "ref1" (Some "rl3") (Num.ofZ 20) PENDING None;
        demoReward "rw4" "ref1" (Some "rl4") (Num.ofZ 20) FAILED None]
       (Some (demoSettings (Num.ofZ 20) (Num.dec 5 1)))
       [].

Definition captured (id : string) : option Transaction :=
  Some (mkTransaction (Some id) (Some "CAPTURE") (Some "SUCCESS")).

Definition demoShopify (total : option (option string))
    (transactions : option (list (option Transaction)))
    (replies : nat -> RefundReply) : Shopify :=
  mkShopify (fun _ => total) (fun _ => transactions) (fun _ => None)
            replies (fun _ => UpdateThrows) (fun _ => None).

Definition demoIds (n : nat) : string := "id" ++ string_of_N (N.of_nat n).

Definition worldWith (d : Db) (s : Shopify) : World :=
  mkWorld d 1000 0 demoIds 0 (fun n => N.of_nat n) s [] None Delivers [].

Definition demoWorld : World :=
  worldWith demoDb
    (demoShopify (Some (Some "100.00")) (Some [captured "tx1"])
                 (fun _ => Payload [] "refund1")).

(** The same database with a second referrer, whose code came from order
    1002. *)
Definition rivalDb : Db :=
  mkDb (referrers demoDb ++ [Referrer.mk "ref2" "cust2" (Some "bob@example.org") None None 0 0])
       (codes demoDb
        ++ [Code.mk "code2" "XYZ-5678" "ref2" None 0 0 true 0 0 None
              (Some "1002") (Some "gid://shopify/Order/1002") None None 1 None None])
       (referrals demoDb) (rewards demoDb) (appSetting demoDb) [].

Definition rivalWorld : World :=
  worldWith rivalDb
    (demoShopify (Some (Some "100.00")) (Some [captured "tx1"])
                 (fun _ => Payload [] "refund1")).

(** A code used as often as its limit of 2 allows, and a code whose counter
    is at the end of its column. *)
Definition usedUpWorld : World :=
  worldWith
    (mkDb [Referrer.mk "ref1" "cust1" (Some "anna@example.org") None None 0 0]
          [Code.mk "code1" "ABC-1234" "ref1" None 2 2 true 0 0 None
             (Some "1") (Some demoGid) None None 1 None None;
           Code.mk "code9" "MAX-9999" "ref1" None 2147483647 0 true 0 0 None
             (Some "9") None None None 1 None None]
          [] [] None [])
    (demoShopify (Some (Some "100.00")) (Some [captured "tx1"])
                 (fun _ => Payload [] "refund1")).

(** The demo database under settings whose validity reaches past the last
    date. *)
Definition farFutureWorld : World :=
  worldWith
    (mkDb (referrers demoDb) (codes demoDb) (referrals demoDb) (rewards demoDb)
          (Some (AppSetting.mk (Num.dec 1 1) (Num.ofZ 20) 200000000 true 0
                   (Some (Num.dec 5 1)) (Some []) 0 0))
          [])
    (demoShopify (Some (Some "100.00")) (Some [captured "tx1"])
                 (fun _ => Payload [] "refund1")).

Definition unavailable : UserError :=
  mkUserError (Some "Order is temporarily unavailable to be modified").

Definition invalidAmount : UserError :=
  mkUserError (Some "Refund amount exceeds the refundable amount").

(** The platform keeps answering that the order is locked. *)
Definition lockedWorld : World :=
  worldWith demoDb
    (demoShopify (Some (Some "100.00")) (Some [captured "tx1"])
                 (fun _ => Payload [unavailable] "")).

(** The platform rejects the refund for good. *)
Definition rejectingWorld : World :=
  worldWith demoDb
    (demoShopify (Some (Some "100.00")) (Some [captured "tx1"])
                 (fun _ => Payload [invalidAmount] "")).

(** The order is free of charge. *)
Definition zeroTotalWorld : World :=
  worldWith demoDb
    (demoShopify (Some (Some "0.00")) (Some [captured "tx1"])
                 (fun _ => Payload [] "refund1")).

(** The order only shows an authorization. *)
Definition authorizedOnlyWorld : World :=
  worldWith demoDb
    (demoShopify (Some (Some "100.00"))
                 (Some [Some (mkTransaction (Some "tx9") (Some "AUTHORIZATION") (Some "SUCCESS"))])
                 (fun _ => Payload [] "refund1")).

(** The order shows no transaction at all. *)
Definition noTransactionWorld : World :=
  worldWith demoDb
    (demoShopify (Some (Some "100.00")) (Some []) (fun _ => Payload [] "refund1")).

Definition cashback50 : Settings.partial :=
  Settings.mkPartial None (Some (Num.ofZ 50)) None None None None None.

Definition paramsFor (settings : Settings.t) : CreateCodeParams :=
  mkCreateCodeParams "ref1" settings (Some "2001") None None None None (Some false).

(** A referrer whose code came from order 1001, for product P1. *)
Definition repeatBuyerWorld : World :=
  worldWith
    (mkDb [Referrer.mk "ref1" "cust1" (Some "anna@example.org") None None 0 0]
          [Code.mk "code1" "ABC-1234" "ref1" None 0 0 true 0 0 (Some 5000)
             (Some "1001") (Some "gid://shopify/Order/1001")
             (Some "P1") (Some "Workshop one") 1 (Some (Num.dec 1 1)) (Some (Num.ofZ 20))]
          [] []
          (Some (AppSetting.mk (Num.dec 2 1) (Num.ofZ 50) 10 true 7 (Some (Num.ofZ 1)) (Some []) 0 0))
          [])
    (mkShopify (fun _ => None) (fun _ => None)
       (fun _ => Some [mkLineItem (Some "P2") "V2" (Some "Workshop two") None (Some 2)])
       (fun _ => CallThrows) (fun _ => UpdateThrows) (fun _ => None)).

Definition secondPurchase : ShopifyOrderPaidPayload :=
  mkPayload (Some "1002") (Some "gid://shopify/Order/1002") None (Some "EUR") []
    (Some (mkCustomer "cust1" (Val "anna@example.org") Null Null)).

(** A purchase with code ABC-1234 by another customer. *)
Definition referredPurchase : ShopifyOrderPaidPayload :=
  mkPayload (Some "3001") (Some "gid://shopify/Order/3001") (Some "bob@example.org")
    (Some "EUR") [Some " ABC-1234 "]
    (Some (mkCustomer "cust2" (Val "bob@example.org") (Val "Bob") Null)).

(** ** Code generation: vocabulary *)

(** The text that [generateReferralCode] builds from the four draws that
    start at position [n] of the random supply. *)
Definition codeAt (w : World) (n : nat) : string :=
  letter (N.modulo (rng w n) 26) ++ letter (N.modulo (rng w (n + 1)) 26)
  ++ letter (N.modulo (rng w (n + 2)) 26) ++ "-"
  ++ string_of_N (1000 + N.modulo (rng w (n + 3)) 9000).

(** The [i]-th candidate that [createCodeForReferrer] draws in [w]. *)
Definition candidate (w : World) (i : nat) : string :=
  codeAt w (rngNext w + 4 * i).

(** Whether a row of [Code] already carries the text. *)
Definition codeTaken (w : World) (code : string) : bool :=
  existsb (fun c => String.eqb (Code.code c) code) (codes (db w)).

Definition isUpper (c : ascii) : bool :=
  (Nat.leb 65 (nat_of_ascii c) && Nat.leb (nat_of_ascii c) 90)%bool.

Definition isDigit (c : ascii) : bool :=
  (Nat.leb 48 (nat_of_ascii c) && Nat.leb (nat_of_ascii c) 57)%bool.

(** The shape [LLL-dddd]. *)
Definition wellFormedCode (s : string) : bool :=
  match s with
  | String a (String b (String c (String h (String d1 (String d2 (String d3 (String d4 EmptyString))))))) =>
      (isUpper a && isUpper b && isUpper c && Ascii.eqb h "-"
       && negb (Ascii.eqb d1 "0") && isDigit d1 && isDigit d2 && isDigit d3 && isDigit d4)%bool
  | _ => false
  end.

(** The mail step of [createCodeForReferrer], for the row just written. *)
Definition promoMail (p : CreateCodeParams) (codeRecord : Code.t) : M unit :=
  if orDefault (cc_sendEmail p) true then
    try_catch
      (referrer <- referrer_findById (cc_referrerId p) ;;
       sendPromoCodeEmail (cc_referrerId p) (Code.id codeRecord)
         (match referrer with Some r => Referrer.email r | None => None end))
      (fun _ => log ErrPromoEmail)
  else ret tt.

(** [n] uses of a code in a row. *)
Fixpoint useTimes (n : nat) (codeId : string) : M unit :=
  match n with
  | O => ret tt
  | S n' => markCodeAsUsed codeId ;;; useTimes n' codeId
  end.

(** ** The referrer registry: vocabulary *)

(** The contact fields after a refresh by a payload. *)
Definition refreshedContact (customer : ShopifyCustomerPayload) (r : Referrer.t)
  : option string * option string * option string :=
  (orElse (nullish (customer_email customer)) (Referrer.email r),
   orElse (nullish (first_name customer)) (Referrer.firstName r),
   orElse (nullish (last_name customer)) (Referrer.lastName r)).

Definition contactOf (r : Referrer.t) : option string * option string * option string :=
  (Referrer.email r, Referrer.firstName r, Referrer.lastName r).

(** [Referrer.id] is the primary key. *)
Definition referrerKeys (w : World) : list string := map Referrer.id (referrersOf w).

(** [Referrer.shopifyCustomerId] carries a unique index. *)
Definition customerKeys (w : World) : list string :=
  map Referrer.shopifyCustomerId (referrersOf w).

(** ** The reward ledger: vocabulary *)

(** The referrals that carry a reward; [Reward.referralId] has a unique
    index, which admits any number of [NULL]s. *)
Definition rewardLinks (w : World) : list string :=
  flat_map (fun r => match Reward.referralId r with
                     | Some id => [id]
                     | None => []
                     end) (rewardsOf w).

(** ** Texts: vocabulary *)

Fixpoint noSlash (s : string) : bool :=
  match s with
  | EmptyString => true
  | String c t => (negb (Ascii.eqb c "/") && noSlash t)%bool
  end.

(** The encoding of one white-space character. *)
Definition Space : string -> Prop := SpaceOf space1 space2 space3.

(** A text made of white space only; the empty text is one. *)
Definition Blank : string -> Prop := BlankOf space1 space2 space3.

Definition startsWithSpace (s : string) : Prop :=
  exists sp rest, Space sp /\ s = sp ++ rest.

Definition endsWithSpace (s : string) : Prop :=
  exists sp rest, Space sp /\ s = rest ++ sp.

(** ** Settings: vocabulary *)

(** The settings that [updateReferralSettings] computes: a field of the
    partial update when it is given, else the field in force. *)
Definition mergeSettings (partial : Settings.partial) (existing : Settings.t) : Settings.t :=
  Settings.mk
    (orDefault (Settings.p_discountPercentage partial) (Settings.discountPercentage existing))
    (orDefault (Settings.p_cashbackAmount partial) (Settings.cashbackAmount existing))
    (orDefault (Settings.p_codeValidityDays partial) (Settings.codeValidityDays existing))
    (orDefault (Settings.p_appliesOncePerCustomer partial) (Settings.appliesOncePerCustomer existing))
    (orDefault (Settings.p_maxUsagePerCode partial) (Settings.maxUsagePerCode existing))
    (orDefault (Settings.p_maxRefundPercentage partial) (Settings.maxRefundPercentage existing))
    (orDefault (Settings.p_customerSegmentIds partial) (Settings.customerSegmentIds existing)).

Definition noChange : Settings.partial :=
  Settings.mkPartial None None None None None None None.

(** The creation stamp of the settings row, once one is installed. *)
Definition settingsCreatedAt (w : World) : Z :=
  match appSetting (db w) with
  | Some row => AppSetting.createdAt row
  | None => clock w
  end.

(** ** Discounts: vocabulary *)

(** What [recreateShopifyDiscount] answers for a code, given the answers of
    the platform: the updated discount of a linked code, a new discount for
    a code without link or whose update names no discount, and nothing when
    the update or the creation fails. *)
Definition discountAnswer (s : Shopify) (code : Code.t) : option DiscountCreateResult :=
  match Code.shopifyDiscountId code with
  | Some linked =>
      if str_truthy linked then
        match discountUpdate s linked with
        | UpdateThrows | UpdateUserErrors => None
        | UpdateNode node_id node_code =>
            if opt_truthy node_id
            then Some (mkDiscount (orDefault node_id "") (orDefault node_code (Code.code code)))
            else discountCreate s (Code.code code)
        end
      else discountCreate s (Code.code code)
  | None => discountCreate s (Code.code code)
  end.

(** ** The code of a first purchase: vocabulary *)

(** The terms of a code: the row without the columns that later uses and
    synchronisations write -- the usage counter, the discount link and the
    update stamp. *)
Definition termsOfCode (c : Code.t) : Code.t :=
  Code.mk (Code.id c) (Code.code c) (Code.referrerId c) None 0 (Code.maxUsage c)
    (Code.active c) (Code.createdAt c) 0 (Code.expiresAt c)
    (Code.originOrderId c) (Code.originOrderGid c)
    (Code.workshopProductId c) (Code.workshopProductTitle c) (Code.workshopQuantity c)
    (Code.discountSnapshot c) (Code.cashbackSnapshot c).

Definition codeTerms (w : World) : list Code.t := map termsOfCode (codesOf w).

(** The workshop that the handler reads for an order. *)
Definition workshopFor (w : World) (orderId : string) : Workshop :=
  match orderDetails (shopify w) orderId with
  | Some lineItems => workshopOf lineItems
  | None => mkWorkshop None None 1
  end.

(** The codes by their terms, and the referrers. *)
Definition registry (w : World) : list Code.t * list Referrer.t :=
  (codeTerms w, referrersOf w).

(** ** referrers.server.ts: deleting a referrer

    The foreign keys are those of the migration [init_clean]: a referral and
    an e-mail log point to a code, and a reward to a referral, with
    [ON DELETE SET NULL]; codes, referrals, rewards and e-mail logs point to
    their referrer with [ON DELETE RESTRICT]. *)

Definition unlink_reward (gone : list string) (r : Reward.t) : Reward.t :=
  match Reward.referralId r with
  | Some id =>
      if existsb (String.eqb id) gone then
        Reward.mk (Reward.id r) (Reward.referrerId r) None (Reward.amount r)
          (Reward.currency r) (Reward.status r) (Reward.notes r)
          (Reward.workshopProductId r) (Reward.workshopProductTitle r)
          (Reward.createdAt r) (Reward.updatedAt r) (Reward.paidAt r)
      else r
  | None => r
  end.

Definition unlink_referral (gone : list string) (r : Referral.t) : Referral.t :=
  match Referral.codeId r with
  | Some id =>
      if existsb (String.eqb id) gone then
        Referral.mk (Referral.id r) (Referral.referrerId r) None
          (Referral.refereeShopifyCustomerId r) (Referral.refereeEmail r)
          (Referral.refereeFirstName r) (Referral.refereeLastName r)
          (Referral.orderId r) (Referral.workshopProductId r)
          (Referral.workshopProductTitle r) (Referral.createdAt r)
      else r
  | None => r
  end.

Definition unlink_emailLog (gone : list string) (l : EmailLog.t) : EmailLog.t :=
  match EmailLog.codeId l with
  | Some id =>
      if existsb (String.eqb id) gone then
        EmailLog.mk (EmailLog.id l) None (EmailLog.referrerId l)
          (EmailLog.templateType l) (EmailLog.recipientEmail l) (EmailLog.status l)
      else l
  | None => l
  end.

(** [prisma.emailLog.deleteMany({ where: { referrerId } })] *)
Definition emailLog_deleteMany (referrerId : string) (d : Db) : Db :=
  set_emailLogs
    (filter (fun l => negb (String.eqb (EmailLog.referrerId l) referrerId)) (emailLogs d)) d.

(** [prisma.reward.deleteMany({ where: { referrerId } })] *)
Definition reward_deleteMany (referrerId : string) (d : Db) : Db :=
  set_rewards
    (filter (fun r => negb (String.eqb (Reward.referrerId r) referrerId)) (rewards d)) d.

(** [prisma.referral.deleteMany({ where: { referrerId } })]: the rewards
    that pointed to a deleted referral lose their link. *)
Definition referral_deleteMany (referrerId : string) (d : Db) : Db :=
  let gone :=
    map Referral.id
      (filter (fun r => String.eqb (Referral.referrerId r) referrerId) (referrals d)) in
  set_rewards (map (unlink_reward gone) (rewards d))
    (set_referrals
       (filter (fun r => negb (String.eqb (Referral.referrerId r) referrerId)) (referrals d)) d).

(** [prisma.code.deleteMany({ where: { referrerId } })]: the referrals and
    the e-mail logs that pointed to a deleted code lose their link. *)
Definition code_deleteMany (referrerId : string) (d : Db) : Db :=
  let gone :=
    map Code.id (filter (fun c => String.eqb (Code.referrerId c) referrerId) (codes d)) in
  set_emailLogs (map (unlink_emailLog gone) (emailLogs d))
    (set_referrals (map (unlink_referral gone) (referrals d))
       (set_codes
          (filter (fun c => negb (String.eqb (Code.referrerId c) referrerId)) (codes d)) d)).

(** Whether a row still points to the referrer. *)
Definition referencedBy (referrerId : string) (d : Db) : bool :=
  (existsb (fun c => String.eqb (Code.referrerId c) referrerId) (codes d)
   || existsb (fun r => String.eqb (Referral.referrerId r) referrerId) (referrals d)
   || existsb (fun r => String.eqb (Reward.referrerId r) referrerId) (rewards d)
   || existsb (fun l => String.eqb (EmailLog.referrerId l) referrerId) (emailLogs d))%bool.

(** The error with which the transaction is rejected. *)
Inductive TransactionFailure :=
| ReferrerNotFound            (* the row to delete does not exist *)
| ReferrerStillReferenced.    (* a foreign key with [ON DELETE RESTRICT] *)

(** [prisma.referrer.delete({ where: { id } })] *)
Definition referrer_delete (id : string) (d : Db) : Db + TransactionFailure :=
  if existsb (fun r => String.eqb (Referrer.id r) id) (referrers d) then
    if referencedBy id d then inr ReferrerStillReferenced
    else inl (set_referrers
                (filter (fun r => negb (String.eqb (Referrer.id r) id)) (referrers d)) d)
  else inr ReferrerNotFound.

(** [prisma.$transaction([...])]: the five writes, or none of them. *)
Definition deleteTransaction (referrerId : string) (d : Db) : Db + TransactionFailure :=
  referrer_delete referrerId
    (code_deleteMany referrerId
       (referral_deleteMany referrerId
          (reward_deleteMany referrerId
             (emailLog_deleteMany referrerId d)))).

Section DeleteReferrer.

(** [deleteShopifyDiscount] of discounts.server.ts: a call to the platform,
    which may throw. *)
Variable deleteShopifyDiscount : string -> M unit.

(** The [for (const code of codes)] loop: a failure of one deletion is
    caught and the loop goes on. The console line of each turn is not
    kept. *)
Fixpoint deleteDiscounts (codes : list Code.t) : M unit :=
  match codes with
  | [] => ret tt
  | code :: rest =>
      (if opt_truthy (Code.shopifyDiscountId code) then
         try_catch (deleteShopifyDiscount (orDefault (Code.shopifyDiscountId code) ""))
                   (fun _ => ret tt)
       else ret tt) ;;;
      deleteDiscounts rest
  end.

(** [deleteReferrer]; the rejection of the transaction is the value
    answered, [None] when the promise resolves. *)
Definition deleteReferrer (referrerId : string) : M (option TransactionFailure) :=
  codes <- readDb (fun d =>
    filter (fun c => String.eqb (Code.referrerId c) referrerId) (codes d)) ;;
  deleteDiscounts codes ;;;
  d <- readDb (fun d => d) ;;
  match deleteTransaction referrerId d with
  | inl d' => writeDb (fun _ => d') ;;; ret None
  | inr e => ret (Some e)
  end.

End DeleteReferrer.

(** Every link of the database points to a stored row. *)
Definition linksResolve (d : Db) : Prop :=
  (forall r id, In r (referrals d) -> Referral.codeId r = Some id ->
     In id (map Code.id (codes d)))
  /\ (forall l id, In l (emailLogs d) -> EmailLog.codeId l = Some id ->
        In id (map Code.id (codes d)))
  /\ (forall r id, In r (rewards d) -> Reward.referralId r = Some id ->
        In id (map Referral.id (referrals d))).

(** The rows of the database that belong to other referrers. *)
Definition othersOf {R} (owner : R -> string) (referrerId : string) (rows : list R) : list R :=
  filter (fun r => negb (String.eqb (owner r) referrerId)) rows.

(** ** The actions of the administration pages

    The action of the rewards page (app.rewards.tsx) and the action of the
    page of one referrer, once [authenticate.admin] has let the request in.
    A field of the form is [None] when [formData.get] does not answer a
    string. A redirection is kept as its target and the error it carries;
    the text of the error is that of the [Failure]. *)

Inductive Reason :=
| ReferrerIdMissing            (* "Parrain introuvable." *)
| RewardIdMissing              (* "Identifiant de recompense manquant." *)
| CodeIdMissing                (* "Identifiant de code manquant." *)
| CodeNotOfReferrer            (* "Code introuvable pour ce parrain." *)
| CodeNotLinked                (* "Ce code n'est pas lie a un discount Shopify." *)
| DiscountNotSynchronised      (* "Impossible de synchroniser le discount Shopify." *)
| Rejected (e : TransactionFailure)
| Failed (e : Failure).

Inductive PageResponse :=
| ToRewards (error : option Reason)      (* /app/rewards?success=1 or ?error= *)
| ToReferrers (error : option Reason)    (* /app/referrers?success= or ?error= *)
| ToReferrer (error : option Reason)     (* /app/parrain/:id?success=1 or ?error= *)
| Json (status : Z) (error : option Reason).

Record PageForm := mkPageForm {
  form_intent : option string;
  form_codeId : option string;
  form_rewardId : option string;
  form_orderGid : option string;
  isFetcherRequest : bool        (* the header [X-Remix-Request] is [fetcher] *)
}.

(** The answer to a failure: JSON to a fetcher, a redirection otherwise. *)
Definition refuse (form : PageForm) (status : Z) (reason : Reason) : PageResponse :=
  if isFetcherRequest form then Json status (Some reason) else ToReferrer (Some reason).

Definition accept (form : PageForm) : PageResponse :=
  if isFetcherRequest form then Json 200 None else ToReferrer None.

(** The [data] of the update of a synchronised code. *)
Definition synced (discountId : string) (settings : Settings.t) (c : Code.t) : Code.t :=
  Code.mk (Code.id c) (Code.code c) (Code.referrerId c) (Some discountId)
    (Code.usageCount c)
    (Settings.maxUsagePerCode settings)
    (Code.active c) (Code.createdAt c) (Code.updatedAt c) (Code.expiresAt c)
    (Code.originOrderId c) (Code.originOrderGid c)
    (Code.workshopProductId c) (Code.workshopProductTitle c) (Code.workshopQuantity c)
    (Some (Settings.discountPercentage settings))
    (Some (Settings.cashbackAmount settings)).

(** [orderGidRaw.trim().length > 0 ? orderGidRaw.trim() : undefined] *)
Definition overrideOf (orderGidRaw : option string) : option string :=
  match orderGidRaw with
  | Some raw => if (0 <? String.length (trim raw))%nat then Some (trim raw) else None
  | None => None
  end.

Section Pages.

Variable parseFloat : string -> number.
Variable deleteShopifyDiscount : string -> M unit.

(** [action] of app.rewards.tsx *)
Definition rewardsAction (rewardId : option string) : M PageResponse :=
  if negb (opt_truthy rewardId) then ret (ToRewards (Some RewardIdMissing))
  else
    try_catch
      (processRewardRefund parseFloat (orDefault rewardId "") None ;;;
       ret (ToRewards None))
      (fun e => ret (ToRewards (Some (Failed e)))).

(** The [delete] intent. *)
Definition deleteIntent (referrerId : string) : M PageResponse :=
  try_catch
    (rejection <- deleteReferrer deleteShopifyDiscount referrerId ;;
     match rejection with
     | None => ret (ToReferrers None)
     | Some e => ret (ToReferrer (Some (Rejected e)))
     end)
    (fun e => ret (ToReferrer (Some (Failed e)))).

(** The [sync-discount] intent. *)
Definition syncIntent (referrerId : string) (form : PageForm) : M PageResponse :=
  if negb (opt_truthy (form_codeId form)) then ret (refuse form 400 CodeIdMissing)
  else
    let codeId := orDefault (form_codeId form) "" in
    code <- readDb (fun d => find (fun c => String.eqb (Code.id c) codeId) (codes d)) ;;
    match code with
    | None => ret (refuse form 404 CodeNotOfReferrer)
    | Some code =>
        if negb (String.eqb (Code.referrerId code) referrerId)
        then ret (refuse form 404 CodeNotOfReferrer)
        else if negb (opt_truthy (Code.shopifyDiscountId code))
        then ret (refuse form 400 CodeNotLinked)
        else
          try_catch
            (settings <- getReferralSettings ;;
             discount <- recreateShopifyDiscount code ;;
             match discount with
             | None => ret (refuse form 400 DiscountNotSynchronised)
             | Some d =>
                 code_update (Code.id code) (synced (discountId d) settings) ;;;
                 ret (accept form)
             end)
            (fun e => ret (refuse form 400 (Failed e)))
    end.

(** The settlement of a reward from the page, with the order picked there. *)
Definition refundIntent (form : PageForm) : M PageResponse :=
  let orderGid := overrideOf (form_orderGid form) in
  if negb (opt_truthy (form_rewardId form)) then ret (ToReferrer (Some RewardIdMissing))
  else
    try_catch
      (processRewardRefund parseFloat (orDefault (form_rewardId form) "") orderGid ;;;
       ret (accept form))
      (fun e => ret (refuse form 400 (Failed e))).

(** [action] of the page of one referrer; [referrerId] is [params.id]. *)
Definition referrerAction (referrerId : option string) (form : PageForm) : M PageResponse :=
  if negb (opt_truthy referrerId) then ret (ToReferrers (Some ReferrerIdMissing))
  else
    let referrerId := orDefault referrerId "" in
    if opt_eqb String.eqb (form_intent form) (Some "delete") then deleteIntent referrerId
    else if opt_eqb String.eqb (form_intent form) (Some "sync-discount")
    then syncIntent referrerId form
    else refundIntent form.

End Pages.

(** * Properties *)

(** ** Projections of the world that an operation leaves alone *)

Section Keeps.

Context {B : Type} (proj : World -> B).

Lemma keeps_ret {A} (a : A) : keeps proj (ret a).
Proof. intro w. reflexivity. Qed.

Lemma keeps_throw {A} (e : Failure) : keeps proj (@throw A e).
Proof. intro w. reflexivity. Qed.

Lemma keeps_gets {A} (f : World -> A) : keeps proj (gets f).
Proof. intro w. reflexivity. Qed.

Lemma keeps_bind {A C} (m : M A) (k : A -> M C) :
  keeps proj m -> (forall a, keeps proj (k a)) -> keeps proj (bind m k).
Proof.
  intros Hm Hk w. unfold bind.
  specialize (Hm w). destruct (m w) as [w' [a | e]]; simpl in *.
  - rewrite Hk. exact Hm.
  - exact Hm.
Qed.

Lemma keeps_try_catch {A} (m : M A) (h : Failure -> M A) :
  keeps proj m -> (forall e, keeps proj (h e)) -> keeps proj (try_catch m h).
Proof.
  intros Hm Hh w. unfold try_catch.
  specialize (Hm w). destruct (m w) as [w' [a | e]]; simpl in *.
  - exact Hm.
  - rewrite Hh. exact Hm.
Qed.

End Keeps.

Create HintDb keeps.

(** Walks through an operation, leaving the leaves that write. *)
Ltac keeps_step :=
  match goal with
  | |- forall _, _ => intro
  | |- keeps _ (bind _ _) => apply keeps_bind
  | |- keeps _ (try_catch _ _) => apply keeps_try_catch
  | |- keeps _ (ret _) => apply keeps_ret
  | |- keeps _ (throw _) => apply keeps_throw
  | |- keeps _ (gets _) => apply keeps_gets
  | |- keeps _ (readDb _) => apply keeps_gets
  | |- keeps _ now => apply keeps_gets
  | |- keeps _ (modify _) => intro; reflexivity
  | |- keeps _ (writeDb _) => intro; reflexivity
  | |- keeps _ (log _) => intro; reflexivity
  | |- keeps _ (sleep _) => intro; reflexivity
  | |- keeps _ freshId => intro; reflexivity
  | |- keeps _ (randomBelow _) => intro; reflexivity
  | |- keeps _ (match ?x with _ => _ end) => destruct x
  | |- keeps _ (let '(_, _) := ?x in _) => destruct x
  | |- keeps _ _ => solve [auto with keeps]
  end.

Ltac keeps_auto := repeat keeps_step.

(** ** Outcomes *)

Lemma wp_bind {A C} (m : M A) (k : A -> M C) w Q :
  wp m w (fun w' o =>
    match o with
    | Returned a => wp (k a) w' Q
    | Thrown e => Q w' (Thrown e)
    end) ->
  wp (bind m k) w Q.
Proof.
  unfold wp, bind. destruct (m w) as [w' [a | e]]; simpl; auto.
Qed.

Lemma wp_run {A} (m : M A) w w' o (Q : World -> Outcome A -> Prop) :
  m w = (w', o) -> wp m w Q -> Q w' o.
Proof. unfold wp. intros ->. auto. Qed.

(** ** Rows *)

Lemma update_first_find {R} (p : R -> bool) (f : R -> R) rows r' rows' :
  update_first p f rows = Some (r', rows') ->
  (forall r, p r = true -> p (f r) = true) ->
  find p rows' = Some r'.
Proof.
  revert r' rows'. induction rows as [| r rest IH]; intros r' rows' H Hp; simpl in H.
  - discriminate.
  - destruct (p r) eqn:E.
    + inversion H; subst. simpl. rewrite (Hp _ E). reflexivity.
    + destruct (update_first p f rest) as [[r1 rest1] |] eqn:E1; [| discriminate].
      inversion H; subst. simpl. rewrite E. eapply IH; eauto.
Qed.

Lemma update_first_found {R} (p : R -> bool) (f : R -> R) rows r :
  find p rows = Some r ->
  exists rows', update_first p f rows = Some (f r, rows').
Proof.
  induction rows as [| x rest IH]; simpl; intros H.
  - discriminate.
  - destruct (p x) eqn:E.
    + inversion H; subst. eauto.
    + destruct (IH H) as [rows' ->]. eauto.
Qed.

Lemma update_first_none {R} (p : R -> bool) (f : R -> R) rows :
  find p rows = None -> update_first p f rows = None.
Proof.
  induction rows as [| x rest IH]; simpl; intros H; [reflexivity |].
  destruct (p x); [discriminate |]. rewrite (IH H). reflexivity.
Qed.

Lemma update_first_In {R} (p : R -> bool) (f : R -> R) rows r' rows' :
  update_first p f rows = Some (r', rows') -> In r' rows'.
Proof.
  revert r' rows'. induction rows as [| r rest IH]; intros r' rows' H; simpl in H.
  - discriminate.
  - destruct (p r).
    + inversion H; subst. left. reflexivity.
    + destruct (update_first p f rest) as [[r1 rest1] |] eqn:E1; [| discriminate].
      inversion H; subst. right. eapply IH; eauto.
Qed.

Lemma update_first_map {R C} (g : R -> C) (p : R -> bool) (f : R -> R) rows r' rows' :
  update_first p f rows = Some (r', rows') ->
  (forall r, g (f r) = g r) ->
  map g rows' = map g rows.
Proof.
  revert r' rows'. induction rows as [| r rest IH]; intros r' rows' H Hg; simpl in H.
  - discriminate.
  - destruct (p r).
    + inversion H; subst. simpl. rewrite Hg. reflexivity.
    + destruct (update_first p f rest) as [[r1 rest1] |] eqn:E1; [| discriminate].
      inversion H; subst. simpl. f_equal. eapply IH; eauto.
Qed.

Lemma find_taken_false {R} (col : R -> option string) (s : string) (rows : list R) :
  find (fun r => opt_eqb String.eqb (col r) (Some s)) rows = None ->
  taken col (Some s) rows = false.
Proof.
  simpl. induction rows as [| r rest IH]; simpl; intros H; [reflexivity |].
  destruct (opt_eqb String.eqb (col r) (Some s)); [discriminate |]. auto.
Qed.

(** ** The reward ledger *)

Lemma markRewardAsPaid_run w rewardId reward :
  findReward rewardId w = Some reward ->
  let paid := touch_reward (clock w) (paid_at (clock w) reward) in
  exists rows',
    markRewardAsPaid rewardId w = (set_db (set_rewards rows' (db w)) w, Returned paid)
    /\ find (fun r => String.eqb (Reward.id r) rewardId) rows' = Some paid
    /\ map Reward.id rows' = map Reward.id (rewardsOf w)
    /\ map Reward.amount rows' = map Reward.amount (rewardsOf w).
Proof.
  intros Hfind paid.
  destruct (update_first_found _ (fun r => touch_reward (clock w) (paid_at (clock w) r)) _ _ Hfind)
    as [rows' Hup].
  exists rows'. split; [| split; [| split]].
  - unfold markRewardAsPaid, reward_update, bind, now, readDb, gets, writeDb, modify, ret.
    simpl. unfold rewardsOf in Hup. rewrite Hup. reflexivity.
  - eapply update_first_find; [exact Hup |]. intros r Hr. exact Hr.
  - eapply update_first_map; [exact Hup |]. reflexivity.
  - eapply update_first_map; [exact Hup |]. reflexivity.
Qed.

(** C6, as stated, fails: an operator-failed reward is turned into a paid
    one by the mark-as-paid write. *)
Lemma markPaid_rewrites_failed_reward : ~ markPaid_is_conditional.
Proof.
  intro H.
  destruct (H demoWorld "rw4" (demoReward "rw4" "ref1" (Some "rl4") (Num.ofZ 20) FAILED None))
    as [after [Hfind [Hstatus _]]].
  - reflexivity.
  - discriminate.
  - vm_compute in Hfind. inversion Hfind; subst. discriminate.
Qed.

(** C6 (amended). The write that moves a reward to [PAID] is an update by
    identifier alone: for every stored reward, whatever its status, it
    succeeds, sets the status to [PAID] and [paidAt] to the current time, and
    leaves the amount and the identifier as they were. *)
Theorem markRewardAsPaid_unconditional (w : World) (rewardId : string) (reward : Reward.t) :
  findReward rewardId w = Some reward ->
  exists paid,
    snd (markRewardAsPaid rewardId w) = Returned paid /\
    findReward rewardId (fst (markRewardAsPaid rewardId w)) = Some paid /\
    Reward.status paid = PAID /\
    Reward.paidAt paid = Some (clock w) /\
    Reward.amount paid = Reward.amount reward /\
    Reward.id paid = Reward.id reward.
Proof.
  intros Hfind.
  destruct (markRewardAsPaid_run w rewardId reward Hfind) as [rows' [Hrun [Hf _]]].
  eexists. rewrite Hrun. simpl. split; [reflexivity |].
  split; [exact Hf |]. repeat split.
Qed.

Lemma markRewardAsPaid_unconditional_witness :
  exists paid,
    snd (markRewardAsPaid "rw1" demoWorld) = Returned paid /\
    findReward "rw1" (fst (markRewardAsPaid "rw1" demoWorld)) = Some paid /\
    Reward.status paid = PAID /\
    Reward.paidAt paid = Some 1000 /\
    Reward.amount paid = Num.ofZ 30 /\
    Reward.id paid = "rw1".
Proof.
  apply (markRewardAsPaid_unconditional demoWorld "rw1"
           (demoReward "rw1" "ref1" (Some "rl1") (Num.ofZ 30) PAID (Some 500))).
  reflexivity.
Defined.

(** ** The referrer registry *)

Lemma find_other {R} (p q : R -> bool) rows x :
  find q rows = Some x -> p x = true -> exists y, find p rows = Some y /\ p y = true.
Proof.
  intros Hq Hp. apply find_some in Hq. destruct Hq as [Hin _].
  destruct (find p rows) as [y |] eqn:E.
  - exists y. split; [reflexivity |]. apply find_some in E. tauto.
  - pose proof (find_none _ _ E _ Hin) as Hn. congruence.
Qed.

(** C7, as stated, fails: a payload that carries no e-mail differs from the
    stored one, and the stored one is kept. *)
Lemma contact_refresh_keeps_stored_email : ~ contact_refresh_copies_payload.
Proof.
  intro H.
  destruct (H demoWorld (mkCustomer "cust1" Null Undefined Undefined)
              (Referrer.mk "ref1" "cust1" (Some "anna@example.org") None None 0 0))
    as [r [Hrun [Hemail _]]].
  - reflexivity.
  - reflexivity.
  - vm_compute in Hrun. inversion Hrun; subst.
    specialize (Hemail eq_refl). discriminate.
Qed.

(** The record that the contact refresh writes over [row]. *)
Lemma getOrCreate_existing_run (w : World) (customer : ShopifyCustomerPayload)
    (existing : Referrer.t) :
  findReferrerOf customer w = Some existing ->
  if contactDiffers existing customer then
    exists row rows',
      Referrer.id row = Referrer.id existing /\
      let r :=
        touch_referrer (clock w)
          (Referrer.mk (Referrer.id row) (Referrer.shopifyCustomerId row)
             (orElse (nullish (customer_email customer)) (Referrer.email existing))
             (orElse (nullish (first_name customer)) (Referrer.firstName existing))
             (orElse (nullish (last_name customer)) (Referrer.lastName existing))
             (Referrer.createdAt row) (Referrer.updatedAt row)) in
      In r rows' /\
      getOrCreateReferrerFromCustomer customer w
        = (set_db (set_referrers rows' (db w)) w, Returned r)
  else getOrCreateReferrerFromCustomer customer w = (w, Returned existing).
Proof.
  intros Hfind. unfold findReferrerOf, referrersOf in Hfind.
  unfold getOrCreateReferrerFromCustomer, bind, readDb, gets. cbn [fst snd]. rewrite Hfind.
  fold (contactDiffers existing customer).
  destruct (contactDiffers existing customer); [| reflexivity].
  destruct (find_other (fun r => String.eqb (Referrer.id r) (Referrer.id existing)) _ _ _
              Hfind (String.eqb_refl _)) as [row [Hrow Hid]].
  unfold referrer_update, bind, now, readDb, gets, writeDb, modify, ret. cbn [fst snd].
  match goal with
  | |- context [update_first ?p ?f ?rows] =>
      destruct (update_first_found p f rows row Hrow) as [rows' Hup]; rewrite Hup
  end.
  exists row, rows'. apply String.eqb_eq in Hid.
  split; [exact Hid |]. cbv zeta. split; [| reflexivity].
  eapply update_first_In. exact Hup.
Qed.

(** C7 (amended). For an existing referrer: when the e-mail, first name or
    last name of the payload is not strictly equal to the stored one, the
    row is updated; each field for which the payload carries a value takes
    that value, each field the payload leaves null or absent keeps the stored
    value, and [updatedAt] is stamped. When none differs the stored record is
    returned and nothing is written, [updatedAt] included. *)
Theorem referrer_contact_refresh (w : World) (customer : ShopifyCustomerPayload)
    (existing : Referrer.t) :
  findReferrerOf customer w = Some existing ->
  (contactDiffers existing customer = true ->
   exists r,
     snd (getOrCreateReferrerFromCustomer customer w) = Returned r /\
     In r (referrersOf (fst (getOrCreateReferrerFromCustomer customer w))) /\
     Referrer.id r = Referrer.id existing /\
     Referrer.email r = orElse (nullish (customer_email customer)) (Referrer.email existing) /\
     Referrer.firstName r = orElse (nullish (first_name customer)) (Referrer.firstName existing) /\
     Referrer.lastName r = orElse (nullish (last_name customer)) (Referrer.lastName existing) /\
     Referrer.updatedAt r = clock w /\
     (forall e, customer_email customer = Val e -> Referrer.email r = Some e) /\
     (forall n, first_name customer = Val n -> Referrer.firstName r = Some n) /\
     (forall n, last_name customer = Val n -> Referrer.lastName r = Some n))
  /\ (contactDiffers existing customer = false ->
      getOrCreateReferrerFromCustomer customer w = (w, Returned existing)).
Proof.
  intros Hfind.
  pose proof (getOrCreate_existing_run w customer existing Hfind) as Hrun.
  split; intros Hd; rewrite Hd in Hrun.
  - destruct Hrun as [row [rows' [Hid [Hin Heq]]]].
    rewrite Heq. cbn [fst snd].
    eexists. split; [reflexivity |].
    split; [exact Hin |].
    cbn [touch_referrer Referrer.id Referrer.email Referrer.firstName Referrer.lastName
         Referrer.updatedAt].
    split; [exact Hid |].
    repeat split.
    + intros e He. rewrite He. reflexivity.
    + intros n Hn. rewrite Hn. reflexivity.
    + intros n Hn. rewrite Hn. reflexivity.
  - exact Hrun.
Qed.

Lemma referrer_contact_refresh_witness :
  (exists r,
     snd (getOrCreateReferrerFromCustomer
            (mkCustomer "cust1" (Val "anna@new.example") Null Undefined) demoWorld) = Returned r /\
     Referrer.email r = Some "anna@new.example" /\
     Referrer.updatedAt r = 1000)
  /\ getOrCreateReferrerFromCustomer
       (mkCustomer "cust1" (Val "anna@example.org") Null Null) demoWorld
     = (demoWorld, Returned (Referrer.mk "ref1" "cust1" (Some "anna@example.org") None None 0 0)).
Proof.
  split.
  - destruct (referrer_contact_refresh demoWorld
                (mkCustomer "cust1" (Val "anna@new.example") Null Undefined)
                (Referrer.mk "ref1" "cust1" (Some "anna@example.org") None None 0 0)
                eq_refl) as [Hd _].
    destruct (Hd eq_refl) as [r [Hr [_ [_ [He [_ [_ [Hu _]]]]]]]].
    exists r. repeat split; assumption.
  - destruct (referrer_contact_refresh demoWorld
                (mkCustomer "cust1" (Val "anna@example.org") Null Null)
                (Referrer.mk "ref1" "cust1" (Some "anna@example.org") None None 0 0)
                eq_refl) as [_ Hs].
    exact (Hs eq_refl).
Defined.

(** ** Frames of the services *)

Arguments Num.ofZ : simpl never.
Arguments Num.dec : simpl never.
Arguments Num.add : simpl never.
Arguments Num.sub : simpl never.
Arguments Num.mul : simpl never.
Arguments Num.gt : simpl never.
Arguments Num.max : simpl never.

Ltac head_of t :=
  match t with
  | ?f _ => head_of f
  | _ => t
  end.

Ltac keeps_go :=
  repeat first
    [ keeps_step
    | match goal with
      | |- keeps _ ?m => let h := head_of m in progress unfold h
      end ].

Lemma getReferralSettings_value w :
  snd (getReferralSettings w) = Returned (currentSettings (db w)).
Proof.
  unfold getReferralSettings, currentSettings, bind, readDb, gets. simpl.
  destruct (appSetting (db w)); reflexivity.
Qed.

Lemma getReferralSettings_installs w :
  currentSettings (db (fst (getReferralSettings w))) = currentSettings (db w).
Proof.
  unfold getReferralSettings, currentSettings, bind, readDb, gets. simpl.
  destruct (appSetting (db w)) eqn:E; simpl; rewrite ?E; reflexivity.
Qed.

Lemma keeps_rewards_getReferralSettings : keeps rewardsOf getReferralSettings.
Proof. keeps_go. Qed.

Lemma keeps_codes_getReferralSettings : keeps codesOf getReferralSettings.
Proof. keeps_go. Qed.

Lemma keeps_rewards_updateReferralSettings partial :
  keeps rewardsOf (updateReferralSettings partial).
Proof. keeps_go. Qed.

Lemma keeps_codes_updateReferralSettings partial :
  keeps codesOf (updateReferralSettings partial).
Proof. keeps_go. Qed.

Lemma keeps_rewards_pickCode fuel :
  forall code attempts, keeps rewardsOf (pickCode fuel code attempts).
Proof. induction fuel; simpl; keeps_go. Qed.

#[local] Hint Resolve keeps_rewards_pickCode : keeps.

Lemma keeps_rewards_createCodeForReferrer p :
  keeps rewardsOf (createCodeForReferrer p).
Proof. keeps_go. Qed.

Lemma wp_bind_any {A C} (m : M A) (k : A -> M C) w (Q : World -> Outcome C -> Prop) :
  (forall a w', wp (k a) w' Q) ->
  (forall e w', Q w' (Thrown e)) ->
  wp (bind m k) w Q.
Proof.
  intros Hk He. apply wp_bind. unfold wp at 1.
  destruct (snd (m w)); auto.
Qed.

Lemma wp_keeps {A B} (proj : World -> B) (m : M A) w (Q : World -> Outcome A -> Prop) :
  keeps proj m ->
  (forall w' o, proj w' = proj w -> Q w' o) ->
  wp m w Q.
Proof. intros Hk HQ. unfold wp. apply HQ. apply Hk. Qed.

Lemma createPendingReward_run referrerId referralId settings currency wpId wpTitle w w1 reward :
  createPendingReward referrerId referralId settings currency wpId wpTitle w = (w1, Returned reward) ->
  Reward.amount reward = Settings.cashbackAmount settings /\
  Reward.status reward = PENDING /\
  Reward.referralId reward = referralId /\
  rewardsOf w1 = (rewardsOf w ++ [reward])%list /\
  referralsOf w1 = referralsOf w /\
  codesOf w1 = codesOf w /\
  appSetting (db w1) = appSetting (db w).
Proof.
  unfold createPendingReward, reward_create, bind, freshId, now, readDb, gets,
    writeDb, modify, ret, throw. simpl.
  destruct (taken Reward.referralId referralId (rewards (db w)));
    [intros H; inversion H |].
  destruct (negb _); intros H; inversion H; subst; clear H.
  repeat split.
Qed.

Lemma wp_code_create c w (Q : World -> Outcome Code.t -> Prop) :
  (forall e, Q w (Thrown e)) ->
  Q (set_db (set_codes (codes (db w) ++ [c])%list (db w)) w) (Returned c) ->
  wp (code_create c) w Q.
Proof.
  intros Ht Hr.
  unfold wp, code_create, bind, readDb, gets, writeDb, modify, ret, throw.
  cbn [fst snd].
  destruct (negb (fitsInt _ && fitsInt _)); cbn [fst snd]; [apply Ht |].
  destruct (taken _ _ _); cbn [fst snd]; [apply Ht |].
  destruct (negb (stored _ _ _)); cbn [fst snd]; [apply Ht | exact Hr].
Qed.

Lemma createCodeForReferrer_snapshots p w :
  wp (createCodeForReferrer p) w (fun w' o =>
    match o with
    | Returned code =>
        Code.cashbackSnapshot code = Some (Settings.cashbackAmount (cc_settings p)) /\
        Code.discountSnapshot code = Some (Settings.discountPercentage (cc_settings p)) /\
        Code.maxUsage code = Settings.maxUsagePerCode (cc_settings p) /\
        In code (codesOf w')
    | Thrown _ => True
    end).
Proof.
  unfold createCodeForReferrer.
  apply wp_bind_any; [intros first w1 | auto].
  apply wp_bind_any; [intros [code attempts] w2 | auto].
  destruct (5 <=? attempts)%nat; [exact I |].
  apply wp_bind_any; [intros expiresAt w3 | auto].
  apply wp_bind_any; [intros id w4 | auto].
  apply wp_bind_any; [intros t w5 | auto].
  apply wp_bind.
  destruct (dateColumn expiresAt) as [expiry |]; [| exact I].
  apply wp_code_create; [intros e; exact I |].
  apply wp_bind.
  match goal with
  | |- wp ?m _ _ => apply (wp_keeps codesOf m)
  end.
  - keeps_go.
  - intros w' o Hcodes. destruct o; [| exact I].
    unfold wp, ret. simpl. repeat split.
    unfold codesOf in *. rewrite Hcodes. simpl.
    apply in_or_app. right. left. reflexivity.
Qed.

Lemma getReferralSettings_again w w0 st :
  getReferralSettings w = (w0, Returned st) ->
  st = currentSettings (db w) /\ currentSettings (db w0) = st /\ rewardsOf w0 = rewardsOf w.
Proof.
  intros H.
  pose proof (getReferralSettings_value w) as Hv.
  pose proof (getReferralSettings_installs w) as Hi.
  pose proof (keeps_rewards_getReferralSettings w) as Hr.
  rewrite H in *. simpl in *. inversion Hv; subst. auto.
Qed.

Lemma updateReferralSettings_run partial w :
  let existing := currentSettings (db w) in
  let next :=
    Settings.mk
      (orDefault (Settings.p_discountPercentage partial) (Settings.discountPercentage existing))
      (orDefault (Settings.p_cashbackAmount partial) (Settings.cashbackAmount existing))
      (orDefault (Settings.p_codeValidityDays partial) (Settings.codeValidityDays existing))
      (orDefault (Settings.p_appliesOncePerCustomer partial) (Settings.appliesOncePerCustomer existing))
      (orDefault (Settings.p_maxUsagePerCode partial) (Settings.maxUsagePerCode existing))
      (orDefault (Settings.p_maxRefundPercentage partial) (Settings.maxRefundPercentage existing))
      (orDefault (Settings.p_customerSegmentIds partial) (Settings.customerSegmentIds existing)) in
  forall w2 st2,
    updateReferralSettings partial w = (w2, Returned st2) ->
    st2 = next /\ currentSettings (db w2) = next.
Proof.
  cbv zeta. intros w2 st2.
  unfold updateReferralSettings, getReferralSettings, currentSettings, bind, now, readDb,
    gets, writeDb, modify, ret, throw.
  destruct (appSetting (db w)); simpl;
    match goal with
    | |- context [negb ?b] => destruct (negb b)
    end; intros H; inversion H; subst; split; reflexivity.
Qed.

(** C8. A reward created under given settings carries their cashback
    amount, and a later update of the settings rewrites no reward and no
    code: the reward still reads the amount it was created with. A code
    minted after the update snapshots the discount and the cashback of the
    updated settings. *)
Theorem snapshots_fixed_at_creation
    (w w0 w1 w2 w3 : World) (st st2 : Settings.t) (referrerId : string)
    (referralId currency wpId wpTitle : option string) (reward : Reward.t)
    (partial : Settings.partial) (params : CreateCodeParams) (code : Code.t) :
  getReferralSettings w = (w0, Returned st) ->
  createPendingReward referrerId referralId st currency wpId wpTitle w0 = (w1, Returned reward) ->
  updateReferralSettings partial w1 = (w2, Returned st2) ->
  cc_settings params = st2 ->
  createCodeForReferrer params w2 = (w3, Returned code) ->
  Reward.amount reward = Settings.cashbackAmount st /\
  In reward (rewardsOf w1) /\
  rewardsOf w2 = rewardsOf w1 /\
  codesOf w2 = codesOf w1 /\
  rewardsOf w3 = rewardsOf w1 /\
  Settings.cashbackAmount st2 =
    orDefault (Settings.p_cashbackAmount partial) (Settings.cashbackAmount st) /\
  currentSettings (db w2) = st2 /\
  Code.cashbackSnapshot code = Some (Settings.cashbackAmount st2) /\
  Code.discountSnapshot code = Some (Settings.discountPercentage st2) /\
  In code (codesOf w3).
Proof.
  intros Hget Hreward Hupdate Hparams Hcode.
  destruct (getReferralSettings_again _ _ _ Hget) as [Hst [Hst0 _]].
  destruct (createPendingReward_run _ _ _ _ _ _ _ _ _ Hreward)
    as [Hamount [_ [_ [Hrows [_ [_ Happ]]]]]].
  pose proof (updateReferralSettings_run partial w1 w2 st2 Hupdate) as [Hnext Hcur].
  pose proof (keeps_rewards_updateReferralSettings partial w1) as Hr2.
  pose proof (keeps_codes_updateReferralSettings partial w1) as Hc2.
  rewrite Hupdate in *. simpl in *.
  pose proof (keeps_rewards_createCodeForReferrer params w2) as Hr3.
  pose proof (wp_run _ _ _ _ _ Hcode (createCodeForReferrer_snapshots params w2)) as Hsnap.
  rewrite Hcode in Hr3. simpl in *.
  destruct Hsnap as [Hcash [Hdisc [_ Hin]]].
  assert (Hsame : currentSettings (db w1) = st).
  { unfold currentSettings in *. rewrite Happ. exact Hst0. }
  rewrite Hsame in Hnext, Hcur.
  pose proof Hnext as Hst2. rewrite <- Hst2 in Hcur.
  rewrite Hparams in Hcash, Hdisc.
  repeat split; try assumption.
  - rewrite Hrows. apply in_or_app. right. left. reflexivity.
  - rewrite Hr3. exact Hr2.
  - rewrite Hst2. reflexivity.
Qed.

Lemma snapshots_fixed_at_creation_witness :
  let w0 := fst (getReferralSettings demoWorld) in
  let st := currentSettings (db demoWorld) in
  let r1 := createPendingReward "ref1" None st None None None w0 in
  let r2 := updateReferralSettings cashback50 (fst r1) in
  let st2 := currentSettings (db (fst r2)) in
  let r3 := createCodeForReferrer (paramsFor st2) (fst r2) in
  exists reward code,
    snd r1 = Returned reward /\ snd r3 = Returned code /\
    Reward.amount reward = Num.ofZ 20 /\
    In reward (rewardsOf (fst r3)) /\
    Code.cashbackSnapshot code = Some (Num.ofZ 50).
Proof.
  intros w0 st r1 r2 st2 r3.
  destruct (snd r1) as [reward |] eqn:E1; [| vm_compute in E1; discriminate].
  destruct (snd r3) as [code |] eqn:E3; [| vm_compute in E3; discriminate].
  exists reward, code.
  destruct (snapshots_fixed_at_creation demoWorld w0 (fst r1) (fst r2) (fst r3)
              st st2 "ref1" None None None None reward cashback50 (paramsFor st2) code)
    as [Ha [Hin [_ [_ [Hr3 [Hc [_ [Hs _]]]]]]]].
  - reflexivity.
  - rewrite <- E1. apply surjective_pairing.
  - vm_compute. reflexivity.
  - reflexivity.
  - rewrite <- E3. apply surjective_pairing.
  - split; [reflexivity |]. split; [reflexivity |].
    split; [rewrite Ha; vm_compute; reflexivity |].
    split; [rewrite Hr3; exact Hin |].
    rewrite Hs, Hc. vm_compute. reflexivity.
Defined.

(** ** The refund step *)

Lemma refundAttempts_step remaining attempt v w :
  refundAttempts (S remaining) attempt v w =
  let w1 := set_refundCalls (refundCalls w ++ [v]) w in
  match refundReply (shopify w) (List.length (refundCalls w)) with
  | CallThrows => (w1, Thrown AdminCallFailed)
  | GraphqlErrors => (w1, Thrown RefundGraphqlErrors)
  | NoPayload => (w1, Thrown RefundUnexpectedResponse)
  | Payload [] refund =>
      (if (0 <? attempt)%nat
       then set_console (console w1 ++ [LogRefundAfterRetries (attempt + 1)]) w1
       else w1, Returned refund)
  | Payload (e :: errors) refund =>
      if (isOrderUnavailableError (e :: errors) && (attempt <? maxRetries - 1)%nat)%bool
      then
        let waitTime := retryDelay * (Z.of_nat attempt + 1) in
        let w2 := set_console (console w1 ++ [LogRetry waitTime (attempt + 1)]) w1 in
        refundAttempts remaining (S attempt) v (set_clock (clock w2 + waitTime) w2)
      else (w1, Thrown (RefundUserErrors (e :: errors)))
  end.
Proof.
  cbn [refundAttempts]. unfold bind at 1. unfold callRefundMutation at 1.
  destruct (refundReply (shopify w) (List.length (refundCalls w))) as [| | | ue refund];
    try reflexivity.
  destruct ue as [| e errors].
  - unfold bind, log, modify, ret. destruct (0 <? attempt)%nat; reflexivity.
  - destruct (isOrderUnavailableError (e :: errors) && (attempt <? maxRetries - 1)%nat)%bool;
      reflexivity.
Qed.

Lemma refundAttempts_spec remaining :
  forall attempt v w,
    let out := refundAttempts remaining attempt v w in
    db (fst out) = db w /\
    shopify (fst out) = shopify w /\
    (exists logs, console (fst out) = (console w ++ logs)%list) /\
    exists k,
      (k <= remaining)%nat /\
      (remaining <> O -> k <> O) /\
      refundCalls (fst out) = (refundCalls w ++ repeat v k)%list /\
      (forall j, (S j < k)%nat ->
         asks_retry (refundReply (shopify w) (List.length (refundCalls w) + j))) /\
      (forall refund, snd out = Returned refund ->
         exists j, k = S j /\
           refundReply (shopify w) (List.length (refundCalls w) + j) = Payload [] refund) /\
      (forall e, snd out = Thrown e -> refund_failure e).
Proof.
  induction remaining as [| remaining IH]; intros attempt v w out.
  - subst out. simpl. repeat split; auto.
    + exists []. rewrite app_nil_r. reflexivity.
    + exists O. simpl. rewrite app_nil_r.
      repeat split; auto; try (intros; lia); try discriminate.
      intros e H. inversion H. exact I.
  - subst out. rewrite refundAttempts_step. cbv zeta.
    destruct (refundReply (shopify w) (List.length (refundCalls w))) as [| | | ue refund] eqn:Hreply.
    1-3: (simpl; repeat split; auto;
          [ exists []; rewrite app_nil_r; reflexivity
          | exists 1%nat; simpl; repeat split; auto; try lia; try discriminate;
            intros e H; inversion H; exact I ]).
    destruct ue as [| e errors].
    + simpl. repeat split.
      * destruct (0 <? attempt)%nat; reflexivity.
      * destruct (0 <? attempt)%nat; reflexivity.
      * destruct (0 <? attempt)%nat; simpl; eexists; [reflexivity |].
        rewrite app_nil_r. reflexivity.
      * exists 1%nat. simpl. repeat split; auto; try lia; try discriminate.
        -- destruct (0 <? attempt)%nat; reflexivity.
        -- intros r H. inversion H; subst. exists O. rewrite Nat.add_0_r. auto.
    + destruct (isOrderUnavailableError (e :: errors) && (attempt <? maxRetries - 1)%nat)%bool
        eqn:Hretry.
      * apply andb_prop in Hretry. destruct Hretry as [Hun _].
        cbv zeta.
        match goal with
        | |- context [refundAttempts remaining (S attempt) v ?w3] =>
            remember w3 as w3' eqn:Hw3
        end.
        assert (Hdb3 : db w3' = db w) by (subst; reflexivity).
        assert (Hsh3 : shopify w3' = shopify w) by (subst; reflexivity).
        assert (Hco3 : exists l, console w3' = (console w ++ l)%list)
          by (subst; eexists; reflexivity).
        assert (Hca3 : refundCalls w3' = (refundCalls w ++ [v])%list) by (subst; reflexivity).
        clear Hw3.
        destruct (IH (S attempt) v w3')
          as [Hdb [Hshop [[logs Hlogs] [k [Hk [_ [Hcalls [Hj [Hret Hthr]]]]]]]]].
        rewrite Hdb3 in Hdb. rewrite Hsh3 in Hshop, Hj, Hret.
        rewrite Hca3 in Hcalls, Hj, Hret. destruct Hco3 as [l Hl]. rewrite Hl in Hlogs.
        split; [exact Hdb |]. split; [exact Hshop |].
        split.
        { eexists. rewrite Hlogs. rewrite <- app_assoc. reflexivity. }
        exists (S k). repeat split; auto; try lia.
        -- rewrite Hcalls. rewrite <- app_assoc. reflexivity.
        -- intros j Hlt. destruct j as [| j].
           ++ rewrite Nat.add_0_r, Hreply. exact Hun.
           ++ assert (Hlt' : (S j < k)%nat) by lia.
              specialize (Hj j Hlt'). rewrite length_app in Hj. simpl in Hj.
              replace (List.length (refundCalls w) + S j)%nat
                with (List.length (refundCalls w) + 1 + j)%nat by lia.
              exact Hj.
        -- intros r H. destruct (Hret r H) as [j [Hkj Hr]].
           exists (S j). split; [lia |].
           rewrite length_app in Hr. simpl in Hr.
           replace (List.length (refundCalls w) + S j)%nat
             with (List.length (refundCalls w) + 1 + j)%nat by lia.
           exact Hr.
      * simpl. repeat split; auto.
        -- exists []. rewrite app_nil_r. reflexivity.
        -- exists 1%nat. simpl. repeat split; auto; try lia; try discriminate.
           intros e0 H. inversion H. exact I.
Qed.

Lemma getOrderTransactionParentId_value orderGid w :
  snd (getOrderTransactionParentId orderGid w)
  = Returned (parentIdOf (orderTransactions (shopify w) orderGid)).
Proof.
  unfold getOrderTransactionParentId, parentIdOf, bind, gets. simpl.
  destruct (orderTransactions (shopify w) orderGid); reflexivity.
Qed.

Arguments refundAttempts : simpl never.

Lemma createReferralRefund_eq orderGid amount currency note w :
  createReferralRefund orderGid amount currency note w =
  refundAttempts maxRetries 0
    (mkRefundVariables (orDefault note DEFAULT_REFUND_NOTE) orderGid amount
       (refundTargetOf w orderGid))
    (refundPrelude orderGid w).
Proof.
  unfold createReferralRefund, getOrderTransactionParentId, refundTargetOf, refundPrelude,
    parentIdOf, bind, gets, log, modify, ret.
  simpl.
  destruct (orderTransactions (shopify w) orderGid) as [edges |]; simpl.
  - destruct (opt_truthy (orElse (edge_id (find edge_valid edges)) (edge_id (hd_error edges))));
      reflexivity.
  - reflexivity.
Qed.

Lemma refundPrelude_frame orderGid w :
  db (refundPrelude orderGid w) = db w /\
  shopify (refundPrelude orderGid w) = shopify w /\
  refundCalls (refundPrelude orderGid w) = refundCalls w /\
  (exists logs, console (refundPrelude orderGid w) = (console w ++ logs)%list) /\
  (opt_truthy (parentIdOf (orderTransactions (shopify w) orderGid)) = false ->
   exists logs, console (refundPrelude orderGid w)
                = (console w ++ logs ++ [WarnStoreCreditFallback orderGid])%list).
Proof.
  unfold refundPrelude.
  destruct (opt_truthy (parentIdOf (orderTransactions (shopify w) orderGid)));
    destruct (orderTransactions (shopify w) orderGid); simpl; repeat split;
    try discriminate;
    try (exists []; rewrite app_nil_r; reflexivity);
    try (eexists; reflexivity);
    try (intros _; exists []; reflexivity);
    try (intros _; eexists; rewrite <- app_assoc; reflexivity).
  eexists. rewrite <- app_assoc. reflexivity.
Qed.

Lemma createReferralRefund_spec orderGid amount currency note w :
  let out := createReferralRefund orderGid amount currency note w in
  let v := mkRefundVariables (orDefault note DEFAULT_REFUND_NOTE) orderGid amount
             (refundTargetOf w orderGid) in
  db (fst out) = db w /\
  shopify (fst out) = shopify w /\
  (exists logs, console (fst out) = (console w ++ logs)%list) /\
  (opt_truthy (parentIdOf (orderTransactions (shopify w) orderGid)) = false ->
   In (WarnStoreCreditFallback orderGid) (console (fst out))) /\
  exists k,
    (1 <= k <= maxRetries)%nat /\
    refundCalls (fst out) = (refundCalls w ++ repeat v k)%list /\
    (forall j, (S j < k)%nat ->
       asks_retry (refundReply (shopify w) (List.length (refundCalls w) + j))) /\
    (forall refund, snd out = Returned refund ->
       exists j, k = S j /\
         refundReply (shopify w) (List.length (refundCalls w) + j) = Payload [] refund) /\
    (forall e, snd out = Thrown e -> refund_failure e).
Proof.
  intros out v. subst out. rewrite createReferralRefund_eq. fold v.
  destruct (refundPrelude_frame orderGid w) as [Hdb0 [Hsh0 [Hca0 [[l0 Hco0] Hwarn]]]].
  pose proof (refundAttempts_spec maxRetries 0 v (refundPrelude orderGid w)) as Hspec.
  cbv zeta in Hspec.
  destruct Hspec as [Hdb [Hsh [[l Hco] [k [Hk [Hk0 [Hcalls [Hj [Hret Hthr]]]]]]]]].
  rewrite Hdb0 in Hdb. rewrite Hsh0 in Hsh, Hj, Hret. rewrite Hca0 in Hcalls, Hj, Hret.
  split; [exact Hdb |]. split; [exact Hsh |].
  split; [eexists; rewrite Hco, Hco0, <- app_assoc; reflexivity |].
  split.
  { intros Hf. destruct (Hwarn Hf) as [l1 Hl1]. rewrite Hco, Hl1.
    apply in_or_app. left. apply in_or_app. right.
    apply in_or_app. right. left. reflexivity. }
  exists k. repeat split; auto.
  assert (maxRetries <> O) by (unfold maxRetries; lia).
  specialize (Hk0 H). lia.
Qed.

(** ** Settlement, phase by phase *)

Arguments createReferralRefund : simpl never.
Arguments markRewardAsPaid : simpl never.
Arguments sendCashbackConfirmationEmail : simpl never.
Arguments getReferralSettings : simpl never.
Arguments totalRefundedForCode : simpl never.
Arguments code_update : simpl never.
Arguments included_code : simpl never.
Arguments referral_of : simpl never.

Lemma included_code_id d reward c :
  included_code d reward = Some c ->
  find (fun x => String.eqb (Code.id x) (Code.id c)) (codes d) <> None.
Proof.
  unfold included_code, code_of.
  destruct (referral_of d (Reward.referralId reward)) as [referral |]; [| discriminate].
  destruct (Referral.codeId referral) as [cid |]; [| discriminate].
  intros H Hnone. pose proof (find_some _ _ H) as [Hin Hid].
  pose proof (find_none _ _ Hnone _ Hin) as Hn. simpl in Hn.
  rewrite String.eqb_refl in Hn. discriminate.
Qed.

Lemma code_update_found id f w :
  find (fun x => String.eqb (Code.id x) id) (codes (db w)) <> None ->
  exists c', snd (code_update id f w) = Returned c'.
Proof.
  intros H. destruct (find _ _) as [c |] eqn:E; [| congruence].
  destruct (update_first_found _ (fun x => touch_code (clock w) (f x)) _ _ E) as [rows' Hup].
  unfold code_update, bind, now, readDb, gets, writeDb, modify, ret. simpl.
  rewrite Hup. simpl. eauto.
Qed.

Lemma bind_run {A C} (m : M A) (k : A -> M C) w a :
  snd (m w) = Returned a -> bind m k w = k a (fst (m w)).
Proof. unfold bind. destruct (m w) as [w' o]. simpl. intros ->. reflexivity. Qed.

Lemma keeps_code_update {B} (proj : World -> B) id f :
  (forall rows w, proj (set_db (set_codes rows (db w)) w) = proj w) ->
  keeps proj (code_update id f).
Proof.
  intros H. unfold code_update. keeps_go. intro w. apply H.
Qed.

Lemma backfilled_keeps {B} (proj : World -> B) w code ov :
  (forall rows w, proj (set_db (set_codes rows (db w)) w) = proj w) ->
  proj (backfilled w code ov) = proj w.
Proof.
  intros H. unfold backfilled. destruct code as [c |]; [| reflexivity].
  destruct (_ && _)%bool; [| reflexivity].
  apply (keeps_code_update proj _ _ H).
Qed.

Lemma announced_keeps {B} (proj : World -> B) w reward code ov :
  (forall l w, proj (set_console l w) = proj w) ->
  proj (announced w reward code ov) = proj w.
Proof.
  intros H. unfold announced.
  destruct (opt_truthy ov); [apply H |].
  destruct (opt_truthy (stored_origin code)); [apply H | reflexivity].
Qed.

Lemma backfill_run w reward ov :
  (match included_code (db w) reward with
   | Some c =>
       if (opt_truthy ov && negb (opt_truthy (Code.originOrderGid c)))%bool
       then code_update (Code.id c) (with_origin (orDefault ov "")) ;;; ret tt
       else ret tt
   | None => ret tt
   end) w = (backfilled w (included_code (db w) reward) ov, Returned tt).
Proof.
  unfold backfilled.
  destruct (included_code (db w) reward) as [c |] eqn:Hc; [| reflexivity].
  destruct (_ && _)%bool; [| reflexivity].
  destruct (code_update_found (Code.id c) (with_origin (orDefault ov "")) w
              (included_code_id _ _ _ Hc)) as [c' Hc'].
  rewrite (bind_run _ _ _ _ Hc'). reflexivity.
Qed.

Lemma announce_run w reward code ov :
  (if opt_truthy ov
   then log (LogRefundOverride (orDefault ov "") (Reward.id reward))
   else if opt_truthy (stored_origin code)
   then log (LogRefundOrigin (orDefault (stored_origin code) "") (Reward.id reward))
   else ret tt) w = (announced w reward code ov, Returned tt).
Proof.
  unfold announced.
  destruct (opt_truthy ov); [reflexivity |].
  destruct (opt_truthy (stored_origin code)); reflexivity.
Qed.

Lemma bind_returned {A C} (m : M A) (k : A -> M C) w w' a :
  m w = (w', Returned a) -> bind m k w = k a w'.
Proof. unfold bind. intros ->. reflexivity. Qed.

Lemma bind_threw {A C} (m : M A) (k : A -> M C) w w' e :
  m w = (w', Thrown e) -> bind m k w = (w', Thrown e).
Proof. unfold bind. intros ->. reflexivity. Qed.

Section Settlement.

Variable parseFloat : string -> number.

Lemma getOrderTotalAmount_value orderGid w :
  snd (getOrderTotalAmount parseFloat orderGid w) = Returned (orderTotalOf parseFloat w orderGid).
Proof.
  unfold getOrderTotalAmount, orderTotalOf, bind, gets. simpl.
  destruct (orderTotal (shopify w) orderGid); reflexivity.
Qed.

Lemma keeps_getOrderTotalAmount {B} (proj : World -> B) orderGid :
  (forall l w, proj (set_console l w) = proj w) ->
  keeps proj (getOrderTotalAmount parseFloat orderGid).
Proof.
  intros H w. unfold getOrderTotalAmount, bind, gets, log, modify, ret. simpl.
  destruct (orderTotal (shopify w) orderGid); simpl; [reflexivity | apply H].
Qed.

Lemma keeps_getReferralSettings {B} (proj : World -> B) :
  (forall row w, proj (set_db (set_appSetting row (db w)) w) = proj w) ->
  keeps proj getReferralSettings.
Proof.
  intros H w. unfold getReferralSettings, bind, readDb, gets, writeDb, modify, now, ret.
  simpl. destruct (appSetting (db w)); simpl; [reflexivity | apply H].
Qed.

(** What the phases before the check leave alone. *)
Lemma beforeCheck_keeps {B} (proj : World -> B) w reward ov :
  (forall rows w, proj (set_db (set_codes rows (db w)) w) = proj w) ->
  (forall l w, proj (set_console l w) = proj w) ->
  (forall row w, proj (set_db (set_appSetting row (db w)) w) = proj w) ->
  proj (atCheck parseFloat w reward ov) = proj w.
Proof.
  intros Hcodes Hconsole Hsetting. unfold atCheck. cbv zeta.
  rewrite (keeps_getOrderTotalAmount proj _ Hconsole).
  rewrite (keeps_getReferralSettings proj Hsetting).
  rewrite (announced_keeps proj _ _ _ _ Hconsole).
  apply (backfilled_keeps proj _ _ _ Hcodes).
Qed.

Lemma processRewardRefund_eq rewardId orderGidOverride w reward gid :
  findReward rewardId w = Some reward ->
  Reward.status reward = PENDING ->
  resolvedOrder w reward orderGidOverride = Some gid ->
  str_truthy gid = true ->
  processRewardRefund parseFloat rewardId orderGidOverride w =
  let wc := atCheck parseFloat w reward orderGidOverride in
  let already := alreadyPaid parseFloat w reward orderGidOverride in
  let ceiling := ceilingOf parseFloat w reward orderGidOverride in
  if overCeiling ceiling already (Reward.amount reward)
  then (wc, Thrown (RefundCeilingExceeded
                      (Num.max Num.zero (Num.sub (orDefault ceiling Num.zero) already))
                      (Reward.currency reward)))
  else settleTail reward gid
         (find (fun r => String.eqb (Referrer.id r) (Reward.referrerId reward)) (referrers (db w)))
         already ceiling wc.
Proof.
  intros Hfind Hstatus Hres Hgid.
  unfold processRewardRefund.
  rewrite (bind_run _ _ w (Some reward)) by (exact (f_equal Returned Hfind)).
  cbn [fst readDb gets]. rewrite Hstatus. cbn [RewardStatus_eqb negb].
  rewrite (bind_run _ _ w (included_code (db w) reward)) by reflexivity.
  cbn [fst readDb gets].
  rewrite (bind_run _ _ w (referral_of (db w) (Reward.referralId reward))) by reflexivity.
  cbn [fst readDb gets].
  rewrite (bind_run _ _ w
    (find (fun r => String.eqb (Referrer.id r) (Reward.referrerId reward)) (referrers (db w))))
    by reflexivity.
  cbn [fst readDb gets referrer_findById].
  pose proof Hres as Hres'. unfold resolvedOrder in Hres'. rewrite Hres'.
  cbn [opt_truthy orDefault]. rewrite Hgid. cbn [negb].
  rewrite (bind_run _ _ w tt) by (rewrite backfill_run; reflexivity).
  rewrite backfill_run. cbn [fst].
  set (w0 := backfilled w (included_code (db w) reward) orderGidOverride).
  rewrite (bind_run _ _ w0 tt) by (rewrite announce_run; reflexivity).
  rewrite announce_run. cbn [fst].
  set (w1 := announced w0 reward (included_code (db w) reward) orderGidOverride).
  rewrite (bind_run _ _ w1 _ (getReferralSettings_value w1)).
  set (w2 := fst (getReferralSettings w1)).
  rewrite (bind_run _ _ w2 _ (getOrderTotalAmount_value gid w2)).
  set (w3 := fst (getOrderTotalAmount parseFloat gid w2)).
  assert (Hw3 : w3 = atCheck parseFloat w reward orderGidOverride).
  { unfold atCheck. rewrite Hres. reflexivity. }
  assert (Hsettings : currentSettings (db w1) = currentSettings (db w)).
  { subst w1 w0. unfold currentSettings.
    rewrite (announced_keeps (fun w => appSetting (db w))) by reflexivity.
    rewrite (backfilled_keeps (fun w => appSetting (db w))) by reflexivity.
    reflexivity. }
  assert (Htotal : orderTotalOf parseFloat w2 gid = orderTotalOf parseFloat w gid).
  { subst w2 w1 w0. unfold orderTotalOf.
    rewrite (keeps_getReferralSettings shopify) by reflexivity.
    rewrite (announced_keeps shopify) by reflexivity.
    rewrite (backfilled_keeps shopify) by reflexivity.
    reflexivity. }
  rewrite Hsettings, Htotal.
  unfold getTotalRefundedForCode. rewrite (bind_run _ _ w3 (totalRefundedForCode (db w3) gid))
    by reflexivity.
  cbn [fst readDb gets].
  unfold alreadyPaid, ceilingOf. rewrite Hres. cbn [orDefault]. rewrite <- Hw3.
  cbv zeta.
  destruct (overCeiling _ _ _); reflexivity.
Qed.

Lemma try_catch_log_returns (m : M unit) l w :
  snd (try_catch m (fun _ => log l) w) = Returned tt.
Proof.
  unfold try_catch. destruct (m w) as [w' [[] | e]]; reflexivity.
Qed.

Lemma keeps_rewards_email reward referrer :
  keeps rewardsOf
    (try_catch
       (match referrer with
        | Some r => sendCashbackConfirmationEmail (Reward.referrerId reward) (Referrer.email r)
        | None => throw RecordNotFound
        end)
       (fun _ => log (ErrCashbackEmail (Reward.id reward)))).
Proof. keeps_go. Qed.

Lemma keeps_calls_email reward referrer :
  keeps refundCalls
    (try_catch
       (match referrer with
        | Some r => sendCashbackConfirmationEmail (Reward.referrerId reward) (Referrer.email r)
        | None => throw RecordNotFound
        end)
       (fun _ => log (ErrCashbackEmail (Reward.id reward)))).
Proof. keeps_go. Qed.

(** Steps 7 to 10: the settlement fails exactly when the refund step does,
    with its error and without a write to the rewards; otherwise the reward
    is marked as paid and the result is returned. *)
Lemma settleTail_spec reward gid referrer already ceiling w stored :
  findReward (Reward.id reward) w = Some stored ->
  let rf := createReferralRefund gid (Reward.amount reward) (Reward.currency reward)
              (Some REFUND_NOTE) w in
  let out := settleTail reward gid referrer already ceiling w in
  refundCalls (fst out) = refundCalls (fst rf) /\
  (forall e, snd rf = Thrown e -> out = (fst rf, Thrown e)) /\
  (forall refund, snd rf = Returned refund ->
     snd out = Returned (mkResult (Reward.id reward)
                           (Num.add already (Reward.amount reward)) ceiling) /\
     findReward (Reward.id reward) (fst out)
       = Some (touch_reward (clock (fst rf)) (paid_at (clock (fst rf)) stored)) /\
     map Reward.id (rewardsOf (fst out)) = map Reward.id (rewardsOf w) /\
     map Reward.amount (rewardsOf (fst out)) = map Reward.amount (rewardsOf w)).
Proof.
  intros Hfind. cbv zeta. unfold settleTail.
  destruct (createReferralRefund_spec gid (Reward.amount reward) (Reward.currency reward)
              (Some REFUND_NOTE) w) as [Hdb _].
  destruct (createReferralRefund gid (Reward.amount reward) (Reward.currency reward)
              (Some REFUND_NOTE) w) as [w1 [refund | e]] eqn:Hrf; cbn [fst snd] in *.
  - rewrite (bind_returned _ _ _ _ _ Hrf).
    assert (Hfind1 : findReward (Reward.id reward) w1 = Some stored).
    { unfold findReward, rewardsOf in *. rewrite Hdb. exact Hfind. }
    destruct (markRewardAsPaid_run w1 (Reward.id reward) stored Hfind1)
      as [rows' [Hrun [Hf [Hids Hamounts]]]].
    rewrite (bind_returned _ _ _ _ _ Hrun).
    set (w2 := set_db (set_rewards rows' (db w1)) w1).
    rewrite (bind_run _ _ w2 tt (try_catch_log_returns _ _ _)).
    unfold ret. cbn [fst snd].
    pose proof (keeps_rewards_email reward referrer w2) as Hr.
    pose proof (keeps_calls_email reward referrer w2) as Hc.
    split; [rewrite Hc; reflexivity |].
    split; [discriminate |].
    intros refund' _. split; [reflexivity |].
    unfold findReward. rewrite Hr. subst w2. unfold rewardsOf at 1 2 3.
    cbn [db set_db rewards set_rewards].
    split; [exact Hf |].
    unfold rewardsOf in *. rewrite Hdb in Hids, Hamounts. split; assumption.
  - rewrite (bind_threw _ _ _ _ _ Hrf). cbn [fst].
    split; [reflexivity |]. split; [| discriminate].
    intros e' He'. inversion He'; subst. reflexivity.
Qed.

Lemma settle_cases rewardId ov w :
  SettleCase parseFloat rewardId ov w (processRewardRefund parseFloat rewardId ov w).
Proof.
  destruct (findReward rewardId w) as [reward |] eqn:Hfind.
  - destruct (Reward.status reward) eqn:Hstatus.
    + destruct (resolvedOrder w reward ov) as [gid |] eqn:Hres.
      * destruct (str_truthy gid) eqn:Hgid.
        -- rewrite (processRewardRefund_eq _ _ _ _ _ Hfind Hstatus Hres Hgid). cbv zeta.
           destruct (overCeiling _ _ _) eqn:Hover.
           ++ eapply OverCeiling; eauto.
           ++ eapply Refunding; eauto.
        -- replace (processRewardRefund parseFloat rewardId ov w)
             with (w, @Thrown ProcessRewardRefundResult NoOrderAvailable).
           { eapply NoOrder; eauto. rewrite Hres. exact Hgid. }
           unfold processRewardRefund, bind, readDb, gets, referrer_findById, throw.
           cbn [fst snd]. unfold findReward, rewardsOf in Hfind. rewrite Hfind, Hstatus.
           cbn [RewardStatus_eqb negb]. unfold resolvedOrder in Hres. rewrite Hres.
           cbn [opt_truthy]. rewrite Hgid. reflexivity.
      * replace (processRewardRefund parseFloat rewardId ov w)
          with (w, @Thrown ProcessRewardRefundResult NoOrderAvailable).
        { eapply NoOrder; eauto. rewrite Hres. reflexivity. }
        unfold processRewardRefund, bind, readDb, gets, referrer_findById, throw.
        cbn [fst snd]. unfold findReward, rewardsOf in Hfind. rewrite Hfind, Hstatus.
        cbn [RewardStatus_eqb negb]. unfold resolvedOrder in Hres. rewrite Hres.
        reflexivity.
    + replace (processRewardRefund parseFloat rewardId ov w)
        with (w, @Thrown ProcessRewardRefundResult InvalidState).
      { eapply NotPending; eauto. rewrite Hstatus. discriminate. }
      unfold processRewardRefund, bind, readDb, gets, throw.
      cbn [fst snd]. unfold findReward, rewardsOf in Hfind. rewrite Hfind, Hstatus. reflexivity.
    + replace (processRewardRefund parseFloat rewardId ov w)
        with (w, @Thrown ProcessRewardRefundResult InvalidState).
      { eapply NotPending; eauto. rewrite Hstatus. discriminate. }
      unfold processRewardRefund, bind, readDb, gets, throw.
      cbn [fst snd]. unfold findReward, rewardsOf in Hfind. rewrite Hfind, Hstatus. reflexivity.
  - replace (processRewardRefund parseFloat rewardId ov w)
      with (w, @Thrown ProcessRewardRefundResult RewardNotFound).
    { apply NotFound. exact Hfind. }
    unfold processRewardRefund, bind, readDb, gets, throw.
    cbn [fst snd]. unfold findReward, rewardsOf in Hfind. rewrite Hfind. reflexivity.
Qed.

Lemma email_console_grows reward referrer w :
  exists logs,
    console (fst (try_catch
       (match referrer with
        | Some r => sendCashbackConfirmationEmail (Reward.referrerId reward) (Referrer.email r)
        | None => throw RecordNotFound
        end)
       (fun _ => log (ErrCashbackEmail (Reward.id reward))) w))
    = (console w ++ logs)%list.
Proof.
  unfold try_catch, sendCashbackConfirmationEmail, sendEmail, emailLog_create,
    emailLog_setStatus, bind, gets, freshId, writeDb, modify, log, ret, throw.
  destruct referrer as [r |]; [| eexists; reflexivity].
  destruct (Referrer.email r) as [to |]; [| eexists; reflexivity].
  destruct (str_truthy to); [| eexists; reflexivity].
  cbn [fst snd]. destruct (mailer w); cbn [fst snd];
    first [ exists []; rewrite app_nil_r; reflexivity | eexists; reflexivity ].
Qed.

Lemma refundTargetOf_atCheck w reward ov gid :
  refundTargetOf (atCheck parseFloat w reward ov) gid = refundTargetOf w gid.
Proof.
  unfold refundTargetOf.
  rewrite (beforeCheck_keeps shopify) by reflexivity.
  rewrite (beforeCheck_keeps refundGateway) by reflexivity.
  reflexivity.
Qed.

(** The refunding case, in full. *)
Lemma refunding_spec rewardId ov w reward gid :
  findReward rewardId w = Some reward ->
  let already := alreadyPaid parseFloat w reward ov in
  let ceiling := ceilingOf parseFloat w reward ov in
  let out := settleTail reward gid
               (find (fun r => String.eqb (Referrer.id r) (Reward.referrerId reward))
                     (referrers (db w)))
               already ceiling (atCheck parseFloat w reward ov) in
  let v := mkRefundVariables REFUND_NOTE gid (Reward.amount reward) (refundTargetOf w gid) in
  exists k,
    (1 <= k <= maxRetries)%nat /\
    refundCalls (fst out) = (refundCalls w ++ repeat v k)%list /\
    (forall j, (S j < k)%nat ->
       asks_retry (refundReply (shopify w) (List.length (refundCalls w) + j))) /\
    (opt_truthy (parentIdOf (orderTransactions (shopify w) gid)) = false ->
     In (WarnStoreCreditFallback gid) (console (fst out))) /\
    (forall e, snd out = Thrown e ->
       refund_failure e /\ rewardsOf (fst out) = rewardsOf w) /\
    (forall res, snd out = Returned res ->
       res = mkResult (Reward.id reward) (Num.add already (Reward.amount reward)) ceiling /\
       (exists j refund, k = S j /\
          refundReply (shopify w) (List.length (refundCalls w) + j) = Payload [] refund) /\
       (exists paid, findReward rewardId (fst out) = Some paid /\
          Reward.status paid = PAID /\ Reward.amount paid = Reward.amount reward) /\
       map Reward.amount (rewardsOf (fst out)) = map Reward.amount (rewardsOf w)).
Proof.
  intros Hfind already ceiling out v. subst out.
  set (wc := atCheck parseFloat w reward ov).
  assert (Hid : Reward.id reward = rewardId).
  { unfold findReward in Hfind. apply find_some in Hfind.
    destruct Hfind as [_ H]. apply String.eqb_eq. exact H. }
  assert (Hrewards : rewardsOf wc = rewardsOf w)
    by (apply (beforeCheck_keeps rewardsOf); reflexivity).
  assert (Hcalls : refundCalls wc = refundCalls w)
    by (apply (beforeCheck_keeps refundCalls); reflexivity).
  assert (Hshop : shopify wc = shopify w)
    by (apply (beforeCheck_keeps shopify); reflexivity).
  assert (Hfindc : findReward (Reward.id reward) wc = Some reward).
  { unfold findReward. rewrite Hrewards, Hid. exact Hfind. }
  pose proof (settleTail_spec reward gid
    (find (fun r => String.eqb (Referrer.id r) (Reward.referrerId reward)) (referrers (db w)))
    already ceiling wc reward Hfindc) as Htail.
  cbv zeta in Htail. destruct Htail as [Htcalls [Hthrown Hreturned]].
  pose proof (createReferralRefund_spec gid (Reward.amount reward) (Reward.currency reward)
    (Some REFUND_NOTE) wc) as Hrf.
  cbv zeta in Hrf.
  destruct Hrf as [Hdb [Hsh [_ [Hwarn [k [Hk [Hrcalls [Hj [Hret Hthr]]]]]]]]].
  fold wc in Hrcalls. unfold wc in Hrcalls at 3. rewrite refundTargetOf_atCheck in Hrcalls.
  cbn [orDefault] in Hrcalls. rewrite Hcalls in Hrcalls, Hj, Hret. rewrite Hshop in Hj, Hret, Hwarn.
  exists k. split; [exact Hk |].
  split; [rewrite Htcalls; exact Hrcalls |].
  split; [exact Hj |].
  destruct (snd (createReferralRefund gid (Reward.amount reward) (Reward.currency reward)
                   (Some REFUND_NOTE) wc)) as [refund | e] eqn:Hout.
  - destruct (Hreturned refund eq_refl) as [Hres [Hpaid [_ Hamounts]]].
    split.
    { intros Hf. specialize (Hwarn Hf).
      (* the console only grows after the refund step *)
      unfold settleTail.
      rewrite (bind_run _ _ wc refund Hout).
      assert (Hfind1 : findReward (Reward.id reward)
                (fst (createReferralRefund gid (Reward.amount reward)
                        (Reward.currency reward) (Some REFUND_NOTE) wc)) = Some reward).
      { unfold findReward, rewardsOf in *. rewrite Hdb. exact Hfindc. }
      destruct (markRewardAsPaid_run _ _ _ Hfind1) as [rows' [Hrun _]].
      rewrite (bind_returned _ _ _ _ _ Hrun).
      match goal with
      | |- context [bind (try_catch ?m ?h) ?k ?w2] =>
          rewrite (bind_run _ k w2 tt (try_catch_log_returns m _ w2))
      end.
      unfold ret. cbn [fst].
      destruct (email_console_grows reward
        (find (fun r => String.eqb (Referrer.id r) (Reward.referrerId reward)) (referrers (db w)))
        (set_db (set_rewards rows'
           (db (fst (createReferralRefund gid (Reward.amount reward)
                       (Reward.currency reward) (Some REFUND_NOTE) wc))))
           (fst (createReferralRefund gid (Reward.amount reward)
                       (Reward.currency reward) (Some REFUND_NOTE) wc)))) as [logs Hlogs].
      rewrite Hlogs. apply in_or_app. left. exact Hwarn. }
    split; [intros e He; rewrite Hres in He; discriminate |].
    intros res Hr. rewrite Hres in Hr. inversion Hr; subst res.
    split; [reflexivity |].
    split; [destruct (Hret refund eq_refl) as [j [Hkj Hreply]]; eauto |].
    split.
    + rewrite <- Hid. eexists. split; [exact Hpaid |]. split; reflexivity.
    + rewrite Hamounts, Hrewards. reflexivity.
  - rewrite (Hthrown e eq_refl). cbn [fst snd].
    split; [exact Hwarn |].
    split.
    + intros e' He'. inversion He'; subst e'. split; [apply Hthr; reflexivity |].
      unfold rewardsOf in *. rewrite Hdb. exact Hrewards.
    + discriminate.
Qed.

End Settlement.

(** ** Settlement: the claims *)

Lemma settle_not_pending parseFloat rewardId ov w reward :
  findReward rewardId w = Some reward ->
  Reward.status reward <> PENDING ->
  processRewardRefund parseFloat rewardId ov w = (w, Thrown InvalidState).
Proof.
  intros Hfind Hstatus.
  unfold processRewardRefund, bind, readDb, gets, throw. cbn [fst snd].
  unfold findReward, rewardsOf in Hfind. rewrite Hfind.
  destruct (Reward.status reward); [congruence | reflexivity | reflexivity].
Qed.

Lemma settle_returned parseFloat rewardId ov w w' res :
  processRewardRefund parseFloat rewardId ov w = (w', Returned res) ->
  exists reward gid paid,
    findReward rewardId w = Some reward /\
    Reward.status reward = PENDING /\
    resolvedOrder w reward ov = Some gid /\
    res = mkResult (Reward.id reward)
            (Num.add (alreadyPaid parseFloat w reward ov) (Reward.amount reward))
            (ceilingOf parseFloat w reward ov) /\
    findReward rewardId w' = Some paid /\
    Reward.status paid = PAID /\
    Reward.amount paid = Reward.amount reward /\
    (opt_truthy (parentIdOf (orderTransactions (shopify w) gid)) = false ->
     In (WarnStoreCreditFallback gid) (console w')).
Proof.
  intros Hrun.
  pose proof (settle_cases parseFloat rewardId ov w) as Hcase.
  rewrite Hrun in Hcase.
  inversion Hcase as [ | | | | reward gid Hfind Hstatus Hres Hgid Hover Heq ]; subst.
  destruct (refunding_spec parseFloat rewardId ov w reward gid Hfind)
    as [k [_ [_ [_ [Hwarn [_ Hret]]]]]].
  rewrite Heq in Hret, Hwarn. cbn [fst snd] in Hret, Hwarn.
  destruct (Hret res eq_refl) as [Hr [_ [[paid [Hp [Hs Ha]]] _]]].
  exists reward, gid, paid. repeat split; auto.
Qed.

(** C2. A settlement of a reward that is not pending is rejected with the
    invalid-state error and leaves the whole world as it was: no refund is
    requested and nothing is written. In particular, once a settlement of a
    reward has succeeded, every further settlement of it is so rejected. *)
Theorem settlement_is_single_use (parseFloat : string -> number) (w : World)
    (rewardId : string) :
  (forall ov reward,
     findReward rewardId w = Some reward ->
     Reward.status reward <> PENDING ->
     processRewardRefund parseFloat rewardId ov w = (w, Thrown InvalidState))
  /\
  (forall ov w1 res,
     processRewardRefund parseFloat rewardId ov w = (w1, Returned res) ->
     forall ov',
       processRewardRefund parseFloat rewardId ov' w1 = (w1, Thrown InvalidState)).
Proof.
  split.
  - intros ov reward. apply settle_not_pending.
  - intros ov w1 res Hrun ov'.
    destruct (settle_returned _ _ _ _ _ _ Hrun)
      as [reward [gid [paid [_ [_ [_ [_ [Hpaid [Hstatus _]]]]]]]]].
    apply (settle_not_pending parseFloat rewardId ov' w1 paid Hpaid).
    rewrite Hstatus. discriminate.
Qed.

Lemma settlement_is_single_use_witness :
  processRewardRefund parseDecimal "rw1" None demoWorld = (demoWorld, Thrown InvalidState)
  /\ exists w1 res,
       processRewardRefund parseDecimal "rw3" None demoWorld = (w1, Returned res) /\
       processRewardRefund parseDecimal "rw3" None w1 = (w1, Thrown InvalidState) /\
       List.length (refundCalls w1) = 1%nat.
Proof.
  destruct (settlement_is_single_use parseDecimal demoWorld "rw1") as [H1 _].
  destruct (settlement_is_single_use parseDecimal demoWorld "rw3") as [_ H2].
  split.
  - apply (H1 None (demoReward "rw1" "ref1" (Some "rl1") (Num.ofZ 30) PAID (Some 500))).
    + reflexivity.
    + discriminate.
  - destruct (processRewardRefund parseDecimal "rw3" None demoWorld) as [w1 o] eqn:E.
    destruct o as [res | e]; [| vm_compute in E; discriminate].
    exists w1, res. split; [reflexivity |].
    split; [exact (H2 None w1 res E None) |].
    vm_compute in E. inversion E; subst. reflexivity.
Defined.

(** C3. Whatever the outcome of a settlement, at most three refund mutations
    are sent, and a further one is sent only after a reply that reports the
    order as unavailable. The settlement returns only if the last reply
    confirmed the refund without user errors; in every other case it throws
    to the caller, and a settlement that throws has written no reward: the
    reward it was called for is still pending. A settlement that throws
    after a mutation was sent throws an error of the refund step. *)
Theorem failed_refund_leaves_reward_pending (parseFloat : string -> number)
    (w w' : World) (rewardId : string) (ov : option string)
    (o : Outcome ProcessRewardRefundResult) :
  processRewardRefund parseFloat rewardId ov w = (w', o) ->
  (attemptsMade w w' <= 3)%nat /\
  (forall j, (S j < attemptsMade w w')%nat ->
     asks_retry (refundReply (shopify w) (List.length (refundCalls w) + j))) /\
  (~ asks_retry (refundReply (shopify w) (List.length (refundCalls w))) ->
   (attemptsMade w w' <= 1)%nat) /\
  (forall res, o = Returned res ->
     exists j refund, attemptsMade w w' = S j /\
       refundReply (shopify w) (List.length (refundCalls w) + j) = Payload [] refund) /\
  (forall e, o = Thrown e ->
     rewardsOf w' = rewardsOf w /\ findReward rewardId w' = findReward rewardId w) /\
  (forall e, o = Thrown e -> attemptsMade w w' <> O -> refund_failure e).
Proof.
  intros Hrun.
  pose proof (settle_cases parseFloat rewardId ov w) as Hcase.
  rewrite Hrun in Hcase.
  assert (Hquiet : forall reward, refundCalls (atCheck parseFloat w reward ov) = refundCalls w).
  { intros reward. apply (beforeCheck_keeps parseFloat refundCalls); reflexivity. }
  assert (Hsame : forall reward, rewardsOf (atCheck parseFloat w reward ov) = rewardsOf w).
  { intros reward. apply (beforeCheck_keeps parseFloat rewardsOf); reflexivity. }
  inversion Hcase as
    [ Hfind | reward Hfind Hstatus | reward Hfind Hstatus Hres
    | reward gid Hfind Hstatus Hres Hgid Hover
    | reward gid Hfind Hstatus Hres Hgid Hover Heq ]; subst;
    unfold attemptsMade.
  1-3: (rewrite Nat.sub_diag; repeat split; try lia; try discriminate; intros; lia).
  - rewrite Hquiet, Nat.sub_diag. unfold findReward. rewrite Hsame.
    repeat split; try lia; try discriminate; intros; lia.
  - destruct (refunding_spec parseFloat rewardId ov w reward gid Hfind)
      as [k [Hk [Hcalls [Hj [_ [Hthr Hret]]]]]].
    rewrite Heq in Hcalls, Hthr, Hret. cbn [fst snd] in Hcalls, Hthr, Hret.
    rewrite Hcalls, length_app, repeat_length.
    replace (List.length (refundCalls w) + k - List.length (refundCalls w))%nat with k by lia.
    unfold maxRetries in Hk.
    split; [lia |]. split; [exact Hj |].
    split.
    { intros Hnot. destruct k as [| [| k]]; try lia.
      exfalso. apply Hnot.
      assert (Hlt : (1 < S (S k))%nat) by lia.
      specialize (Hj O Hlt). rewrite Nat.add_0_r in Hj. exact Hj. }
    split.
    { intros res Hres'. destruct (Hret res Hres') as [_ [Hlast _]]. exact Hlast. }
    split.
    { intros e He. destruct (Hthr e He) as [_ Hr]. unfold findReward. rewrite Hr. auto. }
    intros e He _. destruct (Hthr e He) as [Hf _]. exact Hf.
Qed.

Lemma failed_refund_leaves_reward_pending_witness :
  let out := processRewardRefund parseDecimal "rw3" None lockedWorld in
  snd out = Thrown (RefundUserErrors [unavailable]) /\
  attemptsMade lockedWorld (fst out) = 3%nat /\
  findReward "rw3" (fst out) = findReward "rw3" lockedWorld /\
  attemptsMade rejectingWorld
    (fst (processRewardRefund parseDecimal "rw3" None rejectingWorld)) = 1%nat.
Proof.
  intro out.
  destruct (failed_refund_leaves_reward_pending parseDecimal lockedWorld (fst out) "rw3"
              None (snd out)) as [_ [_ [_ [_ [Hkeep _]]]]].
  - apply surjective_pairing.
  - assert (Hout : snd out = Thrown (RefundUserErrors [unavailable]))
      by (vm_compute; reflexivity).
    split; [exact Hout |].
    split; [vm_compute; reflexivity |].
    split; [exact (proj2 (Hkeep _ Hout)) |].
    vm_compute. reflexivity.
Defined.

Lemma totalRefundedForCode_ext d1 d2 gid :
  codes d1 = codes d2 -> referrals d1 = referrals d2 -> rewards d1 = rewards d2 ->
  totalRefundedForCode d1 gid = totalRefundedForCode d2 gid.
Proof.
  intros Hc Hl Hr. unfold totalRefundedForCode. rewrite Hc, Hr.
  destruct (filter _ (codes d2)) as [| c rest]; [reflexivity |].
  f_equal. f_equal. apply filter_ext. intros r.
  unfold paid_through, referral_of. rewrite Hl. reflexivity.
Qed.

Lemma alreadyPaid_without_override parseFloat w reward :
  alreadyPaid parseFloat w reward None
  = totalRefundedForCode (db w) (orDefault (resolvedOrder w reward None) "").
Proof.
  unfold alreadyPaid. apply totalRefundedForCode_ext.
  - change (codesOf (atCheck parseFloat w reward None) = codesOf w).
    unfold atCheck. cbv zeta.
    rewrite (keeps_getOrderTotalAmount parseFloat codesOf) by reflexivity.
    rewrite (keeps_getReferralSettings codesOf) by reflexivity.
    rewrite (announced_keeps codesOf) by reflexivity.
    unfold backfilled. destruct (included_code (db w) reward); reflexivity.
  - apply (beforeCheck_keeps parseFloat referralsOf); reflexivity.
  - apply (beforeCheck_keeps parseFloat rewardsOf); reflexivity.
Qed.

(** C1, as stated, fails on an order whose total is known to be zero: the
    ceiling would be zero and every reward above it, yet the settlement goes
    through. *)
Lemma zero_total_is_not_enforced : ~ ceiling_enforced_for_every_total parseDecimal.
Proof.
  intro H.
  destruct (H zeroTotalWorld "rw2" None
              (demoReward "rw2" "ref1" (Some "rl2") (Num.ofZ 25) PENDING None)
              demoGid (S754_zero false)) as [refundLeft Hthrown];
    try reflexivity.
  vm_compute in Hthrown. discriminate.
Qed.

(** C1 (amended). For every settlement of a pending reward for which the
    order total is known and is a non-zero number: the ceiling is the total
    times the maximal refund fraction, and the settlement is rejected with
    the ceiling error exactly when the amount already paid plus the amount
    of the reward exceeds the ceiling; the error reports
    [max(0, ceiling - alreadyPaid)], no refund is requested and no reward is
    written. Otherwise a settlement that returns reports the ceiling and the
    new total paid. On an order of 100 with fraction 0.5 and 30 already
    paid, settling 25 fails reporting 20, and settling 20 succeeds and
    brings the total paid to 50. *)
Theorem ceiling_rule :
  (forall (parseFloat : string -> number) (w : World) (rewardId : string)
          (ov : option string) (reward : Reward.t) (gid : string) (total : number),
     findReward rewardId w = Some reward ->
     Reward.status reward = PENDING ->
     resolvedOrder w reward ov = Some gid ->
     str_truthy gid = true ->
     orderTotalOf parseFloat w gid = Some total ->
     Num.truthy total = true ->
     let ceiling := Num.mul total (Settings.maxRefundPercentage (currentSettings (db w))) in
     let already := alreadyPaid parseFloat w reward ov in
     let out := processRewardRefund parseFloat rewardId ov w in
     ceilingOf parseFloat w reward ov = Some ceiling /\
     (ov = None -> already = totalRefundedForCode (db w) gid) /\
     (Num.gt (Num.add already (Reward.amount reward)) ceiling = true ->
        snd out = Thrown (RefundCeilingExceeded
                            (Num.max Num.zero (Num.sub ceiling already))
                            (Reward.currency reward)) /\
        rewardsOf (fst out) = rewardsOf w /\
        refundCalls (fst out) = refundCalls w) /\
     (Num.gt (Num.add already (Reward.amount reward)) ceiling = false ->
        (forall refundLeft currency,
           snd out <> Thrown (RefundCeilingExceeded refundLeft currency)) /\
        (forall res, snd out = Returned res ->
           maxRefundAllowed res = Some ceiling /\
           totalRefunded res = Num.add already (Reward.amount reward))))
  /\
  (alreadyPaid parseDecimal demoWorld
     (demoReward "rw2" "ref1" (Some "rl2") (Num.ofZ 25) PENDING None) None = Num.ofZ 30 /\
   snd (processRewardRefund parseDecimal "rw2" None demoWorld)
     = Thrown (RefundCeilingExceeded (Num.ofZ 20) "EUR") /\
   rewardsOf (fst (processRewardRefund parseDecimal "rw2" None demoWorld)) = rewardsOf demoWorld /\
   snd (processRewardRefund parseDecimal "rw3" None demoWorld)
     = Returned (mkResult "rw3" (Num.ofZ 50) (Some (Num.ofZ 50))) /\
   totalRefundedForCode (db (fst (processRewardRefund parseDecimal "rw3" None demoWorld))) demoGid
     = Num.ofZ 50).
Proof.
  split.
  - intros parseFloat w rewardId ov reward gid total Hfind Hstatus Hres Hgid Htotal Htruthy
      ceiling already out.
    assert (Hceiling : ceilingOf parseFloat w reward ov = Some ceiling).
    { unfold ceilingOf. rewrite Hres. cbn [orDefault]. rewrite Htotal.
      unfold refundCeiling. rewrite Htruthy. reflexivity. }
    split; [exact Hceiling |].
    split.
    { intros ->. subst already. rewrite alreadyPaid_without_override, Hres. reflexivity. }
    subst out. rewrite (processRewardRefund_eq parseFloat _ _ _ _ _ Hfind Hstatus Hres Hgid).
    cbv zeta. fold already. rewrite Hceiling. unfold overCeiling. cbn [orDefault].
    split; intros Hgt; rewrite Hgt.
    + cbn [fst snd]. split; [reflexivity |].
      split.
      * apply (beforeCheck_keeps parseFloat rewardsOf); reflexivity.
      * apply (beforeCheck_keeps parseFloat refundCalls); reflexivity.
    + destruct (refunding_spec parseFloat rewardId ov w reward gid Hfind)
        as [k [_ [_ [_ [_ [Hthr Hret]]]]]].
      fold already in Hthr, Hret. rewrite Hceiling in Hthr, Hret.
      split.
      * intros refundLeft currency Hthrown.
        destruct (Hthr _ Hthrown) as [Hf _]. exact Hf.
      * intros res Hr. destruct (Hret res Hr) as [-> _]. split; reflexivity.
  - repeat split; vm_compute; reflexivity.
Qed.

Lemma ceiling_rule_witness :
  let reward := demoReward "rw2" "ref1" (Some "rl2") (Num.ofZ 25) PENDING None in
  let out := processRewardRefund parseDecimal "rw2" None demoWorld in
  ceilingOf parseDecimal demoWorld reward None = Some (Num.ofZ 50) /\
  snd out = Thrown (RefundCeilingExceeded (Num.ofZ 20) "EUR") /\
  rewardsOf (fst out) = rewardsOf demoWorld /\
  refundCalls (fst out) = refundCalls demoWorld.
Proof.
  intros reward out.
  destruct ceiling_rule as [Hrule _].
  destruct (Hrule parseDecimal demoWorld "rw2" None reward demoGid (Num.ofZ 100))
    as [Hceiling [_ [Hover _]]]; try reflexivity.
  assert (Hgt : Num.gt (Num.add (alreadyPaid parseDecimal demoWorld reward None)
                          (Reward.amount reward))
                       (Num.mul (Num.ofZ 100)
                          (Settings.maxRefundPercentage (currentSettings (db demoWorld))))
                = true) by (vm_compute; reflexivity).
  destruct (Hover Hgt) as [Hthrown [Hrewards Hcalls]].
  subst out.
  split; [rewrite Hceiling; vm_compute; reflexivity |].
  split; [rewrite Hthrown; vm_compute; reflexivity |].
  split; assumption.
Defined.

Lemma createReferralRefund_first_success gid amount currency note w refund :
  refundReply (shopify w) (List.length (refundCalls w)) = Payload [] refund ->
  snd (createReferralRefund gid amount currency note w) = Returned refund.
Proof.
  intros Hreply. rewrite createReferralRefund_eq.
  destruct (refundPrelude_frame gid w) as [_ [Hsh [Hca _]]].
  unfold maxRetries. rewrite refundAttempts_step. cbv zeta.
  rewrite Hsh, Hca, Hreply. reflexivity.
Qed.

(** C10. When the lookup of the order total answers a zero (of either
    sign), the settlement of a pending reward computes no ceiling, as for an
    unknown total: it never ends on the ceiling error, whatever the amount,
    it sends the refund mutation, a settlement that returns reports no
    ceiling, and if the platform confirms the refund the reward is paid. *)
Theorem zero_total_gives_no_ceiling (parseFloat : string -> number) (w : World)
    (rewardId : string) (ov : option string) (reward : Reward.t) (gid : string)
    (sign : bool) :
  findReward rewardId w = Some reward ->
  Reward.status reward = PENDING ->
  resolvedOrder w reward ov = Some gid ->
  str_truthy gid = true ->
  orderTotalOf parseFloat w gid = Some (S754_zero sign) ->
  let out := processRewardRefund parseFloat rewardId ov w in
  ceilingOf parseFloat w reward ov = None /\
  refundCeiling (Some (S754_zero sign)) (currentSettings (db w))
    = refundCeiling None (currentSettings (db w)) /\
  (forall refundLeft currency,
     snd out <> Thrown (RefundCeilingExceeded refundLeft currency)) /\
  (1 <= attemptsMade w (fst out))%nat /\
  (forall res, snd out = Returned res -> maxRefundAllowed res = None) /\
  (forall refund,
     refundReply (shopify w) (List.length (refundCalls w)) = Payload [] refund ->
     exists paid,
       snd out = Returned (mkResult (Reward.id reward)
                             (Num.add (alreadyPaid parseFloat w reward ov) (Reward.amount reward))
                             None) /\
       findReward rewardId (fst out) = Some paid /\
       Reward.status paid = PAID).
Proof.
  intros Hfind Hstatus Hres Hgid Htotal out.
  assert (Hceiling : ceilingOf parseFloat w reward ov = None).
  { unfold ceilingOf. rewrite Hres. cbn [orDefault]. rewrite Htotal. reflexivity. }
  split; [exact Hceiling |]. split; [reflexivity |].
  subst out. rewrite (processRewardRefund_eq parseFloat _ _ _ _ _ Hfind Hstatus Hres Hgid).
  cbv zeta. rewrite Hceiling. cbn [overCeiling].
  destruct (refunding_spec parseFloat rewardId ov w reward gid Hfind)
    as [k [Hk [Hcalls [_ [_ [Hthr Hret]]]]]].
  rewrite Hceiling in Hcalls, Hthr, Hret.
  split.
  { intros refundLeft currency Hthrown. destruct (Hthr _ Hthrown) as [Hf _]. exact Hf. }
  split.
  { unfold attemptsMade. rewrite Hcalls, length_app, repeat_length. lia. }
  split.
  { intros res Hr. destruct (Hret res Hr) as [-> _]. reflexivity. }
  intros refund Hreply.
  set (wc := atCheck parseFloat w reward ov) in *.
  assert (Hreply' : refundReply (shopify wc) (List.length (refundCalls wc)) = Payload [] refund).
  { subst wc. rewrite (beforeCheck_keeps parseFloat shopify) by reflexivity.
    rewrite (beforeCheck_keeps parseFloat refundCalls) by reflexivity. exact Hreply. }
  pose proof (createReferralRefund_first_success gid (Reward.amount reward)
                (Reward.currency reward) (Some REFUND_NOTE) wc refund Hreply') as Hrf.
  assert (Hfindc : findReward (Reward.id reward) wc = Some reward).
  { assert (Hid : Reward.id reward = rewardId).
    { unfold findReward in Hfind. apply find_some in Hfind.
      destruct Hfind as [_ H]. apply String.eqb_eq. exact H. }
    unfold findReward. subst wc.
    rewrite (beforeCheck_keeps parseFloat rewardsOf) by reflexivity.
    rewrite Hid. exact Hfind. }
  destruct (settleTail_spec reward gid
    (find (fun r => String.eqb (Referrer.id r) (Reward.referrerId reward)) (referrers (db w)))
    (alreadyPaid parseFloat w reward ov) None wc reward Hfindc) as [_ [_ Hreturned]].
  destruct (Hreturned refund Hrf) as [Hout _].
  destruct (Hret _ Hout) as [_ [_ [[paid [Hpaid [Hst _]]] _]]].
  exists paid. repeat split; assumption.
Qed.

Lemma zero_total_gives_no_ceiling_witness :
  let out := processRewardRefund parseDecimal "rw2" None zeroTotalWorld in
  ceilingOf parseDecimal zeroTotalWorld
    (demoReward "rw2" "ref1" (Some "rl2") (Num.ofZ 25) PENDING None) None = None /\
  exists paid,
    snd out = Returned (mkResult "rw2" (Num.ofZ 55) None) /\
    findReward "rw2" (fst out) = Some paid /\
    Reward.status paid = PAID.
Proof.
  intro out.
  destruct (zero_total_gives_no_ceiling parseDecimal zeroTotalWorld "rw2" None
              (demoReward "rw2" "ref1" (Some "rl2") (Num.ofZ 25) PENDING None)
              demoGid false) as [Hceiling [_ [_ [_ [_ Hpaid]]]]]; try reflexivity.
  split; [exact Hceiling |].
  destruct (Hpaid "refund1" eq_refl) as [paid [Hout [Hfind Hstatus]]].
  exists paid. subst out. split; [rewrite Hout; vm_compute; reflexivity |].
  split; assumption.
Defined.

(** C9, as stated, fails on an order that only shows an authorization: no
    successful capture or sale is listed, and the refund is issued against
    the authorization, without fallback. *)
Lemma authorization_is_refunded_directly : ~ fallback_whenever_no_capture.
Proof.
  intro H.
  destruct (H authorizedOnlyWorld demoGid (Num.ofZ 20) "EUR" None
              [Some (mkTransaction (Some "tx9") (Some "AUTHORIZATION") (Some "SUCCESS"))]
              eq_refl eq_refl) as [Htarget _].
  destruct (Htarget (mkRefundVariables DEFAULT_REFUND_NOTE demoGid (Num.ofZ 20)
                       (ParentTransaction "tx9"))) as [gateway Hg].
  - vm_compute. left. reflexivity.
  - intros [].
  - discriminate.
Qed.

(** C9 (amended). Every refund mutation of a refund execution carries the
    same transaction: the parent transaction when the lookup yields an
    identifier - that of the first transaction in a successful capture or
    sale state, else that of the first listed transaction, whatever its kind
    and status - and otherwise the gateway of the fallback ("store-credit"
    unless configured), in which case the fallback is logged. The fallback
    is thus used when the lookup fails or the order lists no transaction. A
    settlement that returns has marked the reward as paid on either path. *)
Theorem refund_target_rule :
  (forall (w : World) (gid : string) (amount : number) (currency : string)
          (note : option string),
     let out := createReferralRefund gid amount currency note w in
     let v := mkRefundVariables (orDefault note DEFAULT_REFUND_NOTE) gid amount
                (refundTargetOf w gid) in
     exists k,
       (1 <= k <= 3)%nat /\
       refundCalls (fst out) = (refundCalls w ++ repeat v k)%list /\
       (opt_truthy (parentIdOf (orderTransactions (shopify w) gid)) = false ->
        In (WarnStoreCreditFallback gid) (console (fst out))))
  /\ (forall w gid id,
        parentIdOf (orderTransactions (shopify w) gid) = Some id ->
        str_truthy id = true ->
        refundTargetOf w gid = ParentTransaction id)
  /\ (forall w gid,
        opt_truthy (parentIdOf (orderTransactions (shopify w) gid)) = false ->
        refundTargetOf w gid = Gateway (orDefault (refundGateway w) "store-credit"))
  /\ (forall edges node id,
        find edge_valid edges = Some (Some node) ->
        tx_id node = Some id ->
        parentIdOf (Some edges) = Some id)
  /\ (forall node rest id,
        find edge_valid (Some node :: rest) = None ->
        tx_id node = Some id ->
        parentIdOf (Some (Some node :: rest)) = Some id)
  /\ parentIdOf None = None
  /\ parentIdOf (Some []) = None
  /\ (forall w gid,
        snd (getOrderTransactionParentId gid w)
        = Returned (parentIdOf (orderTransactions (shopify w) gid)))
  /\ (forall parseFloat w rewardId ov w' res,
        processRewardRefund parseFloat rewardId ov w = (w', Returned res) ->
        exists reward gid paid,
          findReward rewardId w = Some reward /\
          resolvedOrder w reward ov = Some gid /\
          findReward rewardId w' = Some paid /\
          Reward.status paid = PAID /\
          (opt_truthy (parentIdOf (orderTransactions (shopify w) gid)) = false ->
           In (WarnStoreCreditFallback gid) (console w'))).
Proof.
  split.
  { intros w gid amount currency note out v.
    destruct (createReferralRefund_spec gid amount currency note w)
      as [_ [_ [_ [Hwarn [k [Hk [Hcalls _]]]]]]].
    exists k. unfold maxRetries in Hk. repeat split; try lia; assumption. }
  split.
  { intros w gid id Hparent Hid. unfold refundTargetOf. rewrite Hparent.
    cbn [opt_truthy orDefault]. rewrite Hid. reflexivity. }
  split.
  { intros w gid Hf. unfold refundTargetOf. rewrite Hf. reflexivity. }
  split.
  { intros edges node id Hfind Hid. unfold parentIdOf. rewrite Hfind.
    cbn [edge_id]. rewrite Hid. reflexivity. }
  split.
  { intros node rest id Hfind Hid. unfold parentIdOf. rewrite Hfind.
    cbn [edge_id hd_error orElse]. exact Hid. }
  split; [reflexivity |]. split; [reflexivity |].
  split; [intros w gid; apply getOrderTransactionParentId_value |].
  intros parseFloat w rewardId ov w' res Hrun.
  destruct (settle_returned _ _ _ _ _ _ Hrun)
    as [reward [gid [paid [Hfind [_ [Hres [_ [Hpaid [Hstatus [_ Hwarn]]]]]]]]]].
  exists reward, gid, paid. repeat split; assumption.
Qed.

Lemma refund_target_rule_witness :
  refundTargetOf authorizedOnlyWorld demoGid = ParentTransaction "tx9" /\
  refundTargetOf noTransactionWorld demoGid = Gateway "store-credit" /\
  exists paid,
    findReward "rw3" (fst (processRewardRefund parseDecimal "rw3" None noTransactionWorld))
      = Some paid /\
    Reward.status paid = PAID /\
    In (WarnStoreCreditFallback demoGid)
       (console (fst (processRewardRefund parseDecimal "rw3" None noTransactionWorld))).
Proof.
  destruct refund_target_rule as [_ [Hparent [Hfallback [_ [_ [_ [_ [_ Hpaid]]]]]]]].
  split; [apply Hparent; reflexivity |].
  split; [rewrite Hfallback; reflexivity |].
  destruct (processRewardRefund parseDecimal "rw3" None noTransactionWorld)
    as [w' [res | e]] eqn:E; [| vm_compute in E; discriminate].
  destruct (Hpaid parseDecimal noTransactionWorld "rw3" None w' res E)
    as [reward [gid [paid [Hfind [Hres [Hp [Hs Hwarn]]]]]]].
  exists paid. cbn [fst]. split; [exact Hp |]. split; [exact Hs |].
  vm_compute in Hfind. inversion Hfind; subst reward.
  vm_compute in Hres. inversion Hres; subst gid.
  apply Hwarn. reflexivity.
Defined.

(** ** The purchase handler *)

Lemma keeps_codeIds_code_update id f :
  (forall c, Code.id (f c) = Code.id c) ->
  keeps codeIds (code_update id f).
Proof.
  intros Hid w. unfold code_update, bind, now, readDb, gets, writeDb, modify, ret, throw.
  cbn [fst snd].
  destruct (update_first _ _ (codes (db w))) as [[c' rows'] |] eqn:Hup; [| reflexivity].
  unfold codeIds, codesOf. cbn [fst db set_db codes set_codes].
  eapply update_first_map; [exact Hup |].
  intros c. cbn [touch_code Code.id]. apply Hid.
Qed.

Lemma code_update_run id f w c :
  findCodeById id w = Some c ->
  exists rows',
    code_update id f w
      = (set_db (set_codes rows' (db w)) w, Returned (touch_code (clock w) (f c)))
    /\ update_first (fun x => String.eqb (Code.id x) id)
         (fun x => touch_code (clock w) (f x)) (codes (db w))
       = Some (touch_code (clock w) (f c), rows').
Proof.
  intros Hfind.
  destruct (update_first_found _ (fun x => touch_code (clock w) (f x)) _ _ Hfind)
    as [rows' Hup].
  exists rows'. split; [| exact Hup].
  unfold code_update, bind, now, readDb, gets, writeDb, modify, ret. cbn [fst snd].
  unfold codesOf in Hup. rewrite Hup. reflexivity.
Qed.

Lemma In_findCodeById c w :
  In c (codesOf w) -> exists c0, findCodeById (Code.id c) w = Some c0.
Proof.
  intros Hin. unfold findCodeById.
  destruct (find _ (codesOf w)) as [c0 |] eqn:E; [eauto |].
  pose proof (find_none _ _ E _ Hin) as Hn. cbn in Hn.
  rewrite String.eqb_refl in Hn. discriminate.
Qed.

Lemma latestCodeOf_step rid rows :
  forall best,
    match fold_left (fun best c =>
            if String.eqb (Code.referrerId c) rid then
              match best with
              | Some b => if Code.createdAt b <? Code.createdAt c then Some c else best
              | None => Some c
              end
            else best) rows best with
    | Some c => best = Some c \/ (In c rows /\ Code.referrerId c = rid)
    | None => best = None /\ forall c, In c rows -> Code.referrerId c <> rid
    end.
Proof.
  induction rows as [| r rest IH]; intros best; cbn [fold_left].
  - destruct best; [left; reflexivity | split; [reflexivity | intros c []]].
  - match goal with
    | |- match fold_left _ rest ?b with _ => _ end =>
        specialize (IH b); destruct (fold_left _ rest b) as [c |] eqn:E
    end.
    + destruct IH as [Hb | [Hin Hr]].
      * destruct (String.eqb (Code.referrerId r) rid) eqn:Er.
        -- destruct best as [b |].
           ++ destruct (Code.createdAt b <? Code.createdAt r).
              ** inversion Hb; subst. right. split; [left; reflexivity |].
                 apply String.eqb_eq. exact Er.
              ** left. exact Hb.
           ++ inversion Hb; subst. right. split; [left; reflexivity |].
              apply String.eqb_eq. exact Er.
        -- left. exact Hb.
      * right. split; [right; exact Hin | exact Hr].
    + destruct IH as [Hb Hnone].
      destruct (String.eqb (Code.referrerId r) rid) eqn:Er.
      * destruct best as [b |]; [destruct (Code.createdAt b <? Code.createdAt r) |];
          discriminate.
      * split; [exact Hb |]. intros c [Hc | Hc].
        -- subst c. apply String.eqb_neq. exact Er.
        -- apply Hnone. exact Hc.
Qed.

Lemma latestCodeOf_spec rid rows :
  match latestCodeOf rid rows with
  | Some c => In c rows /\ Code.referrerId c = rid
  | None => forall c, In c rows -> Code.referrerId c <> rid
  end.
Proof.
  unfold latestCodeOf.
  pose proof (latestCodeOf_step rid rows None) as H.
  destruct (fold_left _ rows None) as [c |].
  - destruct H as [H | H]; [discriminate | exact H].
  - destruct H as [_ H]. exact H.
Qed.

Lemma selectedCode_In w orderId referrer c :
  selectedCode w orderId referrer = Some c -> In c (codesOf w).
Proof.
  unfold selectedCode.
  destruct (find _ (codesOf w)) as [c0 |] eqn:E.
  - intros H. inversion H; subst. apply find_some in E. tauto.
  - intros H. pose proof (latestCodeOf_spec (Referrer.id referrer) (codesOf w)) as Hs.
    rewrite H in Hs. tauto.
Qed.

Lemma selectedCode_exists w orderId referrer c :
  In c (codesOf w) -> Code.referrerId c = Referrer.id referrer ->
  exists c', selectedCode w orderId referrer = Some c'.
Proof.
  intros Hin Hr. unfold selectedCode.
  destruct (find _ (codesOf w)) as [c0 |]; [eauto |].
  pose proof (latestCodeOf_spec (Referrer.id referrer) (codesOf w)) as Hs.
  destruct (latestCodeOf _ _) as [c' |]; [eauto |].
  exfalso. exact (Hs c Hin Hr).
Qed.

Lemma recreateShopifyDiscount_run c w :
  exists w1 d,
    recreateShopifyDiscount c w = (w1, Returned d) /\
    db w1 = db w /\ clock w1 = clock w.
Proof.
  assert (Hcreate : exists w1 d,
            tryCreateShopifyDiscount c w = (w1, Returned d) /\ db w1 = db w /\ clock w1 = clock w).
  { unfold tryCreateShopifyDiscount, createShopifyDiscount, try_catch, bind, gets, log,
      modify, ret, throw. cbn [fst snd].
    destruct (discountCreate (shopify w) (Code.code c)); eexists; eexists;
      (split; [reflexivity | split; reflexivity]). }
  unfold recreateShopifyDiscount.
  destruct (Code.shopifyDiscountId c) as [linked |]; [| exact Hcreate].
  destruct (str_truthy linked); [| exact Hcreate].
  unfold bind, gets, log, modify, ret. cbn [fst snd].
  destruct (discountUpdate (shopify w) linked) as [| | node_id node_code].
  1-2: (eexists; eexists; split; [reflexivity | split; reflexivity]).
  destruct (opt_truthy node_id); [| exact Hcreate].
  eexists; eexists; split; [reflexivity | split; reflexivity].
Qed.

Lemma sameTerms_refl c : sameTerms c c.
Proof. unfold sameTerms. repeat split. Qed.

Lemma syncDiscount_spec c created w stored0 :
  findCodeById (Code.id c) w = Some stored0 ->
  let out := syncDiscount c created w in
  snd out = Returned tt /\
  codeIds (fst out) = codeIds w /\
  rewardsOf (fst out) = rewardsOf w /\
  referralsOf (fst out) = referralsOf w /\
  referrersOf (fst out) = referrersOf w /\
  exists stored, findCodeById (Code.id c) (fst out) = Some stored /\ sameTerms stored stored0.
Proof.
  intros Hfind. cbv zeta. unfold syncDiscount.
  destruct (recreateShopifyDiscount_run c w) as [w1 [d [Hrun [Hdb1 Hclock1]]]].
  rewrite (bind_returned _ _ _ _ _ Hrun).
  assert (Hfind1 : findCodeById (Code.id c) w1 = Some stored0).
  { unfold findCodeById, codesOf in *. rewrite Hdb1. exact Hfind. }
  destruct d as [d |].
  - unfold linkShopifyDiscountId.
    destruct (code_update_run (Code.id c) (with_discountId (discountId d)) w1 stored0 Hfind1)
      as [rows' [Hup Hrows]].
    rewrite (bind_returned _ _ _ _ _ Hup).
    unfold log, modify. cbn [fst snd].
    unfold codeIds, rewardsOf, referralsOf, referrersOf, findCodeById, codesOf.
    cbn [db set_db set_console codes rewards referrals referrers set_codes].
    rewrite Hdb1. rewrite Hdb1 in Hrows.
    split; [reflexivity |].
    split; [eapply update_first_map; [exact Hrows | reflexivity] |].
    split; [reflexivity |]. split; [reflexivity |]. split; [reflexivity |].
    eexists. split.
    + eapply update_first_find; [exact Hrows |]. intros r Hr. exact Hr.
    + unfold sameTerms. repeat split.
  - unfold ret. cbn [fst snd].
    unfold codeIds, rewardsOf, referralsOf, referrersOf, codesOf. rewrite Hdb1.
    repeat split.
    exists stored0. split; [exact Hfind1 | apply sameTerms_refl].
Qed.

Lemma refreshExpiry_run settings w :
  exists d,
    refreshExpiry settings w = (w, Returned d) /\
    dateColumn d
    = if validExpiry (clock w) settings then Some (expiryAt (clock w) settings) else None.
Proof.
  unfold refreshExpiry, validExpiry, expiryAt.
  destruct (0 <? Settings.codeValidityDays settings); [| eexists; split; reflexivity].
  unfold bind, now, gets, ret. cbn [fst snd]. eexists. split; [reflexivity |].
  unfold timeClip, dateColumn. destruct (Z.abs _ <=? maxTime); reflexivity.
Qed.

(** The code that the handler finds for the buyer. *)
Lemma issueOrRefreshCode_pick orderId referrer w :
  forall (k : option Code.t -> M Code.t),
    (byOrder <- findCodeByOriginOrderId orderId ;;
     codeRecord <-
       match byOrder with
       | Some c => ret (Some c)
       | None => readDb (fun d => latestCodeOf (Referrer.id referrer) (codes d))
       end ;;
     k codeRecord) w
    = k (selectedCode w orderId referrer) w.
Proof.
  intros k. unfold selectedCode, findCodeByOriginOrderId, bind, readDb, gets, ret, codesOf.
  cbn [fst snd]. destruct (find _ (codes (db w))); reflexivity.
Qed.

(** An update that the client or the database refuses leaves the world as
    it is. *)
Lemma issueOrRefreshCode_refused payload orderId settings ws referrer w codeRecord :
  selectedCode w orderId referrer = Some codeRecord ->
  (validExpiry (clock w) settings
   && fitsInt (workshopQuantity ws)
   && fitsInt (Settings.maxUsagePerCode settings))%bool = false ->
  issueOrRefreshCode payload orderId settings ws referrer w
  = (w, Thrown (if validExpiry (clock w) settings then ValueOutOfRange else InvalidValue)).
Proof.
  intros Hsel Hbad. unfold issueOrRefreshCode.
  rewrite issueOrRefreshCode_pick, Hsel.
  destruct (refreshExpiry_run settings w) as [d [Hd Hcol]].
  rewrite (bind_returned _ _ _ _ _ Hd). rewrite Hcol.
  destruct (validExpiry (clock w) settings); [| reflexivity].
  cbn [andb] in Hbad. rewrite Hbad. reflexivity.
Qed.

Lemma issueOrRefreshCode_refresh payload orderId settings ws referrer w codeRecord :
  selectedCode w orderId referrer = Some codeRecord ->
  validExpiry (clock w) settings = true ->
  fitsInt (workshopQuantity ws) = true ->
  fitsInt (Settings.maxUsagePerCode settings) = true ->
  let out := issueOrRefreshCode payload orderId settings ws referrer w in
  exists c0 stored,
    findCodeById (Code.id codeRecord) w = Some c0 /\
    snd out = Returned
      (touch_code (clock w)
         (refreshed codeRecord orderId (admin_graphql_api_id payload) ws
            (expiryAt (clock w) settings) settings c0)) /\
    codeIds (fst out) = codeIds w /\
    rewardsOf (fst out) = rewardsOf w /\
    referralsOf (fst out) = referralsOf w /\
    referrersOf (fst out) = referrersOf w /\
    findCodeById (Code.id codeRecord) (fst out) = Some stored /\
    sameTerms stored
      (touch_code (clock w)
         (refreshed codeRecord orderId (admin_graphql_api_id payload) ws
            (expiryAt (clock w) settings) settings c0)).
Proof.
  intros Hsel Hvalid Hq Hm. cbv zeta.
  destruct (In_findCodeById codeRecord w (selectedCode_In _ _ _ _ Hsel)) as [c0 Hc0].
  exists c0.
  unfold issueOrRefreshCode.
  rewrite issueOrRefreshCode_pick, Hsel.
  destruct (refreshExpiry_run settings w) as [d [Hd Hcol]].
  rewrite (bind_returned _ _ _ _ _ Hd). rewrite Hcol, Hvalid, Hq, Hm.
  cbn [andb negb].
  destruct (code_update_run (Code.id codeRecord)
              (refreshed codeRecord orderId (admin_graphql_api_id payload) ws
                 (expiryAt (clock w) settings) settings) w c0 Hc0) as [rows' [Hup Hrows]].
  rewrite (bind_returned _ _ _ _ _ Hup).
  set (c' := touch_code (clock w)
               (refreshed codeRecord orderId (admin_graphql_api_id payload) ws
                  (expiryAt (clock w) settings) settings c0)) in *.
  set (w1 := set_db (set_codes rows' (db w)) w).
  set (w2 := set_console (console w1 ++ [LogCodeReused (Code.code c') orderId]) w1).
  assert (Hlog : log (LogCodeReused (Code.code c') orderId) w1 = (w2, Returned tt))
    by reflexivity.
  rewrite (bind_returned _ _ _ _ _ Hlog).
  assert (Hid : Code.id c' = Code.id codeRecord).
  { unfold findCodeById in Hc0. apply find_some in Hc0. destruct Hc0 as [_ H].
    apply String.eqb_eq in H. exact H. }
  assert (Hfind2 : findCodeById (Code.id c') w2 = Some c').
  { rewrite Hid. unfold findCodeById, codesOf. subst w2.
    cbn [db set_db set_console codes set_codes].
    eapply update_first_find; [exact Hrows |]. intros r Hr. exact Hr. }
  destruct (syncDiscount_spec c' false w2 c' Hfind2)
    as [Hret [Hids [Hrew [Href [Hrefr [stored [Hstored Hsame]]]]]]].
  rewrite (bind_run _ _ w2 tt Hret). unfold ret. cbn [fst snd].
  exists stored. split; [exact Hc0 |]. split; [reflexivity |].
  split.
  { rewrite Hids. subst w2 w1. unfold codeIds, codesOf. cbn [db set_db set_console codes set_codes].
    eapply update_first_map; [exact Hrows | reflexivity]. }
  split; [rewrite Hrew; reflexivity |].
  split; [rewrite Href; reflexivity |].
  split; [rewrite Hrefr; reflexivity |].
  split; [rewrite <- Hid; exact Hstored | exact Hsame].
Qed.

Lemma issueOrRefreshCode_selected payload orderId settings ws referrer w codeRecord :
  selectedCode w orderId referrer = Some codeRecord ->
  codeIds (fst (issueOrRefreshCode payload orderId settings ws referrer w)) = codeIds w.
Proof.
  intros Hsel.
  destruct (validExpiry (clock w) settings
            && fitsInt (workshopQuantity ws)
            && fitsInt (Settings.maxUsagePerCode settings))%bool eqn:E.
  - apply andb_prop in E. destruct E as [E Hm]. apply andb_prop in E. destruct E as [Hv Hq].
    destruct (issueOrRefreshCode_refresh payload orderId settings ws referrer w codeRecord
                Hsel Hv Hq Hm) as [c0 [stored [_ [_ [Hids _]]]]].
    exact Hids.
  - rewrite (issueOrRefreshCode_refused _ _ _ _ _ _ _ Hsel E). reflexivity.
Qed.

Lemma getOrCreate_existing_id w customer existing :
  findReferrerOf customer w = Some existing ->
  exists r,
    snd (getOrCreateReferrerFromCustomer customer w) = Returned r /\
    Referrer.id r = Referrer.id existing.
Proof.
  intros Hfind.
  pose proof (getOrCreate_existing_run w customer existing Hfind) as Hrun.
  destruct (contactDiffers existing customer).
  - destruct Hrun as [row [rows' [Hid [_ Heq]]]]. rewrite Heq.
    eexists. split; [reflexivity | exact Hid].
  - rewrite Hrun. exists existing. split; reflexivity.
Qed.

Lemma keeps_codes_getOrCreate customer :
  keeps codesOf (getOrCreateReferrerFromCustomer customer).
Proof. keeps_go. Qed.

Lemma keeps_codeIds_markCodeAsUsed id : keeps codeIds (markCodeAsUsed id).
Proof.
  intros w. unfold markCodeAsUsed, bind, readDb, gets. cbn [fst snd].
  destruct (find _ (codes (db w))) as [c |].
  - destruct (fitsInt (Code.usageCount c + 1)); [| reflexivity].
    apply keeps_codeIds_code_update. reflexivity.
  - apply keeps_codeIds_code_update. reflexivity.
Qed.

#[local] Hint Resolve keeps_codeIds_markCodeAsUsed : keeps.

Lemma keeps_codeIds_recordReferral payload orderId buyer settings ws :
  keeps codeIds (recordReferral payload orderId buyer settings ws).
Proof. keeps_go. Qed.

Lemma keeps_fetchWorkshop {B} (proj : World -> B) orderId :
  (forall l w, proj (set_console l w) = proj w) ->
  keeps proj (fetchWorkshop orderId).
Proof.
  intros H w. unfold fetchWorkshop, bind, gets, log, modify, ret. cbn [fst snd].
  destruct (orderDetails (shopify w) orderId); cbn [fst snd]; [reflexivity | apply H].
Qed.

(** A buyer who already owns a code gets no other one. *)
Lemma action_mints_no_code w payload orderId buyer existing code0 :
  payload_id payload = Some orderId ->
  customer payload = Some buyer ->
  findReferrerOf buyer w = Some existing ->
  In code0 (codesOf w) ->
  Code.referrerId code0 = Referrer.id existing ->
  snd (action (Parsed payload) w) = Returned OK200 /\
  codeIds (fst (action (Parsed payload) w)) = codeIds w.
Proof.
  intros Hid Hcust Hfind Hin Howner.
  unfold action. rewrite Hid, Hcust.
  match goal with
  | |- context [bind (try_catch ?m ?h) ?k w] =>
      rewrite (bind_run (try_catch m h) k w tt (try_catch_log_returns m _ w));
      set (body := m)
  end.
  unfold ret. cbn [fst snd]. split; [reflexivity |].
  assert (Hbody : codeIds (fst (body w)) = codeIds w).
  { subst body.
    destruct (getReferralSettings w) as [w1 [settings | e]] eqn:E1.
    2: { rewrite (bind_threw _ _ _ _ _ E1). cbn [fst].
         pose proof (keeps_codes_getReferralSettings w) as H. rewrite E1 in H.
         cbn [fst] in H. unfold codeIds. rewrite H. reflexivity. }
    rewrite (bind_returned _ _ _ _ _ E1).
    assert (Hc1 : codesOf w1 = codesOf w).
    { pose proof (keeps_codes_getReferralSettings w) as H. rewrite E1 in H. exact H. }
    assert (Hr1 : referrersOf w1 = referrersOf w).
    { pose proof (keeps_getReferralSettings referrersOf (fun _ _ => eq_refl) w) as H.
      rewrite E1 in H. exact H. }
    destruct (fetchWorkshop orderId w1) as [w2 [ws | e]] eqn:E2.
    2: { rewrite (bind_threw _ _ _ _ _ E2). cbn [fst].
         pose proof (keeps_fetchWorkshop codesOf orderId (fun _ _ => eq_refl) w1) as H.
         rewrite E2 in H. unfold codeIds. cbn [fst] in H. rewrite H, Hc1. reflexivity. }
    rewrite (bind_returned _ _ _ _ _ E2).
    assert (Hc2 : codesOf w2 = codesOf w).
    { pose proof (keeps_fetchWorkshop codesOf orderId (fun _ _ => eq_refl) w1) as H.
      rewrite E2 in H. cbn [fst] in H. rewrite H. exact Hc1. }
    assert (Hr2 : referrersOf w2 = referrersOf w).
    { pose proof (keeps_fetchWorkshop referrersOf orderId (fun _ _ => eq_refl) w1) as H.
      rewrite E2 in H. cbn [fst] in H. rewrite H. exact Hr1. }
    assert (Hfind2 : findReferrerOf buyer w2 = Some existing).
    { unfold findReferrerOf. rewrite Hr2. exact Hfind. }
    destruct (getOrCreate_existing_id w2 buyer existing Hfind2) as [r [Hr Hrid]].
    pose proof (keeps_codes_getOrCreate buyer w2) as Hc3.
    rewrite (bind_run _ _ w2 r Hr).
    set (w3 := fst (getOrCreateReferrerFromCustomer buyer w2)) in *.
    assert (Hin3 : In code0 (codesOf w3)) by (rewrite Hc3, Hc2; exact Hin).
    assert (Hown3 : Code.referrerId code0 = Referrer.id r) by (rewrite Hrid; exact Howner).
    destruct (selectedCode_exists w3 orderId r code0 Hin3 Hown3) as [c Hsel].
    pose proof (issueOrRefreshCode_selected payload orderId settings ws r w3 c Hsel) as Hids.
    destruct (issueOrRefreshCode payload orderId settings ws r w3) as [w4 [c4 | e]] eqn:E4;
      cbn [fst] in Hids.
    - rewrite (bind_returned _ _ _ _ _ E4).
      rewrite (keeps_codeIds_recordReferral payload orderId buyer settings ws).
      rewrite Hids. unfold codeIds. rewrite Hc3, Hc2. reflexivity.
    - rewrite (bind_threw _ _ _ _ _ E4). cbn [fst].
      rewrite Hids. unfold codeIds. rewrite Hc3, Hc2. reflexivity. }
  unfold try_catch. destruct (body w) as [w' [[] | e]]; cbn [fst snd] in *; exact Hbody.
Qed.

(** C5, as stated, fails: the second purchase overwrites the origin order
    and the product that the code carried from the first one. *)
Lemma second_purchase_overwrites_attribution : ~ first_purchase_wins.
Proof.
  intro H.
  pose (referrer := Referrer.mk "ref1" "cust1" (Some "anna@example.org") None None 0 0).
  pose (ws := mkWorkshop (Some "P2") (Some "Workshop two") 2).
  pose (settings := currentSettings (db repeatBuyerWorld)).
  destruct (snd (issueOrRefreshCode secondPurchase "1002" settings ws referrer repeatBuyerWorld))
    as [c' |] eqn:E; [| vm_compute in E; discriminate].
  destruct (H repeatBuyerWorld secondPurchase "1002" settings ws referrer
              (Code.mk "code1" "ABC-1234" "ref1" None 0 0 true 0 0 (Some 5000)
                 (Some "1001") (Some "gid://shopify/Order/1001")
                 (Some "P1") (Some "Workshop one") 1 (Some (Num.dec 1 1)) (Some (Num.ofZ 20)))
              c' eq_refl E) as [Horigin _].
  vm_compute in E. inversion E; subst c'.
  specialize (Horigin ltac:(discriminate)). discriminate.
Qed.

(** ** Recording a referral *)

Lemma keeps_ledger_pickCode fuel :
  forall code attempts, keeps ledger (pickCode fuel code attempts).
Proof. induction fuel; simpl; keeps_go. Qed.

#[local] Hint Resolve keeps_ledger_pickCode : keeps.

Lemma keeps_ledger_issueOrRefreshCode payload orderId settings ws referrer :
  keeps ledger (issueOrRefreshCode payload orderId settings ws referrer).
Proof. keeps_go. Qed.

Lemma keeps_ledger_getOrCreate customer :
  keeps ledger (getOrCreateReferrerFromCustomer customer).
Proof. keeps_go. Qed.





Lemma find_has_orderId_taken orderId rows :
  find (has_orderId orderId) rows = None ->
  taken Referral.orderId (Some orderId) rows = false.
Proof. apply find_taken_false. Qed.

(** The foreign keys of the referral that a call inserts. *)
Lemma referral_keys_fresh input id t d :
  referral_keys (referral_fresh input id t) d
  = (stored Referrer.id (in_referrerId input) (referrers d)
     && linked Code.id (in_codeId input) (codes d))%bool.
Proof. reflexivity. Qed.

Lemma createReferral_new input w orderId :
  in_orderId input = Some orderId ->
  find (has_orderId orderId) (referralsOf w) = None ->
  let r := referral_fresh input (idGen w (idNext w)) (clock w) in
  createReferral input w
    = if (stored Referrer.id (in_referrerId input) (referrersOf w)
          && linked Code.id (in_codeId input) (codesOf w))%bool
      then (set_db (set_referrals (referrals (db w) ++ [r]) (db w))
              (set_idNext (S (idNext w)) w),
            Returned r)
      else (set_idNext (S (idNext w)) w, Thrown ForeignKeyConstraint).
Proof.
  intros Hin Hfind r.
  pose proof (find_has_orderId_taken _ _ Hfind) as Htaken.
  assert (Hcreate :
    (id <- freshId ;; t <- now ;; referral_create (referral_fresh input id t)) w
    = if (stored Referrer.id (in_referrerId input) (referrersOf w)
          && linked Code.id (in_codeId input) (codesOf w))%bool
      then (set_db (set_referrals (referrals (db w) ++ [r]) (db w))
              (set_idNext (S (idNext w)) w),
            Returned r)
      else (set_idNext (S (idNext w)) w, Thrown ForeignKeyConstraint)).
  { unfold referral_create, bind, freshId, now, readDb, gets, writeDb, modify, ret, throw.
    cbn [fst snd db set_idNext referrals referral_fresh Referral.orderId].
    rewrite Hin. unfold referralsOf in Htaken. rewrite Htaken.
    rewrite referral_keys_fresh. unfold referrersOf, codesOf.
    destruct (stored _ _ _ && linked _ _ _)%bool; reflexivity. }
  unfold createReferral. rewrite Hin. cbn [opt_truthy orDefault].
  destruct (str_truthy orderId); [| exact Hcreate].
  unfold bind at 1, readDb at 1, gets at 1. cbn [fst snd].
  unfold referralsOf in Hfind. rewrite (update_first_none _ _ _ Hfind).
  exact Hcreate.
Qed.












(** ** Code generation *)

Lemma generateReferralCode_run w :
  generateReferralCode w
  = (set_rngNext (rngNext w + 4) w, Returned (codeAt w (rngNext w))).
Proof.
  unfold generateReferralCode, bind, randomBelow, ret, codeAt. simpl.
  replace (S (S (S (S (rngNext w))))) with (rngNext w + 4)%nat by lia.
  replace (S (rngNext w)) with (rngNext w + 1)%nat by lia.
  replace (S (rngNext w + 1)) with (rngNext w + 2)%nat by lia.
  replace (S (rngNext w + 2)) with (rngNext w + 3)%nat by lia.
  reflexivity.
Qed.

Lemma letters_checked :
  forallb (fun n => match letter (N.of_nat n) with
                    | String a EmptyString => isUpper a
                    | _ => false
                    end) (seq 0 26) = true.
Proof. vm_compute. reflexivity. Qed.

Lemma numbers_checked :
  forallb (fun n => match string_of_N (1000 + N.of_nat n) with
                    | String d1 (String d2 (String d3 (String d4 EmptyString))) =>
                        (negb (Ascii.eqb d1 "0") && isDigit d1 && isDigit d2
                         && isDigit d3 && isDigit d4)%bool
                    | _ => false
                    end) (seq 0 (N.to_nat 9000)) = true.
Proof. vm_compute. reflexivity. Qed.

Lemma codeAt_wellFormed w n : wellFormedCode (codeAt w n) = true.
Proof.
  unfold codeAt.
  assert (L : forall x, exists a, letter (N.modulo x 26) = String a EmptyString /\ isUpper a = true).
  { intro x.
    pose proof letters_checked as H. rewrite forallb_forall in H.
    specialize (H (N.to_nat (N.modulo x 26))).
    rewrite Nnat.N2Nat.id in H.
    assert (Hin : In (N.to_nat (x mod 26)%N) (seq 0 26)).
    { apply in_seq. pose proof (N.mod_lt x 26%N ltac:(discriminate)).
      remember (x mod 26)%N as y. clear Heqy. lia. }
    specialize (H Hin).
    destruct (letter (x mod 26)%N) as [| a [| ? ?]]; try discriminate.
    exists a. split; [reflexivity | exact H]. }
  destruct (L (rng w n)) as [a [Ea Ha]].
  destruct (L (rng w (n + 1)%nat)) as [b [Eb Hb]].
  destruct (L (rng w (n + 2)%nat)) as [c [Ec Hc]].
  rewrite Ea, Eb, Ec. simpl.
  pose proof numbers_checked as H. rewrite forallb_forall in H.
  specialize (H (N.to_nat (N.modulo (rng w (n + 3)%nat) 9000))).
  rewrite Nnat.N2Nat.id in H.
  assert (Hin : In (N.to_nat (rng w (n + 3)%nat mod 9000)%N) (seq 0 (N.to_nat 9000))).
  { apply in_seq. pose proof (N.mod_lt (rng w (n + 3)%nat) 9000%N ltac:(discriminate)).
    remember (rng w (n + 3)%nat mod 9000)%N as y. clear Heqy. lia. }
  specialize (H Hin).
  destruct (string_of_N _) as [| d1 [| d2 [| d3 [| d4 [| ? ?]]]]]; try discriminate.
  rewrite Ha, Hb, Hc. simpl. exact H.
Qed.

(** The candidates that the loop of [createCodeForReferrer] looks up, in
    order: the text it starts from, then the texts it draws. *)
Lemma set_rngNext_same w : set_rngNext (rngNext w) w = w.
Proof. destruct w. reflexivity. Qed.

Lemma codeTaken_find w code :
  codeTaken w code = false <->
  find (fun c => String.eqb (Code.code c) code) (codes (db w)) = None.
Proof.
  unfold codeTaken. induction (codes (db w)) as [| c rows IH]; simpl.
  - split; reflexivity.
  - destruct (String.eqb (Code.code c) code); simpl.
    + split; discriminate.
    + exact IH.
Qed.

Lemma pickCode_run fuel :
  forall code attempts w,
  exists k,
    (k <= fuel)%nat /\
    pickCode fuel code attempts w
    = (set_rngNext (rngNext w + 4 * k) w,
       Returned (match k with O => code | S j => codeAt w (rngNext w + 4 * j) end,
                 (attempts + k)%nat)) /\
    (forall j, (j < k)%nat ->
       codeTaken w (match j with O => code | S i => codeAt w (rngNext w + 4 * i) end) = true) /\
    ((k < fuel)%nat ->
       codeTaken w (match k with O => code | S j => codeAt w (rngNext w + 4 * j) end) = false).
Proof.
  induction fuel as [| fuel IH]; intros code attempts w.
  - exists O. split; [lia |]. split; [| split].
    + cbn [pickCode]. unfold ret. replace (rngNext w + 4 * 0)%nat with (rngNext w) by lia.
      replace (attempts + 0)%nat with attempts by lia.
      rewrite set_rngNext_same. reflexivity.
    + intros j Hj. lia.
    + intros Hk. lia.
  - simpl pickCode. unfold bind at 1. unfold code_findUnique, readDb, gets.
    cbn beta iota.
    destruct (find (fun c => String.eqb (Code.code c) code) (codes (db w))) as [c |] eqn:Efind.
    + unfold bind at 1. rewrite generateReferralCode_run.
      destruct (IH (codeAt w (rngNext w)) (S attempts) (set_rngNext (rngNext w + 4) w))
        as [k [Hk [Hrun [Htaken Hfree]]]].
      assert (Hseq : forall j,
                match j with
                | O => codeAt w (rngNext w)
                | S i => codeAt (set_rngNext (rngNext w + 4) w)
                           (rngNext (set_rngNext (rngNext w + 4) w) + 4 * i)
                end = codeAt w (rngNext w + 4 * j)).
      { intros [| i].
        - f_equal. lia.
        - change (codeAt w (rngNext w + 4 + 4 * i) = codeAt w (rngNext w + 4 * S i)).
          f_equal. lia. }
      rewrite Hseq in Hrun, Hfree.
      exists (S k). split; [lia |]. split; [| split].
      * rewrite Hrun.
        change (set_rngNext (rngNext (set_rngNext (rngNext w + 4) w) + 4 * k)
                  (set_rngNext (rngNext w + 4) w))
          with (set_rngNext (rngNext w + 4 + 4 * k) w).
        replace (rngNext w + 4 + 4 * k)%nat with (rngNext w + 4 * S k)%nat by lia.
        replace (S attempts + k)%nat with (attempts + S k)%nat by lia.
        reflexivity.
      * intros [| j] Hj.
        -- destruct (codeTaken w code) eqn:E; [reflexivity |].
           apply codeTaken_find in E. rewrite E in Efind. discriminate.
        -- specialize (Htaken j ltac:(lia)). rewrite Hseq in Htaken. exact Htaken.
      * intros Hlt. exact (Hfree ltac:(lia)).
    + exists O. split; [lia |]. split; [| split].
      * unfold ret. replace (rngNext w + 4 * 0)%nat with (rngNext w) by lia.
      replace (attempts + 0)%nat with attempts by lia.
      rewrite set_rngNext_same. reflexivity.
      * intros j Hj. lia.
      * intros _. apply codeTaken_find. exact Efind.
Qed.

Lemma expiryAt_eq t settings :
  (if Settings.codeValidityDays settings <=? 0 then None
   else Some (t + Settings.codeValidityDays settings * msPerDay))
  = expiryAt t settings.
Proof.
  unfold expiryAt.
  destruct (Settings.codeValidityDays settings <=? 0) eqn:E1;
    destruct (0 <? Settings.codeValidityDays settings) eqn:E2; try reflexivity; lia.
Qed.

Lemma computeExpiryDate_run settings w :
  exists d,
    computeExpiryDate (Settings.codeValidityDays settings) w = (w, Returned d) /\
    dateColumn d
    = if validExpiry (clock w) settings then Some (expiryAt (clock w) settings) else None.
Proof.
  unfold computeExpiryDate, validExpiry. rewrite <- expiryAt_eq.
  destruct (Settings.codeValidityDays settings <=? 0); [eexists; split; reflexivity |].
  unfold bind, now, gets, ret. cbn [fst snd]. eexists. split; [reflexivity |].
  unfold timeClip, dateColumn. destruct (Z.abs _ <=? maxTime); reflexivity.
Qed.

(** The insertion of a code under a free text. *)
Lemma code_create_free c w :
  codeTaken w (Code.code c) = false ->
  code_create c w
  = if negb (fitsInt (Code.maxUsage c) && fitsInt (Code.workshopQuantity c))
    then (w, Thrown ValueOutOfRange)
    else if negb (stored Referrer.id (Code.referrerId c) (referrersOf w))
    then (w, Thrown ForeignKeyConstraint)
    else (set_db (set_codes (codes (db w) ++ [c]) (db w)) w, Returned c).
Proof.
  intros Hfree.
  unfold code_create, bind, readDb, gets, writeDb, modify, ret, throw, taken.
  cbn beta iota.
  assert (E : existsb (fun r => opt_eqb String.eqb (Some (Code.code r)) (Some (Code.code c)))
                (codes (db w)) = false).
  { unfold codeTaken in Hfree. exact Hfree. }
  rewrite E. unfold referrersOf.
  destruct (negb (fitsInt _ && fitsInt _)); [reflexivity |].
  destruct (negb (stored _ _ _)); reflexivity.
Qed.

(** The run of [createCodeForReferrer]: the candidates it draws, then the
    checks of the insertion in their order. *)
Lemma createCodeForReferrer_run p w :
  exists k,
    (k <= 5)%nat /\
    (forall j, (j < k)%nat -> codeTaken w (candidate w j) = true) /\
    ((k < 5)%nat -> codeTaken w (candidate w k) = false) /\
    let w1 := set_rngNext (rngNext w + 4 * S k) w in
    if (5 <=? k)%nat
    then createCodeForReferrer p w = (w1, Thrown CodeGenerationExhausted)
    else
      let settings := cc_settings p in
      let c :=
        Code.mk (idGen w (idNext w)) (candidate w k) (cc_referrerId p) None 0
          (Settings.maxUsagePerCode settings) true (clock w) (clock w)
          (expiryAt (clock w) settings)
          (cc_originOrderId p) (cc_originOrderGid p)
          (cc_workshopProductId p) (cc_workshopProductTitle p)
          (orDefault (cc_workshopQuantity p) 1)
          (Some (Settings.discountPercentage settings))
          (Some (Settings.cashbackAmount settings)) in
      let w1' := set_idNext (S (idNext w)) w1 in
      let w2 := set_db (set_codes (codes (db w) ++ [c]) (db w)) w1' in
      createCodeForReferrer p w
      = if negb (validExpiry (clock w) settings) then (w1', Thrown InvalidValue)
        else if negb (fitsInt (Settings.maxUsagePerCode settings)
                      && fitsInt (orDefault (cc_workshopQuantity p) 1))
        then (w1', Thrown ValueOutOfRange)
        else if negb (stored Referrer.id (cc_referrerId p) (referrersOf w))
        then (w1', Thrown ForeignKeyConstraint)
        else (fst (promoMail p c w2), Returned c).
Proof.
  destruct (pickCode_run 5 (codeAt w (rngNext w)) 0 (set_rngNext (rngNext w + 4) w))
    as [k [Hk [Hrun [Htaken Hfree]]]].
  assert (Hseq : forall j,
            match j with
            | O => codeAt w (rngNext w)
            | S i => codeAt (set_rngNext (rngNext w + 4) w)
                       (rngNext (set_rngNext (rngNext w + 4) w) + 4 * i)
            end = candidate w j).
  { intros [| i]; unfold candidate.
    - f_equal. lia.
    - change (codeAt w (rngNext w + 4 + 4 * i) = codeAt w (rngNext w + 4 * S i)).
      f_equal. lia. }
  rewrite Hseq in Hrun, Hfree.
  change (set_rngNext (rngNext (set_rngNext (rngNext w + 4) w) + 4 * k)
            (set_rngNext (rngNext w + 4) w))
    with (set_rngNext (rngNext w + 4 + 4 * k) w) in Hrun.
  replace (rngNext w + 4 + 4 * k)%nat with (rngNext w + 4 * S k)%nat in Hrun by lia.
  exists k. split; [exact Hk |]. split; [| split].
  - intros j Hj. specialize (Htaken j Hj). rewrite Hseq in Htaken. exact Htaken.
  - exact Hfree.
  - cbv zeta. unfold createCodeForReferrer.
    rewrite (bind_returned _ _ _ _ _ (generateReferralCode_run w)).
    rewrite (bind_returned _ _ _ _ _ Hrun).
    change (0 + k)%nat with k.
    destruct (5 <=? k)%nat eqn:E5; [reflexivity |].
    apply Nat.leb_gt in E5. specialize (Hfree E5).
    set (w1 := set_rngNext (rngNext w + 4 * S k) w).
    destruct (computeExpiryDate_run (cc_settings p) w1) as [d [Hd Hcol]].
    rewrite (bind_returned _ _ _ _ _ Hd).
    unfold bind at 1. unfold freshId. cbn beta iota.
    unfold bind at 1. unfold now, gets. cbn beta iota.
    rewrite Hcol.
    change (clock w1) with (clock w).
    destruct (validExpiry (clock w) (cc_settings p)); cbn [negb]; [| reflexivity].
    match goal with
    | |- bind (code_create ?c) _ ?w0 = _ =>
        assert (Hf : codeTaken w0 (Code.code c) = false) by exact Hfree;
        pose proof (code_create_free c w0 Hf) as Hcreate;
        cbn [Code.maxUsage Code.workshopQuantity Code.referrerId] in Hcreate;
        change (referrersOf w0) with (referrersOf w) in Hcreate
    end.
    destruct (negb (fitsInt _ && fitsInt _)).
    { rewrite (bind_threw _ _ _ _ _ Hcreate). reflexivity. }
    destruct (negb (stored _ _ _)).
    { rewrite (bind_threw _ _ _ _ _ Hcreate). reflexivity. }
    rewrite (bind_returned _ _ _ _ _ Hcreate).
    cbv beta.
    match goal with
    | |- bind ?m _ ?w0 = (fst (promoMail p ?c ?w2), _) =>
        change m with (promoMail p c); change w0 with w2;
        destruct (promoMail p c w2) as [w3 o] eqn:Email
    end.
    assert (Ho : o = Returned tt).
    { unfold promoMail in Email.
      destruct (orDefault (cc_sendEmail p) true).
      - match type of Email with
        | try_catch ?m _ ?w0 = _ =>
            pose proof (try_catch_log_returns m ErrPromoEmail w0) as Hr
        end.
        rewrite Email in Hr. exact Hr.
      - inversion Email. reflexivity. }
    subst o.
    rewrite (bind_returned _ _ _ _ _ Email).
    reflexivity.
Qed.

Lemma wellFormed_length s : wellFormedCode s = true -> String.length s = 8%nat.
Proof.
  destruct s as [| a [| b [| c [| h [| d1 [| d2 [| d3 [| d4 [| ? ?]]]]]]]]];
    simpl; try discriminate. reflexivity.
Qed.

(** X1. [generateReferralCode]: every text it builds has the shape
    [LLL-dddd] -- three capital letters, a hyphen, and a number from 1000 to
    9999 -- whatever the draws of the random supply; it consumes four draws
    and touches nothing else. *)
Theorem generated_code_shape (w : World) :
  exists code,
    snd (generateReferralCode w) = Returned code /\
    wellFormedCode code = true /\
    String.length code = 8%nat /\
    rngNext (fst (generateReferralCode w)) = (rngNext w + 4)%nat /\
    db (fst (generateReferralCode w)) = db w /\
    console (fst (generateReferralCode w)) = console w.
Proof.
  rewrite generateReferralCode_run. exists (codeAt w (rngNext w)).
  pose proof (codeAt_wellFormed w (rngNext w)) as Hwf.
  repeat split; try assumption.
  apply wellFormed_length. exact Hwf.
Qed.

Lemma promoMail_silent p c w :
  cc_sendEmail p = Some false -> promoMail p c w = (w, Returned tt).
Proof. intros H. unfold promoMail. rewrite H. reflexivity. Qed.

Lemma keeps_promoMail {B} (proj : World -> B) p c :
  (forall l w, proj (set_console l w) = proj w) ->
  (forall n w, proj (set_idNext n w) = proj w) ->
  (forall l w, proj (set_db (set_emailLogs l (db w)) w) = proj w) ->
  keeps proj (promoMail p c).
Proof.
  intros Hc Hi He. unfold promoMail.
  assert (Hlog : forall l, keeps proj (log l)).
  { intros l w. unfold log, modify. simpl. apply Hc. }
  assert (Hfresh : keeps proj freshId).
  { intros w. unfold freshId. simpl. apply Hi. }
  assert (Hcreate : forall l, keeps proj (emailLog_create l)).
  { intros l w. unfold emailLog_create, bind, writeDb, modify, ret. simpl. apply He. }
  assert (Hstatus : forall id st, keeps proj (emailLog_setStatus id st)).
  { intros id st w. unfold emailLog_setStatus, writeDb, modify. simpl. apply He. }
  assert (Hsend : forall to tt' cid rid, keeps proj (sendEmail to tt' cid rid)).
  { intros to tt' cid rid. unfold sendEmail.
    apply keeps_bind; [apply keeps_gets |]. intros m.
    apply keeps_bind; [exact Hfresh |]. intros id.
    destruct m.
    - apply keeps_bind; [apply Hcreate | intro; apply keeps_ret].
    - apply keeps_bind; [apply Hcreate | intro; apply Hstatus].
    - apply keeps_bind; [apply Hcreate | intro].
      apply keeps_bind; [apply Hstatus | intro; apply keeps_throw]. }
  destruct (orDefault (cc_sendEmail p) true).
  - apply keeps_try_catch; [| intro; apply Hlog].
    apply keeps_bind; [apply keeps_gets |].
    intros r. unfold sendPromoCodeEmail.
    destruct (match r with Some r0 => Referrer.email r0 | None => None end) as [to |].
    + destruct (str_truthy to); [apply Hsend | apply Hlog].
    + apply Hlog.
  - apply keeps_ret.
Qed.

(** X2. [createCodeForReferrer] issues the first free text among the five
    candidates it looks up. When all five are taken it fails with the
    exhaustion error, after drawing a sixth candidate that it never looks
    up. When one is free, it returns a code -- under the first free
    candidate, whatever the mail service does -- exactly when the insertion is
    accepted: the expiry is a valid date, the usage limit and the quantity
    fit an integer column, and the referrer is a stored row. A refused
    insertion fails with another error than exhaustion: the invalid-value
    error for the date, the out-of-range error for the integers, the
    foreign-key error for the referrer, when that is the only refusal.
    A call that fails leaves the database as it was. *)
Theorem code_is_first_free_candidate (p : CreateCodeParams) (w : World) :
  let out := createCodeForReferrer p w in
  let settings := cc_settings p in
  let fits :=
    (fitsInt (Settings.maxUsagePerCode settings)
     && fitsInt (orDefault (cc_workshopQuantity p) 1))%bool in
  let owned := stored Referrer.id (cc_referrerId p) (referrersOf w) in
  let accepted := (validExpiry (clock w) settings && fits && owned)%bool in
  (forall c, snd out = Returned c ->
     accepted = true /\
     exists i, (i < 5)%nat /\
       Code.code c = candidate w i /\
       (forall j, (j < i)%nat -> codeTaken w (candidate w j) = true) /\
       codeTaken w (candidate w i) = false /\
       wellFormedCode (Code.code c) = true /\
       rngNext (fst out) = (rngNext w + 4 * S i)%nat)
  /\ ((forall j, (j < 5)%nat -> codeTaken w (candidate w j) = true) ->
        snd out = Thrown CodeGenerationExhausted /\
        rngNext (fst out) = (rngNext w + 24)%nat)
  /\ (snd out = Thrown CodeGenerationExhausted ->
        forall j, (j < 5)%nat -> codeTaken w (candidate w j) = true)
  /\ (forall i, (i < 5)%nat -> codeTaken w (candidate w i) = false ->
        (accepted = true -> exists c, snd out = Returned c) /\
        (accepted = false ->
           exists e, snd out = Thrown e /\ e <> CodeGenerationExhausted) /\
        (validExpiry (clock w) settings = false -> fits = true -> owned = true ->
           snd out = Thrown InvalidValue) /\
        (validExpiry (clock w) settings = true -> fits = false -> owned = true ->
           snd out = Thrown ValueOutOfRange) /\
        (validExpiry (clock w) settings = true -> fits = true -> owned = false ->
           snd out = Thrown ForeignKeyConstraint))
  /\ (forall e, snd out = Thrown e -> db (fst out) = db w).
Proof.
  intros out settings fits owned accepted. subst out accepted fits owned settings.
  destruct (createCodeForReferrer_run p w) as [k [Hk [Htaken [Hfree Hrun]]]].
  cbv zeta in Hrun.
  destruct (5 <=? k)%nat eqn:E5.
  - apply Nat.leb_le in E5. assert (k = 5%nat) by lia. subst k.
    rewrite Hrun. cbn [fst snd]. split; [| split; [| split; [| split]]].
    + intros c H. discriminate.
    + intros _. split; reflexivity.
    + intros _. exact Htaken.
    + intros i Hi Hf. rewrite (Htaken i Hi) in Hf. discriminate.
    + intros e _. reflexivity.
  - apply Nat.leb_gt in E5. specialize (Hfree E5).
    rewrite Hrun. clear Hrun.
    destruct (validExpiry (clock w) (cc_settings p)) eqn:Ev;
      destruct (fitsInt (Settings.maxUsagePerCode (cc_settings p))
                && fitsInt (orDefault (cc_workshopQuantity p) 1))%bool eqn:Ef;
      destruct (stored Referrer.id (cc_referrerId p) (referrersOf w)) eqn:Eo;
      cbn [negb andb fst snd].
    all: split; [| split; [| split; [| split]]].
    all: try (intros c H; discriminate H).
    all: try (intros Hall; rewrite (Hall k E5) in Hfree; discriminate Hfree).
    all: try (intros H; discriminate H).
    all: try (intros e _; reflexivity).
    all: try (intros i Hi Hf;
              repeat split; intros; try discriminate;
              first [ eexists; reflexivity
                    | eexists; split; [reflexivity | discriminate]
                    | reflexivity ]).
    intros c H. inversion H; subst c. clear H.
    split; [reflexivity |].
    exists k. cbn [Code.code]. repeat split; try assumption.
    + apply codeAt_wellFormed.
    + match goal with
      | |- rngNext (fst (promoMail p ?c ?w2)) = _ =>
          rewrite (keeps_promoMail rngNext p c ltac:(reflexivity) ltac:(reflexivity)
                     ltac:(reflexivity) w2)
      end.
      reflexivity.
Qed.

Lemma code_is_first_free_candidate_witness :
  let taken :=
    map (fun i => demoCode "c" (candidate demoWorld i) "ref1" None) (seq 0 5) in
  let full := worldWith (mkDb (referrers demoDb) taken [] [] None []) (shopify demoWorld) in
  let stranger :=
    mkCreateCodeParams "nobody" DEFAULT_SETTINGS None None None None None (Some false) in
  (exists c,
     snd (createCodeForReferrer (paramsFor DEFAULT_SETTINGS) demoWorld) = Returned c /\
     Code.code c = candidate demoWorld 0)
  /\ snd (createCodeForReferrer (paramsFor DEFAULT_SETTINGS) full)
     = Thrown CodeGenerationExhausted
  /\ snd (createCodeForReferrer stranger demoWorld) = Thrown ForeignKeyConstraint.
Proof.
  intros taken full stranger. split; [| split].
  - pose proof (code_is_first_free_candidate (paramsFor DEFAULT_SETTINGS) demoWorld) as H.
    cbv zeta in H. destruct H as [Hreturned [_ [_ [Hfree _]]]].
    destruct (Hfree 0%nat ltac:(lia) ltac:(vm_compute; reflexivity)) as [Haccepted _].
    destruct (Haccepted ltac:(vm_compute; reflexivity)) as [c Hc].
    exists c. split; [exact Hc |].
    destruct (Hreturned c Hc) as [_ [i [_ [Hcode [Hbefore _]]]]].
    destruct i as [| i]; [exact Hcode |].
    specialize (Hbefore 0%nat ltac:(lia)). vm_compute in Hbefore. discriminate.
  - pose proof (code_is_first_free_candidate (paramsFor DEFAULT_SETTINGS) full) as H.
    cbv zeta in H. destruct H as [_ [Hfull _]].
    apply Hfull. intros j Hj.
    do 5 (destruct j as [| j]; [vm_compute; reflexivity |]). lia.
  - pose proof (code_is_first_free_candidate stranger demoWorld) as H.
    cbv zeta in H. destruct H as [_ [_ [_ [Hfree _]]]].
    destruct (Hfree 0%nat ltac:(lia) ltac:(vm_compute; reflexivity))
      as [_ [_ [_ [_ Hkey]]]].
    apply Hkey; vm_compute; reflexivity.
Defined.

(** X3. A code that [createCodeForReferrer] returns is one new row at the
    end of the table, under a text that no row carried: unused, active, not
    yet linked to a discount, created now, expiring [codeValidityDays] days
    from now (never, when that is not positive), and carrying the origin and
    the quantity of the call (1 when none is given). The other tables stay
    as they are, and with [sendEmail: false] no message is logged. *)
Theorem code_creation_writes_one_row (p : CreateCodeParams) (w w' : World) (c : Code.t) :
  createCodeForReferrer p w = (w', Returned c) ->
  codesOf w' = (codesOf w ++ [c])%list /\
  codeTaken w (Code.code c) = false /\
  Code.id c = idGen w (idNext w) /\
  Code.referrerId c = cc_referrerId p /\
  Code.usageCount c = 0 /\
  Code.active c = true /\
  Code.shopifyDiscountId c = None /\
  Code.createdAt c = clock w /\
  Code.expiresAt c =
    (if Settings.codeValidityDays (cc_settings p) <=? 0 then None
     else Some (clock w + Settings.codeValidityDays (cc_settings p) * msPerDay)) /\
  Code.originOrderId c = cc_originOrderId p /\
  Code.originOrderGid c = cc_originOrderGid p /\
  Code.workshopQuantity c = orDefault (cc_workshopQuantity p) 1 /\
  rewardsOf w' = rewardsOf w /\
  referralsOf w' = referralsOf w /\
  referrersOf w' = referrersOf w /\
  (cc_sendEmail p = Some false ->
     emailLogs (db w') = emailLogs (db w) /\ console w' = console w).
Proof.
  intros Hret.
  destruct (createCodeForReferrer_run p w) as [k [Hk [Htaken [Hfree Hrun]]]].
  cbv zeta in Hrun.
  destruct (5 <=? k)%nat eqn:E5.
  - rewrite Hrun in Hret. discriminate.
  - apply Nat.leb_gt in E5. specialize (Hfree E5).
    rewrite Hrun in Hret. clear Hrun.
    destruct (negb (validExpiry (clock w) (cc_settings p))); [discriminate Hret |].
    destruct (negb (fitsInt _ && fitsInt _)); [discriminate Hret |].
    destruct (negb (stored _ _ _)); [discriminate Hret |].
    inversion Hret as [[Hw Hc]]. clear Hret.
    rewrite expiryAt_eq.
    cbn [Code.code Code.id Code.referrerId Code.usageCount Code.active
         Code.shopifyDiscountId Code.createdAt Code.expiresAt Code.originOrderId
         Code.originOrderGid Code.workshopQuantity].
    match goal with
    | |- context [promoMail p ?c ?w2] =>
        pose proof (keeps_promoMail codesOf p c ltac:(reflexivity) ltac:(reflexivity)
                      ltac:(reflexivity) w2) as Kc;
        pose proof (keeps_promoMail rewardsOf p c ltac:(reflexivity) ltac:(reflexivity)
                      ltac:(reflexivity) w2) as Kr;
        pose proof (keeps_promoMail referralsOf p c ltac:(reflexivity) ltac:(reflexivity)
                      ltac:(reflexivity) w2) as Kl;
        pose proof (keeps_promoMail referrersOf p c ltac:(reflexivity) ltac:(reflexivity)
                      ltac:(reflexivity) w2) as Kf
    end.
    repeat (split; [first [assumption | reflexivity] |]).
    intros Hsilent. rewrite promoMail_silent by exact Hsilent. cbn [fst].
    split; reflexivity.
Qed.

Lemma code_creation_writes_one_row_witness :
  let out := createCodeForReferrer (paramsFor DEFAULT_SETTINGS) demoWorld in
  exists c,
    out = (fst out, Returned c) /\
    Code.code c = "ABC-1003" /\
    codesOf (fst out) = (codesOf demoWorld ++ [c])%list /\
    Code.usageCount c = 0 /\
    Code.expiresAt c = Some (1000 + 30 * msPerDay) /\
    emailLogs (db (fst out)) = [].
Proof.
  intros out.
  destruct (snd out) as [c |] eqn:E; [| vm_compute in E; discriminate].
  assert (Hout : out = (fst out, Returned c)).
  { rewrite <- E. apply surjective_pairing. }
  exists c.
  destruct (code_creation_writes_one_row (paramsFor DEFAULT_SETTINGS) demoWorld (fst out) c Hout)
    as [Hrows [_ [_ [_ [Huse [_ [_ [_ [Hexp [_ [_ [_ [_ [_ [_ Hsilent]]]]]]]]]]]]]]].
  split; [exact Hout |].
  split; [vm_compute in E; injection E as <-; reflexivity |].
  split; [exact Hrows |].
  split; [exact Huse |].
  split; [rewrite Hexp; reflexivity |].
  destruct (Hsilent eq_refl) as [Hlogs _]. rewrite Hlogs. reflexivity.
Defined.

(** ** Using a code *)

Lemma update_first_others {R} (p q : R -> bool) (f : R -> R) rows r' rows' :
  update_first p f rows = Some (r', rows') ->
  (forall r, p r = true -> q r = false /\ q (f r) = false) ->
  find q rows' = find q rows.
Proof.
  revert r' rows'. induction rows as [| r rows IH]; intros r' rows' H Hq; simpl in H.
  - discriminate.
  - destruct (p r) eqn:Ep.
    + inversion H; subst. simpl. destruct (Hq r Ep) as [H1 H2]. rewrite H1, H2. reflexivity.
    + destruct (update_first p f rows) as [[r0 rows0] |] eqn:E; [| discriminate].
      inversion H; subst. simpl. destruct (q r); [reflexivity |].
      apply (IH _ _ eq_refl Hq).
Qed.

Lemma markCodeAsUsed_run id w c :
  findCodeById id w = Some c ->
  fitsInt (Code.usageCount c + 1) = true ->
  exists rows',
    markCodeAsUsed id w
      = (set_db (set_codes rows' (db w)) w, Returned (touch_code (clock w) (bump_usage c))) /\
    find (fun x => String.eqb (Code.id x) id) rows' = Some (touch_code (clock w) (bump_usage c)) /\
    map Code.id rows' = map Code.id (codesOf w) /\
    (forall other, other <> id ->
       find (fun x => String.eqb (Code.id x) other) rows'
       = find (fun x => String.eqb (Code.id x) other) (codesOf w)).
Proof.
  intros Hfind Hfits.
  destruct (code_update_run id bump_usage w c Hfind) as [rows' [Hrun Hup]].
  exists rows'. split; [| split; [| split]].
  - unfold markCodeAsUsed, bind, readDb, gets. cbn [fst snd].
    unfold findCodeById, codesOf in Hfind. rewrite Hfind, Hfits. exact Hrun.
  - apply (update_first_find _ _ _ _ _ Hup). intros r Hr. exact Hr.
  - apply (update_first_map Code.id _ _ _ _ _ Hup). intros r. reflexivity.
  - intros other Hother.
    apply (update_first_others _ _ _ _ _ _ Hup).
    intros r Hr. apply String.eqb_eq in Hr.
    assert (E : (Code.id r =? other)%string = false).
    { apply String.eqb_neq. congruence. }
    split; exact E.
Qed.

Lemma markCodeAsUsed_full id w c :
  findCodeById id w = Some c ->
  fitsInt (Code.usageCount c + 1) = false ->
  markCodeAsUsed id w = (w, Thrown ValueOutOfRange).
Proof.
  intros Hfind Hfull.
  unfold markCodeAsUsed, bind, readDb, gets. cbn [fst snd].
  unfold findCodeById, codesOf in Hfind. rewrite Hfind, Hfull. reflexivity.
Qed.

Lemma markCodeAsUsed_missing id w :
  findCodeById id w = None -> markCodeAsUsed id w = (w, Thrown RecordNotFound).
Proof.
  intros H. unfold findCodeById, codesOf in H.
  unfold markCodeAsUsed, bind, readDb, gets. cbn [fst snd]. rewrite H.
  unfold code_update, bind, now, readDb, gets, throw.
  cbn beta iota.
  rewrite (update_first_none _ (fun c => touch_code (clock w) (bump_usage c)) _ H).
  reflexivity.
Qed.

Lemma fitsInt_between z : fitsInt z = true <-> -2147483648 <= z <= 2147483647.
Proof. unfold fitsInt. rewrite andb_true_iff, !Z.leb_le. tauto. Qed.

Lemma useTimes_counts n :
  forall id w c,
    findCodeById id w = Some c ->
    0 <= Code.usageCount c ->
    Code.usageCount c + Z.of_nat n <= 2147483647 ->
    exists c',
      snd (useTimes n id w) = Returned tt /\
      findCodeById id (fst (useTimes n id w)) = Some c' /\
      Code.usageCount c' = Code.usageCount c + Z.of_nat n /\
      Code.maxUsage c' = Code.maxUsage c /\
      Code.active c' = Code.active c /\
      Code.code c' = Code.code c /\
      codeIds (fst (useTimes n id w)) = codeIds w.
Proof.
  induction n as [| n IH]; intros id w c Hfind Hlow Hhigh.
  - exists c. simpl. repeat split; try assumption. lia.
  - assert (Hfits : fitsInt (Code.usageCount c + 1) = true) by (apply fitsInt_between; lia).
    destruct (markCodeAsUsed_run id w c Hfind Hfits) as [rows' [Hrun [Hf [Hids _]]]].
    cbn [useTimes]. rewrite (bind_returned _ _ _ _ _ Hrun).
    destruct (IH id (set_db (set_codes rows' (db w)) w) (touch_code (clock w) (bump_usage c)) Hf)
      as [c' [Hret [Hfind' [Hcount [Hmax [Hact [Hcode Hids']]]]]]].
    { cbn [touch_code bump_usage Code.usageCount]. lia. }
    { cbn [touch_code bump_usage Code.usageCount]. lia. }
    exists c'. split; [exact Hret |]. split; [exact Hfind' |].
    split; [rewrite Hcount; simpl; lia |].
    split; [rewrite Hmax; reflexivity |].
    split; [rewrite Hact; reflexivity |].
    split; [rewrite Hcode; reflexivity |].
    rewrite Hids'. unfold codeIds, codesOf. simpl. exact Hids.
Qed.

(** X4. [markCodeAsUsed] counts every use that the column can hold. On a
    stored code whose counter is below 2147483647 it returns and stores the
    row with [usageCount] raised by exactly one and the update stamp set to
    now, every other column being as it was, and leaves every other row and
    table alone -- whatever [maxUsage], [active] and [expiresAt] say, so that
    [n] uses in a row raise the counter by [n], also past [maxUsage], as
    long as the counter stays in the column. On a code whose counter is at
    the end of the column it fails with the out-of-range error, and on an
    unknown id with the missing-record error; both write nothing. *)
Theorem markCodeAsUsed_counts_every_use :
  (forall (id : string) (w : World) (c : Code.t),
     findCodeById id w = Some c ->
     fitsInt (Code.usageCount c + 1) = true ->
     let out := markCodeAsUsed id w in
     let c' :=
       Code.mk (Code.id c) (Code.code c) (Code.referrerId c) (Code.shopifyDiscountId c)
         (Code.usageCount c + 1) (Code.maxUsage c) (Code.active c) (Code.createdAt c)
         (clock w) (Code.expiresAt c) (Code.originOrderId c) (Code.originOrderGid c)
         (Code.workshopProductId c) (Code.workshopProductTitle c)
         (Code.workshopQuantity c) (Code.discountSnapshot c) (Code.cashbackSnapshot c) in
     snd out = Returned c' /\
     findCodeById id (fst out) = Some c' /\
     codeIds (fst out) = codeIds w /\
     (forall other, other <> id -> findCodeById other (fst out) = findCodeById other w) /\
     ledger (fst out) = ledger w /\
     referrersOf (fst out) = referrersOf w)
  /\ (forall (n : nat) (id : string) (w : World) (c : Code.t),
        findCodeById id w = Some c ->
        0 <= Code.usageCount c ->
        Code.usageCount c + Z.of_nat n <= 2147483647 ->
        exists c',
          snd (useTimes n id w) = Returned tt /\
          findCodeById id (fst (useTimes n id w)) = Some c' /\
          Code.usageCount c' = Code.usageCount c + Z.of_nat n /\
          Code.maxUsage c' = Code.maxUsage c)
  /\ (forall (id : string) (w : World) (c : Code.t),
        findCodeById id w = Some c ->
        fitsInt (Code.usageCount c + 1) = false ->
        markCodeAsUsed id w = (w, Thrown ValueOutOfRange))
  /\ (forall (id : string) (w : World),
        findCodeById id w = None ->
        markCodeAsUsed id w = (w, Thrown RecordNotFound)).
Proof.
  split; [| split; [| split]].
  - intros id w c Hfind Hfits out c'. subst out c'.
    destruct (markCodeAsUsed_run id w c Hfind Hfits) as [rows' [Hrun [Hf [Hids Hother]]]].
    rewrite Hrun. cbn [fst snd].
    split; [reflexivity |]. split; [exact Hf |].
    split; [unfold codeIds, codesOf; simpl; exact Hids |].
    split; [intros other Ho; exact (Hother other Ho) |].
    split; reflexivity.
  - intros n id w c Hfind Hlow Hhigh.
    destruct (useTimes_counts n id w c Hfind Hlow Hhigh) as [c' [H1 [H2 [H3 [H4 _]]]]].
    exists c'. repeat split; assumption.
  - exact markCodeAsUsed_full.
  - exact markCodeAsUsed_missing.
Qed.

Lemma markCodeAsUsed_counts_every_use_witness :
  (exists c',
     findCodeById "code1" (fst (useTimes 3 "code1" usedUpWorld)) = Some c' /\
     Code.usageCount c' = 5 /\ Code.maxUsage c' = 2)
  /\ markCodeAsUsed "code9" usedUpWorld = (usedUpWorld, Thrown ValueOutOfRange).
Proof.
  destruct markCodeAsUsed_counts_every_use as [_ [Hn [Hfull _]]].
  split.
  - destruct (Hn 3%nat "code1" usedUpWorld
                (Code.mk "code1" "ABC-1234" "ref1" None 2 2 true 0 0 None
                   (Some "1") (Some demoGid) None None 1 None None)
                eq_refl ltac:(cbn; lia) ltac:(cbn; lia))
      as [c' [_ [Hf [Hc Hm]]]].
    exists c'. split; [exact Hf |]. split; [rewrite Hc; reflexivity | rewrite Hm; reflexivity].
  - apply (Hfull "code9" usedUpWorld
             (Code.mk "code9" "MAX-9999" "ref1" None 2147483647 0 true 0 0 None
                (Some "9") None None None 1 None None)); reflexivity.
Defined.

(** ** The referrer registry: creation and repetition *)

Lemma find_none_not_In {R} (key : R -> string) (s : string) rows :
  find (fun r => String.eqb (key r) s) rows = None -> ~ In s (map key rows).
Proof.
  induction rows as [| r rows IH]; simpl; intros H.
  - intros [].
  - destruct (String.eqb (key r) s) eqn:E; [discriminate |].
    apply String.eqb_neq in E. intros [H1 | H1]; [congruence | exact (IH H H1)].
Qed.

Lemma find_app_last {R} (p : R -> bool) rows r :
  find p rows = None -> p r = true -> find p (rows ++ [r]) = Some r.
Proof.
  induction rows as [| x rows IH]; simpl; intros H Hp.
  - rewrite Hp. reflexivity.
  - destruct (p x); [discriminate | exact (IH H Hp)].
Qed.

Lemma getOrCreate_new_run w customer :
  findReferrerOf customer w = None ->
  let r := Referrer.mk (idGen w (idNext w)) (customer_id customer)
             (nullish (customer_email customer)) (nullish (first_name customer))
             (nullish (last_name customer)) (clock w) (clock w) in
  getOrCreateReferrerFromCustomer customer w
  = (set_db (set_referrers (referrers (db w) ++ [r]) (db w)) (set_idNext (S (idNext w)) w),
     Returned r).
Proof.
  intros Hnone r. unfold findReferrerOf, referrersOf in Hnone.
  unfold getOrCreateReferrerFromCustomer.
  unfold bind at 1. unfold readDb, gets. cbn beta iota. rewrite Hnone.
  unfold bind at 1. unfold freshId. cbn beta iota.
  unfold bind at 1. unfold now, gets. cbn beta iota.
  unfold referrer_create, bind, readDb, gets, writeDb, modify, ret, throw, taken.
  cbn beta iota.
  assert (E : existsb
                (fun x => opt_eqb String.eqb (Some (Referrer.shopifyCustomerId x))
                            (Some (customer_id customer)))
                (referrers (db w)) = false).
  { clear r. induction (referrers (db w)) as [| x rows IH]; simpl in *; [reflexivity |].
    destruct (String.eqb (Referrer.shopifyCustomerId x) (customer_id customer));
      [discriminate | exact (IH Hnone)]. }
  cbn [db set_idNext]. cbn [Referrer.shopifyCustomerId]. rewrite E. reflexivity.
Qed.

(** X5. [getOrCreateReferrerFromCustomer] on a customer that no referrer
    stands for: it never fails; it appends one row under a fresh identifier,
    with the contact fields of the payload ([null] and absent fields stored
    as [NULL]) and both stamps at the current time; a later lookup by the
    customer id finds that row; the customer ids stay pairwise distinct. The
    other tables are untouched. *)
Theorem new_customer_becomes_referrer (w : World) (customer : ShopifyCustomerPayload) :
  findReferrerOf customer w = None ->
  let out := getOrCreateReferrerFromCustomer customer w in
  exists r,
    snd out = Returned r /\
    referrersOf (fst out) = (referrersOf w ++ [r])%list /\
    findReferrerOf customer (fst out) = Some r /\
    Referrer.id r = idGen w (idNext w) /\
    Referrer.shopifyCustomerId r = customer_id customer /\
    contactOf r = (nullish (customer_email customer), nullish (first_name customer),
                   nullish (last_name customer)) /\
    Referrer.createdAt r = clock w /\
    Referrer.updatedAt r = clock w /\
    (NoDup (customerKeys w) -> NoDup (customerKeys (fst out))) /\
    codesOf (fst out) = codesOf w /\
    ledger (fst out) = ledger w.
Proof.
  intros Hnone out. subst out. rewrite (getOrCreate_new_run w customer Hnone).
  cbn [fst snd]. eexists. split; [reflexivity |].
  split; [reflexivity |].
  split.
  { unfold findReferrerOf, referrersOf. cbn [db set_db set_referrers referrers].
    apply find_app_last; [exact Hnone |]. cbn [Referrer.shopifyCustomerId].
    apply String.eqb_refl. }
  repeat (split; [reflexivity |]).
  split; [| split; reflexivity].
  intros Hnd. unfold customerKeys, referrersOf in *. cbn [db set_db set_referrers referrers].
  rewrite map_app. cbn [map Referrer.shopifyCustomerId].
  apply NoDup_app; [exact Hnd | repeat constructor; intros [] |].
  intros s Hs [H1 | []]. subst s.
  exact (find_none_not_In Referrer.shopifyCustomerId _ _ Hnone Hs).
Qed.

Lemma new_customer_becomes_referrer_witness :
  exists r,
    snd (getOrCreateReferrerFromCustomer
           (mkCustomer "cust2" (Val "bob@example.org") Null Undefined) demoWorld) = Returned r /\
    Referrer.id r = "id0" /\
    contactOf r = (Some "bob@example.org", None, None) /\
    customerKeys (fst (getOrCreateReferrerFromCustomer
           (mkCustomer "cust2" (Val "bob@example.org") Null Undefined) demoWorld))
      = ["cust1"; "cust2"].
Proof.
  destruct (new_customer_becomes_referrer demoWorld
              (mkCustomer "cust2" (Val "bob@example.org") Null Undefined) eq_refl)
    as [r [Hret [Hrows [_ [Hid [_ [Hc _]]]]]]].
  exists r. split; [exact Hret |]. split; [rewrite Hid; reflexivity |].
  split; [rewrite Hc; reflexivity |].
  unfold customerKeys. rewrite Hrows, map_app. cbn [map]. 
  assert (E : Referrer.shopifyCustomerId r = "cust2").
  { vm_compute in Hret. injection Hret as <-. reflexivity. }
  rewrite E. reflexivity.
Defined.

Lemma NoDup_map_inj {R} (key : R -> string) rows x y :
  NoDup (map key rows) -> In x rows -> In y rows -> key x = key y -> x = y.
Proof.
  induction rows as [| r rows IH]; simpl; intros Hnd Hx Hy Hk; [contradiction |].
  inversion Hnd as [| ? ? Hnotin Hnd']; subst.
  destruct Hx as [Hx | Hx], Hy as [Hy | Hy]; subst.
  - reflexivity.
  - exfalso. apply Hnotin. rewrite Hk. apply in_map. exact Hy.
  - exfalso. apply Hnotin. rewrite <- Hk. apply in_map. exact Hx.
  - exact (IH Hnd' Hx Hy Hk).
Qed.

(** An update through a key that selects one row keeps that row where a
    lookup by another column found it. *)
Lemma update_first_in_place {R} (p q : R -> bool) (f : R -> R) rows r :
  find q rows = Some r ->
  p r = true ->
  (forall x, In x rows -> p x = true -> x = r) ->
  q (f r) = true ->
  exists rows',
    update_first p f rows = Some (f r, rows') /\ find q rows' = Some (f r).
Proof.
  induction rows as [| x rows IH]; simpl; intros Hfind Hp Huniq Hq; [discriminate |].
  destruct (q x) eqn:Eq.
  - inversion Hfind; subst x. rewrite Hp. eexists. split; [reflexivity |].
    simpl. rewrite Hq. reflexivity.
  - destruct (p x) eqn:Ep.
    + assert (x = r) by (apply Huniq; [left; reflexivity | exact Ep]). subst x.
      apply find_some in Hfind. destruct Hfind as [_ Hqr]. congruence.
    + destruct IH as [rows' [Hup Hf]]; try assumption.
      { intros y Hy Hpy. apply Huniq; [right; exact Hy | exact Hpy]. }
      rewrite Hup. eexists. split; [reflexivity |]. simpl. rewrite Eq. exact Hf.
Qed.

Lemma strict_neq_orElse stored incoming :
  strict_neq stored incoming = false -> orElse (nullish incoming) stored = stored.
Proof.
  destruct stored as [a |], incoming as [| | b]; simpl; intros H;
    try discriminate; try reflexivity.
  apply negb_false_iff in H. apply String.eqb_eq in H. subst. reflexivity.
Qed.

Lemma orElse_idem {A} (a b : option A) : orElse a (orElse a b) = orElse a b.
Proof. destruct a; reflexivity. Qed.

Lemma getOrCreate_existing_pk w customer existing :
  NoDup (referrerKeys w) ->
  findReferrerOf customer w = Some existing ->
  exists r rows',
    getOrCreateReferrerFromCustomer customer w
      = ((if contactDiffers existing customer
          then set_db (set_referrers rows' (db w)) w else w), Returned r) /\
    (contactDiffers existing customer = false -> rows' = referrersOf w /\ r = existing) /\
    Referrer.id r = Referrer.id existing /\
    Referrer.shopifyCustomerId r = Referrer.shopifyCustomerId existing /\
    Referrer.createdAt r = Referrer.createdAt existing /\
    contactOf r = refreshedContact customer existing /\
    map Referrer.id rows' = referrerKeys w /\
    map Referrer.shopifyCustomerId rows' = customerKeys w /\
    find (fun x => String.eqb (Referrer.shopifyCustomerId x) (customer_id customer)) rows'
      = Some r.
Proof.
  intros Hpk Hfind. unfold findReferrerOf, referrersOf in Hfind.
  unfold getOrCreateReferrerFromCustomer.
  unfold bind at 1. unfold readDb, gets. cbn beta iota. rewrite Hfind.
  fold (contactDiffers existing customer).
  destruct (contactDiffers existing customer) eqn:Ediff.
  - set (f := fun r : Referrer.t =>
                touch_referrer (clock w)
                  (Referrer.mk (Referrer.id r) (Referrer.shopifyCustomerId r)
                     (orElse (nullish (customer_email customer)) (Referrer.email existing))
                     (orElse (nullish (first_name customer)) (Referrer.firstName existing))
                     (orElse (nullish (last_name customer)) (Referrer.lastName existing))
                     (Referrer.createdAt r) (Referrer.updatedAt r))).
    destruct (update_first_in_place
                (fun r => String.eqb (Referrer.id r) (Referrer.id existing))
                (fun r => String.eqb (Referrer.shopifyCustomerId r) (customer_id customer))
                f (referrers (db w)) existing Hfind (String.eqb_refl _))
      as [rows' [Hup Hf]].
    { intros x Hx Hpx. apply String.eqb_eq in Hpx.
      apply find_some in Hfind. destruct Hfind as [Hin _].
      exact (NoDup_map_inj Referrer.id _ x existing Hpk Hx Hin Hpx). }
    { apply find_some in Hfind. exact (proj2 Hfind). }
    exists (f existing), rows'. split.
    { unfold referrer_update, bind, now, readDb, gets, writeDb, modify, ret.
      cbn beta iota. fold f. rewrite Hup. reflexivity. }
    split; [discriminate |].
    split; [reflexivity |]. split; [reflexivity |]. split; [reflexivity |].
    split; [reflexivity |].
    split; [| split].
    + apply (update_first_map Referrer.id _ _ _ _ _ Hup). intros r. reflexivity.
    + apply (update_first_map Referrer.shopifyCustomerId _ _ _ _ _ Hup). intros r. reflexivity.
    + exact Hf.
  - exists existing, (referrers (db w)). split; [reflexivity |].
    split; [intros _; split; reflexivity |].
    split; [reflexivity |]. split; [reflexivity |]. split; [reflexivity |].
    split.
    { unfold contactDiffers in Ediff.
      apply orb_false_iff in Ediff. destruct Ediff as [Ediff E3].
      apply orb_false_iff in Ediff. destruct Ediff as [E1 E2].
      unfold contactOf, refreshedContact.
      rewrite (strict_neq_orElse _ _ E1), (strict_neq_orElse _ _ E2),
        (strict_neq_orElse _ _ E3). reflexivity. }
    split; [reflexivity |]. split; [reflexivity | exact Hfind].
Qed.

(** X6. [getOrCreateReferrerFromCustomer] settles after one call: on a
    registry whose identifiers are pairwise distinct, a call for a customer
    that a referrer stands for never fails and adds no row, and a second call
    with the same payload returns the same referrer -- same identifier, same
    customer id, same creation stamp -- with the contact fields that the first
    call left; the identifiers and the customer ids of the table are those
    before the calls. *)
Theorem repeated_customer_keeps_one_referrer (w : World) (customer : ShopifyCustomerPayload)
    (existing : Referrer.t) :
  NoDup (referrerKeys w) ->
  findReferrerOf customer w = Some existing ->
  let first := getOrCreateReferrerFromCustomer customer w in
  let second := getOrCreateReferrerFromCustomer customer (fst first) in
  exists r1 r2,
    snd first = Returned r1 /\
    snd second = Returned r2 /\
    Referrer.id r1 = Referrer.id existing /\
    Referrer.id r2 = Referrer.id existing /\
    Referrer.shopifyCustomerId r2 = customer_id customer /\
    Referrer.createdAt r2 = Referrer.createdAt existing /\
    contactOf r1 = refreshedContact customer existing /\
    contactOf r2 = contactOf r1 /\
    referrerKeys (fst second) = referrerKeys w /\
    customerKeys (fst second) = customerKeys w /\
    findReferrerOf customer (fst second) = Some r2.
Proof.
  intros Hpk Hfind first second.
  destruct (getOrCreate_existing_pk w customer existing Hpk Hfind)
    as [r1 [rows1 [Hrun1 [Hsame1 [Hid1 [Hcid1 [Hcr1 [Hc1 [Hk1 [Hck1 Hf1]]]]]]]]]].
  assert (Hw1 : referrersOf (fst first) = rows1).
  { subst first. rewrite Hrun1. cbn [fst].
    destruct (contactDiffers existing customer) eqn:E; [reflexivity |].
    symmetry. exact (proj1 (Hsame1 eq_refl)). }
  assert (Hpk1 : NoDup (referrerKeys (fst first))).
  { unfold referrerKeys. rewrite Hw1, Hk1. exact Hpk. }
  assert (Hfind1 : findReferrerOf customer (fst first) = Some r1).
  { unfold findReferrerOf. rewrite Hw1. exact Hf1. }
  destruct (getOrCreate_existing_pk (fst first) customer r1 Hpk1 Hfind1)
    as [r2 [rows2 [Hrun2 [Hsame2 [Hid2 [Hcid2 [Hcr2 [Hc2 [Hk2 [Hck2 Hf2]]]]]]]]]].
  assert (Hw2 : referrersOf (fst second) = rows2).
  { subst second. rewrite Hrun2. cbn [fst].
    destruct (contactDiffers r1 customer) eqn:E; [reflexivity |].
    symmetry. exact (proj1 (Hsame2 eq_refl)). }
  exists r1, r2.
  split; [subst first; rewrite Hrun1; reflexivity |].
  split; [subst second; rewrite Hrun2; reflexivity |].
  split; [exact Hid1 |].
  split; [rewrite Hid2; exact Hid1 |].
  split.
  { rewrite Hcid2, Hcid1. apply find_some in Hfind. destruct Hfind as [_ H].
    apply String.eqb_eq in H. exact H. }
  split; [rewrite Hcr2; exact Hcr1 |].
  split; [exact Hc1 |].
  split.
  { rewrite Hc2. unfold refreshedContact.
    unfold contactOf, refreshedContact in Hc1. inversion Hc1 as [[He Hfn Hln]].
    unfold contactOf. rewrite He, Hfn, Hln, !orElse_idem. reflexivity. }
  split; [unfold referrerKeys at 1; rewrite Hw2, Hk2; unfold referrerKeys; rewrite Hw1; exact Hk1 |].
  split; [unfold customerKeys at 1; rewrite Hw2, Hck2; unfold customerKeys; rewrite Hw1; exact Hck1 |].
  unfold findReferrerOf. rewrite Hw2. exact Hf2.
Qed.

Lemma repeated_customer_keeps_one_referrer_witness :
  let payload := mkCustomer "cust1" Null (Val "Anna") Undefined in
  let first := getOrCreateReferrerFromCustomer payload demoWorld in
  let second := getOrCreateReferrerFromCustomer payload (fst first) in
  exists r2,
    snd second = Returned r2 /\
    Referrer.id r2 = "ref1" /\
    contactOf r2 = (Some "anna@example.org", Some "Anna", None) /\
    referrerKeys (fst second) = ["ref1"].
Proof.
  intros payload first second.
  assert (Hpk : NoDup (referrerKeys demoWorld)).
  { repeat constructor. intros []. }
  destruct (repeated_customer_keeps_one_referrer demoWorld payload
              (Referrer.mk "ref1" "cust1" (Some "anna@example.org") None None 0 0)
              Hpk eq_refl)
    as [r1 [r2 [_ [H2 [_ [Hid [_ [_ [Hc1 [Hc2 [Hk _]]]]]]]]]]].
  exists r2. split; [exact H2 |]. split; [exact Hid |].
  split; [rewrite Hc2, Hc1; reflexivity | exact Hk].
Defined.

(** ** Recording and finding referrals *)


Lemma stored_In {R} (key : R -> string) id rows :
  stored key id rows = true <-> In id (map key rows).
Proof.
  unfold stored. rewrite existsb_exists, in_map_iff. split.
  - intros [r [Hin Heq]]. apply String.eqb_eq in Heq. exists r. split; assumption.
  - intros [r [Heq Hin]]. exists r. split; [exact Hin |]. apply String.eqb_eq. exact Heq.
Qed.



Lemma createReferral_plain input w :
  opt_truthy (in_orderId input) = false ->
  createReferral input w
  = (let w1 := set_idNext (S (idNext w)) w in
     let r := referral_fresh input (idGen w (idNext w)) (clock w) in
     if taken Referral.orderId (in_orderId input) (referrals (db w))
     then (w1, Thrown UniqueConstraint)
     else if (stored Referrer.id (in_referrerId input) (referrersOf w)
              && linked Code.id (in_codeId input) (codesOf w))%bool
     then (set_db (set_referrals (referrals (db w) ++ [r]) (db w)) w1, Returned r)
     else (w1, Thrown ForeignKeyConstraint)).
Proof.
  intros H. unfold createReferral. rewrite H.
  unfold bind at 1. unfold freshId. cbn beta iota.
  unfold bind at 1. unfold now, gets. cbn beta iota.
  unfold referral_create, bind, readDb, gets, writeDb, modify, ret, throw.
  cbn beta iota. cbn [db set_idNext referral_fresh Referral.orderId].
  rewrite referral_keys_fresh. unfold referrersOf, codesOf.
  destruct (taken Referral.orderId (in_orderId input) (referrals (db w))); [reflexivity |].
  destruct (stored _ _ _ && linked _ _ _)%bool; reflexivity.
Qed.

(** X8. [createReferral] without an order id ([null] or absent), for a
    referrer and a code link that are stored rows, inserts a new row at
    every call and never fails; for a referrer that is not stored it fails
    on the foreign key and inserts nothing. With the empty text as order id
    it takes the same path -- the text is falsy -- but the unique index on the
    order id still sees it: the first call inserts a row of order [""], and
    a call made while such a row is stored fails on the index and writes no
    referral. *)
Theorem createReferral_without_order :
  (forall (w : World) (input : ReferralInput),
     in_orderId input = None ->
     let r := referral_fresh input (idGen w (idNext w)) (clock w) in
     (stored Referrer.id (in_referrerId input) (referrersOf w) = true ->
      linked Code.id (in_codeId input) (codesOf w) = true ->
      snd (createReferral input w) = Returned r /\
      referralsOf (fst (createReferral input w)) = (referralsOf w ++ [r])%list /\
      Referral.orderId r = None) /\
     (stored Referrer.id (in_referrerId input) (referrersOf w) = false ->
      snd (createReferral input w) = Thrown ForeignKeyConstraint /\
      referralsOf (fst (createReferral input w)) = referralsOf w))
  /\ (forall (w : World) (input : ReferralInput),
        in_orderId input = Some "" ->
        find (has_orderId "") (referralsOf w) = None ->
        stored Referrer.id (in_referrerId input) (referrersOf w) = true ->
        linked Code.id (in_codeId input) (codesOf w) = true ->
        let r := referral_fresh input (idGen w (idNext w)) (clock w) in
        snd (createReferral input w) = Returned r /\
        referralsOf (fst (createReferral input w)) = (referralsOf w ++ [r])%list /\
        snd (createReferral input (fst (createReferral input w))) = Thrown UniqueConstraint /\
        referralsOf (fst (createReferral input (fst (createReferral input w))))
          = (referralsOf w ++ [r])%list)
  /\ (forall (w : World) (input : ReferralInput) (existing : Referral.t),
        in_orderId input = Some "" ->
        find (has_orderId "") (referralsOf w) = Some existing ->
        stored Referrer.id (in_referrerId input) (referrersOf w) = true ->
        linked Code.id (in_codeId input) (codesOf w) = true ->
        snd (createReferral input w) = Thrown UniqueConstraint /\
        referralsOf (fst (createReferral input w)) = referralsOf w).
Proof.
  assert (Htaken : forall rows,
            taken Referral.orderId (Some "") rows
            = match find (has_orderId "") rows with Some _ => true | None => false end).
  { intros rows. unfold taken. induction rows as [| x rows IH]; [reflexivity |].
    simpl. unfold has_orderId at 1.
    destruct (opt_eqb String.eqb (Referral.orderId x) (Some "")); simpl; [reflexivity | exact IH]. }
  split; [| split].
  - intros w input Hnone r. subst r.
    rewrite createReferral_plain by (rewrite Hnone; reflexivity).
    rewrite Hnone. cbn [taken]. cbv zeta. split.
    + intros Hr Hc. rewrite Hr, Hc. cbn [andb fst snd referral_fresh Referral.orderId].
      repeat split. exact Hnone.
    + intros Hr. rewrite Hr. cbn [andb fst snd]. split; reflexivity.
  - intros w input Hempty Hfree Hr Hc r. subst r.
    rewrite createReferral_plain by (rewrite Hempty; reflexivity).
    rewrite Hempty, Htaken. unfold referralsOf in Hfree. rewrite Hfree.
    rewrite Hr, Hc.
    cbv zeta. cbn [andb fst snd].
    split; [reflexivity |]. split; [reflexivity |].
    rewrite createReferral_plain by (rewrite Hempty; reflexivity).
    rewrite Hempty, Htaken.
    cbn [db set_db set_referrals referrals set_idNext].
    rewrite (find_app_last (has_orderId "") _ _ Hfree)
      by (unfold has_orderId; cbn [referral_fresh Referral.orderId]; rewrite Hempty; reflexivity).
    cbv zeta. cbn [fst snd]. split; reflexivity.
  - intros w input existing Hempty Hfound Hr Hc.
    rewrite createReferral_plain by (rewrite Hempty; reflexivity).
    rewrite Hempty, Htaken. unfold referralsOf in Hfound. rewrite Hfound.
    cbv zeta. cbn [fst snd]. split; reflexivity.
Qed.

Lemma createReferral_without_order_witness :
  let input := mkReferralInput "ref1" None None None None None None None None in
  let blank := mkReferralInput "ref1" None None None None None (Some "") None None in
  let w1 := fst (createReferral input demoWorld) in
  List.length (referralsOf (fst (createReferral input w1))) = 6%nat
  /\ snd (createReferral blank (fst (createReferral blank demoWorld)))
     = Thrown UniqueConstraint.
Proof.
  intros input blank w1.
  destruct createReferral_without_order as [Hplain [Hblank _]].
  split.
  - destruct (Hplain w1 input eq_refl) as [Hok _].
    destruct (Hok eq_refl eq_refl) as [_ [Hrows _]]. rewrite Hrows. clear Hrows Hok.
    subst w1. destruct (Hplain demoWorld input eq_refl) as [Hok _].
    destruct (Hok eq_refl eq_refl) as [_ [Hrows _]]. rewrite Hrows.
    rewrite !length_app. reflexivity.
  - destruct (Hblank demoWorld blank eq_refl eq_refl eq_refl eq_refl) as [_ [_ [Hsecond _]]].
    exact Hsecond.
Defined.

(** ** Creating rewards *)

Lemma taken_rewardLinks rid rows :
  taken Reward.referralId (Some rid) rows = true <->
  In rid (flat_map (fun r => match Reward.referralId r with
                             | Some id => [id]
                             | None => []
                             end) rows).
Proof.
  unfold taken. induction rows as [| r rows IH]; simpl.
  - split; [discriminate | intros []].
  - destruct (Reward.referralId r) as [x |]; simpl.
    + destruct (String.eqb x rid) eqn:E; simpl.
      * apply String.eqb_eq in E. subst. split; [intros _; left; reflexivity | reflexivity].
      * apply String.eqb_neq in E. rewrite IH.
        split; [intros H; right; exact H | intros [H | H]; [congruence | exact H]].
    + exact IH.
Qed.

Lemma createPendingReward_eq referrerId referralId settings currency wpId wpTitle w :
  createPendingReward referrerId referralId settings currency wpId wpTitle w
  = (let w1 := set_idNext (S (idNext w)) w in
     let reward :=
       Reward.mk (idGen w (idNext w)) referrerId referralId
         (Settings.cashbackAmount settings) (orDefault currency "EUR") PENDING None
         wpId wpTitle (clock w) (clock w) None in
     if taken Reward.referralId referralId (rewards (db w))
     then (w1, Thrown UniqueConstraint)
     else if (stored Referrer.id referrerId (referrersOf w)
              && linked Referral.id referralId (referralsOf w))%bool
     then (set_db (set_rewards (rewards (db w) ++ [reward]) (db w)) w1, Returned reward)
     else (w1, Thrown ForeignKeyConstraint)).
Proof.
  unfold createPendingReward.
  unfold bind at 1. unfold freshId. cbn beta iota.
  unfold bind at 1. unfold now, gets. cbn beta iota.
  unfold reward_create, bind, readDb, gets, writeDb, modify, ret, throw.
  cbn beta iota. cbn [db set_idNext Reward.referralId].
  change (reward_keys _ (db w))
    with (stored Referrer.id referrerId (referrersOf w)
          && linked Referral.id referralId (referralsOf w))%bool.
  destruct (taken Reward.referralId referralId (rewards (db w))); [reflexivity |].
  destruct (stored _ _ _ && linked _ _ _)%bool; reflexivity.
Qed.

(** X9. [createPendingReward] keeps one reward per referral. For a
    referrer and a referral that are stored rows: when the referral already
    carries a reward it fails on the unique index and the rewards stay as
    they are; otherwise -- and always when no referral is given -- it appends
    one reward, pending, unpaid, of the cashback amount of the settings it
    is given, in the given currency or in EUR. For a referrer or a referral
    that is not stored, and a referral that carries no reward, it fails on
    the foreign key and the rewards stay as they are. In every case no
    referral ends up with two rewards. *)
Theorem one_reward_per_referral (w : World) (referrerId : string)
    (referralId : option string) (settings : Settings.t) (currency : option string)
    (wpId wpTitle : option string) :
  let out := createPendingReward referrerId referralId settings currency wpId wpTitle w in
  let keys :=
    (stored Referrer.id referrerId (referrersOf w)
     && linked Referral.id referralId (referralsOf w))%bool in
  (forall rid, referralId = Some rid -> In rid (rewardLinks w) -> keys = true ->
     snd out = Thrown UniqueConstraint /\ rewardsOf (fst out) = rewardsOf w)
  /\ ((forall rid, referralId = Some rid -> ~ In rid (rewardLinks w)) ->
      keys = true ->
      exists reward,
        snd out = Returned reward /\
        rewardsOf (fst out) = (rewardsOf w ++ [reward])%list /\
        Reward.id reward = idGen w (idNext w) /\
        Reward.referrerId reward = referrerId /\
        Reward.referralId reward = referralId /\
        Reward.status reward = PENDING /\
        Reward.paidAt reward = None /\
        Reward.amount reward = Settings.cashbackAmount settings /\
        Reward.currency reward = orDefault currency "EUR")
  /\ ((forall rid, referralId = Some rid -> ~ In rid (rewardLinks w)) ->
      keys = false ->
      snd out = Thrown ForeignKeyConstraint /\ rewardsOf (fst out) = rewardsOf w)
  /\ (NoDup (rewardLinks w) -> NoDup (rewardLinks (fst out)))
  /\ referralsOf (fst out) = referralsOf w
  /\ codesOf (fst out) = codesOf w.
Proof.
  intros out keys. subst out keys. rewrite createPendingReward_eq. cbv zeta.
  assert (Hfree : (forall rid, referralId = Some rid -> ~ In rid (rewardLinks w)) ->
                  taken Reward.referralId referralId (rewards (db w)) = false).
  { intros Hfree. destruct referralId as [rid |]; [| reflexivity].
    destruct (taken Reward.referralId (Some rid) (rewards (db w))) eqn:E; [| reflexivity].
    apply taken_rewardLinks in E. exfalso. exact (Hfree rid eq_refl E). }
  split; [| split; [| split; [| split]]].
  - intros rid Hrid Hin _. subst referralId.
    unfold rewardLinks, rewardsOf in Hin. apply taken_rewardLinks in Hin. rewrite Hin.
    cbn [fst snd]. split; reflexivity.
  - intros Hf Hkeys. rewrite (Hfree Hf), Hkeys. cbn [fst snd].
    eexists. split; [reflexivity |]. repeat split.
  - intros Hf Hkeys. rewrite (Hfree Hf), Hkeys. cbn [fst snd]. split; reflexivity.
  - intros Hnd.
    destruct (taken Reward.referralId referralId (rewards (db w))) eqn:E; cbn [fst];
      [exact Hnd |].
    destruct (stored _ _ _ && linked _ _ _)%bool; cbn [fst]; [| exact Hnd].
    unfold rewardLinks, rewardsOf in *. cbn [db set_db set_rewards rewards].
    rewrite flat_map_app. cbn [flat_map Reward.referralId].
    destruct referralId as [rid |]; cbn [app].
    + apply NoDup_app; [exact Hnd | repeat constructor; intros [] |].
      intros s Hs [H1 | []]. subst s.
      apply taken_rewardLinks in Hs. congruence.
    + rewrite app_nil_r. exact Hnd.
  - destruct (taken Reward.referralId referralId (rewards (db w))); [split; reflexivity |].
    destruct (stored _ _ _ && linked _ _ _)%bool; split; reflexivity.
Qed.

Lemma one_reward_per_referral_witness :
  let recorded :=
    fst (createReferral
           (mkReferralInput "ref1" (Some "code1") None None None None (Some "2001") None None)
           demoWorld) in
  snd (createPendingReward "ref1" (Some "rl2") DEFAULT_SETTINGS None None None demoWorld)
    = Thrown UniqueConstraint
  /\ (exists reward,
        snd (createPendingReward "ref1" (Some "id0") DEFAULT_SETTINGS None None None recorded)
          = Returned reward /\
        Reward.currency reward = "EUR" /\ Reward.status reward = PENDING)
  /\ snd (createPendingReward "ref1" (Some "rl9") DEFAULT_SETTINGS None None None demoWorld)
     = Thrown ForeignKeyConstraint.
Proof.
  intros recorded. split; [| split].
  - destruct (one_reward_per_referral demoWorld "ref1" (Some "rl2") DEFAULT_SETTINGS
                None None None) as [Hdup _].
    destruct (Hdup "rl2" eq_refl) as [H _]; [| reflexivity | exact H].
    vm_compute. right. left. reflexivity.
  - destruct (one_reward_per_referral recorded "ref1" (Some "id0") DEFAULT_SETTINGS
                None None None) as [_ [Hnew _]].
    destruct Hnew as [reward [Hret [_ [_ [_ [_ [Hst [_ [_ Hcur]]]]]]]]].
    + intros rid Hrid. injection Hrid as <-. vm_compute.
      intros [H | [H | [H | [H | []]]]]; discriminate.
    + vm_compute. reflexivity.
    + exists reward. split; [exact Hret |]. split; [exact Hcur | exact Hst].
  - destruct (one_reward_per_referral demoWorld "ref1" (Some "rl9") DEFAULT_SETTINGS
                None None None) as [_ [_ [Hrefused _]]].
    destruct Hrefused as [H _]; [| reflexivity | exact H].
    intros rid Hrid. injection Hrid as <-. vm_compute.
    intros [H | [H | [H | [H | []]]]]; discriminate.
Defined.

(** ** What counts as refunded *)

Lemma filter_app_rejected {R} (p : R -> bool) rows x :
  p x = false -> filter p (rows ++ [x]) = filter p rows.
Proof.
  intros H. rewrite filter_app. simpl. rewrite H. apply app_nil_r.
Qed.

(** X10. A pending reward counts toward no refunded total: after
    [createPendingReward], whatever its outcome, [getTotalRefundedForCode]
    answers for every order what it answered before, and so does
    [getTotalRefundedForReferrer] for every referrer; the first is zero for an
    order that no code comes from, the second for a referrer without a paid
    reward. *)
Theorem pending_rewards_are_not_refunds :
  (forall (w : World) (referrerId : string) (referralId : option string)
          (settings : Settings.t) (currency wpId wpTitle : option string),
     let w1 := fst (createPendingReward referrerId referralId settings currency wpId wpTitle w) in
     (forall gid, snd (getTotalRefundedForCode gid w1) = snd (getTotalRefundedForCode gid w)) /\
     (forall rid, snd (getTotalRefundedForReferrer rid w1)
                  = snd (getTotalRefundedForReferrer rid w)))
  /\ (forall (w : World) (gid : string),
        (forall c, In c (codesOf w) -> Code.originOrderGid c <> Some gid) ->
        getTotalRefundedForCode gid w = (w, Returned Num.zero))
  /\ (forall (w : World) (rid : string),
        (forall r, In r (rewardsOf w) -> Reward.referrerId r = rid -> Reward.status r <> PAID) ->
        getTotalRefundedForReferrer rid w = (w, Returned Num.zero)).
Proof.
  split; [| split].
  - intros w referrerId referralId settings currency wpId wpTitle w1. subst w1.
    rewrite createPendingReward_eq. cbv zeta.
    destruct (taken Reward.referralId referralId (rewards (db w))); cbn [fst];
      [split; intros; reflexivity |].
    destruct (stored _ _ _ && linked _ _ _)%bool; cbn [fst];
      [| split; intros; reflexivity].
    split.
    + intros gid. unfold getTotalRefundedForCode, readDb, gets. cbn [snd]. f_equal.
      unfold totalRefundedForCode. cbn [db set_db set_rewards set_idNext codes rewards].
      destruct (filter _ (codes (db w))) as [| c0 cs]; [reflexivity |].
      rewrite filter_app_rejected; reflexivity.
    + intros rid. unfold getTotalRefundedForReferrer, readDb, gets. cbn [snd]. f_equal.
      cbn [db set_db set_rewards set_idNext rewards].
      rewrite filter_app_rejected; [reflexivity |].
      cbn [Reward.status Reward.referrerId RewardStatus_eqb]. apply andb_false_r.
  - intros w gid Hnone. unfold getTotalRefundedForCode, readDb, gets. f_equal. f_equal.
    unfold totalRefundedForCode.
    assert (E : filter (fun c => opt_eqb String.eqb (Code.originOrderGid c) (Some gid))
                  (codes (db w)) = []).
    { unfold codesOf in Hnone. induction (codes (db w)) as [| c rows IH]; [reflexivity |].
      simpl. destruct (Code.originOrderGid c) as [g |] eqn:Eg; simpl.
      - destruct (String.eqb g gid) eqn:E.
        + apply String.eqb_eq in E. subst.
          exfalso. apply (Hnone c); [left; reflexivity | exact Eg].
        + apply IH. intros c' Hc'. apply Hnone. right. exact Hc'.
      - apply IH. intros c' Hc'. apply Hnone. right. exact Hc'. }
    rewrite E. reflexivity.
  - intros w rid Hnone. unfold getTotalRefundedForReferrer, readDb, gets. f_equal. f_equal.
    assert (E : filter (fun r => (String.eqb (Reward.referrerId r) rid
                                  && RewardStatus_eqb (Reward.status r) PAID)%bool)
                  (rewards (db w)) = []).
    { unfold rewardsOf in Hnone. induction (rewards (db w)) as [| r rows IH]; [reflexivity |].
      simpl. destruct (String.eqb (Reward.referrerId r) rid) eqn:E; simpl.
      - apply String.eqb_eq in E.
        destruct (Reward.status r) eqn:Es; simpl;
          try (apply IH; intros r' Hr'; apply Hnone; right; exact Hr').
        exfalso. apply (Hnone r); [left; reflexivity | exact E | exact Es].
      - apply IH. intros r' Hr'. apply Hnone. right. exact Hr'. }
    rewrite E. reflexivity.
Qed.

Lemma pending_rewards_are_not_refunds_witness :
  snd (getTotalRefundedForCode demoGid
         (fst (createPendingReward "ref1" None DEFAULT_SETTINGS None None None demoWorld)))
    = Returned (Num.ofZ 30)
  /\ getTotalRefundedForCode "gid://shopify/Order/404" demoWorld = (demoWorld, Returned Num.zero)
  /\ getTotalRefundedForReferrer "ref2" demoWorld = (demoWorld, Returned Num.zero).
Proof.
  destruct pending_rewards_are_not_refunds as [Hsame [Hcode Hreferrer]].
  split; [| split].
  - destruct (Hsame demoWorld "ref1" None DEFAULT_SETTINGS None None None) as [H _].
    rewrite H. vm_compute. reflexivity.
  - apply Hcode. intros c [Hc | []]. subst c. discriminate.
  - apply Hreferrer. intros r Hin Hr.
    destruct Hin as [H | [H | [H | [H | []]]]]; subst r; discriminate.
Defined.

(** ** Order identifiers *)

Lemma append_empty_r (s : string) : s ++ "" = s.
Proof. induction s as [| c t IH]; simpl; [reflexivity | rewrite IH; reflexivity]. Qed.

Lemma append_assoc_string (a b c : string) : (a ++ b) ++ c = a ++ (b ++ c).
Proof. induction a as [| x t IH]; simpl; [reflexivity | rewrite IH; reflexivity]. Qed.

Lemma split_slash_nonempty s : forall cur, split_slash s cur <> [].
Proof.
  induction s as [| c t IH]; intros cur; simpl.
  - discriminate.
  - destruct (Ascii.eqb c "/"); [discriminate | apply IH].
Qed.

Lemma split_slash_noSlash s :
  forall cur, noSlash s = true -> split_slash s cur = [cur ++ s].
Proof.
  induction s as [| c t IH]; intros cur H; simpl in *.
  - rewrite append_empty_r. reflexivity.
  - apply andb_true_iff in H. destruct H as [Hc Ht].
    apply negb_true_iff in Hc. rewrite Hc. rewrite (IH _ Ht).
    rewrite append_assoc_string. reflexivity.
Qed.

Lemma last_cons_nonempty {A} (x : A) l d : l <> [] -> List.last (x :: l) d = List.last l d.
Proof. destruct l; [contradiction | reflexivity]. Qed.

Lemma split_slash_last prefix rest :
  forall cur d,
    List.last (split_slash (prefix ++ String "/" rest) cur) d
    = List.last (split_slash rest "") d.
Proof.
  induction prefix as [| c t IH]; intros cur d; simpl.
  - apply last_cons_nonempty. apply split_slash_nonempty.
  - destruct (Ascii.eqb c "/").
    + rewrite last_cons_nonempty by apply split_slash_nonempty. apply IH.
    + apply IH.
Qed.

(** X11. [extractNumericId] inverts the way an order gid is built: for
    a gid that ends in a slash followed by a non-empty text without slash it
    answers that text, whatever comes before. A text without slash is
    answered whole, and so is a gid that ends in a slash: the answer is
    empty only for the empty gid. *)
Theorem extractNumericId_inverts_gid :
  (forall prefix id : string,
     noSlash id = true -> id <> "" ->
     extractNumericId (prefix ++ "/" ++ id) = id)
  /\ (forall id : string,
        noSlash id = true -> id <> "" ->
        extractNumericId ("gid://shopify/Order/" ++ id) = id)
  /\ (forall gid : string, noSlash gid = true -> extractNumericId gid = gid)
  /\ (forall prefix : string, extractNumericId (prefix ++ "/") = prefix ++ "/")
  /\ (forall gid : string, gid <> "" -> extractNumericId gid <> "").
Proof.
  assert (H1 : forall prefix id : string,
            noSlash id = true -> id <> "" ->
            extractNumericId (prefix ++ "/" ++ id) = id).
  { intros prefix id Hns Hne. unfold extractNumericId.
    change ("/" ++ id) with (String "/" id).
    rewrite split_slash_last, (split_slash_noSlash id "" Hns). simpl.
    destruct id; [contradiction | reflexivity]. }
  split; [exact H1 |]. split; [| split; [| split]].
  - intros id Hns Hne.
    change ("gid://shopify/Order/" ++ id) with ("gid://shopify/Order" ++ "/" ++ id).
    apply H1; assumption.
  - intros gid Hns. unfold extractNumericId.
    rewrite (split_slash_noSlash gid "" Hns). simpl.
    destruct gid; reflexivity.
  - intros prefix. unfold extractNumericId.
    change (prefix ++ "/") with (prefix ++ String "/" "").
    rewrite split_slash_last. reflexivity.
  - intros gid Hne. unfold extractNumericId.
    destruct (str_truthy (List.last (split_slash gid "") "")) eqn:E; [| exact Hne].
    intros H. rewrite H in E. discriminate.
Qed.

Lemma extractNumericId_inverts_gid_witness :
  extractNumericId "gid://shopify/Order/5001" = "5001"
  /\ extractNumericId "5001" = "5001"
  /\ extractNumericId "gid://shopify/Order/" <> "".
Proof.
  destruct extractNumericId_inverts_gid as [_ [Hgid [Hplain [_ Hne]]]].
  split; [| split].
  - apply (Hgid "5001"); [reflexivity | discriminate].
  - apply Hplain. reflexivity.
  - apply Hne. discriminate.
Defined.

(** ** Discount codes of a payload *)

Lemma rev_string_app a b : rev_string (a ++ b) = rev_string b ++ rev_string a.
Proof.
  induction a as [| c t IH]; cbn [append rev_string].
  - rewrite append_empty_r. reflexivity.
  - rewrite IH. apply append_assoc_string.
Qed.

Lemma rev_string_involutive s : rev_string (rev_string s) = s.
Proof.
  induction s as [| c t IH]; [reflexivity |].
  cbn [rev_string]. rewrite rev_string_app, IH. reflexivity.
Qed.

Lemma rev_string_empty s : rev_string s = "" -> s = "".
Proof.
  intros H. rewrite <- (rev_string_involutive s), H. reflexivity.
Qed.

Lemma append_empty_both a b : a ++ b = "" -> a = "" /\ b = "".
Proof. destruct a; [cbn; auto | discriminate]. Qed.

Lemma length_append a b : String.length (a ++ b) = (String.length a + String.length b)%nat.
Proof. induction a as [| c t IH]; cbn; [reflexivity | rewrite IH; reflexivity]. Qed.

Lemma append_cancel_l a b c : a ++ b = a ++ c -> b = c.
Proof.
  induction a as [| x t IH]; cbn; [auto |]. intros H. injection H as H. auto.
Qed.

Section StripFacts.

Variable s1 : ascii -> bool.
Variable s2 : ascii -> ascii -> bool.
Variable s3 : ascii -> ascii -> ascii -> bool.

(** No character of one class starts like a character of another. *)
Hypothesis two_not_one : forall a b, s2 a b = true -> s1 a = false.
Hypothesis three_not_one : forall a b c, s3 a b c = true -> s1 a = false.
Hypothesis three_not_two : forall a b c, s3 a b c = true -> s2 a b = false.

Abbreviation strip' := (strip s1 s2 s3).
Abbreviation SpaceOf := (SpaceOf s1 s2 s3).
Abbreviation BlankOf := (BlankOf s1 s2 s3).
Abbreviation noStart := (noStart s1 s2 s3).

Lemma strip_space sp rest : SpaceOf sp -> strip' (sp ++ rest) = strip' rest.
Proof.
  intros H. destruct H as [a Ha | a b Hab | a b c Habc]; cbn [append]; cbn [strip].
  - rewrite Ha. reflexivity.
  - rewrite (two_not_one a b Hab), Hab. reflexivity.
  - rewrite (three_not_one a b c Habc), (three_not_two a b c Habc), Habc. reflexivity.
Qed.

Lemma strip_blank s : BlankOf s -> strip' s = "".
Proof.
  intros H. induction H as [| sp rest Hsp _ IH]; [reflexivity |].
  rewrite strip_space by exact Hsp. exact IH.
Qed.

Lemma strip_cases s :
  (exists sp rest, SpaceOf sp /\ s = sp ++ rest /\ strip' s = strip' rest)
  \/ (strip' s = s /\ noStart s).
Proof.
  destruct s as [| a t].
  { right. split; [reflexivity |]. intros sp rest Hsp E.
    destruct Hsp; discriminate E. }
  destruct (s1 a) eqn:E1.
  { left. exists (String a ""), t. split; [constructor; exact E1 |].
    split; [reflexivity |]. cbn [strip]. rewrite E1. reflexivity. }
  destruct t as [| b t].
  { right. split; [cbn [strip]; rewrite E1; reflexivity |].
    intros sp rest Hsp E. destruct Hsp as [x Hx | x y Hxy | x y z Hxyz]; cbn [append] in E.
    - injection E as Ea _. subst x. congruence.
    - discriminate E.
    - discriminate E. }
  destruct (s2 a b) eqn:E2.
  { left. exists (String a (String b "")), t. split; [constructor; exact E2 |].
    split; [reflexivity |]. cbn [strip]. rewrite E1, E2. reflexivity. }
  destruct t as [| c t].
  { right. split; [cbn [strip]; rewrite E1, E2; reflexivity |].
    intros sp rest Hsp E. destruct Hsp as [x Hx | x y Hxy | x y z Hxyz]; cbn [append] in E.
    - injection E as Ea _. subst x. congruence.
    - injection E as Ea Eb _. subst x y. congruence.
    - discriminate E. }
  destruct (s3 a b c) eqn:E3.
  { left. exists (String a (String b (String c ""))), t.
    split; [constructor; exact E3 |].
    split; [reflexivity |]. cbn [strip]. rewrite E1, E2, E3. reflexivity. }
  right. split; [cbn [strip]; rewrite E1, E2, E3; reflexivity |].
  intros sp rest Hsp E. destruct Hsp as [x Hx | x y Hxy | x y z Hxyz]; cbn [append] in E.
  - injection E as Ea _. subst x. congruence.
  - injection E as Ea Eb _. subst x y. congruence.
  - injection E as Ea Eb Ec _. subst x y z. congruence.
Qed.

Lemma space_nonempty sp : SpaceOf sp -> (0 < String.length sp)%nat.
Proof. intros H; destruct H; cbn; lia. Qed.

(** What is stripped is white space, and what stays starts with none. *)
Lemma strip_spec s :
  exists blank, BlankOf blank /\ s = blank ++ strip' s /\ noStart (strip' s).
Proof.
  remember (String.length s) as n eqn:Hn. revert s Hn.
  induction n as [n IH] using lt_wf_ind. intros s Hn.
  destruct (strip_cases s) as [[sp [rest [Hsp [Hs Hstrip]]]] | [Hfix Hno]].
  - destruct (IH (String.length rest)) with (s := rest) as [blank [Hb [Hrest Hno]]].
    + subst n s. rewrite length_append. pose proof (space_nonempty sp Hsp). lia.
    + reflexivity.
    + exists (sp ++ blank). split; [constructor; assumption |].
      rewrite Hstrip. split; [| exact Hno].
      rewrite append_assoc_string, <- Hrest. exact Hs.
  - exists "". split; [constructor |]. rewrite Hfix. split; [reflexivity | exact Hno].
Qed.

Lemma strip_fixed s : noStart s -> strip' s = s.
Proof.
  intros Hno. destruct (strip_cases s) as [[sp [rest [Hsp [Hs _]]]] | [Hfix _]].
  - exfalso. exact (Hno sp rest Hsp Hs).
  - exact Hfix.
Qed.

Lemma blank_app a b : BlankOf a -> BlankOf b -> BlankOf (a ++ b).
Proof.
  intros Ha Hb. induction Ha as [| sp rest Hsp _ IH]; [exact Hb |].
  rewrite append_assoc_string. constructor; assumption.
Qed.

Lemma strip_empty s : strip' s = "" <-> BlankOf s.
Proof.
  split.
  - intros H. destruct (strip_spec s) as [blank [Hb [Hs _]]].
    rewrite H, append_empty_r in Hs. subst s. exact Hb.
  - apply strip_blank.
Qed.

End StripFacts.

(** The classes of white space, read from the start and from the end. *)
Lemma space_two_not_one a b : space2 a b = true -> space1 a = false.
Proof.
  unfold space2, space1. intros H.
  apply andb_true_iff in H. destruct H as [Ha _]. apply Nat.eqb_eq in Ha. rewrite Ha.
  reflexivity.
Qed.

Lemma space3_bytes a b c :
  space3 a b c = true ->
  let x := nat_of_ascii a in
  let y := nat_of_ascii b in
  let z := nat_of_ascii c in
  (x = 225 \/ x = 226 \/ x = 227 \/ x = 239)%nat /\
  (y = 154 \/ y = 128 \/ y = 129 \/ y = 187)%nat /\
  (128 <= z <= 191)%nat.
Proof.
  unfold space3. cbv zeta. intros H.
  repeat rewrite ?orb_true_iff, ?andb_true_iff, ?Nat.eqb_eq, ?Nat.leb_le in H.
  lia.
Qed.

Lemma space_three_not_one a b c : space3 a b c = true -> space1 a = false.
Proof.
  intros H. apply space3_bytes in H. cbv zeta in H. unfold space1.
  apply not_true_is_false. intros H'.
  repeat rewrite ?orb_true_iff, ?andb_true_iff, ?Nat.eqb_eq, ?Nat.leb_le in H'.
  lia.
Qed.

Lemma space_three_not_two a b c : space3 a b c = true -> space2 a b = false.
Proof.
  intros H. apply space3_bytes in H. cbv zeta in H. unfold space2.
  apply not_true_is_false. intros H'.
  repeat rewrite ?orb_true_iff, ?andb_true_iff, ?Nat.eqb_eq, ?Nat.leb_le in H'.
  lia.
Qed.

Lemma space_two_not_one_rev a b : space2 b a = true -> space1 a = false.
Proof.
  unfold space2, space1. intros H.
  apply andb_true_iff in H. destruct H as [_ Ha]. apply Nat.eqb_eq in Ha. rewrite Ha.
  reflexivity.
Qed.

Lemma space_three_not_one_rev a b c : space3 c b a = true -> space1 a = false.
Proof.
  intros H. apply space3_bytes in H. cbv zeta in H. unfold space1.
  apply not_true_is_false. intros H'.
  repeat rewrite ?orb_true_iff, ?andb_true_iff, ?Nat.eqb_eq, ?Nat.leb_le in H'.
  lia.
Qed.

Lemma space_three_not_two_rev a b c : space3 c b a = true -> space2 b a = false.
Proof.
  intros H. apply space3_bytes in H. cbv zeta in H. unfold space2.
  apply not_true_is_false. intros H'.
  repeat rewrite ?orb_true_iff, ?andb_true_iff, ?Nat.eqb_eq, ?Nat.leb_le in H'.
  lia.
Qed.

(** A white-space character read backwards. *)
Lemma space_rev sp :
  Space sp <->
  SpaceOf space1 (fun a b => space2 b a) (fun a b c => space3 c b a) (rev_string sp).
Proof.
  split.
  - intros H. destruct H; cbn; constructor; assumption.
  - intros H. rewrite <- (rev_string_involutive sp).
    destruct H; cbn; constructor; assumption.
Qed.

Lemma blank_snoc b sp : Blank b -> Space sp -> Blank (b ++ sp).
Proof.
  intros Hb Hsp. apply blank_app; [exact Hb |].
  rewrite <- (append_empty_r sp). constructor; [exact Hsp | constructor].
Qed.

Lemma blank_rev b :
  BlankOf space1 (fun a b => space2 b a) (fun a b c => space3 c b a) b ->
  Blank (rev_string b).
Proof.
  intros H. induction H as [| sp rest Hsp _ IH]; [constructor |].
  rewrite rev_string_app. apply blank_snoc; [exact IH |].
  apply space_rev. rewrite rev_string_involutive. exact Hsp.
Qed.

Lemma blank_rev_back b :
  Blank b ->
  BlankOf space1 (fun a b => space2 b a) (fun a b c => space3 c b a) (rev_string b).
Proof.
  intros H. induction H as [| sp rest Hsp _ IH]; [constructor |].
  rewrite rev_string_app. apply blank_app; [exact IH |].
  rewrite <- (append_empty_r (rev_string sp)).
  constructor; [apply space_rev; exact Hsp | constructor].
Qed.

(** [trim] takes white space off both ends, and nothing else. *)
Lemma trim_spec s :
  exists before after,
    Blank before /\ Blank after /\
    s = before ++ trim s ++ after /\
    ~ startsWithSpace (trim s) /\
    ~ endsWithSpace (trim s).
Proof.
  destruct (strip_spec space1 space2 space3 s) as [before [Hb [Hs Hno]]].
  fold (trim_start s) in Hs, Hno.
  destruct (strip_spec space1 (fun a b => space2 b a) (fun a b c => space3 c b a)
              (rev_string (trim_start s))) as [after [Ha [Hr Hno']]].
  set (v := strip space1 (fun a b => space2 b a) (fun a b c => space3 c b a)
              (rev_string (trim_start s))) in *.
  assert (Htrim : trim s = rev_string v) by reflexivity.
  assert (Hu : trim_start s = trim s ++ rev_string after).
  { rewrite <- (rev_string_involutive (trim_start s)), Hr, rev_string_app, Htrim.
    reflexivity. }
  exists before, (rev_string after).
  split; [exact Hb |]. split; [apply blank_rev; exact Ha |].
  split; [rewrite <- Hu; exact Hs |].
  split.
  - intros [sp [rest [Hsp E]]].
    apply (Hno sp (rest ++ rev_string after) Hsp).
    rewrite Hu, E. apply append_assoc_string.
  - intros [sp [rest [Hsp E]]].
    apply (Hno' (rev_string sp) (rev_string rest)); [apply space_rev; exact Hsp |].
    rewrite <- rev_string_app, <- E, Htrim. symmetry. apply rev_string_involutive.
Qed.

Lemma trim_fixed s : ~ startsWithSpace s -> ~ endsWithSpace s -> trim s = s.
Proof.
  intros Hstart Hend. unfold trim, trim_end.
  assert (E1 : trim_start s = s).
  { apply (strip_fixed space1 space2 space3).
    intros sp rest Hsp E. apply Hstart. exists sp, rest. split; assumption. }
  rewrite E1.
  rewrite (strip_fixed space1 (fun a b => space2 b a) (fun a b c => space3 c b a)).
  - apply rev_string_involutive.
  - intros sp rest Hsp E. apply Hend.
    exists (rev_string sp), (rev_string rest).
    split; [apply space_rev; rewrite rev_string_involutive; exact Hsp |].
    rewrite <- rev_string_app, <- E. symmetry. apply rev_string_involutive.
Qed.

Lemma trim_idem s : trim (trim s) = trim s.
Proof.
  destruct (trim_spec s) as [before [after [_ [_ [_ [Hstart Hend]]]]]].
  apply trim_fixed; assumption.
Qed.

Lemma trim_empty s : trim s = "" <-> Blank s.
Proof.
  split.
  - intros H. destruct (trim_spec s) as [before [after [Hb [Ha [Hs _]]]]].
    rewrite H in Hs. cbn [append] in Hs. subst s. apply blank_app; assumption.
  - intros H. unfold trim, trim_end.
    assert (E : trim_start s = "")
      by (apply (strip_blank space1 space2 space3 space_two_not_one space_three_not_one
                   space_three_not_two); exact H).
    rewrite E. reflexivity.
Qed.

(** X12. [normalizeCode] answers either nothing or a clean text. A code
    that is absent, empty or made of white space only -- the white space and
    the line terminators of the language, U+00A0 and U+FEFF among them --
    gives [null], and no other does. An answer is the code without the white
    space at its two ends: it is never empty, neither starts nor ends with a
    white-space character, and is a fixed point -- normalizing it again
    changes nothing. *)
Theorem normalizeCode_is_clean :
  (forall (code : option string) (s : string),
     normalizeCode code = Some s ->
     s <> "" /\
     ~ startsWithSpace s /\
     ~ endsWithSpace s /\
     normalizeCode (Some s) = Some s /\
     exists c before after,
       code = Some c /\ c = before ++ s ++ after /\ Blank before /\ Blank after)
  /\ (forall c : string, normalizeCode (Some c) = None <-> Blank c)
  /\ normalizeCode None = None.
Proof.
  assert (Htruthy : forall x, str_truthy x = false <-> x = "").
  { intros x. unfold str_truthy. destruct x; cbn; split; intros H;
      first [reflexivity | discriminate]. }
  split; [| split].
  - intros code s H. destruct code as [c |]; [| discriminate].
    unfold normalizeCode in H.
    destruct (str_truthy c) eqn:Ec; [| discriminate].
    cbv zeta in H. destruct (str_truthy (trim c)) eqn:Et; [| discriminate].
    injection H as Hs. subst s.
    destruct (trim_spec c) as [before [after [Hb [Ha [Hc [Hstart Hend]]]]]].
    assert (Hne : trim c <> "").
    { intros E. apply Htruthy in E. congruence. }
    split; [exact Hne |]. split; [exact Hstart |]. split; [exact Hend |].
    split.
    + unfold normalizeCode. rewrite Et. cbv zeta. rewrite trim_idem, Et. reflexivity.
    + exists c, before, after. repeat split; assumption.
  - intros c. unfold normalizeCode. split.
    + intros H. destruct (str_truthy c) eqn:Ec.
      * cbv zeta in H. destruct (str_truthy (trim c)) eqn:Et; [discriminate |].
        apply trim_empty. apply Htruthy. exact Et.
      * apply Htruthy in Ec. subst c. constructor.
    + intros H. destruct (str_truthy c); [| reflexivity].
      cbv zeta. apply trim_empty in H. rewrite H. reflexivity.
  - reflexivity.
Qed.

Lemma normalizeCode_is_clean_witness :
  let nbsp := String (ascii_of_nat 194) (String (ascii_of_nat 160) "") in
  normalizeCode (Some (" " ++ nbsp ++ "ABC-1234" ++ nbsp)) = Some "ABC-1234"
  /\ normalizeCode (Some "ABC-1234") = Some "ABC-1234"
  /\ normalizeCode (Some (nbsp ++ " ")) = None.
Proof.
  intros nbsp.
  destruct normalizeCode_is_clean as [Hclean [Hblank _]].
  assert (H : normalizeCode (Some (" " ++ nbsp ++ "ABC-1234" ++ nbsp)) = Some "ABC-1234")
    by (vm_compute; reflexivity).
  split; [exact H |].
  destruct (Hclean _ _ H) as [_ [_ [_ [Hfixed _]]]].
  split; [exact Hfixed |].
  apply Hblank.
  apply (Blank_cons space1 space2 space3 nbsp " ").
  - apply Space2. reflexivity.
  - apply (Blank_cons space1 space2 space3 " " "").
    + apply Space1. reflexivity.
    + constructor.
Defined.

(** ** The schedule of the refund attempts *)

Lemma refundAttempts_schedule remaining :
  forall attempt v w,
    (attempt + remaining = 3)%nat ->
    let out := refundAttempts remaining attempt v w in
    exists k,
      (k <= remaining)%nat /\
      refundCalls (fst out) = (refundCalls w ++ repeat v k)%list /\
      (remaining <> O ->
         (1 <= k)%nat /\
         snd out <> Thrown RefundRetriesExhausted /\
         clock (fst out)
         = clock w + 1000 * ((Z.of_nat (attempt + k) - 1) * Z.of_nat (attempt + k)
                             - Z.of_nat attempt * (Z.of_nat attempt + 1)) /\
         (k = remaining ->
          forall errors refund,
            refundReply (shopify w) (List.length (refundCalls w) + (k - 1)) = Payload errors refund ->
            errors <> [] ->
            snd out = Thrown (RefundUserErrors errors))).
Proof.
  induction remaining as [| remaining IH]; intros attempt v w Hsum out; subst out.
  - exists O. split; [lia |]. split; [simpl; rewrite app_nil_r; reflexivity |].
    intros H. contradiction.
  - rewrite refundAttempts_step. cbv zeta.
    assert (Hone : (refundCalls w ++ [v])%list = (refundCalls w ++ repeat v 1)%list) by reflexivity.
    assert (Hclock : forall x : Z,
              x = x + 1000 * ((Z.of_nat (attempt + 1) - 1) * Z.of_nat (attempt + 1)
                              - Z.of_nat attempt * (Z.of_nat attempt + 1))).
    { intros x. replace (Z.of_nat (attempt + 1)) with (Z.of_nat attempt + 1) by lia. ring. }
    destruct (refundReply (shopify w) (List.length (refundCalls w))) as [| | | errors refund] eqn:Ereply.
    + exists 1%nat. split; [lia |]. split; [exact Hone |]. intros _.
      split; [lia |]. split; [discriminate |]. split; [apply Hclock |].
      intros Hk errors refund Hr. replace (1 - 1)%nat with O in Hr by lia.
      rewrite Nat.add_0_r, Ereply in Hr. discriminate.
    + exists 1%nat. split; [lia |]. split; [exact Hone |]. intros _.
      split; [lia |]. split; [discriminate |]. split; [apply Hclock |].
      intros Hk errors refund Hr. replace (1 - 1)%nat with O in Hr by lia.
      rewrite Nat.add_0_r, Ereply in Hr. discriminate.
    + exists 1%nat. split; [lia |]. split; [exact Hone |]. intros _.
      split; [lia |]. split; [discriminate |]. split; [apply Hclock |].
      intros Hk errors refund Hr. replace (1 - 1)%nat with O in Hr by lia.
      rewrite Nat.add_0_r, Ereply in Hr. discriminate.
    + destruct errors as [| e errors].
      * exists 1%nat. split; [lia |].
        split; [destruct (0 <? attempt)%nat; exact Hone |]. intros _.
        split; [lia |]. split; [discriminate |].
        split; [destruct (0 <? attempt)%nat; apply Hclock |].
        intros Hk errors refund' Hr Hne. replace (1 - 1)%nat with O in Hr by lia.
        rewrite Nat.add_0_r, Ereply in Hr. inversion Hr; subst. contradiction.
      * destruct (isOrderUnavailableError (e :: errors) && (attempt <? maxRetries - 1)%nat)%bool
          eqn:Eretry.
        -- apply andb_true_iff in Eretry. destruct Eretry as [_ Hlt].
           apply Nat.ltb_lt in Hlt. unfold maxRetries in Hlt.
           match goal with
           | |- context [refundAttempts remaining (S attempt) v ?w2] =>
               destruct (IH (S attempt) v w2 ltac:(lia)) as [k [Hk [Hcalls Hrest]]]
           end.
           destruct (Hrest ltac:(lia)) as [Hk1 [Hnot [Hclk Hlast]]].
           exists (S k). split; [lia |].
           split.
           { rewrite Hcalls. cbn [refundCalls set_clock set_console set_refundCalls].
             rewrite <- app_assoc. reflexivity. }
           intros _. split; [lia |]. split; [exact Hnot |].
           split.
           { rewrite Hclk. cbn [clock set_clock set_console set_refundCalls].
             unfold retryDelay.
             replace (Z.of_nat (S attempt + k)) with (Z.of_nat attempt + Z.of_nat k + 1) by lia.
             replace (Z.of_nat (attempt + S k)) with (Z.of_nat attempt + Z.of_nat k + 1) by lia.
             replace (Z.of_nat (S attempt)) with (Z.of_nat attempt + 1) by lia.
             ring. }
           intros HSk errs refund' Hr Hne.
           apply (Hlast ltac:(lia) errs refund'); [| exact Hne].
           cbn [shopify refundCalls set_clock set_console set_refundCalls].
           rewrite length_app. cbn [List.length].
           replace (List.length (refundCalls w) + 1 + (k - 1))%nat
             with (List.length (refundCalls w) + (S k - 1))%nat by lia.
           exact Hr.
        -- exists 1%nat. split; [lia |]. split; [exact Hone |]. intros _.
           split; [lia |]. split; [discriminate |]. split; [apply Hclock |].
           intros Hk errs refund' Hr Hne. replace (1 - 1)%nat with O in Hr by lia.
           rewrite Nat.add_0_r, Ereply in Hr. inversion Hr; subst. reflexivity.
Qed.

Lemma refundPrelude_clock gid w : clock (refundPrelude gid w) = clock w.
Proof.
  unfold refundPrelude.
  destruct (orderTransactions (shopify w) gid);
    destruct (opt_truthy _); reflexivity.
Qed.

(** X13. The retries of [createReferralRefund] follow a fixed schedule:
    it sends one to three mutations and waits 2 s after the first and 4 s
    after the second that the platform answers as unavailable, so that the
    clock has advanced by 0, 2 or 6 seconds when it ends. It never ends with
    the retries-exhausted error: the third answer is final, and when it still
    carries user errors, those are the error raised. *)
Theorem refund_retry_schedule (w : World) (gid : string) (amount : number)
    (currency : string) (note : option string) :
  let out := createReferralRefund gid amount currency note w in
  let k := attemptsMade w (fst out) in
  (1 <= k <= 3)%nat /\
  clock (fst out) = clock w + 1000 * (Z.of_nat k - 1) * Z.of_nat k /\
  snd out <> Thrown RefundRetriesExhausted /\
  (k = 3%nat ->
   forall errors refund,
     refundReply (shopify w) (List.length (refundCalls w) + 2) = Payload errors refund ->
     errors <> [] ->
     snd out = Thrown (RefundUserErrors errors)).
Proof.
  intros out k. subst out k.
  rewrite createReferralRefund_eq.
  destruct (refundPrelude_frame gid w) as [_ [Hshop [Hcalls _]]].
  match goal with
  | |- context [refundAttempts maxRetries 0 ?v ?w0] =>
      destruct (refundAttempts_schedule 3 0%nat v w0 eq_refl) as [k [Hk [Hc Hrest]]]
  end.
  destruct (Hrest ltac:(discriminate)) as [Hk1 [Hnot [Hclk Hlast]]].
  change maxRetries with 3%nat.
  assert (Hmade : forall v' w', refundCalls w' = (refundCalls w ++ repeat v' k)%list ->
                                attemptsMade w w' = k) by
    (intros v' w' H; unfold attemptsMade; rewrite H, length_app, repeat_length; lia).
  rewrite Hcalls in Hc. rewrite (Hmade _ _ Hc).
  split; [lia |].
  split.
  { rewrite Hclk, refundPrelude_clock. change (Z.of_nat 0) with 0.
    replace (0 + k)%nat with k by lia. ring. }
  split; [exact Hnot |].
  intros Hk3 errors refund Hr Hne.
  apply (Hlast Hk3 errors refund); [| exact Hne].
  rewrite Hshop, Hcalls. subst k. exact Hr.
Qed.

Lemma refund_retry_schedule_witness :
  let out := createReferralRefund demoGid (Num.ofZ 20) "EUR" None lockedWorld in
  attemptsMade lockedWorld (fst out) = 3%nat /\
  clock (fst out) = 7000 /\
  snd out = Thrown (RefundUserErrors [unavailable]).
Proof.
  intros out.
  destruct (refund_retry_schedule lockedWorld demoGid (Num.ofZ 20) "EUR" None)
    as [_ [Hclk [_ Hlast]]].
  assert (Hk : attemptsMade lockedWorld (fst out) = 3%nat) by (vm_compute; reflexivity).
  split; [exact Hk |].
  split.
  - subst out. rewrite Hclk, Hk. reflexivity.
  - apply (Hlast Hk [unavailable] ""); [reflexivity | discriminate].
Defined.

(** ** The workshop of an order *)

Lemma fold_quantity_shift items :
  forall a,
    fold_left (fun total item => total + item_quantity item) items a
    = a + fold_left (fun total item => total + item_quantity item) items 0.
Proof.
  induction items as [| i items IH]; intros a; simpl; [lia |].
  rewrite (IH (a + item_quantity i)), (IH (item_quantity i)). lia.
Qed.

Lemma fold_quantity_nonneg items :
  (forall item, In item items -> 1 <= item_quantity item) ->
  0 <= fold_left (fun total item => total + item_quantity item) items 0.
Proof.
  induction items as [| i items IH]; intros H; simpl; [lia |].
  rewrite fold_quantity_shift.
  assert (1 <= item_quantity i) by (apply H; left; reflexivity).
  assert (0 <= fold_left (fun total item => total + item_quantity item) items 0).
  { apply IH. intros item Hin. apply H. right. exact Hin. }
  lia.
Qed.

Lemma item_quantity_floor item :
  (forall q, li_quantity item = Some q -> 0 <= q) -> 1 <= item_quantity item.
Proof.
  intros H. unfold item_quantity. destruct (li_quantity item) as [q |]; [| lia].
  specialize (H q eq_refl). destruct (q =? 0) eqn:E; [lia |].
  apply Z.eqb_neq in E. lia.
Qed.

(** X14. The workshop that the purchase handler reads off an order: an
    order without line gives no product and the quantity 1; otherwise the
    product is that of the first line (its product id, or its variant id when
    that is missing) and the quantity is summed over the lines of that
    product only -- a line of another product changes nothing, wherever it
    stands -- each line counting for its quantity, or for one when the
    quantity is missing or zero. With no negative quantity the result is at
    least 1. *)
Theorem workshop_of_an_order :
  workshopOf [] = mkWorkshop None None 1
  /\ (forall first rest,
        workshopProductId (workshopOf (first :: rest)) = Some (item_product first) /\
        workshopQuantity (workshopOf (first :: rest))
        = item_quantity first
          + fold_left (fun total item => total + item_quantity item)
              (filter (fun item => String.eqb (item_product item) (item_product first)) rest) 0)
  /\ (forall first before other after,
        item_product other <> item_product first ->
        workshopOf (first :: before ++ other :: after) = workshopOf (first :: before ++ after))
  /\ (forall first rest,
        (forall item q, In item (first :: rest) -> li_quantity item = Some q -> 0 <= q) ->
        1 <= workshopQuantity (workshopOf (first :: rest)))
  /\ (forall item,
        li_quantity item = None \/ li_quantity item = Some 0 -> item_quantity item = 1).
Proof.
  split; [reflexivity |]. split; [| split; [| split]].
  - intros first rest. split; [reflexivity |].
    unfold workshopOf. cbn [workshopQuantity filter].
    rewrite String.eqb_refl. cbn [fold_left]. rewrite fold_quantity_shift. lia.
  - intros first before other after Hother.
    unfold workshopOf. f_equal.
    cbn [filter]. rewrite String.eqb_refl. f_equal. 
    rewrite !filter_app. cbn [filter].
    apply String.eqb_neq in Hother. rewrite Hother. reflexivity.
  - intros first rest Hq.
    unfold workshopOf. cbn [workshopQuantity filter].
    rewrite String.eqb_refl. cbn [fold_left]. rewrite fold_quantity_shift.
    assert (1 <= item_quantity first).
    { apply item_quantity_floor. intros q Hqq. apply (Hq first q); [left; reflexivity | exact Hqq]. }
    assert (0 <= fold_left (fun total item => total + item_quantity item)
                   (filter (fun item => String.eqb (item_product item) (item_product first)) rest) 0).
    { apply fold_quantity_nonneg. intros item Hin. apply filter_In in Hin.
      destruct Hin as [Hin _]. apply item_quantity_floor. intros q Hqq.
      apply (Hq item q); [right; exact Hin | exact Hqq]. }
    lia.
  - intros item [H | H]; unfold item_quantity; rewrite H; reflexivity.
Qed.

Lemma workshop_of_an_order_witness :
  workshopQuantity
    (workshopOf [mkLineItem (Some "P1") "V1" (Some "Workshop") None (Some 2);
                 mkLineItem (Some "P2") "V2" (Some "Print") None (Some 5);
                 mkLineItem (Some "P1") "V3" None None (Some 0)]) = 3
  /\ 1 <= workshopQuantity (workshopOf [mkLineItem None "V1" None (Some "Gift") None]).
Proof.
  destruct workshop_of_an_order as [_ [Hsum [Hskip [Hfloor _]]]].
  split.
  - pose proof (Hskip (mkLineItem (Some "P1") "V1" (Some "Workshop") None (Some 2)) []
                  (mkLineItem (Some "P2") "V2" (Some "Print") None (Some 5))
                  [mkLineItem (Some "P1") "V3" None None (Some 0)]
                  ltac:(discriminate)) as E.
    cbn [app] in E. rewrite E. destruct (Hsum (mkLineItem (Some "P1") "V1" (Some "Workshop") None (Some 2))
                              [mkLineItem (Some "P1") "V3" None None (Some 0)]) as [_ H].
    rewrite H. reflexivity.
  - apply Hfloor. intros item q [H | []] Hq. subst item. discriminate.
Defined.

(** ** Reading and writing the settings *)

Lemma getReferralSettings_run w :
  getReferralSettings w
  = match appSetting (db w) with
    | Some row => (w, Returned (settingsOfRow row))
    | None =>
        (set_db (set_appSetting
           (Some (AppSetting.mk (Num.dec 1 1) (Num.ofZ 20) 30 true 0 (Some (Num.ofZ 1))
                    (Some []) (clock w) (clock w))) (db w)) w,
         Returned DEFAULT_SETTINGS)
    end.
Proof.
  unfold getReferralSettings. unfold bind at 1. unfold readDb, gets. cbn beta iota.
  destruct (appSetting (db w)) as [row |]; reflexivity.
Qed.

(** X15. [getReferralSettings] installs the defaults once: on a database
    without settings row it writes the row of the defaults -- a discount of a
    tenth, a cashback of 20, codes valid 30 days, once per customer, no usage
    limit, the whole order refundable, no segment -- stamped now, and answers
    them; on a database with a row it writes nothing. Reading again answers
    the same settings and leaves the world as the first read left it. *)
Theorem settings_defaults_installed_once (w : World) :
  let first := getReferralSettings w in
  (appSetting (db w) = None ->
     snd first = Returned DEFAULT_SETTINGS /\
     exists row,
       appSetting (db (fst first)) = Some row /\
       settingsOfRow row = DEFAULT_SETTINGS /\
       AppSetting.createdAt row = clock w /\
       AppSetting.updatedAt row = clock w)
  /\ (forall row, appSetting (db w) = Some row ->
        first = (w, Returned (settingsOfRow row)))
  /\ getReferralSettings (fst first) = (fst first, snd first)
  /\ Settings.discountPercentage DEFAULT_SETTINGS = Num.dec 1 1
  /\ Settings.cashbackAmount DEFAULT_SETTINGS = Num.ofZ 20
  /\ Settings.codeValidityDays DEFAULT_SETTINGS = 30
  /\ Settings.maxUsagePerCode DEFAULT_SETTINGS = 0
  /\ Settings.maxRefundPercentage DEFAULT_SETTINGS = Num.ofZ 1
  /\ codesOf (fst first) = codesOf w
  /\ ledger (fst first) = ledger w.
Proof.
  intros first. subst first. rewrite (getReferralSettings_run w).
  destruct (appSetting (db w)) as [row |] eqn:Erow.
  - cbn [fst snd]. split; [discriminate |].
    split; [intros row' H; inversion H; reflexivity |].
    split; [rewrite getReferralSettings_run, Erow; reflexivity |].
    repeat split.
  - cbn [fst snd]. split.
    { intros _. split; [reflexivity |]. eexists. split; [reflexivity |]. repeat split. }
    split; [intros row H; discriminate |].
    split; [rewrite getReferralSettings_run; reflexivity |].
    repeat split.
Qed.

Lemma settings_defaults_installed_once_witness :
  let empty := worldWith (mkDb [] [] [] [] None []) (shopify demoWorld) in
  snd (getReferralSettings empty) = Returned DEFAULT_SETTINGS
  /\ currentSettings (db (fst (getReferralSettings empty))) = DEFAULT_SETTINGS
  /\ getReferralSettings demoWorld
     = (demoWorld, Returned (settingsOfRow (demoSettings (Num.ofZ 20) (Num.dec 5 1)))).
Proof.
  intros empty.
  destruct (settings_defaults_installed_once empty) as [Hnone _].
  destruct (Hnone eq_refl) as [Hret [row [Hrow [Hdef _]]]].
  split; [exact Hret |].
  split; [unfold currentSettings; rewrite Hrow; exact Hdef |].
  destruct (settings_defaults_installed_once demoWorld) as [_ [Hsome _]].
  exact (Hsome _ eq_refl).
Defined.

Lemma updateReferralSettings_eq partial w :
  updateReferralSettings partial w
  = (let next := mergeSettings partial (currentSettings (db w)) in
     if (fitsInt (Settings.codeValidityDays next)
         && fitsInt (Settings.maxUsagePerCode next))%bool
     then
       (set_db (set_appSetting
          (Some (AppSetting.mk
                   (Settings.discountPercentage next) (Settings.cashbackAmount next)
                   (Settings.codeValidityDays next) (Settings.appliesOncePerCustomer next)
                   (Settings.maxUsagePerCode next) (Some (Settings.maxRefundPercentage next))
                   (Some (Settings.customerSegmentIds next))
                   (settingsCreatedAt w) (clock w))) (db w)) w,
        Returned next)
     else (fst (getReferralSettings w), Thrown ValueOutOfRange)).
Proof.
  unfold updateReferralSettings.
  unfold bind at 1. rewrite getReferralSettings_run.
  unfold currentSettings, settingsCreatedAt.
  destruct (appSetting (db w)) as [row |] eqn:Erow.
  - unfold bind, now, readDb, gets, writeDb, modify, ret, throw. cbn beta iota.
    rewrite Erow. cbv zeta.
    change (Settings.mk _ _ _ _ _ _ _) with (mergeSettings partial (settingsOfRow row)).
    destruct (fitsInt _ && fitsInt _)%bool; reflexivity.
  - unfold bind, now, readDb, gets, writeDb, modify, ret, throw. cbn beta iota.
    cbv zeta.
    change (Settings.mk _ _ _ _ _ _ _) with (mergeSettings partial DEFAULT_SETTINGS).
    destruct (fitsInt _ && fitsInt _)%bool; reflexivity.
Qed.

Lemma merge_idem partial existing :
  mergeSettings partial (mergeSettings partial existing) = mergeSettings partial existing.
Proof.
  unfold mergeSettings. cbn [Settings.discountPercentage Settings.cashbackAmount
    Settings.codeValidityDays Settings.appliesOncePerCustomer Settings.maxUsagePerCode
    Settings.maxRefundPercentage Settings.customerSegmentIds].
  destruct partial as [p1 p2 p3 p4 p5 p6 p7].
  cbn [Settings.p_discountPercentage Settings.p_cashbackAmount Settings.p_codeValidityDays
       Settings.p_appliesOncePerCustomer Settings.p_maxUsagePerCode
       Settings.p_maxRefundPercentage Settings.p_customerSegmentIds].
  destruct p1, p2, p3, p4, p5, p6, p7; reflexivity.
Qed.

Lemma merge_noChange existing : mergeSettings noChange existing = existing.
Proof. destruct existing. reflexivity. Qed.

(** X16. [updateReferralSettings] writes what it answers. The answer
    takes each field from the update where it is given and from the settings
    in force elsewhere. When its validity period and its usage limit fit an
    integer column, the update returns, and a read made afterwards answers
    exactly these settings, segment list included, without writing;
    applying the same update again answers the same settings; the row keeps
    its creation stamp and is stamped as updated now. When one of the two
    does not fit, the update fails with the out-of-range error and the
    settings in force stay as they were. An update that gives no field
    answers the settings in force. No other table is touched. *)
Theorem settings_update_round_trip (partial : Settings.partial) (w : World) :
  let out := updateReferralSettings partial w in
  let current := currentSettings (db w) in
  let next := mergeSettings partial current in
  let fits (s : Settings.t) :=
    (fitsInt (Settings.codeValidityDays s) && fitsInt (Settings.maxUsagePerCode s))%bool in
  (fits next = true ->
     snd out = Returned next /\
     getReferralSettings (fst out) = (fst out, Returned next) /\
     snd (updateReferralSettings partial (fst out)) = Returned next /\
     settingsCreatedAt (fst out) = settingsCreatedAt w /\
     exists row, appSetting (db (fst out)) = Some row /\ AppSetting.updatedAt row = clock w)
  /\ (fits next = false ->
        snd out = Thrown ValueOutOfRange /\
        currentSettings (db (fst out)) = current)
  /\ (fits current = true ->
        snd (updateReferralSettings noChange w) = Returned current)
  /\ codesOf (fst out) = codesOf w
  /\ referrersOf (fst out) = referrersOf w
  /\ ledger (fst out) = ledger w.
Proof.
  intros out current next fits. subst out current next fits.
  rewrite !updateReferralSettings_eq. cbv zeta beta.
  split; [| split; [| split]].
  - intros Hfits. rewrite Hfits. cbn [fst snd].
    split; [reflexivity |].
    split; [rewrite getReferralSettings_run; reflexivity |].
    split.
    { change (currentSettings (db (set_db ?[d] w)))
        with (mergeSettings partial (currentSettings (db w))).
      rewrite merge_idem, Hfits. reflexivity. }
    split; [reflexivity |].
    eexists; split; reflexivity.
  - intros Hfits. rewrite Hfits. cbn [fst snd]. split; [reflexivity |].
    apply getReferralSettings_installs.
  - intros Hfits. rewrite merge_noChange, Hfits. reflexivity.
  - destruct (fitsInt _ && fitsInt _)%bool; cbn [fst].
    + repeat split.
    + split; [apply keeps_codes_getReferralSettings |].
      split; [apply (keeps_getReferralSettings referrersOf (fun _ _ => eq_refl))
             | apply (keeps_getReferralSettings ledger (fun _ _ => eq_refl))].
Qed.

Lemma settings_update_round_trip_witness :
  let tooLong :=
    Settings.mkPartial None None (Some 2147483648) None None None None in
  (exists next,
     snd (updateReferralSettings cashback50 demoWorld) = Returned next /\
     Settings.cashbackAmount next = Num.ofZ 50 /\
     Settings.codeValidityDays next = 30 /\
     snd (getReferralSettings (fst (updateReferralSettings cashback50 demoWorld)))
       = Returned next)
  /\ snd (updateReferralSettings tooLong demoWorld) = Thrown ValueOutOfRange
  /\ currentSettings (db (fst (updateReferralSettings tooLong demoWorld)))
     = currentSettings (db demoWorld).
Proof.
  intros tooLong. split; [| split].
  - pose proof (settings_update_round_trip cashback50 demoWorld) as H. cbv zeta in H.
    destruct H as [Hok _]. destruct (Hok eq_refl) as [Hret [Hread _]].
    eexists. split; [exact Hret |].
    split; [reflexivity |]. split; [reflexivity |].
    rewrite Hread. reflexivity.
  - pose proof (settings_update_round_trip tooLong demoWorld) as H. cbv zeta in H.
    destruct H as [_ [Hrefused _]]. destruct (Hrefused eq_refl) as [Hthrown _].
    exact Hthrown.
  - pose proof (settings_update_round_trip tooLong demoWorld) as H. cbv zeta in H.
    destruct H as [_ [Hrefused _]]. destruct (Hrefused eq_refl) as [_ Hsame].
    exact Hsame.
Defined.

(** ** The two halves of the handler *)

(** The handler is its first half, then the attribution, both in one
    [try] whose [catch] writes one line. *)
Lemma action_phases payload orderId buyer w :
  payload_id payload = Some orderId ->
  customer payload = Some buyer ->
  action (Parsed payload) w
  = match issuePhase payload orderId buyer w with
    | (w1, Returned (settings, ws)) =>
        (fst (try_catch (recordReferral payload orderId buyer settings ws)
                (fun _ => log ErrWebhook) w1),
         Returned OK200)
    | (w1, Thrown _) => (fst (log ErrWebhook w1), Returned OK200)
    end.
Proof.
  intros Hid Hcust. unfold action. rewrite Hid, Hcust.
  match goal with
  | |- context [bind (try_catch ?m ?h) ?k w] =>
      rewrite (bind_run (try_catch m h) k w tt (try_catch_log_returns m _ w));
      set (body := m)
  end.
  assert (Hbody :
    body w = bind (issuePhase payload orderId buyer)
               (fun p => recordReferral payload orderId buyer (fst p) (snd p)) w).
  { subst body. unfold issuePhase, bind.
    destruct (getReferralSettings w) as [w1 [settings | e]]; [| reflexivity].
    destruct (fetchWorkshop orderId w1) as [w2 [ws | e]]; [| reflexivity].
    destruct (getOrCreateReferrerFromCustomer buyer w2) as [w3 [referrer | e]];
      [| reflexivity].
    destruct (issueOrRefreshCode payload orderId settings ws referrer w3)
      as [w4 [c | e]]; reflexivity. }
  unfold try_catch at 1. rewrite Hbody. unfold bind.
  destruct (issuePhase payload orderId buyer w) as [w1 [[settings ws] | e]];
    cbn [fst snd]; [| reflexivity].
  unfold try_catch.
  destruct (recordReferral payload orderId buyer settings ws w1) as [w2 [[] | e]];
    reflexivity.
Qed.

Lemma set_db_same w : set_db (db w) w = w.
Proof. destruct w. reflexivity. Qed.

Lemma set_appSetting_same d : set_appSetting (appSetting d) d = d.
Proof. destruct d. reflexivity. Qed.

Lemma getReferralSettings_world w :
  exists row,
    getReferralSettings w
    = (set_db (set_appSetting row (db w)) w, Returned (currentSettings (db w))).
Proof.
  rewrite getReferralSettings_run. unfold currentSettings.
  destruct (appSetting (db w)) as [row |] eqn:E.
  - exists (Some row). rewrite <- E, set_appSetting_same, set_db_same. reflexivity.
  - eexists. reflexivity.
Qed.

Lemma fetchWorkshop_world orderId w :
  exists logs,
    fetchWorkshop orderId w
    = (set_console (console w ++ logs) w, Returned (workshopFor w orderId)).
Proof.
  unfold fetchWorkshop, workshopFor, bind, gets, log, modify, ret. cbn [fst snd].
  destruct (orderDetails (shopify w) orderId).
  - exists []. rewrite app_nil_r. destruct w. reflexivity.
  - exists [WarnOrderDetails]. reflexivity.
Qed.

Lemma issuePhase_values payload orderId buyer w w1 settings ws :
  issuePhase payload orderId buyer w = (w1, Returned (settings, ws)) ->
  settings = currentSettings (db w) /\ ws = workshopFor w orderId.
Proof.
  unfold issuePhase.
  destruct (getReferralSettings_world w) as [row E1].
  rewrite (bind_returned _ _ _ _ _ E1).
  destruct (fetchWorkshop_world orderId (set_db (set_appSetting row (db w)) w)) as [logs E2].
  rewrite (bind_returned _ _ _ _ _ E2).
  unfold bind, ret.
  destruct (getOrCreateReferrerFromCustomer buyer _) as [w3 [referrer | e]]; [| discriminate].
  destruct (issueOrRefreshCode payload orderId _ _ referrer w3) as [w4 [c | e]];
    [| discriminate].
  intros H. inversion H. split; reflexivity.
Qed.

Lemma keeps_ledger_issuePhase payload orderId buyer :
  keeps ledger (issuePhase payload orderId buyer).
Proof.
  unfold issuePhase.
  apply keeps_bind; [apply keeps_getReferralSettings; reflexivity |]. intros settings.
  apply keeps_bind; [apply keeps_fetchWorkshop; reflexivity |]. intros ws.
  apply keeps_bind; [apply keeps_ledger_getOrCreate |]. intros referrer.
  apply keeps_bind; [apply keeps_ledger_issueOrRefreshCode |]. intros _.
  apply keeps_ret.
Qed.

Lemma find_stored {R} (key : R -> string) id rows r :
  find (fun x => String.eqb (key x) id) rows = Some r -> stored key id rows = true.
Proof.
  intros H. unfold stored. apply existsb_exists. exists r.
  exact (find_some _ _ H).
Qed.

Lemma stored_last {R} (key : R -> string) rows r :
  stored key (key r) (rows ++ [r]) = true.
Proof.
  unfold stored. rewrite existsb_app. simpl. rewrite String.eqb_refl.
  rewrite orb_true_r. reflexivity.
Qed.

Lemma recordReferral_credits
    (w : World) (payload : ShopifyOrderPaidPayload) (orderId : string)
    (buyer : ShopifyCustomerPayload) (settings : Settings.t) (ws : Workshop)
    (discount : option string) (used : string) (usedCode : Code.t) :
  hd_error (discount_codes payload) = Some discount ->
  normalizeCode discount = Some used ->
  find (fun c => String.eqb (Code.code c) used) (codesOf w) = Some usedCode ->
  findCodeById (Code.id usedCode) w = Some usedCode ->
  stored Referrer.id (Code.referrerId usedCode) (referrersOf w) = true ->
  fitsInt (Code.usageCount usedCode + 1) = true ->
  find (has_orderId orderId) (referralsOf w) = None ->
  ~ In (idGen w (idNext w)) (rewardLinks w) ->
  let out := recordReferral payload orderId buyer settings ws w in
  exists r x c',
    snd out = Returned tt /\
    referralsOf (fst out) = (referralsOf w ++ [r])%list /\
    rewardsOf (fst out) = (rewardsOf w ++ [x])%list /\
    Referral.referrerId r = Code.referrerId usedCode /\
    Referral.codeId r = Some (Code.id usedCode) /\
    Referral.refereeShopifyCustomerId r = Some (customer_id buyer) /\
    Referral.refereeEmail r = orElse (payload_email payload) (nullish (customer_email buyer)) /\
    Referral.orderId r = Some orderId /\
    Reward.referrerId x = Code.referrerId usedCode /\
    Reward.referralId x = Some (Referral.id r) /\
    Reward.status x = PENDING /\
    Reward.amount x = Settings.cashbackAmount settings /\
    Reward.currency x = orDefault (payload_currency payload) "EUR" /\
    findCodeById (Code.id usedCode) (fst out) = Some c' /\
    Code.usageCount c' = Code.usageCount usedCode + 1 /\
    codeIds (fst out) = codeIds w.
Proof.
  intros Hhead Hnorm Hused Hpk Howner Hfits Hfind Hfresh out. subst out.
  unfold recordReferral. rewrite Hhead, Hnorm.
  unfold codesOf in Hused.
  rewrite (bind_returned _ _ w w
             (find (fun c => String.eqb (Code.code c) used) (codes (db w))))
    by reflexivity.
  rewrite Hused.
  rewrite (bind_returned _ _ w w (find (has_orderId orderId) (referrals (db w))))
    by reflexivity.
  unfold referralsOf in Hfind. rewrite Hfind.
  match goal with
  | |- context [createReferral ?input] =>
      pose proof (createReferral_new input w orderId eq_refl Hfind) as Hnew;
      cbv zeta in Hnew;
      cbn [in_referrerId in_codeId linked] in Hnew;
      rewrite Howner, (find_stored Code.id _ _ _ Hpk) in Hnew;
      cbn [andb] in Hnew;
      rewrite (bind_returned _ _ _ _ _ Hnew);
      set (r := referral_fresh input (idGen w (idNext w)) (clock w)) in *
  end.
  set (w1 := set_db (set_referrals (referrals (db w) ++ [r]) (db w))
               (set_idNext (S (idNext w)) w)) in *.
  match goal with
  | |- context [bind (createPendingReward ?a ?b ?c ?d ?e ?f) ?k w1] =>
      pose proof (createPendingReward_eq a b c d e f w1) as Hreward
  end.
  cbv zeta in Hreward.
  assert (Efree : taken Reward.referralId (Some (Referral.id r)) (rewards (db w1)) = false).
  { destruct (taken Reward.referralId (Some (Referral.id r)) (rewards (db w1))) eqn:E;
      [| reflexivity].
    apply taken_rewardLinks in E. exfalso. apply Hfresh. exact E. }
  rewrite Efree in Hreward.
  assert (Ekeys : (stored Referrer.id (Code.referrerId usedCode) (referrersOf w1)
                   && linked Referral.id (Some (Referral.id r)) (referralsOf w1))%bool = true).
  { apply andb_true_iff. split; [exact Howner |]. apply stored_last. }
  rewrite Ekeys in Hreward.
  rewrite (bind_returned _ _ _ _ _ Hreward).
  match type of Hreward with
  | _ = (?w2', Returned ?x') => set (w2 := w2') in *; set (x := x') in *
  end.
  assert (Hpk2 : findCodeById (Code.id usedCode) w2 = Some usedCode) by exact Hpk.
  destruct (markCodeAsUsed_run (Code.id usedCode) w2 usedCode Hpk2 Hfits)
    as [rows' [Hrun [Hf [Hids _]]]].
  rewrite (bind_returned _ _ _ _ _ Hrun).
  set (w3 := set_db (set_codes rows' (db w2)) w2) in *.
  exists r, x, (touch_code (clock w2) (bump_usage usedCode)).
  assert (Hfinal : forall m : M unit,
            (m = log (WarnNoOriginOrder (Code.code usedCode)) \/ m = ret tt) ->
            snd (m w3) = Returned tt /\ db (fst (m w3)) = db w3).
  { intros m [Hm | Hm]; subst m; split; reflexivity. }
  match goal with
  | |- snd (?m w3) = _ /\ _ =>
      destruct (Hfinal m) as [Hret Hdb];
        [destruct (negb (opt_truthy (Code.originOrderGid usedCode)));
           [left | right]; reflexivity |]
  end.
  split; [exact Hret |].
  unfold referralsOf, rewardsOf, findCodeById, codeIds, codesOf. rewrite Hdb.
  split; [reflexivity |]. split; [reflexivity |].
  repeat (split; [reflexivity |]).
  split; [exact Hf |]. split; [reflexivity |].
  exact Hids.
Qed.


(** ** Crediting the owner of a code *)

(** X17. The first delivery of a purchase made with a code credits the owner
    of that code, when the first half of the handler -- the settings, the
    workshop, the referrer of the buyer and their code -- returns. The
    handler answers 200 in every case, and the first half writes no referral
    and no reward. When the first half throws, the attribution is not
    reached: the referrals and the rewards stay as they were. When it
    returns, and in the world it leaves the code used is a stored code whose
    owner is a stored referrer and whose usage counter is below the end of
    its column, no referral of the order is stored and no reward is linked
    to the identifier generated next, the handler appends one referral -- of
    the owner, through the code, for the buyer and the order -- and one
    pending reward of the owner for that referral, of the cashback amount of
    the settings in force, in the currency of the payload or in EUR, and
    raises the usage counter of the code by one. Nothing in it looks at the
    expiry, the usage limit or the activity of the code, nor at who the
    buyer is. *)
Theorem first_delivery_credits_code_owner
    (w : World) (payload : ShopifyOrderPaidPayload) (orderId : string)
    (buyer : ShopifyCustomerPayload) (discount : option string) (used : string) :
  payload_id payload = Some orderId ->
  customer payload = Some buyer ->
  hd_error (discount_codes payload) = Some discount ->
  normalizeCode discount = Some used ->
  let half := issuePhase payload orderId buyer w in
  let w1 := fst half in
  let out := action (Parsed payload) w in
  snd out = Returned OK200 /\
  ledger w1 = ledger w /\
  (forall e, snd half = Thrown e -> ledger (fst out) = ledger w) /\
  (forall settings ws usedCode,
     snd half = Returned (settings, ws) ->
     find (fun c => String.eqb (Code.code c) used) (codesOf w1) = Some usedCode ->
     findCodeById (Code.id usedCode) w1 = Some usedCode ->
     stored Referrer.id (Code.referrerId usedCode) (referrersOf w1) = true ->
     fitsInt (Code.usageCount usedCode + 1) = true ->
     find (has_orderId orderId) (referralsOf w) = None ->
     ~ In (idGen w1 (idNext w1)) (rewardLinks w) ->
     settings = currentSettings (db w) /\
     exists r x c',
       referralsOf (fst out) = (referralsOf w ++ [r])%list /\
       rewardsOf (fst out) = (rewardsOf w ++ [x])%list /\
       Referral.referrerId r = Code.referrerId usedCode /\
       Referral.codeId r = Some (Code.id usedCode) /\
       Referral.refereeShopifyCustomerId r = Some (customer_id buyer) /\
       Referral.refereeEmail r
         = orElse (payload_email payload) (nullish (customer_email buyer)) /\
       Referral.orderId r = Some orderId /\
       Reward.referrerId x = Code.referrerId usedCode /\
       Reward.referralId x = Some (Referral.id r) /\
       Reward.status x = PENDING /\
       Reward.amount x = Settings.cashbackAmount (currentSettings (db w)) /\
       Reward.currency x = orDefault (payload_currency payload) "EUR" /\
       findCodeById (Code.id usedCode) (fst out) = Some c' /\
       Code.usageCount c' = Code.usageCount usedCode + 1 /\
       codeIds (fst out) = codeIds w1).
Proof.
  intros Hid Hcust Hhead Hnorm half w1 out.
  pose proof (keeps_ledger_issuePhase payload orderId buyer w) as Hledger.
  fold half in Hledger. fold w1 in Hledger.
  pose proof (action_phases payload orderId buyer w Hid Hcust) as Hout.
  fold out in Hout. fold half in Hout.
  split; [| split; [exact Hledger | split]].
  - rewrite Hout. destruct half as [w' [[settings ws] | e]]; reflexivity.
  - intros e He. rewrite Hout. subst w1.
    destruct half as [w' [[settings ws] | e']]; cbn [fst snd] in *; [discriminate |].
    exact Hledger.
  - intros settings ws usedCode Hhalf Hused Hpk Howner Hfits Hfind Hfresh.
    assert (Ehalf : issuePhase payload orderId buyer w = (w1, Returned (settings, ws))).
    { subst w1. fold half. destruct half as [w' o]. cbn [fst snd] in *.
      rewrite Hhalf. reflexivity. }
    destruct (issuePhase_values _ _ _ _ _ _ _ Ehalf) as [Hsettings _].
    split; [exact Hsettings |].
    assert (Hrefs : referralsOf w1 = referralsOf w)
      by exact (f_equal fst Hledger).
    assert (Hrews : rewardsOf w1 = rewardsOf w)
      by exact (f_equal snd Hledger).
    assert (Hfind1 : find (has_orderId orderId) (referralsOf w1) = None)
      by (rewrite Hrefs; exact Hfind).
    assert (Hfresh1 : ~ In (idGen w1 (idNext w1)) (rewardLinks w1))
      by (unfold rewardLinks; rewrite Hrews; exact Hfresh).
    destruct (recordReferral_credits w1 payload orderId buyer settings ws discount used
                usedCode Hhead Hnorm Hused Hpk Howner Hfits Hfind1 Hfresh1)
      as [r [x [c' [Hret H]]]].
    assert (Eout : fst out = fst (recordReferral payload orderId buyer settings ws w1)).
    { rewrite Hout. fold half in Ehalf. rewrite Ehalf. cbn [fst]. unfold try_catch.
      destruct (recordReferral payload orderId buyer settings ws w1) as [w2 [[] | e]];
        [reflexivity | discriminate]. }
    exists r, x, c'. rewrite Eout, <- Hrefs, <- Hrews, <- Hsettings. exact H.
Qed.

Lemma first_delivery_credits_code_owner_witness :
  let out := action (Parsed referredPurchase) demoWorld in
  snd out = Returned OK200 /\
  exists r x c',
    referralsOf (fst out) = (referralsOf demoWorld ++ [r])%list /\
    rewardsOf (fst out) = (rewardsOf demoWorld ++ [x])%list /\
    Referral.referrerId r = "ref1" /\
    Referral.orderId r = Some "3001" /\
    Reward.amount x = Num.ofZ 20 /\
    findCodeById "code1" (fst out) = Some c' /\
    Code.usageCount c' = 1.
Proof.
  intros out.
  destruct (first_delivery_credits_code_owner demoWorld referredPurchase "3001"
              (mkCustomer "cust2" (Val "bob@example.org") (Val "Bob") Null)
              (Some " ABC-1234 ") "ABC-1234" eq_refl eq_refl eq_refl eq_refl)
    as [Hok [_ [_ Hcredit]]].
  split; [exact Hok |].
  destruct (Hcredit (currentSettings demoDb) (workshopFor demoWorld "3001")
              (demoCode "code1" "ABC-1234" "ref1" (Some demoGid)))
    as [_ [r [x [c' [Hl [Hr [Hown [_ [_ [_ [Horder [_ [_ [_ [Hamount [_ [Hf [Hcount _]]]]]]]]]]]]]]]]]].
  - vm_compute. reflexivity.
  - vm_compute. reflexivity.
  - vm_compute. reflexivity.
  - vm_compute. reflexivity.
  - reflexivity.
  - reflexivity.
  - vm_compute. intros [H | [H | [H | [H | []]]]]; discriminate.
  - exists r, x, c'. repeat split; assumption.
Defined.

(** ** Deleting a referrer *)

Lemma existsb_others {R} (owner : R -> string) (id : string) (rows : list R) :
  existsb (fun r => String.eqb (owner r) id)
    (filter (fun r => negb (String.eqb (owner r) id)) rows) = false.
Proof.
  induction rows as [| r rows IH]; [reflexivity |].
  simpl. destruct (String.eqb (owner r) id) eqn:E; simpl; [exact IH |].
  rewrite E. exact IH.
Qed.

Lemma existsb_map_same {R} (p : R -> bool) (f : R -> R) rows :
  (forall r, p (f r) = p r) -> existsb p (map f rows) = existsb p rows.
Proof.
  intros H. induction rows as [| r rows IH]; [reflexivity |].
  simpl. rewrite H, IH. reflexivity.
Qed.

Lemma unlink_reward_same gone r :
  Reward.id (unlink_reward gone r) = Reward.id r /\
  Reward.referrerId (unlink_reward gone r) = Reward.referrerId r /\
  Reward.amount (unlink_reward gone r) = Reward.amount r /\
  Reward.status (unlink_reward gone r) = Reward.status r /\
  Reward.paidAt (unlink_reward gone r) = Reward.paidAt r.
Proof.
  unfold unlink_reward. destruct (Reward.referralId r) as [id |]; [| repeat split].
  destruct (existsb (String.eqb id) gone); repeat split.
Qed.

Lemma unlink_referral_same gone r :
  Referral.id (unlink_referral gone r) = Referral.id r /\
  Referral.referrerId (unlink_referral gone r) = Referral.referrerId r /\
  Referral.orderId (unlink_referral gone r) = Referral.orderId r.
Proof.
  unfold unlink_referral. destruct (Referral.codeId r) as [id |]; [| repeat split].
  destruct (existsb (String.eqb id) gone); repeat split.
Qed.

Lemma unlink_emailLog_same gone l :
  EmailLog.referrerId (unlink_emailLog gone l) = EmailLog.referrerId l.
Proof.
  unfold unlink_emailLog. destruct (EmailLog.codeId l) as [id |]; [| reflexivity].
  destruct (existsb (String.eqb id) gone); reflexivity.
Qed.

(** The database that the transaction commits. *)
Lemma deleteTransaction_eq id d :
  deleteTransaction id d
  = if existsb (fun r => String.eqb (Referrer.id r) id) (referrers d) then
      let goneCodes := map Code.id (filter (fun c => String.eqb (Code.referrerId c) id) (codes d)) in
      let goneReferrals :=
        map Referral.id (filter (fun r => String.eqb (Referral.referrerId r) id) (referrals d)) in
      inl (mkDb (othersOf Referrer.id id (referrers d))
                (othersOf Code.referrerId id (codes d))
                (map (unlink_referral goneCodes) (othersOf Referral.referrerId id (referrals d)))
                (map (unlink_reward goneReferrals) (othersOf Reward.referrerId id (rewards d)))
                (appSetting d)
                (map (unlink_emailLog goneCodes) (othersOf EmailLog.referrerId id (emailLogs d))))
    else inr ReferrerNotFound.
Proof.
  unfold deleteTransaction, referrer_delete.
  cbn [referrers code_deleteMany referral_deleteMany reward_deleteMany emailLog_deleteMany
       set_emailLogs set_referrals set_rewards set_codes codes referrals rewards emailLogs
       appSetting].
  destruct (existsb (fun r => String.eqb (Referrer.id r) id) (referrers d)); [| reflexivity].
  assert (E : referencedBy id
                (code_deleteMany id (referral_deleteMany id
                   (reward_deleteMany id (emailLog_deleteMany id d)))) = false).
  { unfold referencedBy.
    cbn [code_deleteMany referral_deleteMany reward_deleteMany emailLog_deleteMany
         set_emailLogs set_referrals set_rewards set_codes codes referrals rewards emailLogs].
    rewrite (existsb_others Code.referrerId id (codes d)).
    rewrite (existsb_map_same _ _ _
               (fun r => f_equal (fun s => String.eqb s id)
                           (proj1 (proj2 (unlink_referral_same _ r))))).
    rewrite (existsb_others Referral.referrerId id (referrals d)).
    rewrite (existsb_map_same _ _ _
               (fun r => f_equal (fun s => String.eqb s id)
                           (proj1 (proj2 (unlink_reward_same _ r))))).
    rewrite (existsb_others Reward.referrerId id (rewards d)).
    rewrite (existsb_map_same _ _ _
               (fun l => f_equal (fun s => String.eqb s id) (unlink_emailLog_same _ l))).
    rewrite (existsb_others EmailLog.referrerId id (emailLogs d)).
    reflexivity. }
  rewrite E. reflexivity.
Qed.

Section DeleteReferrerFacts.

Variable deleteShopifyDiscount : string -> M unit.
Hypothesis platform_only : forall id, keeps db (deleteShopifyDiscount id).

Lemma deleteDiscounts_run codes :
  forall w,
    snd (deleteDiscounts deleteShopifyDiscount codes w) = Returned tt /\
    db (fst (deleteDiscounts deleteShopifyDiscount codes w)) = db w.
Proof.
  induction codes as [| code rest IH]; intros w; [split; reflexivity |].
  cbn [deleteDiscounts].
  set (step := if opt_truthy (Code.shopifyDiscountId code)
               then try_catch (deleteShopifyDiscount (orDefault (Code.shopifyDiscountId code) ""))
                              (fun _ => ret tt)
               else ret tt).
  assert (Hstep : snd (step w) = Returned tt /\ db (fst (step w)) = db w).
  { subst step. destruct (opt_truthy (Code.shopifyDiscountId code)); [| split; reflexivity].
    unfold try_catch. pose proof (platform_only (orDefault (Code.shopifyDiscountId code) "") w) as K.
    destruct (deleteShopifyDiscount _ w) as [w' [[] | e]]; cbn [fst snd] in *; split;
      try reflexivity; exact K. }
  destruct Hstep as [Hs Hd].
  unfold bind. destruct (step w) as [w' o]. cbn [fst snd] in *. subst o.
  destruct (IH w') as [H1 H2]. split; [exact H1 | rewrite H2; exact Hd].
Qed.

Lemma deleteReferrer_run id w :
  exists w0,
    db w0 = db w /\
    deleteReferrer deleteShopifyDiscount id w
    = match deleteTransaction id (db w) with
      | inl d' => (set_db d' w0, Returned None)
      | inr e => (w0, Returned (Some e))
      end.
Proof.
  unfold deleteReferrer.
  unfold bind at 1. unfold readDb at 1. unfold gets. cbn beta iota.
  set (cs := filter (fun c => String.eqb (Code.referrerId c) id) (codes (db w))).
  destruct (deleteDiscounts_run cs w) as [Hs Hd].
  destruct (deleteDiscounts deleteShopifyDiscount cs w) as [w0 o] eqn:Eloop.
  cbn [fst snd] in *. subst o.
  exists w0. split; [exact Hd |].
  rewrite (bind_returned _ _ _ _ _ Eloop).
  unfold bind at 1. unfold readDb, gets. cbn beta iota. rewrite Hd.
  destruct (deleteTransaction id (db w)); reflexivity.
Qed.

End DeleteReferrerFacts.

Lemma existsb_key_In {R} (key : R -> string) (id : string) (rows : list R) :
  existsb (fun r => String.eqb (key r) id) rows = true <-> In id (map key rows).
Proof.
  induction rows as [| r rows IH]; simpl.
  - split; [discriminate | intros []].
  - destruct (String.eqb (key r) id) eqn:E; simpl.
    + apply String.eqb_eq in E. split; [intros _; left; exact E | reflexivity].
    + apply String.eqb_neq in E. rewrite IH.
      split; [intros H; right; exact H | intros [H | H]; [contradiction | exact H]].
Qed.

Lemma existsb_eqb_In (id : string) (l : list string) :
  existsb (String.eqb id) l = true <-> In id l.
Proof.
  induction l as [| x l IH]; simpl.
  - split; [discriminate | intros []].
  - destruct (String.eqb id x) eqn:E; simpl.
    + apply String.eqb_eq in E. split; [intros _; left; congruence | reflexivity].
    + apply String.eqb_neq in E. rewrite IH.
      split; [intros H; right; exact H | intros [H | H]; [congruence | exact H]].
Qed.

Lemma others_key_absent {R} (key : R -> string) (id : string) (rows : list R) :
  ~ In id (map key (othersOf key id rows)).
Proof.
  intros H. apply existsb_key_In in H. unfold othersOf in H.
  rewrite existsb_others in H. discriminate.
Qed.

(** X18. [deleteReferrer] removes a referrer with everything that
    belongs to them, or nothing at all. For a stored referrer it resolves
    after committing a database in which the referrer row is gone, no code,
    referral, reward or e-mail log carries the referrer id, every row of
    another referrer is still there, in order -- codes and referrer rows
    untouched, rewards with their amount and status -- and the settings are as
    before; the restriction of the foreign keys never fires. For an unknown
    id the transaction is rejected as not found and the database is exactly
    as it was. This holds whatever the platform answers to the deletion of
    the discounts. *)
Theorem deleteReferrer_all_or_nothing
    (deleteShopifyDiscount : string -> M unit) (w : World) (id : string) :
  (forall discountId, keeps db (deleteShopifyDiscount discountId)) ->
  let out := deleteReferrer deleteShopifyDiscount id w in
  (In id (referrerKeys w) ->
     snd out = Returned None /\
     referrers (db (fst out)) = othersOf Referrer.id id (referrers (db w)) /\
     codes (db (fst out)) = othersOf Code.referrerId id (codes (db w)) /\
     map Referral.id (referrals (db (fst out)))
       = map Referral.id (othersOf Referral.referrerId id (referrals (db w))) /\
     map Reward.id (rewards (db (fst out)))
       = map Reward.id (othersOf Reward.referrerId id (rewards (db w))) /\
     map Reward.amount (rewards (db (fst out)))
       = map Reward.amount (othersOf Reward.referrerId id (rewards (db w))) /\
     map Reward.status (rewards (db (fst out)))
       = map Reward.status (othersOf Reward.referrerId id (rewards (db w))) /\
     ~ In id (referrerKeys (fst out)) /\
     referencedBy id (db (fst out)) = false /\
     appSetting (db (fst out)) = appSetting (db w))
  /\ (~ In id (referrerKeys w) ->
        snd out = Returned (Some ReferrerNotFound) /\ db (fst out) = db w)
  /\ snd out <> Returned (Some ReferrerStillReferenced)
  /\ (forall e, snd out <> Thrown e).
Proof.
  intros Hplatform out. subst out.
  destruct (deleteReferrer_run deleteShopifyDiscount Hplatform id w) as [w0 [Hdb Hrun]].
  rewrite Hrun, deleteTransaction_eq. clear Hrun.
  unfold referrerKeys, referrersOf.
  destruct (existsb (fun r => String.eqb (Referrer.id r) id) (referrers (db w))) eqn:E.
  - cbv zeta. cbn [fst snd db set_db referrers codes referrals rewards appSetting emailLogs].
    split; [| split; [| split]].
    + intros _. split; [reflexivity |]. split; [reflexivity |]. split; [reflexivity |].
      split.
      { rewrite map_map. apply map_ext. intros r. apply unlink_referral_same. }
      split.
      { rewrite map_map. apply map_ext. intros r. apply unlink_reward_same. }
      split.
      { rewrite map_map. apply map_ext. intros r. apply unlink_reward_same. }
      split.
      { rewrite map_map. apply map_ext. intros r. apply unlink_reward_same. }
      split; [apply others_key_absent |].
      split; [| reflexivity].
      unfold referencedBy, othersOf.
      cbn [codes referrals rewards emailLogs].
      rewrite (existsb_others Code.referrerId id).
      rewrite (existsb_map_same _ _ _
                 (fun r => f_equal (fun s => String.eqb s id)
                             (proj1 (proj2 (unlink_referral_same _ r))))).
      rewrite (existsb_others Referral.referrerId id).
      rewrite (existsb_map_same _ _ _
                 (fun r => f_equal (fun s => String.eqb s id)
                             (proj1 (proj2 (unlink_reward_same _ r))))).
      rewrite (existsb_others Reward.referrerId id).
      rewrite (existsb_map_same _ _ _
                 (fun l => f_equal (fun s => String.eqb s id) (unlink_emailLog_same _ l))).
      rewrite (existsb_others EmailLog.referrerId id).
      reflexivity.
    + intros Hnot. exfalso. apply Hnot. apply existsb_key_In. exact E.
    + discriminate.
    + intros e. discriminate.
  - cbn [fst snd]. split; [| split; [| split]].
    + intros Hin. apply existsb_key_In in Hin. congruence.
    + intros _. split; [reflexivity | exact Hdb].
    + discriminate.
    + intros e. discriminate.
Qed.

Lemma deleteReferrer_all_or_nothing_witness :
  let platformDown := fun _ : string => @throw unit AdminCallFailed in
  let out := deleteReferrer platformDown "ref1" demoWorld in
  snd out = Returned None /\
  referrers (db (fst out)) = [] /\
  codes (db (fst out)) = [] /\
  referencedBy "ref1" (db (fst out)) = false /\
  snd (deleteReferrer platformDown "ref9" demoWorld) = Returned (Some ReferrerNotFound).
Proof.
  intros platformDown out.
  assert (Hplatform : forall discountId, keeps db (platformDown discountId)).
  { intros discountId w. reflexivity. }
  destruct (deleteReferrer_all_or_nothing platformDown demoWorld "ref1" Hplatform)
    as [Hfound _].
  destruct Hfound as [Hret [Hrefs [Hcodes [_ [_ [_ [_ [_ [Hclean _]]]]]]]]].
  { left. reflexivity. }
  subst out.
  split; [exact Hret |].
  split; [rewrite Hrefs; reflexivity |].
  split; [rewrite Hcodes; reflexivity |].
  split; [exact Hclean |].
  destruct (deleteReferrer_all_or_nothing platformDown demoWorld "ref9" Hplatform)
    as [_ [Hmissing _]].
  apply Hmissing. intros [H | []]. discriminate.
Defined.

Lemma In_map_key {R} (key : R -> string) (id : string) (rows : list R) :
  In id (map key rows) -> exists r, In r rows /\ key r = id.
Proof.
  intros H. apply in_map_iff in H. destruct H as [r [H1 H2]]. exists r. split; assumption.
Qed.

Lemma In_others {R} (owner : R -> string) (id : string) (rows : list R) r :
  In r (othersOf owner id rows) <-> In r rows /\ owner r <> id.
Proof.
  unfold othersOf. rewrite filter_In. rewrite negb_true_iff, String.eqb_neq. reflexivity.
Qed.

(** X19. [deleteReferrer] leaves no dangling link: when every code link
    of a referral or of an e-mail log, and every referral link of a reward,
    points to a stored row, the same holds of the database it leaves -- a
    link into a deleted row has been set to [NULL], whoever owns the row that
    carried it. *)
Theorem deleteReferrer_keeps_links_resolved
    (deleteShopifyDiscount : string -> M unit) (w : World) (id : string) :
  (forall discountId, keeps db (deleteShopifyDiscount discountId)) ->
  linksResolve (db w) ->
  linksResolve (db (fst (deleteReferrer deleteShopifyDiscount id w))).
Proof.
  intros Hplatform [Hcode [Hlog Hreward]].
  destruct (deleteReferrer_run deleteShopifyDiscount Hplatform id w) as [w0 [Hdb Hrun]].
  rewrite Hrun, deleteTransaction_eq. clear Hrun.
  destruct (existsb (fun r => String.eqb (Referrer.id r) id) (referrers (db w)));
    [| cbn [fst]; rewrite Hdb; repeat split; assumption].
  cbv zeta. cbn [fst db set_db].
  set (goneCodes := map Code.id (filter (fun c => String.eqb (Code.referrerId c) id) (codes (db w)))).
  set (goneReferrals :=
         map Referral.id (filter (fun r => String.eqb (Referral.referrerId r) id) (referrals (db w)))).
  assert (Hkept : forall cid,
            In cid (map Code.id (codes (db w))) -> ~ In cid goneCodes ->
            In cid (map Code.id (othersOf Code.referrerId id (codes (db w))))).
  { intros cid Hin Hnot. apply In_map_key in Hin. destruct Hin as [c [Hc Hid]].
    apply in_map_iff. exists c. split; [exact Hid |]. apply In_others. split; [exact Hc |].
    intros Hown. apply Hnot. subst goneCodes. apply in_map_iff. exists c.
    split; [exact Hid |]. apply filter_In. split; [exact Hc |]. apply String.eqb_eq. exact Hown. }
  unfold linksResolve. cbn [codes referrals rewards emailLogs].
  split; [| split].
  - intros r' cid Hin Hlink. apply in_map_iff in Hin. destruct Hin as [r [Hr Hin]].
    apply In_others in Hin. destruct Hin as [Hin _]. subst r'.
    unfold unlink_referral in Hlink.
    destruct (Referral.codeId r) as [c0 |] eqn:Ec; [| congruence].
    destruct (existsb (String.eqb c0) goneCodes) eqn:Egone; [discriminate |].
    rewrite Ec in Hlink. inversion Hlink; subst c0.
    apply Hkept; [exact (Hcode r cid Hin Ec) |].
    intros H. apply existsb_eqb_In in H. congruence.
  - intros l' cid Hin Hlink. apply in_map_iff in Hin. destruct Hin as [l [Hl Hin]].
    apply In_others in Hin. destruct Hin as [Hin _]. subst l'.
    unfold unlink_emailLog in Hlink.
    destruct (EmailLog.codeId l) as [c0 |] eqn:Ec; [| congruence].
    destruct (existsb (String.eqb c0) goneCodes) eqn:Egone; [discriminate |].
    rewrite Ec in Hlink. inversion Hlink; subst c0.
    apply Hkept; [exact (Hlog l cid Hin Ec) |].
    intros H. apply existsb_eqb_In in H. congruence.
  - intros x' rid Hin Hlink. apply in_map_iff in Hin. destruct Hin as [x [Hx Hin]].
    apply In_others in Hin. destruct Hin as [Hin _]. subst x'.
    unfold unlink_reward in Hlink.
    destruct (Reward.referralId x) as [r0 |] eqn:Er; [| congruence].
    destruct (existsb (String.eqb r0) goneReferrals) eqn:Egone; [discriminate |].
    rewrite Er in Hlink. inversion Hlink; subst r0.
    pose proof (Hreward x rid Hin Er) as Hstored.
    apply In_map_key in Hstored. destruct Hstored as [r [Hr Hid]].
    rewrite map_map. apply in_map_iff. exists r.
    split; [rewrite (proj1 (unlink_referral_same goneCodes r)); exact Hid |].
    apply In_others. split; [exact Hr |].
    intros Hown. 
    assert (In rid goneReferrals).
    { subst goneReferrals. apply in_map_iff. exists r. split; [exact Hid |].
      apply filter_In. split; [exact Hr |]. apply String.eqb_eq. exact Hown. }
    apply existsb_eqb_In in H. congruence.
Qed.

Lemma deleteReferrer_keeps_links_resolved_witness :
  linksResolve (db (fst (deleteReferrer (fun _ => ret tt) "ref1" demoWorld))).
Proof.
  apply deleteReferrer_keeps_links_resolved.
  - intros discountId w. reflexivity.
  - unfold linksResolve. split; [| split].
    + intros r id Hin Hlink.
      destruct Hin as [H | [H | [H | [H | []]]]]; subst r; inversion Hlink; subst id;
        left; reflexivity.
    + intros l id [].
    + intros r id Hin Hlink.
      destruct Hin as [H | [H | [H | [H | []]]]]; subst r; inversion Hlink; subst id;
        cbn; tauto.
Defined.

(** ** Settling from the administration pages *)

Lemma settle_thrown parseFloat rewardId ov w w' e :
  processRewardRefund parseFloat rewardId ov w = (w', Thrown e) ->
  rewardsOf w' = rewardsOf w.
Proof.
  intros Hrun.
  pose proof (settle_cases parseFloat rewardId ov w) as Hcase.
  rewrite Hrun in Hcase.
  inversion Hcase as
    [ Hfind | reward Hfind Hstatus | reward Hfind Hstatus Hres
    | reward gid Hfind Hstatus Hres Hgid Hover
    | reward gid Hfind Hstatus Hres Hgid Hover Heq ]; subst; try reflexivity.
  - apply (beforeCheck_keeps parseFloat rewardsOf); reflexivity.
  - destruct (refunding_spec parseFloat rewardId ov w reward gid Hfind)
      as [k [_ [_ [_ [_ [Hthr _]]]]]].
    rewrite Heq in Hthr. cbn [fst snd] in Hthr.
    exact (proj2 (Hthr e eq_refl)).
Qed.

Lemma trim_length_blank s :
  (0 <? String.length (trim s))%nat = false <-> Blank s.
Proof.
  rewrite <- trim_empty. rewrite Nat.ltb_ge.
  destruct (trim s); simpl; split; intros H; try reflexivity; try lia; discriminate.
Qed.

(** X20. The two actions that settle a reward by hand never fail: each
    answers a redirection or a JSON body. Without a reward id, or with an
    empty one, each page answers that the reward id is missing and leaves the
    world as it is; so does the page of a referrer without a referrer id.
    Otherwise the action runs [processRewardRefund] -- with no order override
    on the rewards page, and on the page of a referrer with the trimmed order
    of the form -- and leaves the world that the settlement leaves: it
    answers success exactly when the settlement returned, and then the reward
    is stored as paid; when it answers an error, every reward is as before.
    The order of the form counts as none exactly when it is absent or made
    of white space only, the white space of [String.prototype.trim]; any
    other one is passed on trimmed. The referrer whose page it is plays no
    part in the settlement. *)
Theorem manual_settlement_actions
    (parseFloat : string -> number) (deleteShopifyDiscount : string -> M unit) :
  (forall (w : World) (rewardId : option string),
     opt_truthy rewardId = false ->
     rewardsAction parseFloat rewardId w = (w, Returned (ToRewards (Some RewardIdMissing))))
  /\ (forall (w : World) (rewardId : string),
        str_truthy rewardId = true ->
        let settled := processRewardRefund parseFloat rewardId None w in
        let out := rewardsAction parseFloat (Some rewardId) w in
        fst out = fst settled /\
        (forall res, snd settled = Returned res -> snd out = Returned (ToRewards None)) /\
        (forall e, snd settled = Thrown e -> snd out = Returned (ToRewards (Some (Failed e)))) /\
        (snd out = Returned (ToRewards None) ->
           exists paid, findReward rewardId (fst out) = Some paid /\ Reward.status paid = PAID) /\
        (forall reason, snd out = Returned (ToRewards (Some reason)) ->
           rewardsOf (fst out) = rewardsOf w))
  /\ (forall (w : World) (referrerId rewardId : string) (form : PageForm),
        str_truthy referrerId = true ->
        form_intent form <> Some "delete" ->
        form_intent form <> Some "sync-discount" ->
        form_rewardId form = Some rewardId ->
        str_truthy rewardId = true ->
        let settled :=
          processRewardRefund parseFloat rewardId (overrideOf (form_orderGid form)) w in
        let out := referrerAction parseFloat deleteShopifyDiscount (Some referrerId) form w in
        fst out = fst settled /\
        (forall res, snd settled = Returned res -> snd out = Returned (accept form)) /\
        (forall e, snd settled = Thrown e -> snd out = Returned (refuse form 400 (Failed e))) /\
        (snd out = Returned (accept form) ->
           exists paid, findReward rewardId (fst out) = Some paid /\ Reward.status paid = PAID) /\
        (forall e, snd out = Returned (refuse form 400 (Failed e)) ->
           rewardsOf (fst out) = rewardsOf w))
  /\ (forall (w : World) (referrerId : string) (form : PageForm),
        str_truthy referrerId = true ->
        form_intent form <> Some "delete" ->
        form_intent form <> Some "sync-discount" ->
        opt_truthy (form_rewardId form) = false ->
        referrerAction parseFloat deleteShopifyDiscount (Some referrerId) form w
        = (w, Returned (ToReferrer (Some RewardIdMissing))))
  /\ (forall (w : World) (referrerId : option string) (form : PageForm),
        opt_truthy referrerId = false ->
        referrerAction parseFloat deleteShopifyDiscount referrerId form w
        = (w, Returned (ToReferrers (Some ReferrerIdMissing))))
  /\ (forall raw : string, overrideOf (Some raw) = None <-> Blank raw)
  /\ (forall raw : string, ~ Blank raw -> overrideOf (Some raw) = Some (trim raw))
  /\ overrideOf None = None.
Proof.
  assert (Hcore : forall (w : World) (rewardId : string) (ov : option string)
                         (ok : PageResponse) (ko : Failure -> PageResponse),
            (forall e, ko e <> ok) ->
            let settled := processRewardRefund parseFloat rewardId ov w in
            let out := try_catch (processRewardRefund parseFloat rewardId ov ;;; ret ok)
                         (fun e => ret (ko e)) w in
            fst out = fst settled /\
            (forall res, snd settled = Returned res -> snd out = Returned ok) /\
            (forall e, snd settled = Thrown e -> snd out = Returned (ko e)) /\
            (snd out = Returned ok ->
               exists paid, findReward rewardId (fst out) = Some paid /\ Reward.status paid = PAID) /\
            (forall e, snd out = Returned (ko e) -> rewardsOf (fst out) = rewardsOf w)).
  { intros w rewardId ov ok ko Hdistinct settled out. subst settled out.
    unfold try_catch, bind.
    destruct (processRewardRefund parseFloat rewardId ov w) as [w' [res | e]] eqn:Hrun;
      cbn [fst snd ret].
    - split; [reflexivity |]. split; [reflexivity |]. split; [discriminate |].
      split.
      + intros _. destruct (settle_returned parseFloat rewardId ov w w' res Hrun)
          as [reward [gid [paid [_ [_ [_ [_ [Hpaid [Hstatus _]]]]]]]]].
        exists paid. split; assumption.
      + intros e H. inversion H as [Heq]. symmetry in Heq. exfalso. exact (Hdistinct e Heq).
    - split; [reflexivity |]. split; [discriminate |].
      split; [intros e' H; inversion H; reflexivity |].
      split.
      + intros H. inversion H as [Heq]. exfalso. exact (Hdistinct e Heq).
      + intros e' _. exact (settle_thrown parseFloat rewardId ov w w' e Hrun). }
  assert (Hintent : forall (form : PageForm) (name : string),
            form_intent form <> Some name ->
            opt_eqb String.eqb (form_intent form) (Some name) = false).
  { intros form name H. destruct (form_intent form) as [i |]; [| reflexivity]. simpl.
    apply String.eqb_neq. congruence. }
  split; [| split; [| split; [| split; [| split; [| split; [| split]]]]]].
  - intros w rewardId H. unfold rewardsAction. rewrite H. reflexivity.
  - intros w rewardId Htruthy settled out. subst settled out.
    unfold rewardsAction. cbn [opt_truthy orDefault]. rewrite Htruthy. cbn [negb].
    destruct (Hcore w rewardId None (ToRewards None) (fun e => ToRewards (Some (Failed e)))
                ltac:(intros e; discriminate))
      as [H1 [H2 [H3 [H4 H5]]]].
    split; [exact H1 |]. split; [exact H2 |]. split; [exact H3 |]. split; [exact H4 |].
    intros reason Hreason.
    destruct (processRewardRefund parseFloat rewardId None w) as [w' [res | e]] eqn:Hrun.
    + specialize (H2 res eq_refl). rewrite H2 in Hreason. discriminate.
    + apply (H5 e). exact (H3 e eq_refl).
  - intros w referrerId rewardId form Href Hdel Hsync Hreward Htruthy settled out.
    subst settled out.
    unfold referrerAction. cbn [opt_truthy orDefault]. rewrite Href. cbn [negb].
    rewrite (Hintent form _ Hdel), (Hintent form _ Hsync).
    unfold refundIntent. rewrite Hreward.
    cbn [opt_truthy orDefault]. rewrite Htruthy. cbn [negb].
    apply Hcore. intros e. unfold refuse, accept.
    destruct (isFetcherRequest form); discriminate.
  - intros w referrerId form Href Hdel Hsync Hreward.
    unfold referrerAction. cbn [opt_truthy orDefault]. rewrite Href. cbn [negb].
    rewrite (Hintent form _ Hdel), (Hintent form _ Hsync).
    unfold refundIntent. rewrite Hreward. reflexivity.
  - intros w referrerId form Href. unfold referrerAction. rewrite Href. reflexivity.
  - intros raw. rewrite <- trim_length_blank. unfold overrideOf.
    destruct (0 <? String.length (trim raw))%nat; split; intros H;
      try reflexivity; discriminate.
  - intros raw H. unfold overrideOf.
    destruct (0 <? String.length (trim raw))%nat eqn:E; [reflexivity |].
    apply trim_length_blank in E. contradiction.
  - reflexivity.
Qed.

Lemma manual_settlement_actions_witness :
  let nbsp := String (ascii_of_nat 194) (String (ascii_of_nat 160) "") in
  let form := mkPageForm None None (Some "rw3") (Some (" " ++ nbsp)) true in
  let noReward := mkPageForm None None None None true in
  snd (rewardsAction parseDecimal (Some "rw3") demoWorld) = Returned (ToRewards None)
  /\ (exists paid,
        findReward "rw3" (fst (rewardsAction parseDecimal (Some "rw3") demoWorld)) = Some paid /\
        Reward.status paid = PAID)
  /\ rewardsOf (fst (rewardsAction parseDecimal (Some "rw2") demoWorld)) = rewardsOf demoWorld
  /\ fst (referrerAction parseDecimal (fun _ => ret tt) (Some "ref1") form demoWorld)
     = fst (processRewardRefund parseDecimal "rw3" None demoWorld)
  /\ referrerAction parseDecimal (fun _ => ret tt) (Some "ref1") noReward demoWorld
     = (demoWorld, Returned (ToReferrer (Some RewardIdMissing))).
Proof.
  intros nbsp form noReward.
  destruct (manual_settlement_actions parseDecimal (fun _ => ret tt))
    as [_ [Hrewards [Hpage [Hmissing [_ [Hblank _]]]]]].
  destruct (Hrewards demoWorld "rw3" eq_refl) as [_ [Hok [_ [Hpaid _]]]].
  assert (Hsuccess : snd (rewardsAction parseDecimal (Some "rw3") demoWorld)
                     = Returned (ToRewards None)).
  { apply (Hok (mkResult "rw3" (Num.ofZ 50) (Some (Num.ofZ 50)))). vm_compute. reflexivity. }
  split; [exact Hsuccess |]. split; [exact (Hpaid Hsuccess) |].
  split; [| split].
  - destruct (Hrewards demoWorld "rw2" eq_refl) as [_ [_ [Hko [_ Hsame]]]].
    apply (Hsame (Failed (RefundCeilingExceeded (Num.ofZ 20) "EUR"))).
    apply Hko. vm_compute. reflexivity.
  - destruct (Hpage demoWorld "ref1" "rw3" form eq_refl ltac:(discriminate)
                ltac:(discriminate) eq_refl eq_refl) as [Hworld _].
    rewrite Hworld. cbn [form_orderGid form].
    assert (Hnone : overrideOf (Some (" " ++ nbsp)) = None).
    { apply Hblank.
      apply (Blank_cons space1 space2 space3 " " nbsp).
      - apply Space1. reflexivity.
      - apply (Blank_cons space1 space2 space3 nbsp "").
        + apply Space2. reflexivity.
        + constructor. }
    rewrite Hnone. reflexivity.
  - apply (Hmissing demoWorld "ref1" noReward); [reflexivity | discriminate | discriminate |
                                                  reflexivity].
Defined.

(** ** Synchronising a discount from the page of a referrer *)

Lemma recreateShopifyDiscount_answer code w :
  exists logs,
    recreateShopifyDiscount code w
    = (set_console (console w ++ logs) w, Returned (discountAnswer (shopify w) code)).
Proof.
  assert (Hnil : set_console (console w ++ []) w = w).
  { rewrite app_nil_r. destruct w. reflexivity. }
  assert (Hcreate : exists logs,
            tryCreateShopifyDiscount code w
            = (set_console (console w ++ logs) w,
               Returned (discountCreate (shopify w) (Code.code code)))).
  { unfold tryCreateShopifyDiscount, try_catch, createShopifyDiscount, bind, gets, ret, throw,
      log, modify. cbn beta iota.
    destruct (discountCreate (shopify w) (Code.code code)) as [d |].
    - exists []. rewrite Hnil. reflexivity.
    - exists [ErrDiscountCreate]. reflexivity. }
  unfold recreateShopifyDiscount, discountAnswer.
  destruct (Code.shopifyDiscountId code) as [linked |]; [| exact Hcreate].
  destruct (str_truthy linked); [| exact Hcreate].
  unfold bind, gets, log, modify, ret. cbn beta iota.
  destruct (discountUpdate (shopify w) linked) as [| | node_id node_code].
  - exists [ErrDiscountUpdate]. reflexivity.
  - exists [ErrDiscountUpdate]. reflexivity.
  - destruct (opt_truthy node_id); [| exact Hcreate].
    exists []. rewrite Hnil. reflexivity.
Qed.

Lemma getReferralSettings_frame w :
  snd (getReferralSettings w) = Returned (currentSettings (db w)) /\
  codes (db (fst (getReferralSettings w))) = codes (db w) /\
  referrals (db (fst (getReferralSettings w))) = referrals (db w) /\
  rewards (db (fst (getReferralSettings w))) = rewards (db w) /\
  clock (fst (getReferralSettings w)) = clock w /\
  shopify (fst (getReferralSettings w)) = shopify w.
Proof.
  rewrite getReferralSettings_run. unfold currentSettings.
  destruct (appSetting (db w)); repeat split.
Qed.

(** X21. The [sync-discount] intent only ever rewrites a code of the
    referrer whose page it is, and only its link and its terms. A code id
    that names no code, or a code of another referrer, is answered as not
    found, and a code without discount link as not linked, the world staying
    as it is. For a linked code of the referrer, when the platform gives no
    discount the code table is unchanged; when it gives one, the stored code
    gets that discount id and the usage limit and the two snapshots of the
    settings in force -- and keeps its text, its expiry, its origin and its
    usage counter -- while every other code, and the referrals and rewards,
    stay as they are. *)
Theorem sync_discount_intent
    (parseFloat : string -> number) (deleteShopifyDiscount : string -> M unit)
    (w : World) (referrerId codeId : string) (form : PageForm) :
  str_truthy referrerId = true ->
  form_intent form = Some "sync-discount" ->
  form_codeId form = Some codeId ->
  str_truthy codeId = true ->
  let out := referrerAction parseFloat deleteShopifyDiscount (Some referrerId) form w in
  (findCodeById codeId w = None ->
     out = (w, Returned (refuse form 404 CodeNotOfReferrer)))
  /\ (forall code,
        findCodeById codeId w = Some code ->
        Code.referrerId code <> referrerId ->
        out = (w, Returned (refuse form 404 CodeNotOfReferrer)))
  /\ (forall code,
        findCodeById codeId w = Some code ->
        Code.referrerId code = referrerId ->
        opt_truthy (Code.shopifyDiscountId code) = false ->
        out = (w, Returned (refuse form 400 CodeNotLinked)))
  /\ (forall code,
        findCodeById codeId w = Some code ->
        Code.referrerId code = referrerId ->
        opt_truthy (Code.shopifyDiscountId code) = true ->
        discountAnswer (shopify w) code = None ->
        snd out = Returned (refuse form 400 DiscountNotSynchronised) /\
        codesOf (fst out) = codesOf w /\
        ledger (fst out) = ledger w)
  /\ (forall code d,
        findCodeById codeId w = Some code ->
        Code.referrerId code = referrerId ->
        opt_truthy (Code.shopifyDiscountId code) = true ->
        discountAnswer (shopify w) code = Some d ->
        exists stored,
          snd out = Returned (accept form) /\
          findCodeById codeId (fst out) = Some stored /\
          stored = touch_code (clock w) (synced (discountId d) (currentSettings (db w)) code) /\
          Code.shopifyDiscountId stored = Some (discountId d) /\
          Code.maxUsage stored = Settings.maxUsagePerCode (currentSettings (db w)) /\
          Code.cashbackSnapshot stored = Some (Settings.cashbackAmount (currentSettings (db w))) /\
          Code.discountSnapshot stored
            = Some (Settings.discountPercentage (currentSettings (db w))) /\
          Code.code stored = Code.code code /\
          Code.expiresAt stored = Code.expiresAt code /\
          Code.originOrderId stored = Code.originOrderId code /\
          Code.originOrderGid stored = Code.originOrderGid code /\
          Code.usageCount stored = Code.usageCount code /\
          codeIds (fst out) = codeIds w /\
          (forall other, other <> codeId ->
             findCodeById other (fst out) = findCodeById other w) /\
          ledger (fst out) = ledger w).
Proof.
  intros Href Hintent Hcode Htruthy out.
  assert (Hout : out = syncIntent referrerId form w).
  { subst out. unfold referrerAction. cbn [opt_truthy orDefault]. rewrite Href. cbn [negb].
    rewrite Hintent. reflexivity. }
  assert (Hstep : forall found,
            find (fun c => String.eqb (Code.id c) codeId) (codes (db w)) = found ->
            out = match found with
                  | None => ret (refuse form 404 CodeNotOfReferrer)
                  | Some code =>
                      if negb (String.eqb (Code.referrerId code) referrerId)
                      then ret (refuse form 404 CodeNotOfReferrer)
                      else if negb (opt_truthy (Code.shopifyDiscountId code))
                      then ret (refuse form 400 CodeNotLinked)
                      else
                        try_catch
                          (settings <- getReferralSettings ;;
                           discount <- recreateShopifyDiscount code ;;
                           match discount with
                           | None => ret (refuse form 400 DiscountNotSynchronised)
                           | Some d =>
                               code_update (Code.id code) (synced (discountId d) settings) ;;;
                               ret (accept form)
                           end)
                          (fun e => ret (refuse form 400 (Failed e)))
                  end w).
  { intros found Hfound. rewrite Hout. unfold syncIntent. rewrite Hcode.
    cbn [opt_truthy orDefault]. rewrite Htruthy. cbn [negb]. cbv zeta.
    unfold bind at 1. unfold readDb at 1. unfold gets. cbn beta iota.
    rewrite Hfound. reflexivity. }
  clear Hout. unfold findCodeById, codesOf.
  split; [| split; [| split; [| split]]].
  - intros Hnone. rewrite (Hstep _ Hnone). reflexivity.
  - intros code Hfind Hother. rewrite (Hstep _ Hfind).
    apply String.eqb_neq in Hother. rewrite Hother. reflexivity.
  - intros code Hfind Hown Hlink. rewrite (Hstep _ Hfind).
    apply String.eqb_eq in Hown. rewrite Hown. cbn [negb]. rewrite Hlink. reflexivity.
  - intros code Hfind Hown Hlink Hanswer.
    destruct (getReferralSettings_frame w) as [Hs [Hc [Hl [Hr [_ Hshop]]]]].
    set (w1 := fst (getReferralSettings w)) in *.
    destruct (recreateShopifyDiscount_answer code w1) as [logs Hrun].
    assert (E : out = (set_console (console w1 ++ logs) w1,
                       Returned (refuse form 400 DiscountNotSynchronised))).
    { rewrite (Hstep _ Hfind).
      apply String.eqb_eq in Hown. rewrite Hown. cbn [negb]. rewrite Hlink. cbn [negb].
      unfold try_catch. rewrite (bind_run _ _ w _ Hs). fold w1.
      rewrite (bind_returned _ _ _ _ _ Hrun). rewrite Hshop, Hanswer. reflexivity. }
    rewrite E. cbn [fst snd]. split; [reflexivity |].
    unfold ledger, referralsOf, rewardsOf. cbn [db set_console].
    rewrite Hc, Hl, Hr. split; reflexivity.
  - intros code d Hfind Hown Hlink Hanswer.
    destruct (getReferralSettings_frame w) as [Hs [Hc [Hl [Hr [Hclock Hshop]]]]].
    set (w1 := fst (getReferralSettings w)) in *.
    destruct (recreateShopifyDiscount_answer code w1) as [logs Hrun].
    set (w2 := set_console (console w1 ++ logs) w1) in *.
    assert (Hid : Code.id code = codeId).
    { apply find_some in Hfind. destruct Hfind as [_ H]. apply String.eqb_eq in H. exact H. }
    assert (Hfind2 : findCodeById (Code.id code) w2 = Some code).
    { unfold findCodeById, codesOf. subst w2. cbn [db set_console]. rewrite Hc, Hid. exact Hfind. }
    destruct (code_update_run (Code.id code)
                (synced (discountId d) (currentSettings (db w))) w2 code Hfind2)
      as [rows' [Hupd Hup]].
    assert (E : out = (set_db (set_codes rows' (db w2)) w2, Returned (accept form))).
    { rewrite (Hstep _ Hfind).
      apply String.eqb_eq in Hown. rewrite Hown. cbn [negb]. rewrite Hlink. cbn [negb].
      unfold try_catch. rewrite (bind_run _ _ w _ Hs). fold w1.
      rewrite (bind_returned _ _ _ _ _ Hrun). rewrite Hshop, Hanswer.
      rewrite (bind_returned _ _ _ _ _ Hupd). reflexivity. }
    rewrite E. cbn [fst snd].
    assert (Hclock2 : clock w2 = clock w) by (subst w2; cbn [clock set_console]; exact Hclock).
    exists (touch_code (clock w) (synced (discountId d) (currentSettings (db w)) code)).
    split; [reflexivity |].
    cbn [db set_db codes set_codes].
    split.
    { rewrite <- Hid, <- Hclock2. apply (update_first_find _ _ _ _ _ Hup).
      intros r Hr0. exact Hr0. }
    split; [reflexivity |].
    repeat (split; [reflexivity |]).
    split.
    { unfold codeIds, codesOf. cbn [db set_db codes set_codes].
      rewrite (update_first_map Code.id _ _ _ _ _ Hup) by (intros r; reflexivity).
      subst w2. cbn [db set_console]. rewrite Hc. reflexivity. }
    split.
    { intros other Hother.
      rewrite (update_first_others _ (fun c => String.eqb (Code.id c) other) _ _ _ _ Hup).
      - subst w2. cbn [db set_console]. rewrite Hc. reflexivity.
      - intros r Hr0. apply String.eqb_eq in Hr0.
        assert (E' : (Code.id r =? other)%string = false).
        { apply String.eqb_neq. congruence. }
        split; exact E'. }
    unfold ledger, referralsOf, rewardsOf. cbn [db set_db referrals rewards set_codes].
    subst w2. cbn [db set_console]. rewrite Hl, Hr. reflexivity.
Qed.

Lemma sync_discount_intent_witness :
  let linked :=
    mkWorld
      (mkDb [Referrer.mk "ref1" "cust1" None None None 0 0]
            [Code.mk "code1" "ABC-1234" "ref1" (Some "gid://shopify/DiscountCodeNode/7") 3 5
               true 0 0 (Some 9000) (Some "1001") None None None 1 None None]
            [] [] (Some (demoSettings (Num.ofZ 50) (Num.ofZ 1))) [])
      1000 0 demoIds 0 (fun n => N.of_nat n)
      (mkShopify (fun _ => None) (fun _ => None) (fun _ => None) (fun _ => CallThrows)
         (fun id => UpdateNode (Some id) None) (fun _ => None))
      [] None Delivers [] in
  let form := mkPageForm (Some "sync-discount") (Some "code1") None None false in
  referrerAction parseDecimal (fun _ => ret tt) (Some "ref2") form linked
    = (linked, Returned (ToReferrer (Some CodeNotOfReferrer)))
  /\ exists stored,
       findCodeById "code1"
         (fst (referrerAction parseDecimal (fun _ => ret tt) (Some "ref1") form linked))
         = Some stored /\
       Code.cashbackSnapshot stored = Some (Num.ofZ 50) /\
       Code.expiresAt stored = Some 9000 /\
       Code.usageCount stored = 3.
Proof.
  intros linked form.
  split.
  - destruct (sync_discount_intent parseDecimal (fun _ => ret tt) linked "ref2" "code1" form
                eq_refl eq_refl eq_refl eq_refl) as [_ [Hother _]].
    apply (Hother (Code.mk "code1" "ABC-1234" "ref1" (Some "gid://shopify/DiscountCodeNode/7") 3 5
                     true 0 0 (Some 9000) (Some "1001") None None None 1 None None));
      [reflexivity | discriminate].
  - destruct (sync_discount_intent parseDecimal (fun _ => ret tt) linked "ref1" "code1" form
                eq_refl eq_refl eq_refl eq_refl) as [_ [_ [_ [_ Hsync]]]].
    destruct (Hsync (Code.mk "code1" "ABC-1234" "ref1" (Some "gid://shopify/DiscountCodeNode/7") 3 5
                       true 0 0 (Some 9000) (Some "1001") None None None 1 None None)
                (mkDiscount "gid://shopify/DiscountCodeNode/7" "ABC-1234")
                eq_refl eq_refl eq_refl eq_refl)
      as [stored [_ [Hfind [_ [_ [_ [Hcash [_ [_ [Hexp [_ [_ [Huse _]]]]]]]]]]]]].
    exists stored. split; [exact Hfind |]. split; [exact Hcash |]. split; assumption.
Defined.

(** ** The code of a first purchase *)

Lemma keeps_registry_code_update id f :
  (forall c, termsOfCode (f c) = termsOfCode c) ->
  keeps registry (code_update id f).
Proof.
  intros Hterms w. unfold code_update, bind, now, readDb, gets, writeDb, modify, ret, throw.
  cbn [fst snd].
  destruct (update_first _ _ (codes (db w))) as [[c' rows'] |] eqn:Hup; [| reflexivity].
  unfold registry, codeTerms, codesOf, referrersOf. cbn [fst db set_db codes set_codes referrers].
  f_equal. eapply update_first_map; [exact Hup |].
  intros c. rewrite <- (Hterms c). reflexivity.
Qed.

Lemma keeps_registry_markCodeAsUsed id : keeps registry (markCodeAsUsed id).
Proof.
  intros w. unfold markCodeAsUsed, bind, readDb, gets. cbn [fst snd].
  destruct (find _ (codes (db w))) as [c |].
  - destruct (fitsInt (Code.usageCount c + 1)); [| reflexivity].
    apply keeps_registry_code_update. reflexivity.
  - apply keeps_registry_code_update. reflexivity.
Qed.

Lemma keeps_registry_link id discountId : keeps registry (linkShopifyDiscountId id discountId).
Proof. apply keeps_registry_code_update. reflexivity. Qed.

Lemma keeps_registry_recreate c : keeps registry (recreateShopifyDiscount c).
Proof.
  intros w. destruct (recreateShopifyDiscount_answer c w) as [logs H]. rewrite H. reflexivity.
Qed.

Lemma keeps_registry_syncDiscount c created : keeps registry (syncDiscount c created).
Proof.
  unfold syncDiscount. apply keeps_bind; [apply keeps_registry_recreate |].
  intros [d |]; [| apply keeps_ret].
  apply keeps_bind; [apply keeps_registry_link |]. intros _. intros w. reflexivity.
Qed.

#[local] Hint Resolve keeps_registry_markCodeAsUsed : keeps.

Lemma keeps_registry_recordReferral payload orderId buyer settings ws :
  keeps registry (recordReferral payload orderId buyer settings ws).
Proof. keeps_go. Qed.

Lemma fetchWorkshop_run orderId w :
  snd (fetchWorkshop orderId w) = Returned (workshopFor w orderId).
Proof.
  unfold fetchWorkshop, workshopFor, bind, gets, log, modify, ret. cbn [fst snd].
  destruct (orderDetails (shopify w) orderId); reflexivity.
Qed.

Lemma latestCodeOf_none rid rows :
  (forall c, In c rows -> Code.referrerId c <> rid) -> latestCodeOf rid rows = None.
Proof.
  intros H. pose proof (latestCodeOf_spec rid rows) as Hs.
  destruct (latestCodeOf rid rows) as [c |]; [| reflexivity].
  destruct Hs as [Hin Hown]. exfalso. exact (H c Hin Hown).
Qed.

Lemma find_none_forall {R} (p : R -> bool) rows :
  (forall r, In r rows -> p r = false) -> find p rows = None.
Proof.
  induction rows as [| r rows IH]; intros H; [reflexivity |].
  simpl. rewrite (H r (or_introl eq_refl)). apply IH. intros x Hx. apply H. right. exact Hx.
Qed.

(** X22. The first purchase of a customer mints their code. When the
    notification is complete, no referrer stands for the customer, no code
    comes from the order, and one of the first five candidates is free, the
    handler answers 200 after appending one referrer for the customer. When
    moreover the expiry computed from the settings in force is a valid date,
    and their usage limit and the quantity read off the order fit their
    columns, it also appends one code of that referrer: under the first free
    candidate, with the order as origin, the product and the quantity read
    off the order, and the usage limit, the expiry and the two snapshots of
    the settings in force. Otherwise the insertion of the code is refused,
    the handler swallows the failure, and no code is added. The terms of
    every other code are as before -- whatever the discount service and the
    mail service answer, and whatever code the purchase used. *)
Theorem first_purchase_mints_a_code
    (w : World) (payload : ShopifyOrderPaidPayload) (orderId : string)
    (buyer : ShopifyCustomerPayload) (i : nat) :
  payload_id payload = Some orderId ->
  customer payload = Some buyer ->
  findReferrerOf buyer w = None ->
  (forall c, In c (codesOf w) -> Code.originOrderId c <> Some orderId) ->
  (forall c, In c (codesOf w) -> Code.referrerId c <> idGen w (idNext w)) ->
  (i < 5)%nat ->
  codeTaken w (candidate w i) = false ->
  let out := action (Parsed payload) w in
  let settings := currentSettings (db w) in
  let ws := workshopFor w orderId in
  let accepted :=
    (validExpiry (clock w) settings
     && (fitsInt (Settings.maxUsagePerCode settings) && fitsInt (workshopQuantity ws)))%bool in
  snd out = Returned OK200 /\
  exists r,
    referrersOf (fst out) = (referrersOf w ++ [r])%list /\
    Referrer.shopifyCustomerId r = customer_id buyer /\
    Referrer.id r = idGen w (idNext w) /\
    (accepted = false -> codeTerms (fst out) = codeTerms w) /\
    (accepted = true ->
     exists c k,
       codeTerms (fst out) = (codeTerms w ++ [termsOfCode c])%list /\
       Code.referrerId c = Referrer.id r /\
       (k <= i)%nat /\
       Code.code c = candidate w k /\
       codeTaken w (Code.code c) = false /\
       Code.originOrderId c = Some orderId /\
       Code.originOrderGid c = admin_graphql_api_id payload /\
       Code.workshopProductId c = workshopProductId ws /\
       Code.workshopQuantity c = workshopQuantity ws /\
       Code.maxUsage c = Settings.maxUsagePerCode settings /\
       Code.discountSnapshot c = Some (Settings.discountPercentage settings) /\
       Code.cashbackSnapshot c = Some (Settings.cashbackAmount settings) /\
       Code.expiresAt c =
         (if Settings.codeValidityDays settings <=? 0 then None
          else Some (clock w + Settings.codeValidityDays settings * msPerDay))).
Proof.
  intros Hid Hcust Hnew Horder Hfresh Hi Hfree out settings ws accepted.
  subst out. unfold action. rewrite Hid, Hcust.
  match goal with
  | |- context [bind (try_catch ?m ?h) ?k w] =>
      rewrite (bind_run (try_catch m h) k w tt (try_catch_log_returns m _ w));
      set (body := m)
  end.
  unfold ret. cbn [fst snd].
  assert (Hcatch : registry (fst (try_catch body (fun _ => log ErrWebhook) w))
                   = registry (fst (body w))).
  { unfold try_catch. destruct (body w) as [w' [[] | e]]; reflexivity. }
  (* the body, step by step *)
  destruct (getReferralSettings_world w) as [row E1].
  set (w1 := set_db (set_appSetting row (db w)) w) in *.
  destruct (fetchWorkshop_world orderId w1) as [logs E2].
  set (w2 := set_console (console w1 ++ logs) w1) in *.
  assert (Hnew2 : findReferrerOf buyer w2 = None) by exact Hnew.
  pose proof (getOrCreate_new_run w2 buyer Hnew2) as E3. cbv zeta in E3.
  match type of E3 with
  | _ = (?w3', Returned ?r') => set (w3 := w3') in *; set (r := r') in *
  end.
  set (params := mkCreateCodeParams (Referrer.id r) settings (Some orderId)
                   (admin_graphql_api_id payload)
                   (workshopProductId ws) (workshopProductTitle ws)
                   (Some (workshopQuantity ws)) None).
  assert (Hstart : body w
                   = bind (issueOrRefreshCode payload orderId settings ws r)
                       (fun _ => recordReferral payload orderId buyer settings ws) w3).
  { subst body.
    rewrite (bind_returned _ _ _ _ _ E1).
    rewrite (bind_returned _ _ _ _ _ E2).
    rewrite (bind_returned _ _ _ _ _ E3).
    reflexivity. }
  assert (Hissue0 : issueOrRefreshCode payload orderId settings ws r w3
                    = bind (createCodeForReferrer params)
                        (fun c => syncDiscount c true ;;; ret c) w3).
  { unfold issueOrRefreshCode.
    unfold bind at 1. unfold findCodeByOriginOrderId, readDb, gets. cbn beta iota.
    rewrite (find_none_forall _ (codes (db w3))).
    2: { intros x Hx. change (codes (db w3)) with (codesOf w) in Hx.
         specialize (Horder x Hx).
         destruct (Code.originOrderId x) as [o |]; [| reflexivity]. simpl.
         apply String.eqb_neq. congruence. }
    unfold bind at 1. cbn beta iota.
    rewrite (latestCodeOf_none (Referrer.id r) (codes (db w3))).
    2: { intros x Hx. change (codes (db w3)) with (codesOf w) in Hx. exact (Hfresh x Hx). }
    reflexivity. }
  destruct (createCodeForReferrer_run params w3) as [k [Hk [Htaken [Hfreek Hrun]]]].
  cbv zeta in Hrun.
  assert (Hk5 : (k < 5)%nat /\ (k <= i)%nat).
  { assert (~ (i < k)%nat).
    { intros Hlt. specialize (Htaken i Hlt).
      change (codeTaken w3 (candidate w3 i)) with (codeTaken w (candidate w i)) in Htaken.
      congruence. }
    lia. }
  destruct Hk5 as [Hk5 Hki].
  assert (E5 : (5 <=? k)%nat = false) by (apply Nat.leb_gt; exact Hk5).
  rewrite E5 in Hrun.
  assert (Hst : stored Referrer.id (cc_referrerId params) (referrersOf w3) = true)
    by exact (stored_last Referrer.id (referrersOf w) r).
  rewrite Hst in Hrun.
  change (validExpiry (clock w3) (cc_settings params))
    with (validExpiry (clock w) settings) in Hrun.
  change (fitsInt (Settings.maxUsagePerCode (cc_settings params))
          && fitsInt (orDefault (cc_workshopQuantity params) 1))%bool
    with (fitsInt (Settings.maxUsagePerCode settings) && fitsInt (workshopQuantity ws))%bool
    in Hrun.
  split; [reflexivity |].
  exists r.
  assert (Hrefused : accepted = false ->
            registry (fst (body w)) = (codeTerms w, (referrersOf w ++ [r])%list)).
  { intros Hacc. subst accepted.
    assert (Hthrown : exists e,
              createCodeForReferrer params w3
              = (set_idNext (S (idNext w3)) (set_rngNext (rngNext w3 + 4 * S k) w3),
                 Thrown e)).
    { destruct (validExpiry (clock w) settings); cbn [negb andb] in Hrun, Hacc.
      - rewrite Hacc in Hrun. cbn [negb] in Hrun. eexists. exact Hrun.
      - eexists. exact Hrun. }
    destruct Hthrown as [e Hthrown].
    rewrite Hstart. unfold bind at 1. rewrite Hissue0.
    rewrite (bind_threw _ _ _ _ _ Hthrown). reflexivity. }
  assert (Haccepted : accepted = true ->
            exists c,
              registry (fst (body w))
              = ((codeTerms w ++ [termsOfCode c])%list, (referrersOf w ++ [r])%list) /\
              Code.referrerId c = Referrer.id r /\
              Code.code c = candidate w k /\
              Code.originOrderId c = Some orderId /\
              Code.originOrderGid c = admin_graphql_api_id payload /\
              Code.workshopProductId c = workshopProductId ws /\
              Code.workshopQuantity c = workshopQuantity ws /\
              Code.maxUsage c = Settings.maxUsagePerCode settings /\
              Code.discountSnapshot c = Some (Settings.discountPercentage settings) /\
              Code.cashbackSnapshot c = Some (Settings.cashbackAmount settings) /\
              Code.expiresAt c = expiryAt (clock w) settings).
  { intros Hacc. subst accepted.
    apply andb_true_iff in Hacc. destruct Hacc as [Hvalid Hfits].
    rewrite Hvalid, Hfits in Hrun. cbn [negb] in Hrun.
    match type of Hrun with
    | _ = (fst (promoMail params ?c' ?w4'), _) => set (c := c') in *; set (w4 := w4') in *
    end.
    set (w5 := fst (promoMail params c w4)) in *.
    assert (Hreg5 : registry w5
                    = ((codeTerms w ++ [termsOfCode c])%list, (referrersOf w ++ [r])%list)).
    { subst w5.
      rewrite (keeps_promoMail registry params c ltac:(reflexivity) ltac:(reflexivity)
                 ltac:(reflexivity) w4).
      unfold registry, codeTerms, codesOf, referrersOf. subst w4.
      cbn [db set_db codes set_codes referrers set_idNext set_rngNext].
      rewrite map_app. reflexivity. }
    exists c. split; [| repeat (split; [reflexivity |]); reflexivity].
    rewrite Hstart.
    assert (Hissue : exists w6,
              issueOrRefreshCode payload orderId settings ws r w3 = (w6, Returned c) /\
              registry w6 = registry w5).
    { rewrite Hissue0. rewrite (bind_returned _ _ _ _ _ Hrun). fold w5.
      destruct (syncDiscount c true w5) as [w6 o6] eqn:E6.
      pose proof (keeps_registry_syncDiscount c true w5) as K6. rewrite E6 in K6.
      cbn [fst] in K6.
      exists w6.
      assert (Ho6 : o6 = Returned tt).
      { unfold syncDiscount in E6.
        destruct (recreateShopifyDiscount_answer c w5) as [logs' Hans].
        rewrite (bind_returned _ _ _ _ _ Hans) in E6.
        destruct (discountAnswer (shopify w5) c) as [d |].
        - unfold linkShopifyDiscountId in E6.
          assert (Hfound : find (fun x => String.eqb (Code.id x) (Code.id c))
                             (codes (db (set_console (console w5 ++ logs') w5))) <> None).
          { cbn [db set_console].
            assert (Hin : In (Code.id c) (map Code.id (codes (db w5)))).
            { pose proof Hreg5 as H. unfold registry, codeTerms, codesOf in H.
              apply (f_equal fst) in H. cbn [fst] in H.
              apply (f_equal (map Code.id)) in H. rewrite !map_map in H.
              cbn [termsOfCode Code.id] in H.
              rewrite (map_ext (fun x => Code.id (termsOfCode x)) Code.id) in H
                by (intros x; reflexivity).
              rewrite H. rewrite map_app. apply in_or_app. right. left. reflexivity. }
            apply in_map_iff in Hin. destruct Hin as [x [Hx1 Hx2]].
            intros Hnone. apply (find_none _ _ Hnone) in Hx2.
            rewrite Hx1, String.eqb_refl in Hx2. discriminate. }
          destruct (code_update_found _ (with_discountId (discountId d)) _ Hfound) as [c' Hc'].
          rewrite (bind_run _ _ _ _ Hc') in E6. inversion E6. reflexivity.
        - inversion E6. reflexivity. }
      subst o6. rewrite (bind_returned _ _ _ _ _ E6).
      split; [reflexivity | exact K6]. }
    destruct Hissue as [w6 [E4 Hreg6]].
    rewrite (bind_returned _ _ _ _ _ E4).
    rewrite (keeps_registry_recordReferral payload orderId buyer settings _ w6).
    rewrite Hreg6. exact Hreg5. }
  assert (Hrefs : referrersOf (fst (try_catch body (fun _ => log ErrWebhook) w))
                  = (referrersOf w ++ [r])%list).
  { pose proof (f_equal snd Hcatch) as H. unfold registry in H. cbn [snd] in H.
    rewrite H.
    destruct accepted eqn:Eacc.
    - destruct (Haccepted eq_refl) as [c [Hreg _]].
      exact (f_equal snd Hreg).
    - exact (f_equal snd (Hrefused eq_refl)). }
  split; [exact Hrefs |]. split; [reflexivity |]. split; [reflexivity |].
  pose proof (f_equal fst Hcatch) as Hterms. unfold registry in Hterms. cbn [fst] in Hterms.
  split.
  - intros Hacc. rewrite Hterms. exact (f_equal fst (Hrefused Hacc)).
  - intros Hacc.
    destruct (Haccepted Hacc)
      as [c [Hreg [H1 [H2 [H3 [H4 [H5 [H6 [H7 [H8 [H9 H10]]]]]]]]]]].
    exists c, k.
    split; [rewrite Hterms; exact (f_equal fst Hreg) |].
    split; [exact H1 |]. split; [exact Hki |]. split; [exact H2 |].
    split; [rewrite H2; exact (Hfreek Hk5) |].
    split; [exact H3 |]. split; [exact H4 |]. split; [exact H5 |]. split; [exact H6 |].
    split; [exact H7 |]. split; [exact H8 |]. split; [exact H9 |].
    rewrite expiryAt_eq. exact H10.
Qed.

Lemma first_purchase_mints_a_code_witness :
  let out := action (Parsed referredPurchase) demoWorld in
  let late := action (Parsed referredPurchase) farFutureWorld in
  (snd out = Returned OK200 /\
   exists r c,
     referrersOf (fst out) = (referrersOf demoWorld ++ [r])%list /\
     Referrer.shopifyCustomerId r = "cust2" /\
     codeTerms (fst out) = (codeTerms demoWorld ++ [termsOfCode c])%list /\
     Code.referrerId c = Referrer.id r /\
     Code.code c = candidate demoWorld 0 /\
     Code.originOrderId c = Some "3001" /\
     Code.maxUsage c = 0 /\
     Code.expiresAt c = Some (1000 + 30 * msPerDay))
  /\ snd late = Returned OK200
  /\ codeTerms (fst late) = codeTerms farFutureWorld.
Proof.
  intros out late.
  assert (Hnone : forall (codes : list Code.t) (P : Code.t -> Prop),
            Forall P codes -> forall c, In c codes -> P c).
  { intros codes P H. apply Forall_forall. exact H. }
  split.
  - destruct (first_purchase_mints_a_code demoWorld referredPurchase "3001"
                (mkCustomer "cust2" (Val "bob@example.org") (Val "Bob") Null) 0%nat
                eq_refl eq_refl eq_refl)
      as [Hret [r [Hrefs [Hcust [_ [_ Hminted]]]]]].
    + apply Hnone. repeat constructor; discriminate.
    + apply Hnone. repeat constructor; discriminate.
    + lia.
    + vm_compute. reflexivity.
    + split; [exact Hret |].
      destruct (Hminted eq_refl)
        as [c [k [Hterms [Hown [Hk [Hcode [_ [Horigin [_ [_ [_ [Hmax [_ [_ Hexp]]]]]]]]]]]]]].
      exists r, c.
      assert (k = 0)%nat by lia. subst k.
      repeat (split; [assumption |]). exact Hexp.
  - destruct (first_purchase_mints_a_code farFutureWorld referredPurchase "3001"
                (mkCustomer "cust2" (Val "bob@example.org") (Val "Bob") Null) 0%nat
                eq_refl eq_refl eq_refl)
      as [Hret [r [_ [_ [_ [Hrefused _]]]]]].
    + apply Hnone. repeat constructor; discriminate.
    + apply Hnone. repeat constructor; discriminate.
    + lia.
    + vm_compute. reflexivity.
    + split; [exact Hret |]. apply Hrefused. vm_compute. reflexivity.
Defined.

(** ** The code of a repeat purchase *)

Lemma latestCodeOf_fold rid rows :
  forall best c,
    fold_left (fun best c =>
       if String.eqb (Code.referrerId c) rid then
         match best with
         | Some b => if Code.createdAt b <? Code.createdAt c then Some c else best
         | None => Some c
         end
       else best) rows best = Some c ->
    (forall b, best = Some b -> Code.createdAt b <= Code.createdAt c) /\
    (forall x, In x rows -> Code.referrerId x = rid -> Code.createdAt x <= Code.createdAt c).
Proof.
  induction rows as [| r rest IH]; intros best c; cbn [fold_left].
  - intros ->. split; [intros b Hb; inversion Hb; lia | intros x []].
  - intros H. destruct (IH _ _ H) as [Hbest Hrest]. clear IH H.
    destruct (String.eqb (Code.referrerId r) rid) eqn:Er.
    + destruct best as [b |].
      * destruct (Code.createdAt b <? Code.createdAt r) eqn:Elt.
        -- specialize (Hbest r eq_refl). apply Z.ltb_lt in Elt. split.
           ++ intros b' Hb'. inversion Hb'; subst. lia.
           ++ intros x [Hx | Hx] Hrid; [subst; exact Hbest | exact (Hrest x Hx Hrid)].
        -- specialize (Hbest b eq_refl). apply Z.ltb_ge in Elt. split.
           ++ intros b' Hb'. inversion Hb'; subst. exact Hbest.
           ++ intros x [Hx | Hx] Hrid; [subst; lia | exact (Hrest x Hx Hrid)].
      * specialize (Hbest r eq_refl). split; [discriminate |].
        intros x [Hx | Hx] Hrid; [subst; exact Hbest | exact (Hrest x Hx Hrid)].
    + split; [exact Hbest |].
      intros x [Hx | Hx] Hrid; [| exact (Hrest x Hx Hrid)].
      subst x. apply String.eqb_neq in Er. contradiction.
Qed.

Lemma latestCodeOf_latest rid rows c :
  latestCodeOf rid rows = Some c ->
  forall x, In x rows -> Code.referrerId x = rid -> Code.createdAt x <= Code.createdAt c.
Proof. intros H. exact (proj2 (latestCodeOf_fold rid rows None c H)). Qed.

Lemma terms_find (rows1 rows2 : list Code.t) id :
  map termsOfCode rows1 = map termsOfCode rows2 ->
  option_map termsOfCode (find (fun c => String.eqb (Code.id c) id) rows1)
  = option_map termsOfCode (find (fun c => String.eqb (Code.id c) id) rows2).
Proof.
  revert rows2. induction rows1 as [| a rows1 IH]; intros [| b rows2] H;
    try discriminate; [reflexivity |].
  cbn [map] in H.
  assert (Hhead : termsOfCode a = termsOfCode b) by exact (f_equal (hd (termsOfCode a)) H).
  assert (Htail : map termsOfCode rows1 = map termsOfCode rows2)
    by exact (f_equal (@tl Code.t) H).
  cbn [find].
  assert (Hid : Code.id a = Code.id b) by exact (f_equal Code.id Hhead).
  rewrite Hid. destruct (String.eqb (Code.id b) id).
  - cbn [option_map]. rewrite Hhead. reflexivity.
  - apply IH. exact Htail.
Qed.

Lemma terms_codeIds w1 w2 : codeTerms w1 = codeTerms w2 -> codeIds w1 = codeIds w2.
Proof.
  unfold codeTerms, codeIds. intros H.
  apply (f_equal (map Code.id)) in H. rewrite !map_map in H. exact H.
Qed.

(** The first three steps of the handler for a customer who is a referrer. *)
Lemma issuePhase_known payload orderId buyer existing w :
  findReferrerOf buyer w = Some existing ->
  exists w3 r,
    codesOf w3 = codesOf w /\ clock w3 = clock w /\ ledger w3 = ledger w /\
    Referrer.id r = Referrer.id existing /\
    issuePhase payload orderId buyer w
    = bind (issueOrRefreshCode payload orderId (currentSettings (db w))
              (workshopFor w orderId) r)
        (fun _ => ret (currentSettings (db w), workshopFor w orderId)) w3.
Proof.
  intros Hfind. unfold issuePhase.
  destruct (getReferralSettings_world w) as [row E1].
  rewrite (bind_returned _ _ _ _ _ E1).
  set (w1 := set_db (set_appSetting row (db w)) w).
  destruct (fetchWorkshop_world orderId w1) as [logs E2].
  rewrite (bind_returned _ _ _ _ _ E2).
  set (w2 := set_console (console w1 ++ logs) w1).
  assert (Hfind2 : findReferrerOf buyer w2 = Some existing) by exact Hfind.
  pose proof (getOrCreate_existing_run w2 buyer existing Hfind2) as Hrun.
  destruct (contactDiffers existing buyer).
  - destruct Hrun as [row' [rows' [Hid [_ Heq]]]]. cbv zeta in Heq.
    rewrite (bind_returned _ _ _ _ _ Heq).
    match type of Heq with
    | _ = (?w3, Returned ?r) => exists w3, r
    end.
    split; [reflexivity |]. split; [reflexivity |]. split; [reflexivity |].
    split; [exact Hid | reflexivity].
  - rewrite (bind_returned _ _ _ _ _ Hrun).
    exists w2, existing.
    split; [reflexivity |]. split; [reflexivity |]. split; [reflexivity |].
    split; reflexivity.
Qed.

(** The refresh of the selected code, by the terms of the codes. *)
Lemma issueOrRefreshCode_terms payload orderId settings ws referrer w codeRecord :
  selectedCode w orderId referrer = Some codeRecord ->
  validExpiry (clock w) settings = true ->
  fitsInt (workshopQuantity ws) = true ->
  fitsInt (Settings.maxUsagePerCode settings) = true ->
  let out := issueOrRefreshCode payload orderId settings ws referrer w in
  exists c0 c',
    findCodeById (Code.id codeRecord) w = Some c0 /\
    snd out = Returned c' /\
    ledger (fst out) = ledger w /\
    option_map termsOfCode (findCodeById (Code.id codeRecord) (fst out))
    = Some (termsOfCode
              (refreshed codeRecord orderId (admin_graphql_api_id payload) ws
                 (expiryAt (clock w) settings) settings c0)) /\
    (forall other, other <> Code.id codeRecord ->
       option_map termsOfCode (findCodeById other (fst out))
       = option_map termsOfCode (findCodeById other w)).
Proof.
  intros Hsel Hvalid Hq Hm. cbv zeta.
  destruct (In_findCodeById codeRecord w (selectedCode_In _ _ _ _ Hsel)) as [c0 Hc0].
  exists c0.
  unfold issueOrRefreshCode.
  rewrite issueOrRefreshCode_pick, Hsel.
  destruct (refreshExpiry_run settings w) as [d [Hd Hcol]].
  rewrite (bind_returned _ _ _ _ _ Hd). rewrite Hcol, Hvalid, Hq, Hm.
  cbn [andb negb].
  destruct (code_update_run (Code.id codeRecord)
              (refreshed codeRecord orderId (admin_graphql_api_id payload) ws
                 (expiryAt (clock w) settings) settings) w c0 Hc0) as [rows' [Hup Hrows]].
  rewrite (bind_returned _ _ _ _ _ Hup).
  set (c' := touch_code (clock w)
               (refreshed codeRecord orderId (admin_graphql_api_id payload) ws
                  (expiryAt (clock w) settings) settings c0)) in *.
  set (w1 := set_db (set_codes rows' (db w)) w).
  set (w2 := set_console (console w1 ++ [LogCodeReused (Code.code c') orderId]) w1).
  assert (Hlog : log (LogCodeReused (Code.code c') orderId) w1 = (w2, Returned tt))
    by reflexivity.
  rewrite (bind_returned _ _ _ _ _ Hlog).
  assert (Hid : Code.id c' = Code.id codeRecord).
  { unfold findCodeById in Hc0. apply find_some in Hc0. destruct Hc0 as [_ H].
    apply String.eqb_eq in H. exact H. }
  assert (Hfind2 : findCodeById (Code.id c') w2 = Some c').
  { rewrite Hid. unfold findCodeById, codesOf. subst w2.
    cbn [db set_db set_console codes set_codes].
    eapply update_first_find; [exact Hrows |]. intros r Hr. exact Hr. }
  destruct (syncDiscount_spec c' false w2 c' Hfind2)
    as [Hret [_ [Hrew [Href _]]]].
  pose proof (keeps_registry_syncDiscount c' false w2) as Hreg.
  rewrite (bind_run _ _ w2 tt Hret). unfold ret. cbn [fst snd].
  set (w3 := fst (syncDiscount c' false w2)) in *.
  assert (Hterms : map termsOfCode (codesOf w3) = map termsOfCode rows')
    by exact (f_equal fst Hreg).
  exists c'. split; [exact Hc0 |]. split; [reflexivity |].
  split; [unfold ledger; rewrite Hrew, Href; reflexivity |].
  split.
  - unfold findCodeById. rewrite (terms_find _ _ _ Hterms).
    rewrite <- Hid.
    change (find (fun c => String.eqb (Code.id c) (Code.id c')) rows')
      with (findCodeById (Code.id c') w2).
    rewrite Hfind2. reflexivity.
  - intros other Hother. unfold findCodeById. rewrite (terms_find _ _ _ Hterms).
    f_equal. apply (update_first_others _ _ _ _ _ _ Hrows).
    intros x Hx. apply String.eqb_eq in Hx.
    assert (E : (Code.id x =? other)%string = false).
    { apply String.eqb_neq. congruence. }
    split; exact E.
Qed.

Lemma Some_inj {A} (a b : A) : Some a = Some b -> a = b.
Proof. intros H. injection H as H. exact H. Qed.

Lemma try_catch_log_registry (m : M unit) l w :
  keeps registry m ->
  registry (fst (try_catch m (fun _ => log l) w)) = registry w.
Proof.
  intros Hm. apply keeps_try_catch; [exact Hm |]. intros e w'. reflexivity.
Qed.

(** C5 (amended). A purchase by a customer who is a referrer and owns a
    code mints no code: the handler answers 200 and the codes keep their
    identifiers. The code it selects is the code whose origin is this
    order, whoever owns it, and, when no code carries this order, the most
    recent code of the referrer. When the expiry computed from the settings
    in force is a valid date, and their usage limit and the quantity read
    off the order fit their columns, the selected code is updated in place:
    its expiry, maximal usage and discount and cashback snapshots are those
    of the settings in force; its origin order is this order and its
    quantity the one read off the order; the external order identifier and
    the product that this purchase supplies overwrite the stored ones, which
    are kept only where the purchase supplies none; the terms of every other
    code are as before. Otherwise the update is refused, the handler
    swallows the failure, and the codes, the referrals and the rewards stay
    as they were. *)
Theorem code_reuse_refreshes_terms
    (w : World) (payload : ShopifyOrderPaidPayload) (orderId : string)
    (buyer : ShopifyCustomerPayload) (existing : Referrer.t) (code0 : Code.t) :
  payload_id payload = Some orderId ->
  customer payload = Some buyer ->
  findReferrerOf buyer w = Some existing ->
  In code0 (codesOf w) ->
  Code.referrerId code0 = Referrer.id existing ->
  let settings := currentSettings (db w) in
  let ws := workshopFor w orderId in
  let accepted :=
    (validExpiry (clock w) settings
     && fitsInt (workshopQuantity ws)
     && fitsInt (Settings.maxUsagePerCode settings))%bool in
  let byOrder :=
    find (fun c => opt_eqb String.eqb (Code.originOrderId c) (Some orderId)) (codesOf w) in
  let out := action (Parsed payload) w in
  snd out = Returned OK200 /\
  codeIds (fst out) = codeIds w /\
  exists codeRecord,
    selectedCode w orderId existing = Some codeRecord /\
    In codeRecord (codesOf w) /\
    (forall c, byOrder = Some c -> codeRecord = c) /\
    (byOrder = None ->
     Code.referrerId codeRecord = Referrer.id existing /\
     forall x, In x (codesOf w) -> Code.referrerId x = Referrer.id existing ->
               Code.createdAt x <= Code.createdAt codeRecord) /\
    (accepted = false ->
     codesOf (fst out) = codesOf w /\ ledger (fst out) = ledger w) /\
    (accepted = true ->
     exists c0 stored,
       findCodeById (Code.id codeRecord) w = Some c0 /\
       findCodeById (Code.id codeRecord) (fst out) = Some stored /\
       termsOfCode stored
       = termsOfCode (refreshed codeRecord orderId (admin_graphql_api_id payload) ws
                        (expiryAt (clock w) settings) settings c0) /\
       Code.id stored = Code.id codeRecord /\
       Code.expiresAt stored = expiryAt (clock w) settings /\
       Code.maxUsage stored = Settings.maxUsagePerCode settings /\
       Code.discountSnapshot stored = Some (Settings.discountPercentage settings) /\
       Code.cashbackSnapshot stored = Some (Settings.cashbackAmount settings) /\
       Code.originOrderId stored = Some orderId /\
       Code.workshopQuantity stored = workshopQuantity ws /\
       (forall gid,
          orElse (admin_graphql_api_id payload) (Code.originOrderGid codeRecord) = Some gid ->
          Code.originOrderGid stored = Some gid) /\
       (forall product,
          orElse (workshopProductId ws) (Code.workshopProductId codeRecord) = Some product ->
          Code.workshopProductId stored = Some product) /\
       (forall title,
          orElse (workshopProductTitle ws) (Code.workshopProductTitle codeRecord) = Some title ->
          Code.workshopProductTitle stored = Some title) /\
       (forall other, other <> Code.id codeRecord ->
          option_map termsOfCode (findCodeById other (fst out))
          = option_map termsOfCode (findCodeById other w))).
Proof.
  intros Hid Hcust Hfind Hin Hown settings ws accepted byOrder out.
  destruct (action_mints_no_code w payload orderId buyer existing code0
              Hid Hcust Hfind Hin Hown) as [Hok Hids].
  split; [exact Hok |]. split; [exact Hids |].
  destruct (selectedCode_exists w orderId existing code0 Hin Hown) as [codeRecord Hsel].
  exists codeRecord.
  split; [exact Hsel |]. split; [exact (selectedCode_In _ _ _ _ Hsel) |].
  assert (Hpick : (forall c, byOrder = Some c -> codeRecord = c) /\
                  (byOrder = None ->
                   latestCodeOf (Referrer.id existing) (codesOf w) = Some codeRecord)).
  { pose proof Hsel as H. unfold selectedCode in H. fold byOrder in H.
    destruct byOrder as [c |].
    - split; [intros c' Hc'; congruence | discriminate].
    - split; [discriminate | intros _; exact H]. }
  destruct Hpick as [Hby Hlatest].
  split; [exact Hby |].
  split.
  { intros Hnone. specialize (Hlatest Hnone).
    pose proof (latestCodeOf_spec (Referrer.id existing) (codesOf w)) as Hs.
    rewrite Hlatest in Hs. split; [exact (proj2 Hs) |].
    exact (latestCodeOf_latest _ _ _ Hlatest). }
  destruct (issuePhase_known payload orderId buyer existing w Hfind)
    as [w3 [r [Hc3 [Hclock3 [Hled3 [Hrid Hphase]]]]]].
  fold settings ws in Hphase.
  assert (Hsel3 : selectedCode w3 orderId r = Some codeRecord).
  { unfold selectedCode. rewrite Hc3, Hrid. exact Hsel. }
  pose proof (action_phases payload orderId buyer w Hid Hcust) as Hout.
  fold out in Hout.
  split.
  - intros Hbad. subst accepted. rewrite <- Hclock3 in Hbad.
    pose proof (issueOrRefreshCode_refused payload orderId settings ws r w3 codeRecord
                  Hsel3 Hbad) as Hrefused.
    rewrite Hphase, (bind_threw _ _ _ _ _ Hrefused) in Hout.
    rewrite Hout. cbn [fst log modify].
    split; [exact Hc3 | exact Hled3].
  - intros Hacc. subst accepted.
    apply andb_prop in Hacc. destruct Hacc as [Hacc Hm].
    apply andb_prop in Hacc. destruct Hacc as [Hv Hq].
    rewrite <- Hclock3 in Hv.
    destruct (issueOrRefreshCode_terms payload orderId settings ws r w3 codeRecord
                Hsel3 Hv Hq Hm) as [c0 [c' [Hc0 [Hret [_ [Hterm Hothers]]]]]].
    rewrite Hclock3 in Hterm.
    set (w4 := fst (issueOrRefreshCode payload orderId settings ws r w3)) in *.
    rewrite Hphase, (bind_run _ _ _ _ Hret) in Hout. fold w4 in Hout.
    unfold ret in Hout.
    assert (Hterms : map termsOfCode (codesOf (fst out)) = map termsOfCode (codesOf w4)).
    { rewrite Hout. cbn [fst].
      exact (f_equal fst
               (try_catch_log_registry _ ErrWebhook w4
                  (keeps_registry_recordReferral payload orderId buyer settings ws))). }
    assert (Hsame : forall id,
              option_map termsOfCode (findCodeById id (fst out))
              = option_map termsOfCode (findCodeById id w4)).
    { intros id. unfold findCodeById. apply terms_find. exact Hterms. }
    assert (Hfind0 : findCodeById (Code.id codeRecord) w = Some c0).
    { unfold findCodeById. rewrite <- Hc3. exact Hc0. }
    rewrite <- Hsame in Hterm.
    destruct (findCodeById (Code.id codeRecord) (fst out)) as [stored |] eqn:Estored;
      [| discriminate].
    cbn [option_map] in Hterm. apply Some_inj in Hterm.
    exists c0, stored.
    split; [exact Hfind0 |]. split; [reflexivity |]. split; [exact Hterm |].
    split.
    { unfold findCodeById in Estored. apply find_some in Estored.
      apply String.eqb_eq. exact (proj2 Estored). }
    split; [exact (f_equal Code.expiresAt Hterm) |].
    split; [exact (f_equal Code.maxUsage Hterm) |].
    split; [exact (f_equal Code.discountSnapshot Hterm) |].
    split; [exact (f_equal Code.cashbackSnapshot Hterm) |].
    split; [exact (f_equal Code.originOrderId Hterm) |].
    split; [exact (f_equal Code.workshopQuantity Hterm) |].
    split.
    { intros gid Hg.
      change (Code.originOrderGid stored) with (Code.originOrderGid (termsOfCode stored)).
      rewrite Hterm. cbn [termsOfCode refreshed Code.originOrderGid].
      destruct (admin_graphql_api_id payload); [exact Hg |].
      cbn [orElse] in *. rewrite Hg. reflexivity. }
    split.
    { intros product Hp.
      change (Code.workshopProductId stored)
        with (Code.workshopProductId (termsOfCode stored)).
      rewrite Hterm. cbn [termsOfCode refreshed Code.workshopProductId].
      destruct (workshopProductId ws); [exact Hp |].
      cbn [orElse] in *. rewrite Hp. reflexivity. }
    split.
    { intros title Ht.
      change (Code.workshopProductTitle stored)
        with (Code.workshopProductTitle (termsOfCode stored)).
      rewrite Hterm. cbn [termsOfCode refreshed Code.workshopProductTitle].
      destruct (workshopProductTitle ws); [exact Ht |].
      cbn [orElse] in *. rewrite Ht. reflexivity. }
    intros other Hother. rewrite Hsame, (Hothers other Hother).
    unfold findCodeById. rewrite Hc3. reflexivity.
Qed.

Lemma code_reuse_refreshes_terms_witness :
  let out := action (Parsed secondPurchase) rivalWorld in
  let late := action (Parsed secondPurchase) farFutureWorld in
  (snd out = Returned OK200 /\
   codeIds (fst out) = ["code1"; "code2"] /\
   (exists stored,
      findCodeById "code2" (fst out) = Some stored /\
      Code.referrerId stored = "ref2" /\
      Code.originOrderId stored = Some "1002" /\
      Code.maxUsage stored = 0 /\
      Code.cashbackSnapshot stored = Some (Num.ofZ 20) /\
      Code.expiresAt stored = Some (1000 + 30 * msPerDay)) /\
   option_map termsOfCode (findCodeById "code1" (fst out))
   = option_map termsOfCode (findCodeById "code1" rivalWorld))
  /\ snd late = Returned OK200
  /\ codesOf (fst late) = codesOf farFutureWorld.
Proof.
  intros out late.
  pose (buyer := mkCustomer "cust1" (Val "anna@example.org") Null Null).
  pose (anna := Referrer.mk "ref1" "cust1" (Some "anna@example.org") None None 0 0).
  pose (code1 := demoCode "code1" "ABC-1234" "ref1" (Some demoGid)).
  pose (code2 := Code.mk "code2" "XYZ-5678" "ref2" None 0 0 true 0 0 None
                   (Some "1002") (Some "gid://shopify/Order/1002") None None 1 None None).
  split.
  - destruct (code_reuse_refreshes_terms rivalWorld secondPurchase "1002" buyer anna code1
                eq_refl eq_refl eq_refl (or_introl eq_refl) eq_refl)
      as [Hok [Hids [codeRecord [_ [_ [Hby [_ [_ Hrefresh]]]]]]]].
    pose proof (Hby code2 eq_refl) as Hcode. subst codeRecord.
    destruct (Hrefresh ltac:(vm_compute; reflexivity))
      as [c0 [stored [Hc0 [Hstored [Hterm [_ [Hexp [Hmax [_ [Hcash [Horigin [_ [_ [_ [_
            Hothers]]]]]]]]]]]]]]].
    split; [exact Hok |]. split; [exact Hids |]. split.
    + exists stored. split; [exact Hstored |].
      split.
      { change (Code.referrerId stored) with (Code.referrerId (termsOfCode stored)).
        rewrite Hterm. vm_compute in Hc0. inversion Hc0. reflexivity. }
      repeat split; assumption.
    + apply Hothers. discriminate.
  - destruct (code_reuse_refreshes_terms farFutureWorld secondPurchase "1002" buyer anna
                code1 eq_refl eq_refl eq_refl (or_introl eq_refl) eq_refl)
      as [Hok [_ [codeRecord [_ [_ [_ [_ [Hrefused _]]]]]]]].
    split; [exact Hok |].
    exact (proj1 (Hrefused ltac:(vm_compute; reflexivity))).
Defined.
